(* ===== verification/_CoqProject ===== *)
-Q . S2P
Prelude.v
Dates.v
Json.v
Schedule.v
Calendar.v
Cards.v
Scorer.v
Engine.v
Report.v
MonthGrid.v
App.v
Chat.v
Api.v
Browser.v
ServiceWorker.v
Backend.v
