(* ===== verification/Prelude.v ===== *)
(** * A verification development of the rural work-and-travel planner

    The repository is a progressive web app for a rural work-and-travel
    recommender.  Under [src/] there is one piece of executable code, the
    single-page client [src/unnamed/part_000] (the file [app.js] of
    [public/frontend/app_show_v3]), and its service worker
    [src/public/frontend/app_show_v3/service-worker.js].  The rest of
    [src/] is documentation.  [src/unnamed/part_001] is the HTTP API
    reference followed (from line 482) by an implementation report that
    quotes the back end's scoring routine and the skeleton of its
    scheduler; [src/unnamed/part_002] is a guide to the project's
    folders.  The Python back end (recommender, scheduler, feedback
    reviser) is not under [src/].  Its scheduler and reviser are
    modelled from [spec.md] and marked as such in the manifest.

    ** How the parts interact

    The client keeps one mutable object [STATE] (lines 44-61): the view,
    the profile and preferences, the card selection, the last schedule,
    a calendar and so on.  [saveState] mirrors it into [localStorage].
    Handlers call the engine over HTTP ([callEngine], [engineRecommend]),
    copy the engine's answer into [STATE], and re-render.  The schedule the
    engine returns is shown in two views: the grouped table
    ([renderScheduleTable], [renderMiniTime]) and the home calendar
    ([updateHomeCalendar], read back by [calendarBlocksHTML]).

    ** Files

    - [Prelude] (this file): JavaScript value conventions shared by every
      model.  These are truthiness ([Truthy]), the [a || b] fallback of
      the source in [js_scope], [String.prototype.slice], and the
      thrown-or-returned result of an async function ([js_result], a
      monad with stdpp's [x ← c; k] notation).  Also the tactics and the
      [js] hint database.
    - [Dates]: the proleptic Gregorian calendar of [Date] as day
      numbers: [days_from_civil] and [civil_from_days] (the era
      arithmetic of the standard days-from-civil algorithm), the weekday
      and the month lengths.  Theorems, for every year: the conversions
      are inverse on valid dates, [days_from_civil] is strictly
      increasing in the order of dates, and the 1st of a month follows
      the previous month's last day.  [MonthGrid] and [Backend] use it.
    - [Json]: JSON trees, the [JsonCodec] interface (encoder, decoder and
      the round-trip law), and instances for strings, numbers, lists and
      string-keyed maps.  [localStorage] values are JSON texts: the model
      stores the tree, and [JSON.parse (JSON.stringify v)] is the decoder
      applied to the encoding.
    - [Schedule]: the schedule item of the engine's response
      ([day, date, schedule_type, name, start_time, address]).  Also the
      grouping loop shared by [renderScheduleTable] and [renderMiniTime]
      (a farm run is one group; tour items group by equal day) and the
      farm de-duplication by [name-address].  Theorems: the groups
      partition the itinerary, every group is non-empty and homogeneous,
      and the [Set]-based de-duplication loop is equivalent to the
      reference definition [keep_first], which keeps the first
      occurrence of each key.
    - [Calendar]: [updateHomeCalendar] (materialisation with the
      [(activity, type)] duplicate check) and [upsertCalendarEvents]
      (history replay, no check), over a [gmap] of [gmap]s.  Theorems:
      idempotence, completeness, and the absence of duplicates as an
      invariant.  Two findings are proved: the history replay is not
      idempotent, and the day keys the materialiser writes are never the
      keys the month grid reads.  [DayClick]: on every calendar the two
      writers build (a reachability relation, with an invariant proved
      by rule induction), the day-click alert never throws, and it joins
      the day's events with a literal backslash-n.

    - [Cards]: the cards [triggerRecommendation] builds from the engine's
      farms and tour spots, and the checkbox handler of [bindCardActions]
      as a step relation on a session ([CURRENT_RECO], [STATE.chosenCards]).
      Also the body of the plan request.  Theorems: at most one farm and
      no repeated card in every reachable session; checking a farm makes
      it the plan's farm.  Two findings are proved: a farm once chosen
      stays the plan's farm through any run of new recommendations and
      unrelated checkbox changes, and the plan sends the card, not the
      engine's record.
    - [Scorer]: the back end's [score_and_rank_attractions], as the report
      quotes it.  [parse_keywords] and [keywords_match] are section
      parameters.  The model of Python's stable [sorted(..., reverse=True)]
      is an insertion sort, proved to be the only stable descending sort
      of its input.  Theorems: the ranking's specification, and the bounds
      on a score.
    - [Engine]: [STATE] as a record of JSON values, its initialiser and
      [saveState].  Every engine call ([loadConfig], both [callEngine]
      declarations, [mockPlan], onboarding, plan, feedback, confirm,
      recommend) runs in a state-and-error monad [M] over [STATE] and
      [localStorage].  [fetch] and the clock are section parameters.
      Theorems: what a reload restores; that the plan call never rejects
      once configured; how an engine failure or the documented feedback
      response erases [STATE.calendar]; that no handler writes
      [STATE.history] (by induction on a step relation of handlers and
      reloads); that [mockPlan]'s date is valid; that the shadowed
      first [engineRecommend] is equivalent to the one that wins, up to
      one error message.
    - [Report]: the [saveState] that the implementation report in
      [part_001] quotes.  Theorems: the client's [saveState] writes the
      same values under the report's keys where the report's version is
      well defined; the report's version would persist a missing id as
      the text ["null"], read back as a truthy id.  Also the endpoints
      that the API reference, the report and the folder guide
      ([part_002]) document, against the URLs of the client's
      [callEngine]: only a [config.json] reaches the documented paths,
      [confirmSchedule]'s path is documented nowhere, and the guide's
      schedule path is not the reference's; and the report's
      [sendOnboardingAndGetUserId], which does not save the id.
    - [MonthGrid]: [monthMatrix] with dates as day numbers and the
      Gregorian conversions of [Date].  [toISOString] is taken at a zone
      offset.  Also the grid's cell classes and the month buttons of
      [renderHome].  Theorems: for every year, month and zone
      offset the 42 cells are the month's calendar page (weeks from
      Monday, the 1st in its weekday's column, the tail of the previous
      month before it and the head of the next after the last day);
      east of UTC every key is the previous day; no cell is clickable;
      the month buttons reach every month from February to December
      (a liveness property over sequences of clicks), while January is
      shown only in January.
    - [App]: [setupBadgeToggle], the onboarding handlers, [render]'s
      screen dispatch, the chat's send routing, and
      [confirmCurrentSchedule].  The last reaches [Calendar]'s
      [updateHomeCalendar] through the JSON codecs.  Theorems: badge
      selections round-trip, the onboarding payload, the chat's routing
      after a reload, and that confirming does not leave the chat.
      Also a step relation [ui_step] over every modelled handler, along
      which [STATE.selections] never changes, so [renderPicked] is empty.
    - [Chat]: the chat page beside the [world]: the bubbles of [#chat]
      ([addMsg], [showLoading], [hideLoading]), [#tableWrap], the alerts
      and the [setTimeout] replays.  It models [navigate], the
      [hashchange] listener, [render], [renderChat], the home search
      box, [triggerRecommendation] with Cards' session, the plan button,
      [handleScheduleFeedback], the confirmation on the page, the
      history click and the dead
      [generateFromSelections], [reviseScheduleWithFeedback],
      [renderTableFromSchedule] and [fetchAndRenderRecommendations], and the replay that [renderChat]
      schedules with [setTimeout] ([fire_timer]).  Theorems: a home
      query is scheduled exactly once, and lost if the user leaves the
      chat before the replay fires; after an engine failure the plan button leaves the chat in
      feedback mode on a mock plan; confirming wipes the table; the
      feedback handler never shows its server-error texts once
      configured; the dead handlers always end in a failure alert; no
      handler leaves the loading bubble behind.
    - [Api]: the documented onboarding contract of [part_001] (the
      request keys and the option lists) as a boolean check on a JSON
      body, and the five onboarding screens composed in the order the
      code chains them (each handler of [App], with the [#next] buttons'
      [navigate] of [Chat]).  Theorem: after the flow the body
      [buildOnboardingPayload] sends has the documented keys and types
      and the documented scenery, style and job values for every choice
      of badges; it conforms exactly when the first companion chosen is
      one the API documents.  [Reco]: a recommendation answered as
      documented is drawn exactly as the cards of its records (the
      client's decoding inverts the documented encoding).  [Errors]: a
      documented error answer is shown as [HTTP <status>] only.
    - [Browser]: the browser's event loop around the handlers:
      [location.hash], the queued [hashchange] events and the
      [setTimeout] replays of [Chat] ([Loop.step], run with fuel by
      [Loop.run]).  Theorems: the queue always drains within
      [2 * hashchanges + timers] tasks (termination by a measure), and
      [Chat]'s [go_chat], which inlines its [hashchange], is the state
      the loop reaches after dispatching it.
    - [ServiceWorker]: the cache-first [fetch] handler and the [install]
      step ([SW]).  [Life] is the worker's lifecycle as a
      step relation (the page's [register] call, [install] success or
      failure, [activate] with [clients.claim()]); by rule induction a
      controlled page always has an active worker with [config.json]
      cached, and along every run after a successful install a
      controlled page gets the install-time configuration.  [Reset] models the uncalled [hardReset]
      with its asynchronous effects as tasks in any order: the reload
      sees the pinned configuration exactly when it runs before the
      cache deletion and the unregistration.
    - [Backend]: the back end's scheduler from [spec.md] 4.2-4.5 and the
      report's skeleton of [generate_schedule].  It has four Modules:
      [Duration] (numeral words and ["N일"], clamped to 1..10);
      [StartPeriod] (the nearest future ["N월"]: its 1st, or today in
      the current month; and the festival table);
      [Builder] (one contiguous farm block, the tours clustered by the
      locality prefix of their address and distributed over the other
      days, free days); [Reviser] (one tour day replaced by the
      top unused candidate, candidates in the day's locality first).  The items are [Schedule]'s, so the client's
      grouping runs on them.  Theorems: every built itinerary satisfies
      the invariants of spec 3 ([itinerary_wf]); its table has one farm
      row and one row per tour day; the special event opens a trip of
      two days or more, and on such a trip every chosen tour has an
      item ([build_keeps_tours]), since [assign] places each tour on
      exactly one day in order ([assign_places_all]); clustering
      ([cluster_spec]) permutes the tours, keeps each locality's order
      and makes each locality one block;
      [generate_schedule]'s contract, with the start it picks
      ([resolve_start_spec]: never past, and the 1st of the named month
      in its nearest future occurrence unless that month is the current
      one); revision succeeds only on a day without a farm item,
      changes only that day, preserves [itinerary_wf], and picks
      the best-ranked unused candidate of the day's locality when there
      is one ([rerank_choice]).

    ** Bounds and parameters

    Every loop of the source is a [fold_left] or a [map] over a finite
    list, and every recursion is structural.  The one model with fuel is
    the browser's event loop ([Browser.Loop.run]), which the source does
    not contain; [Loop.measure] ([2 * hashchanges + timers]) is a bound
    on the tasks it runs, proved enough by [event_loop_terminates].  The
    network is a parameter ([server], [config_response]), so theorems
    hold for every answer unless they name one.  The dates of [mockPlan]
    and [monthMatrix] are exact integer arithmetic ([Z]) with the
    [Date] constructor's carry into the next month and year; the
    calendar theorems of [Dates] hold for every year, with no bound.  The
    scheduler's durations are bounded by the spec's clamp to 1..10;
    its theorems hold for every duration of at least one day.

    ** Modelling conventions

    - A JavaScript string is a Rocq [string].  Rocq strings are sequences
      of bytes, JavaScript strings of UTF-16 code units.  They agree on
      the ASCII dates ([YYYY-MM-DD]) that every [slice] in the models cuts.
    - A field that may be [undefined] is the empty string when the code
      only tests its truthiness or prints it with [|| ''], and an [option]
      when the code distinguishes a missing value from an empty one.
    - An async function that may throw returns a [js_result].
    - A mutation of [STATE] is an explicit function from the old state to
      the new one.  [localStorage] is a [gmap string stored].

    ** Not modelled

    These parts are not modelled:
    - DOM construction and HTML strings (the [render*] bodies beyond their
      state changes; [renderMiniCalendar], which nothing calls);
    - [fetch] itself and the timers;
    - updates of the service worker script (the script and its cache
      name are fixed in the repository);
    - the back end's recommender (intent extraction with a language
      model) and the time slot of the reviser's re-scoring (every tour
      item of the scheduler starts at the same hour);
    - the documentation's prose. The report's Python blocks are a prompt
      and skeletons whose bodies are comments; its [createScheduleWithUser]
      and [handleScheduleFeedback] are sketches with placeholder values
      ([farm_obj], [tour1]); the SQL, CSS and the folder guide's setup
      steps describe no code of the repository.
    Each is listed in [PROJECT.json] with its reason. *)

From Stdlib Require Export String Lia Sorted.
From stdpp Require Export base list gmap strings options.

Declare Scope js_scope.
Delimit Scope js_scope with js.

(** ** Truthiness *)

(** [Truthy A] says when a value of [A] counts as true in a JavaScript
    condition: a non-empty string, a non-zero number, a present
    ([Some]) value that is itself truthy, and every object. *)
Class Truthy (A : Type) := truthy : A -> bool.
#[global] Arguments truthy {_ _} !_ /.

#[export] Instance truthy_string : Truthy string :=
  fun s => negb (String.eqb s "").
#[export] Instance truthy_nat : Truthy nat := fun n => negb (Nat.eqb n 0).
(** [undefined] and [null] are [None]; a present value is tested itself. *)
#[export] Instance truthy_option `{Truthy A} : Truthy (option A) :=
  fun o => match o with Some a => truthy a | None => false end.
#[export] Instance truthy_bool : Truthy bool := fun b => b.

(** [a || b] of the source: [a] when truthy, otherwise [b]. *)
Definition js_or {A} `{Truthy A} (a b : A) : A := if truthy a then a else b.
Notation "a || b" := (js_or a b) : js_scope.

(** [s.slice(b, e)] with [0 <= b <= e]. *)
Definition slice (s : string) (b e : nat) : string := substring b (e - b) s.

(** [s.includes(pat)] *)
Definition includes (s pat : string) : bool :=
  match String.index 0 pat s with Some _ => true | None => false end.

(** ** Results of async functions *)

(** An async function of the client either resolves with a value or
    rejects with the message of the [Error] it throws. *)
Inductive js_result (A : Type) : Type :=
  | Resolve (a : A)
  | Reject (msg : string).
Arguments Resolve {A} a.
Arguments Reject {A} msg.

#[export] Instance js_result_ret : MRet js_result := fun _ a => Resolve a.
#[export] Instance js_result_bind : MBind js_result :=
  fun _ _ f r => match r with Resolve a => f a | Reject m => Reject m end.

(** [try { c } catch (e) { h(e.message) }]. *)
Definition js_catch {A} (r : js_result A) (h : string -> js_result A) : js_result A :=
  match r with Resolve a => Resolve a | Reject m => h m end.

(** ** Shared lemmas *)

Lemma truthy_string_iff (s : string) : truthy s = true <-> s <> "".
Proof.
  unfold truthy, truthy_string.
  destruct (String.eqb_spec s ""); simpl; split; intros; congruence.
Qed.

Lemma js_or_truthy {A} `{Truthy A} (a b : A) : truthy a = true -> (a || b)%js = a.
Proof. unfold js_or. by intros ->. Qed.

Lemma js_or_falsy {A} `{Truthy A} (a b : A) : truthy a = false -> (a || b)%js = b.
Proof. unfold js_or. by intros ->. Qed.

Lemma js_or_some `{Truthy A} (a : A) (b : option A) :
  truthy a = true -> (Some a || b)%js = Some a.
Proof. unfold js_or. simpl. by intros ->. Qed.

Lemma js_or_none `{Truthy A} (b : option A) : (None || b)%js = b.
Proof. reflexivity. Qed.

Lemma default_some {A} (d x : A) : default d (Some x) = x.
Proof. reflexivity. Qed.

Lemma default_none {A} (d : A) : default d None = d.
Proof. reflexivity. Qed.

Lemma bind_resolve {A B} (a : A) (f : A -> js_result B) :
  (Resolve a ≫= f) = f a.
Proof. reflexivity. Qed.

Lemma bind_reject {A B} (m : string) (f : A -> js_result B) :
  (Reject m ≫= f) = Reject m.
Proof. reflexivity. Qed.

Lemma substring_length_le (n m : nat) (s : string) :
  String.length (substring n m s) <= m.
Proof.
  revert n m. induction s as [|c s IH]; intros [|n] [|m]; simpl; try lia;
    [pose proof (IH 0 m); lia | apply IH ..].
Qed.

Lemma slice_length_le (s : string) (b e : nat) : String.length (slice s b e) <= e - b.
Proof. apply substring_length_le. Qed.

(** Membership in a [List.filter] with a boolean test. *)
Lemma elem_of_filter_list {A} (p : A -> bool) x l : x ∈ List.filter p l <-> x ∈ l /\ p x = true.
Proof. rewrite !list_elem_of_In. apply filter_In. Qed.

Lemma elem_of_flat_map_list {A B} (f : A -> list B) l y :
  y ∈ flat_map f l <-> exists x, x ∈ l /\ y ∈ f x.
Proof. rewrite list_elem_of_In, in_flat_map. by setoid_rewrite list_elem_of_In. Qed.

Lemma string_app_nil_r (s : string) : s +:+ "" = s.
Proof. induction s as [|c s IH]; [reflexivity|]. change (String c (s +:+ "") = String c s). by rewrite IH. Qed.

Lemma existsb_false_forall {A} (p : A -> bool) (l : list A) :
  existsb p l = false <-> Forall (fun x => p x = false) l.
Proof.
  induction l as [|x l IH]; simpl; [split; auto|].
  rewrite orb_false_iff, Forall_cons, IH. tauto.
Qed.

(** Adjacent-pair relations ([Sorted] of Stdlib) along a list built by
    [push]: appending, and replacing the last element. *)
Lemma Sorted_snoc {A} (R : A -> A -> Prop) (l : list A) (x y : A) :
  Sorted R (l ++ [x]) -> R x y -> Sorted R (l ++ [x; y]).
Proof.
  induction l as [|a l IH]; simpl; intros Hs Hr.
  - repeat constructor. done.
  - inversion Hs as [|? ? Hs' Hhd]; subst. constructor; [by apply IH|].
    destruct l; simpl in *; inversion Hhd; by constructor.
Qed.

Lemma Sorted_replace_last {A} (R : A -> A -> Prop) (l : list A) (x x' : A) :
  Sorted R (l ++ [x]) -> (forall z, R z x -> R z x') -> Sorted R (l ++ [x']).
Proof.
  induction l as [|a l IH]; simpl; intros Hs Hr.
  - repeat constructor.
  - inversion Hs as [|? ? Hs' Hhd]; subst. constructor; [by apply IH|].
    destruct l; simpl in *; inversion Hhd; constructor; auto.
Qed.

Lemma Sorted_single {A} (R : A -> A -> Prop) (x : A) : Sorted R [x].
Proof. repeat constructor. Qed.

(** ** Automation *)

Create HintDb js discriminated.
Create Rewrite HintDb js_rw.
#[export] Hint Rewrite @bind_resolve @bind_reject @js_or_none @default_some @default_none : js_rw.
#[export] Hint Resolve slice_length_le substring_length_le Sorted_single : js.

(** [destr_str a b] cases on a string comparison of the code. *)
Ltac destr_str a b := destruct (String.eqb_spec a b) as [?|?]; subst; simpl.

(** [simpl_js] unfolds the JavaScript conventions of this file. *)
Ltac simpl_js := repeat (autorewrite with js_rw in *; simpl in *; unfold js_or in *).
