(* ===== verification/Dates.v ===== *)
(** * Dates: the proleptic Gregorian calendar of [Date]

    The client's [Date] arithmetic ([monthMatrix], src/unnamed/part_000
    lines 280-295, and the dates of [mockPlan]) works on local dates.
    A date is a day number counted from 1970-01-01: [civil_from_days]
    and [days_from_civil] convert between day numbers and (year, month
    from 1, day from 1), as the [Date] constructor normalises an
    out-of-range day and as its getters read a date back.

    This file proves the conversions right against the Gregorian rules
    stated independently ([leap], [days_in_month], [valid_date]):
    - [civil_spec]: every day number is a valid date that
      [days_from_civil] maps back;
    - [dfc_next_month] and [dfc_next_year]: consecutive months are
      [days_in_month] days apart;
    - [dfc_lt]: [days_from_civil] is strictly increasing in the order
      of dates;
    - [civil_dfc]: on valid dates the two conversions are inverse.
    The bounds on the intermediate quantities of the era algorithm
    (day of era, year of era, day of year) are proved by [lia] once the
    divisions are turned into equations. *)

From S2P Require Import Prelude.

Open Scope Z_scope.

(** The date (year, month from 1, day from 1) of a day number. *)
Definition civil_from_days (dn : Z) : Z * Z * Z :=
  let z := (dn + 719468)%Z in
  let era := (z / 146097)%Z in
  let doe := (z - era * 146097)%Z in
  let yoe := ((doe - doe / 1460 + doe / 36524 - doe / 146096) / 365)%Z in
  let doy := (doe - (365 * yoe + yoe / 4 - yoe / 100))%Z in
  let mp := ((5 * doy + 2) / 153)%Z in
  let d := (doy - (153 * mp + 2) / 5 + 1)%Z in
  let mo := (if mp <? 10 then mp + 3 else mp - 9)%Z in
  ((yoe + era * 400 + (if mo <=? 2 then 1 else 0))%Z, mo, d).

(** The day number of a date (month from 1). *)
Definition days_from_civil (y mo d : Z) : Z :=
  let y' := (if mo <=? 2 then y - 1 else y)%Z in
  let era := (y' / 400)%Z in
  let yoe := (y' - era * 400)%Z in
  let doy := ((153 * (if 2 <? mo then mo - 3 else mo + 9) + 2) / 5 + d - 1)%Z in
  let doe := (yoe * 365 + yoe / 4 - yoe / 100 + doy)%Z in
  (era * 146097 + doe - 719468)%Z.

(** [getDay()]: 0 for Sunday; 1970-01-01 was a Thursday. *)
Definition week_day (dn : Z) : Z := ((dn + 4) mod 7)%Z.


(** ** The Gregorian rules *)

(** A leap year: divisible by 4 and not by 100, or divisible by 400. *)
Definition leap (y : Z) : bool := (((y mod 4 =? 0) && negb (y mod 100 =? 0)) || (y mod 400 =? 0))%bool.
(** The length of month [m] (from 1) of year [y]. *)
Definition days_in_month (y m : Z) : Z :=
  if m =? 2 then (if leap y then 29 else 28)
  else if ((m =? 4) || (m =? 6) || (m =? 9) || (m =? 11))%bool then 30 else 31.

(** ** The conversions *)

(** One goal per case of a disjunction of equations on a variable. *)
Ltac split_cases H :=
  repeat match type of H with _ \/ _ => destruct H as [H|H] end; subst.

Lemma dfc_day y m d : days_from_civil y m d = days_from_civil y m 1 + (d - 1).
Proof. unfold days_from_civil. lia. Qed.

Lemma dfc_next_month y m : 1 <= m <= 11 -> days_from_civil y (m + 1) 1 = days_from_civil y m 1 + days_in_month y m.
Proof.
  intros Hm. assert (m = 1 \/ m = 2 \/ m = 3 \/ m = 4 \/ m = 5 \/ m = 6 \/ m = 7 \/ m = 8 \/ m = 9 \/ m = 10 \/ m = 11) as Hc by lia.
  unfold days_from_civil, days_in_month, leap.
  (split_cases Hc; simpl;
   repeat match goal with |- context [Z.eqb ?a ?b] => destruct (Z.eqb_spec a b) end; simpl; Z.div_mod_to_equations; lia).
Qed.

Lemma dfc_next_year y : days_from_civil (y + 1) 1 1 = days_from_civil y 12 1 + 31.
Proof. unfold days_from_civil. simpl. Z.div_mod_to_equations; lia. Qed.

Lemma doy_leap doe : 0 <= doe < 146097 ->
  let yoe := (doe - doe / 1460 + doe / 36524 - doe / 146096) / 365 in
  doe - (365 * yoe + yoe / 4 - yoe / 100) = 365 ->
  (yoe + 1) mod 4 = 0 /\ ((yoe + 1) mod 100 <> 0 \/ yoe = 399).
Proof. intros H yoe. subst yoe. Z.div_mod_to_equations; lia. Qed.

Lemma yoe_bound doe : 0 <= doe < 146097 -> 0 <= (doe - doe / 1460 + doe / 36524 - doe / 146096) / 365 <= 399.
Proof. intros H. Z.div_mod_to_equations; lia. Qed.

Lemma doy_bound doe : 0 <= doe < 146097 ->
  let yoe := (doe - doe / 1460 + doe / 36524 - doe / 146096) / 365 in
  0 <= doe - (365 * yoe + yoe / 4 - yoe / 100) <= 365.
Proof. intros H yoe. subst yoe. Z.div_mod_to_equations; lia. Qed.

(** Reduce the [if]s whose test is a closed boolean, and nothing else. *)
Ltac simpl_closed_ifs :=
  repeat match goal with
  | |- context [if ?b then _ else _] =>
      let v := eval vm_compute in b in
      lazymatch v with true => change b with true | false => change b with false end; cbv iota beta
  end.

Lemma civil_spec dn :
  let '(y, mo, d) := civil_from_days dn in
  (1 <= mo <= 12) /\ (1 <= d <= days_in_month y mo) /\ days_from_civil y mo d = dn.
Proof.
  unfold civil_from_days.
  set (z := dn + 719468). set (era := z / 146097).
  assert (Hdoe : 0 <= z - era * 146097 < 146097) by (subst era; Z.div_mod_to_equations; lia).
  set (doe := z - era * 146097) in *. assert (Hz : doe = dn + 719468 - era * 146097) by reflexivity.
  clearbody doe era. subst z.
  pose proof (yoe_bound doe Hdoe) as Hy. pose proof (doy_bound doe Hdoe) as Hd. pose proof (doy_leap doe Hdoe) as Hl.
  cbv zeta in Hd, Hl.
  set (yoe := (doe - doe / 1460 + doe / 36524 - doe / 146096) / 365) in *. clearbody yoe.
  set (doy := doe - (365 * yoe + yoe / 4 - yoe / 100)) in *.
  assert (Hdoy : doy = doe - (365 * yoe + yoe / 4 - yoe / 100)) by reflexivity. clearbody doy.
  assert (Hmp : 153 * ((5 * doy + 2) / 153) <= 5 * doy + 2 < 153 * ((5 * doy + 2) / 153) + 153)
    by (Z.div_mod_to_equations; lia).
  set (mp := (5 * doy + 2) / 153) in *. clearbody mp.
  assert (mp = 0 \/ mp = 1 \/ mp = 2 \/ mp = 3 \/ mp = 4 \/ mp = 5 \/ mp = 6 \/ mp = 7 \/ mp = 8 \/ mp = 9 \/ mp = 10 \/ mp = 11) as Hc by lia.
  unfold days_in_month, leap, days_from_civil.
  (split_cases Hc; simpl_closed_ifs;
   repeat match goal with |- context [Z.eqb ?a ?b] => destruct (Z.eqb_spec a b) end; cbn [andb orb negb];
   try (Z.div_mod_to_equations; lia)).
Qed.

(** A date of the calendar: a month from 1 to 12 and a day of it. *)
Definition valid_date (y m d : Z) : Prop := 1 <= m <= 12 /\ 1 <= d <= days_in_month y m.

Lemma days_in_month_bounds y m : 28 <= days_in_month y m <= 31.
Proof. unfold days_in_month. destruct (Z.eqb _ _), (leap y); [lia|lia|..]; destruct (_ || _)%bool; lia. Qed.

Lemma dfc_month_steps y m (n : nat) :
  1 <= m -> m + Z.of_nat (S n) <= 12 ->
  days_from_civil y m 1 + days_in_month y m <= days_from_civil y (m + Z.of_nat (S n)) 1.
Proof.
  intros Hm. induction n as [|n IH]; intros Hb.
  - rewrite dfc_next_month by lia. lia.
  - replace (m + Z.of_nat (S (S n))) with ((m + Z.of_nat (S n)) + 1) by lia.
    rewrite dfc_next_month by lia. pose proof (days_in_month_bounds y (m + Z.of_nat (S n))).
    specialize (IH ltac:(lia)). lia.
Qed.

Lemma dfc_month_mono y m1 m2 :
  1 <= m1 < m2 -> m2 <= 12 -> days_from_civil y m1 1 + days_in_month y m1 <= days_from_civil y m2 1.
Proof.
  intros H1 H2. pose proof (dfc_month_steps y m1 (Z.to_nat (m2 - m1 - 1)) ltac:(lia) ltac:(lia)) as H.
  replace (m1 + Z.of_nat (S (Z.to_nat (m2 - m1 - 1)))) with m2 in H by lia. exact H.
Qed.

Lemma dfc_first_le y m d : valid_date y m d -> days_from_civil y 1 1 <= days_from_civil y m d.
Proof.
  intros [Hm Hd]. rewrite (dfc_day y m d). destruct (Z.eq_dec m 1) as [->|]; [lia|].
  pose proof (dfc_month_mono y 1 m ltac:(lia) ltac:(lia)). pose proof (days_in_month_bounds y 1). lia.
Qed.

Lemma dfc_last_lt y m d : valid_date y m d -> days_from_civil y m d < days_from_civil (y + 1) 1 1.
Proof.
  intros [Hm Hd]. rewrite (dfc_day y m d), dfc_next_year. destruct (Z.eq_dec m 12) as [->|].
  - unfold days_in_month in Hd. simpl in Hd. lia.
  - pose proof (dfc_month_mono y m 12 ltac:(lia) ltac:(lia)). lia.
Qed.

Lemma dfc_year_steps y (n : nat) : days_from_civil (y + 1) 1 1 <= days_from_civil (y + 1 + Z.of_nat n) 1 1.
Proof.
  induction n as [|n IH]; [rewrite Z.add_0_r; lia|].
  replace (y + 1 + Z.of_nat (S n)) with ((y + 1 + Z.of_nat n) + 1) by lia.
  assert (V : valid_date (y + 1 + Z.of_nat n) 1 1)
    by (split; [lia|pose proof (days_in_month_bounds (y + 1 + Z.of_nat n) 1); lia]).
  pose proof (dfc_last_lt _ _ _ V). lia.
Qed.

Lemma dfc_year_mono y1 y2 : y1 < y2 -> days_from_civil (y1 + 1) 1 1 <= days_from_civil y2 1 1.
Proof.
  intros H. pose proof (dfc_year_steps y1 (Z.to_nat (y2 - y1 - 1))) as Hs.
  replace (y1 + 1 + Z.of_nat (Z.to_nat (y2 - y1 - 1))) with y2 in Hs by lia. exact Hs.
Qed.

(** [days_from_civil] is strictly increasing in the order of dates. *)
Lemma dfc_lt y1 m1 d1 y2 m2 d2 :
  valid_date y1 m1 d1 -> valid_date y2 m2 d2 ->
  (y1 < y2 \/ (y1 = y2 /\ m1 < m2) \/ (y1 = y2 /\ m1 = m2 /\ d1 < d2)) ->
  days_from_civil y1 m1 d1 < days_from_civil y2 m2 d2.
Proof.
  intros V1 V2 [Hy|[[-> Hm]|(-> & -> & Hd)]].
  - pose proof (dfc_last_lt _ _ _ V1). pose proof (dfc_year_mono _ _ Hy). pose proof (dfc_first_le _ _ _ V2). lia.
  - destruct V1 as [Hm1 Hd1], V2 as [Hm2 Hd2]. rewrite (dfc_day y2 m1 d1), (dfc_day y2 m2 d2).
    pose proof (dfc_month_mono y2 m1 m2 ltac:(lia) ltac:(lia)). lia.
  - rewrite (dfc_day y2 m2 d1), (dfc_day y2 m2 d2). lia.
Qed.

Lemma dfc_inj y1 m1 d1 y2 m2 d2 :
  valid_date y1 m1 d1 -> valid_date y2 m2 d2 ->
  days_from_civil y1 m1 d1 = days_from_civil y2 m2 d2 -> (y1, m1, d1) = (y2, m2, d2).
Proof.
  intros V1 V2 He.
  destruct (Z.lt_trichotomy y1 y2) as [Hy|[->|Hy]];
    [pose proof (dfc_lt _ _ _ _ _ _ V1 V2 (or_introl Hy)); lia| |pose proof (dfc_lt _ _ _ _ _ _ V2 V1 (or_introl Hy)); lia].
  destruct (Z.lt_trichotomy m1 m2) as [Hm|[->|Hm]];
    [pose proof (dfc_lt _ _ _ _ _ _ V1 V2 (or_intror (or_introl (conj eq_refl Hm)))); lia| |
     pose proof (dfc_lt _ _ _ _ _ _ V2 V1 (or_intror (or_introl (conj eq_refl Hm)))); lia].
  rewrite (dfc_day y2 m2 d1), (dfc_day y2 m2 d2) in He. f_equal. lia.
Qed.

(** The two conversions are inverse on valid dates. *)
Lemma civil_dfc y m d : valid_date y m d -> civil_from_days (days_from_civil y m d) = (y, m, d).
Proof.
  intros V. pose proof (civil_spec (days_from_civil y m d)) as Hs.
  destruct (civil_from_days _) as [[y' m'] d']. destruct Hs as (Hm & Hd & He).
  apply dfc_inj; [split; lia|done|done].
Qed.
