(* ===== verification/Json.v ===== *)
(** * JSON values and [localStorage]

    [JSON.stringify] and [JSON.parse] carry every piece of client state
    in and out of [localStorage] ([saveState], lines 188-201, and the
    [STATE] initialiser, lines 44-61).  The model keeps the JSON tree
    rather than its text.  [JsonCodec] is the interface between a state
    component and the storage.  It pairs an encoder with a decoder and
    states the round-trip law that [JSON.parse(JSON.stringify(v))]
    gives [v] back.  Instances are given for the value shapes the client
    stores: strings, numbers, booleans, arrays, string-keyed objects,
    and [null]-able values. *)

From S2P Require Import Prelude.

Local Set Warnings "-register-all".

Inductive json : Type :=
  | JNull
  | JBool (b : bool)
  | JNum (n : Z)
  | JStr (s : string)
  | JArr (l : list json)
  | JObj (fields : list (string * json)).

(** [o[k]] on a parsed object: the first field named [k]. *)
Fixpoint field_of (k : string) (fs : list (string * json)) : option json :=
  match fs with
  | [] => None
  | (k', v) :: fs => if String.eqb k k' then Some v else field_of k fs
  end.

Definition get_field (k : string) (j : json) : option json :=
  match j with JObj fs => field_of k fs | _ => None end.

Lemma field_of_app (k : string) (l1 l2 : list (string * json)) :
  field_of k (l1 ++ l2) = match field_of k l1 with Some v => Some v | None => field_of k l2 end.
Proof.
  induction l1 as [|[k' v] l1 IH]; simpl; [done|]. destruct (String.eqb k k'); [done|apply IH].
Qed.

(** The interface a stored component implements.  The encoding of a
    value is never [null]: [null] is reserved for an absent value. *)
Class JsonCodec (A : Type) := {
  encode : A -> json;
  decode : json -> option A;
  decode_encode : forall a, decode (encode a) = Some a;
  encode_not_null : forall a, encode a <> JNull
}.
Arguments encode {_ _} _.
Arguments decode {_ _} _.

#[export] Instance codec_string : JsonCodec string.
Proof.
  refine {| encode s := JStr s;
            decode j := match j with JStr s => Some s | _ => None end |};
    done.
Defined.

#[export] Instance codec_bool : JsonCodec bool.
Proof.
  refine {| encode b := JBool b;
            decode j := match j with JBool b => Some b | _ => None end |};
    done.
Defined.

Definition decode_num (j : json) : option nat :=
  match j with
  | JNum z => if (0 <=? z)%Z then Some (Z.to_nat z) else None
  | _ => None
  end.

Lemma decode_num_of_nat (n : nat) : decode_num (JNum (Z.of_nat n)) = Some n.
Proof.
  unfold decode_num. destruct (Z.leb_spec 0 (Z.of_nat n)); [|lia]. by rewrite Nat2Z.id.
Qed.

Arguments decode_num : simpl never.

#[export] Instance codec_nat : JsonCodec nat :=
  {| encode n := JNum (Z.of_nat n); decode := decode_num;
     decode_encode := decode_num_of_nat;
     encode_not_null n := ltac:(discriminate) |}.

#[export] Instance codec_list `{JsonCodec A} : JsonCodec (list A).
Proof.
  refine {| encode l := JArr (encode <$> l);
            decode j := match j with JArr l => mapM decode l | _ => None end |};
    [intros l; apply mapM_fmap_Some, decode_encode | done].
Defined.

(** A string-keyed object.  [JSON.stringify] writes the fields in some
    order and [JSON.parse] rebuilds the object, so the order is not
    observable through the map. *)
Definition encode_field `{JsonCodec A} (kv : string * A) : string * json :=
  (kv.1, encode kv.2).
Definition decode_field `{JsonCodec A} (kv : string * json) : option (string * A) :=
  pair kv.1 <$> decode kv.2.

Lemma decode_encode_fields `{JsonCodec A} (m : gmap string A) :
  list_to_map <$> mapM decode_field (encode_field <$> map_to_list m) = Some m.
Proof.
  rewrite mapM_fmap_Some; [exact (f_equal Some (list_to_map_to_list m))|].
  intros [k v]. unfold decode_field, encode_field. simpl. by rewrite decode_encode.
Qed.

#[export] Instance codec_map `{JsonCodec A} : JsonCodec (gmap string A) :=
  {| encode m := JObj (encode_field <$> map_to_list m);
     decode j := match j with
                 | JObj fs => list_to_map <$> mapM decode_field fs
                 | _ => None end;
     decode_encode := decode_encode_fields;
     encode_not_null m := ltac:(discriminate) |}.

(** [JSON.stringify(x || null)] and [JSON.parse] of it. *)
Definition encode_nullable `{JsonCodec A} (o : option A) : json :=
  match o with Some a => encode a | None => JNull end.
Definition decode_nullable `{JsonCodec A} (j : json) : option (option A) :=
  match j with JNull => Some None | _ => Some <$> decode j end.

Lemma decode_encode_nullable `{JsonCodec A} (o : option A) :
  decode_nullable (encode_nullable o) = Some o.
Proof.
  destruct o as [a|]; [|done]. unfold decode_nullable, encode_nullable.
  pose proof (encode_not_null a) as Hn. pose proof (decode_encode a) as Hd.
  destruct (encode a); [done| rewrite Hd; done ..].
Qed.

(** ** [localStorage]

    Every value is a string.  A JSON key holds the text of a JSON tree,
    modelled by the tree; the other keys hold raw strings. *)
Inductive stored : Type :=
  | Raw (s : string)
  | Text (j : json).

Abbreviation storage := (gmap string stored).

(** [localStorage.setItem(k, JSON.stringify(v))] *)
Definition set_json `{JsonCodec A} (k : string) (v : A) (st : storage) : storage :=
  <[k := Text (encode v)]> st.

(** [JSON.parse(localStorage.getItem(k) || dflt)], with [None] for a
    text that does not parse as an [A]. *)
Definition get_json `{JsonCodec A} (k : string) (dflt : A) (st : storage) : option A :=
  match st !! k with
  | Some (Text j) => decode j
  | Some (Raw "") | None => Some dflt
  | Some (Raw _) => None
  end.

Lemma get_set_json `{JsonCodec A} (k : string) (v d : A) (st : storage) :
  get_json k d (set_json k v st) = Some v.
Proof. unfold get_json, set_json. by rewrite lookup_insert_eq, decode_encode. Qed.

Lemma get_set_json_ne `{JsonCodec A} `{JsonCodec B} (k k' : string) (v : A) (d : B)
  (st : storage) :
  k <> k' -> get_json k' d (set_json k v st) = get_json k' d st.
Proof. intros Hne. unfold get_json, set_json. by rewrite lookup_insert_ne. Qed.
