(* ===== verification/Schedule.v ===== *)
(** * The schedule table: grouping and farm de-duplication

    Models the view of an itinerary that [renderScheduleTable]
    (src/unnamed/part_000, lines 925-1035) and [renderMiniTime]
    (lines 459-564) draw.  Both run the same loop over
    [sched.itinerary]: consecutive farm items ([schedule_type] "농가")
    form one group; other items form one group per run of equal [day],
    typed "관광지".  A farm group then shows each [name-address] key once.

    [Grouping] holds the loop ([group_step], folded by [group_schedule])
    and proves that it computes the maximal-run decomposition: the groups
    partition the itinerary, each is non-empty and homogeneous, and no
    two neighbours could have been merged.  [Dedup] holds the farm
    de-duplication with its [Set] of seen keys, and proves it equivalent
    to [keep_first], a reference definition by structural recursion.  [Table] holds the rows
    the two renderers show. *)

From S2P Require Import Prelude Json.
From stdpp Require Import pretty.
From Stdlib Require Import Sorted.

(** ** Data: one entry of [itinerary] in the engine's response

    The API reference (src/unnamed/part_001, lines 166-183) gives every
    item the six fields below. *)
Record schedule_item := mk_item {
  day : nat;
  date : string;
  schedule_type : string;
  name : string;
  start_time : string;
  address : string
}.

#[export] Instance schedule_item_eq_dec : EqDecision schedule_item.
Proof. intros [] []. solve_decision. Defined.

Definition farm_type : string := "농가".
Definition tour_type : string := "관광지".

(** [item.schedule_type === "농가"] *)
Definition is_farm (it : schedule_item) : bool := String.eqb (schedule_type it) farm_type.

(** A ten-day plan in the shape of the API reference's example: day 1 a
    tour, days 2-8 the farm, days 9-10 tours, two of them on day 10.  The
    dates are in the [YYYY-MM-DD] form that the client's calendar code
    expects (line 1118). *)
Definition sample_itinerary : list schedule_item :=
  [mk_item 1 "2025-10-01" tour_type "벽골제" "15:00" "전북 김제시"] ++
  map (fun d => mk_item d ("2025-10-0" +:+ pretty d) farm_type "김제 과수농장" "08:00" "전북 김제시 금구면")
      [2; 3; 4; 5; 6; 7; 8] ++
  [mk_item 9 "2025-10-09" tour_type "김제지평선축제" "10:00" "전북 김제시 부량면";
   mk_item 10 "2025-10-10" tour_type "아리랑문학마을" "10:00" "전북 김제시 죽산면";
   mk_item 10 "2025-10-10" tour_type "망해사" "14:00" "전북 김제시 진봉면"].

Module Grouping.

(** [{ type, startDay, endDay, items }] *)
Record group := mk_group {
  gtype : string;
  startDay : nat;
  endDay : nat;
  gitems : list schedule_item
}.

#[export] Instance group_eq_dec : EqDecision group.
Proof. intros [] []. solve_decision. Defined.

(** [currentGroup = { type, startDay: item.day, endDay: item.day, items: [item] }] *)
Definition new_group (ty : string) (it : schedule_item) : group :=
  mk_group ty (day it) (day it) [it].

(** [if (currentGroup) groupedSchedule.push(currentGroup)] *)
Definition push_current (acc : list group) (cur : option group) : list group :=
  match cur with Some g => acc ++ [g] | None => acc end.

(** One iteration of [itinerary.forEach(item => ...)], on the pair
    [(groupedSchedule, currentGroup)]. *)
Definition group_step (st : list group * option group) (it : schedule_item)
    : list group * option group :=
  let '(acc, cur) := st in
  if is_farm it then
    match cur with
    | Some g =>
        if String.eqb (gtype g) farm_type
        then (acc, Some (mk_group (gtype g) (startDay g) (day it) (gitems g ++ [it])))
        else (push_current acc cur, Some (new_group farm_type it))
    | None => (push_current acc cur, Some (new_group farm_type it))
    end
  else
    match cur with
    | Some g =>
        if String.eqb (gtype g) tour_type && Nat.eqb (startDay g) (day it)
        then (acc, Some (mk_group (gtype g) (startDay g) (endDay g) (gitems g ++ [it])))
        else (push_current acc cur, Some (new_group tour_type it))
    | None => (push_current acc cur, Some (new_group tour_type it))
    end.

(** The loop and the final [push] of the last group. *)
Definition group_schedule (itinerary : list schedule_item) : list group :=
  let '(acc, cur) := fold_left group_step itinerary ([], None) in
  push_current acc cur.

(** *** The properties of a group

    A farm group holds farm items only, and spans the days of its first
    and last items.  A tour group holds non-farm items of its own day. *)
Definition group_wf (g : group) : Prop :=
  exists first rest, gitems g = first :: rest /\ startDay g = day first /\
    ((gtype g = farm_type /\ Forall (fun it => is_farm it = true) (gitems g) /\
      endDay g = day (List.last (gitems g) first)) \/
     (gtype g = tour_type /\
      Forall (fun it => is_farm it = false /\ day it = startDay g) (gitems g) /\
      endDay g = startDay g)).

(** Two neighbouring groups could not have been one: they are not both
    farm groups, and two tour groups are on different days. *)
Definition adjacent_distinct (g1 g2 : group) : Prop :=
  ~ (gtype g1 = farm_type /\ gtype g2 = farm_type) /\
  (gtype g1 = tour_type -> gtype g2 = tour_type -> startDay g1 <> startDay g2).

(** The abstract specification of the table's groups: a decomposition
    of the itinerary into maximal well-formed runs. *)
Definition is_grouping (itinerary : list schedule_item) (gs : list group) : Prop :=
  mjoin (gitems <$> gs) = itinerary /\ Forall group_wf gs /\ Sorted adjacent_distinct gs.

(** *** The loop invariant *)

Lemma farm_ne_tour : farm_type <> tour_type.
Proof. discriminate. Qed.

(** The groups so far, [currentGroup] pushed. *)
Definition flush (st : list group * option group) : list group := push_current st.1 st.2.

(** Before the first item nothing is pushed; afterwards the pushed groups
    and [currentGroup] are well formed and pairwise distinct. *)
Definition step_inv (st : list group * option group) : Prop :=
  match st.2 with
  | None => st.1 = []
  | Some g => Forall group_wf (st.1 ++ [g]) /\ Sorted adjacent_distinct (st.1 ++ [g])
  end.

Lemma new_group_wf_farm it : is_farm it = true -> group_wf (new_group farm_type it).
Proof. intros Hf. exists it, []. simpl. split; [done|split; [done|left]]. by repeat constructor. Qed.

Lemma new_group_wf_tour it : is_farm it = false -> group_wf (new_group tour_type it).
Proof. intros Hf. exists it, []. simpl. split; [done|split; [done|right]]. by repeat constructor. Qed.

(** Extending [currentGroup] keeps its type and first day. *)
Lemma adjacent_same_head g g' :
  gtype g' = gtype g -> startDay g' = startDay g ->
  forall z, adjacent_distinct z g -> adjacent_distinct z g'.
Proof. intros Ht Hs z [H1 H2]. unfold adjacent_distinct. rewrite Ht, Hs. auto. Qed.

Lemma extend_farm_wf g it :
  group_wf g -> gtype g = farm_type -> is_farm it = true ->
  group_wf (mk_group (gtype g) (startDay g) (day it) (gitems g ++ [it])).
Proof.
  intros (f & r & Hi & Hs & [(_ & Hall & _) | (Ht & _)]) Ht' Hf; [|by rewrite Ht in Ht'].
  exists f, (r ++ [it]). simpl. rewrite Hi. repeat split; auto.
  left. repeat split; auto.
  - rewrite <- Hi. apply Forall_app; auto.
  - by rewrite List.last_last.
Qed.

Lemma extend_tour_wf g it :
  group_wf g -> gtype g = tour_type -> is_farm it = false -> day it = startDay g ->
  group_wf (mk_group (gtype g) (startDay g) (endDay g) (gitems g ++ [it])).
Proof.
  intros (f & r & Hi & Hs & [(Ht & _) | (_ & Hall & He)]) Ht' Hf Hd;
    [by rewrite Ht in Ht'; destruct farm_ne_tour|].
  exists f, (r ++ [it]). simpl. rewrite Hi. repeat split; auto.
  right. repeat split; auto. rewrite <- Hi. apply Forall_app; auto.
Qed.

Lemma step_inv_preserved st it : step_inv st -> step_inv (group_step st it).
Proof.
  destruct st as [acc [g|]]; unfold step_inv; simpl.
  - intros [Hwf Hsort]. apply Forall_app in Hwf as [Hacc Hg]. inversion Hg as [|? ? Hg' _]; subst.
    destruct (is_farm it) eqn:Hf.
    + destr_str (gtype g) farm_type; simpl.
      * split; [apply Forall_app; split; auto using extend_farm_wf|].
        eapply Sorted_replace_last; [exact Hsort|]. by apply adjacent_same_head.
      * rewrite <- app_assoc. split.
        -- apply Forall_app; split; [done|]. repeat constructor; auto using new_group_wf_farm.
        -- apply Sorted_snoc; [done|]. split; simpl; [tauto|].
           intros _ Ht. by destruct farm_ne_tour.
    + destruct (String.eqb_spec (gtype g) tour_type) as [Ht|Ht];
        destruct (Nat.eqb_spec (startDay g) (day it)) as [Hd|Hd]; simpl.
      * split; [apply Forall_app; split; auto using extend_tour_wf|].
        eapply Sorted_replace_last; [exact Hsort|]. by apply adjacent_same_head.
      * rewrite <- app_assoc. split.
        -- apply Forall_app; split; [done|]. repeat constructor; auto using new_group_wf_tour.
        -- apply Sorted_snoc; [done|]. split; simpl; [|done].
           intros [_ ?]. by destruct farm_ne_tour.
      * rewrite <- app_assoc. split.
        -- apply Forall_app; split; [done|]. repeat constructor; auto using new_group_wf_tour.
        -- apply Sorted_snoc; [done|]. split; simpl; [|done].
           intros [_ ?]. by destruct farm_ne_tour.
      * rewrite <- app_assoc. split.
        -- apply Forall_app; split; [done|]. repeat constructor; auto using new_group_wf_tour.
        -- apply Sorted_snoc; [done|]. split; simpl; [|done].
           intros [_ ?]. by destruct farm_ne_tour.
  - intros ->. destruct (is_farm it) eqn:Hf; simpl; split; auto with js;
      repeat constructor; auto using new_group_wf_farm, new_group_wf_tour.
Qed.

Lemma flush_step st it :
  mjoin (gitems <$> flush (group_step st it)) = mjoin (gitems <$> flush st) ++ [it].
Proof.
  destruct st as [acc [g|]]; unfold flush; simpl;
    [destruct (is_farm it); [destruct (String.eqb _ _)|destruct (_ && _)]|destruct (is_farm it)];
    simpl; rewrite ?fmap_app, ?join_app; simpl; rewrite ?app_nil_r, ?app_assoc; done.
Qed.

Lemma fold_group_step l st :
  step_inv st ->
  step_inv (fold_left group_step l st) /\
  mjoin (gitems <$> flush (fold_left group_step l st)) = mjoin (gitems <$> flush st) ++ l.
Proof.
  revert st. induction l as [|it l IH]; intros st Hinv; simpl; [by rewrite app_nil_r|].
  destruct (IH (group_step st it)) as [H1 H2]; [by apply step_inv_preserved|].
  split; [done|]. by rewrite H2, flush_step, <- app_assoc.
Qed.

(** *** The loop meets the specification *)
Lemma group_schedule_is_grouping l : is_grouping l (group_schedule l).
Proof.
  unfold group_schedule.
  destruct (fold_group_step l ([], None)) as [Hinv Hflat]; [done|].
  destruct (fold_left group_step l ([], None)) as [acc [g|]] eqn:E;
    unfold step_inv, flush in *; simpl in *.
  - destruct Hinv. by repeat split.
  - subst. repeat split; [done|constructor..].
Qed.

(** *** Uniqueness: the specification has one solution *)

Lemma group_wf_type g f r :
  group_wf g -> gitems g = f :: r ->
  (gtype g = farm_type /\ is_farm f = true) \/ (gtype g = tour_type /\ is_farm f = false).
Proof.
  intros (f' & r' & Hi & _ & Hcase) He. rewrite He in Hi. injection Hi as <- <-.
  destruct Hcase as [(Ht & Hall & _) | (Ht & Hall & _)]; rewrite He in Hall;
    apply Forall_cons in Hall as [Hf _]; [left | right]; tauto.
Qed.

(** Every item of a group has the farm-ness of its first item, and a
    non-farm item is on the group's day. *)
Lemma group_wf_member g f r y :
  group_wf g -> gitems g = f :: r -> y ∈ gitems g ->
  is_farm y = is_farm f /\ (is_farm f = false -> day y = startDay g).
Proof.
  intros (f' & r' & Hi & _ & Hcase) He Hy. rewrite He in Hi. injection Hi as <- <-.
  assert (Hf : f ∈ gitems g) by (rewrite He; left).
  destruct Hcase as [(_ & Hall & _) | (_ & Hall & _)]; rewrite Forall_forall in Hall;
    pose proof (Hall y Hy) as Hy'; pose proof (Hall f Hf) as Hf'.
  - split; [congruence | intros; congruence].
  - split; [by destruct Hy', Hf'; congruence | tauto].
Qed.

(** The first group of a valid grouping cannot be a strict prefix of a
    well-formed group: its successor would have been merged into it. *)
Lemma first_group_maximal g g' h y z z' :
  group_wf g -> group_wf g' -> group_wf h -> adjacent_distinct g g' ->
  gitems g' = y :: z' -> gitems h = gitems g ++ y :: z -> False.
Proof.
  intros Hg Hg' Hh [Hnf Htr] Hy' Hh'.
  pose proof Hg as (f & r & Hgi & Hgs & _).
  pose proof Hg' as (y' & z'' & Hi' & Hs' & _).
  rewrite Hy' in Hi'. injection Hi' as <- _.
  assert (Hhi : gitems h = f :: r ++ y :: z) by (rewrite Hh', Hgi; done).
  assert (Hyh : y ∈ gitems h) by (rewrite Hh'; set_solver).
  assert (Hfh : f ∈ gitems h) by (rewrite Hhi; left).
  destruct (group_wf_member h f _ y Hh Hhi Hyh) as [Hyf Hyd].
  destruct (group_wf_member h f _ f Hh Hhi Hfh) as [_ Hfd].
  destruct (group_wf_type g f r Hg Hgi) as [[Hgt Hff] | [Hgt Hff]];
    destruct (group_wf_type g' y z' Hg' Hy') as [[Hgt' Hyf'] | [Hgt' Hyf']];
    try congruence.
  - by apply Hnf.
  - apply (Htr Hgt Hgt'). rewrite Hs', Hgs, Hyd, Hfd by done. done.
Qed.

Lemma mjoin_gitems_cons g gs :
  mjoin (gitems <$> g :: gs) = gitems g ++ mjoin (gitems <$> gs).
Proof. reflexivity. Qed.

Lemma grouping_nil gs : Forall group_wf gs -> mjoin (gitems <$> gs) = [] -> gs = [].
Proof.
  destruct gs as [|g gs]; [done|]. intros Hwf Hj. apply Forall_cons in Hwf as [(f & r & Hi & _) _].
  simpl in Hj. rewrite Hi in Hj. discriminate.
Qed.

Lemma grouping_head gs y t :
  Forall group_wf gs -> mjoin (gitems <$> gs) = y :: t ->
  exists g' gs' z', gs = g' :: gs' /\ gitems g' = y :: z'.
Proof.
  destruct gs as [|g gs]; [discriminate|]. intros Hwf Hj.
  apply Forall_cons in Hwf as [(f & r & Hi & _) _]. simpl in Hj. rewrite Hi in Hj.
  injection Hj as -> _. eauto.
Qed.

(** A well-formed group is determined by its items. *)
Lemma group_wf_ext g h : group_wf g -> group_wf h -> gitems g = gitems h -> g = h.
Proof.
  intros Hg Hh Hi. pose proof farm_ne_tour.
  pose proof Hg as (f & r & Hgi & Hgs & Hgc). pose proof Hh as (f' & r' & Hhi & Hhs & Hhc).
  assert (f' = f /\ r' = r) as [-> ->] by (rewrite Hi, Hhi in Hgi; by injection Hgi).
  destruct (group_wf_type g f r Hg Hgi) as [[Hgt Hff] | [Hgt Hff]];
    destruct (group_wf_type h f r Hh Hhi) as [[Hht Hff'] | [Hht Hff']]; try congruence;
    destruct Hgc as [(? & ? & Hge) | (? & ? & Hge)]; try congruence;
    destruct Hhc as [(? & ? & Hhe) | (? & ? & Hhe)]; try congruence;
    destruct g, h; simpl in *; subst; congruence.
Qed.

(** The pieces of a decomposition are equal when their first groups
    are: the first group is the maximal run from the start. *)
Lemma first_groups_equal g h gs1 gs2 :
  group_wf g -> group_wf h -> Forall group_wf gs1 -> Forall group_wf gs2 ->
  HdRel adjacent_distinct g gs1 -> HdRel adjacent_distinct h gs2 ->
  gitems g ++ mjoin (gitems <$> gs1) = gitems h ++ mjoin (gitems <$> gs2) ->
  gitems g = gitems h.
Proof.
  intros Hg Hh W1 W2 A1 A2 J.
  destruct (app_eq_app _ _ _ _ J) as ([|y z] & [[E1 E2] | [E1 E2]]);
    rewrite ?app_nil_r in E1; try done; try by symmetry.
  - destruct (grouping_head gs2 y _ W2 E2) as (h' & gs' & z' & -> & Hy).
    inversion A2 as [|? ? A2']; subst. apply Forall_cons in W2 as [Wh' _].
    destruct (first_group_maximal h h' g y z z' Hh Wh' Hg A2' Hy E1).
  - destruct (grouping_head gs1 y _ W1 E2) as (g' & gs' & z' & -> & Hy).
    inversion A1 as [|? ? A1']; subst. apply Forall_cons in W1 as [Wg' _].
    destruct (first_group_maximal g g' h y z z' Hg Wg' Hh A1' Hy E1).
Qed.

Lemma is_grouping_unique gs1 : forall l gs2,
  is_grouping l gs1 -> is_grouping l gs2 -> gs1 = gs2.
Proof.
  induction gs1 as [|g gs1 IH]; intros l gs2 (J1 & W1 & S1) (J2 & W2 & S2).
  - simpl in J1. subst l. symmetry. by apply grouping_nil.
  - destruct gs2 as [|h gs2].
    + exfalso. apply Forall_cons in W1 as [(f & r & Hi & _) _].
      simpl in J1, J2. rewrite Hi in J1. simpl in J1. congruence.
    + rewrite !mjoin_gitems_cons in *. rewrite <- J2 in J1.
      apply Forall_cons in W1 as [Wg W1], W2 as [Wh W2].
      apply Sorted_inv in S1 as [S1 A1], S2 as [S2 A2].
      assert (Hgh : gitems g = gitems h) by (apply (first_groups_equal g h gs1 gs2); assumption).
      rewrite Hgh in J1. apply app_inv_head in J1.
      f_equal; [by apply group_wf_ext|].
      apply (IH (mjoin (gitems <$> gs1))); repeat split; auto.
Qed.

(** C2. The grouping loop implements its specification exactly: a list
    of groups is a decomposition of the itinerary into maximal
    well-formed runs if and only if it is the loop's result. *)
Theorem group_schedule_refines l gs : is_grouping l gs <-> gs = group_schedule l.
Proof.
  split; [intros H; eapply is_grouping_unique; [exact H | apply group_schedule_is_grouping]|].
  intros ->. apply group_schedule_is_grouping.
Qed.

End Grouping.

Module Dedup.

(** [`${item.name}-${item.address}`] *)
Definition farm_key (it : schedule_item) : string := name it +:+ "-" +:+ address it.

(** One iteration of [group.items.forEach] over [(seen, uniqueItems)]. *)
Definition dedup_step (st : gset string * list schedule_item) (it : schedule_item)
    : gset string * list schedule_item :=
  let '(seen, out) := st in
  if bool_decide (farm_key it ∈ seen) then (seen, out)
  else ({[farm_key it]} ∪ seen, out ++ [it]).

Definition unique_items (items : list schedule_item) : list schedule_item :=
  (fold_left dedup_step items (∅, [])).2.

(** The reference de-duplication, without a [Set]: keep the first item
    and drop the later ones of its key, then go on with the rest. *)
Fixpoint keep_first (items : list schedule_item) : list schedule_item :=
  match items with
  | [] => []
  | x :: l => x :: List.filter (fun y => negb (String.eqb (farm_key y) (farm_key x))) (keep_first l)
  end.

(** The [Set] holds exactly the keys pushed so far. *)
Definition dedup_inv (st : gset string * list schedule_item) : Prop :=
  st.1 = list_to_set (farm_key <$> st.2) /\ NoDup (farm_key <$> st.2).

Lemma dedup_step_inv st it : dedup_inv st -> dedup_inv (dedup_step st it).
Proof.
  destruct st as [seen out]. unfold dedup_inv, dedup_step. cbn [fst snd]. intros [Hs Hnd].
  case_bool_decide as Hin; [done|]. cbn [fst snd].
  rewrite fmap_app, list_to_set_app_L. split.
  - rewrite Hs. set_solver.
  - apply NoDup_app. split; [done|]. split; [|apply NoDup_singleton].
    intros k Hk Hk'. apply list_elem_of_singleton in Hk'. subst k.
    apply Hin. rewrite Hs. by apply elem_of_list_to_set.
Qed.

Lemma fold_dedup_inv l st : dedup_inv st -> dedup_inv (fold_left dedup_step l st).
Proof.
  revert st. induction l as [|it l IH]; intros st H; simpl; [done|].
  by apply IH, dedup_step_inv.
Qed.

Lemma dedup_inv_init : dedup_inv (∅, []).
Proof. split; [done|constructor]. Qed.

(** The farm de-duplication keeps the first item of each key: on
    [l ++ [x]] it returns its result on [l], followed by [x] exactly
    when no kept item has [x]'s key. *)
Lemma unique_items_snoc l x :
  unique_items (l ++ [x]) =
  unique_items l ++ (if bool_decide (farm_key x ∈ farm_key <$> unique_items l) then [] else [x]).
Proof.
  unfold unique_items. rewrite fold_left_app. simpl.
  pose proof (fold_dedup_inv l _ dedup_inv_init) as [Hs _].
  destruct (fold_left dedup_step l (∅, [])) as [seen out]. simpl in *. subst seen.
  case_bool_decide as H1; case_bool_decide as H2; simpl; rewrite ?app_nil_r; try done.
  - by apply elem_of_list_to_set in H1.
  - by rewrite elem_of_list_to_set in H1.
Qed.

(** No two items the farm de-duplication keeps share a key. *)
Lemma unique_items_nodup l : NoDup (farm_key <$> unique_items l).
Proof. apply (fold_dedup_inv l _ dedup_inv_init). Qed.

Lemma unique_items_sublist l : unique_items l `sublist_of` l.
Proof.
  induction l as [|x l IH] using rev_ind; [done|]. rewrite unique_items_snoc.
  case_bool_decide; [rewrite app_nil_r; by apply sublist_inserts_r|].
  by apply sublist_app.
Qed.

(** Every key of the group is shown. *)
Lemma unique_items_keys l x : x ∈ l -> farm_key x ∈ farm_key <$> unique_items l.
Proof.
  induction l as [|y l IH] using rev_ind; [set_solver|]. rewrite unique_items_snoc.
  intros [Hx|Hx]%elem_of_app; case_bool_decide as Hin; rewrite ?app_nil_r, ?fmap_app;
    [by apply IH | apply elem_of_app; left; by apply IH | | ];
    apply list_elem_of_singleton in Hx; subst x; [done|set_solver].
Qed.

(** Dropping the items of key [k] keeps every other key. *)
Lemma keys_filter_other k kx l :
  kx <> k ->
  kx ∈ farm_key <$> List.filter (fun y => negb (String.eqb (farm_key y) k)) l <-> kx ∈ farm_key <$> l.
Proof.
  intros Hne. rewrite !list_elem_of_fmap. split.
  - intros (z & -> & [Hz _]%elem_of_filter_list). by exists z.
  - intros (z & -> & Hz). exists z. split; [done|]. apply elem_of_filter_list. split; [done|].
    by apply negb_true_iff, String.eqb_neq.
Qed.

(** The reference satisfies the same equation on [l ++ [x]] as the loop. *)
Lemma keep_first_snoc l x :
  keep_first (l ++ [x]) =
  keep_first l ++ (if bool_decide (farm_key x ∈ farm_key <$> keep_first l) then [] else [x]).
Proof.
  induction l as [|y l IH]; [done|]. cbn [app keep_first]. rewrite IH, List.filter_app. clear IH.
  set (K := keep_first l).
  set (F := List.filter (fun z => negb (String.eqb (farm_key z) (farm_key y))) K).
  assert (Hiff : farm_key x ∈ farm_key <$> y :: F <-> farm_key x = farm_key y \/ farm_key x ∈ farm_key <$> K).
  { rewrite fmap_cons, elem_of_cons.
    destruct (String.eqb_spec (farm_key x) (farm_key y)); [naive_solver|].
    unfold F. rewrite keys_filter_other by done. naive_solver. }
  rewrite (bool_decide_ext _ _ Hiff). do 2 f_equal.
  destruct (String.eqb_spec (farm_key x) (farm_key y)) as [E|E];
    case_bool_decide as H1; case_bool_decide as H2; simpl; try naive_solver.
  - by rewrite E, String.eqb_refl.
  - apply String.eqb_neq in E. by rewrite E.
Qed.

(** C9: the [Set]-based loop of [renderScheduleTable] computes exactly the
    reference de-duplication [keep_first]: the first item of each
    name-address key, in the order of the group. *)
Theorem unique_items_equiv l : unique_items l = keep_first l.
Proof.
  induction l as [|x l IH] using rev_ind; [done|].
  by rewrite unique_items_snoc, keep_first_snoc, IH.
Qed.

End Dedup.

Module Table.
Import Grouping Dedup.

(** One [schedule-place] entry: name, [start_time || ''], [address || ''] *)
Record place := mk_place { place_name : string; place_time : string; place_address : string }.

(** One [schedule-item] row of the table. *)
Record row := mk_row {
  day_range : string;
  row_date : string;
  row_type : string;
  row_is_tour : bool;
  row_places : list place
}.

(** [startDay === endDay ? `Day ${startDay}` : `Day ${startDay} ~ ${endDay}`] *)
Definition day_range_label (g : group) : string :=
  if Nat.eqb (startDay g) (endDay g) then "Day " +:+ pretty (startDay g)
  else "Day " +:+ pretty (startDay g) +:+ " ~ " +:+ pretty (endDay g).

Definition place_of (it : schedule_item) : place :=
  mk_place (name it) (start_time it || "")%js (address it || "")%js.

(** A farm group shows its de-duplicated items, a tour group all of them. *)
Definition group_places (g : group) : list place :=
  place_of <$> (if String.eqb (gtype g) farm_type then unique_items (gitems g) else gitems g).

(** [const firstItem = group.items[0]]: reading [firstItem.date] of an
    empty group throws a [TypeError], modelled by [None]. *)
Definition group_row (g : group) : option row :=
  match gitems g with
  | [] => None
  | first :: _ =>
      Some (mk_row (day_range_label g) (date first) (schedule_type first)
              (String.eqb (schedule_type first) tour_type) (group_places g))
  end.

Inductive view := Message (text : string) | Rows (rows : list row) | TypeError.

Definition render_groups (items : list schedule_item) : view :=
  match mapM group_row (group_schedule items) with
  | Some rows => Rows rows
  | None => TypeError
  end.

(** [renderScheduleTable(sched)] on [sched?.itinerary]. *)
Definition render_schedule_table (itinerary : option (list schedule_item)) : view :=
  let items := default [] itinerary in
  if Nat.eqb (length items) 0 then Message "일정이 생성되지 않았습니다."
  else render_groups items.

(** [renderMiniTime()] on [STATE.last_schedule?.itinerary]. *)
Definition render_mini_time (itinerary : option (list schedule_item)) : view :=
  match itinerary with
  | Some items =>
      if Nat.eqb (length items) 0 then Message "아직 생성된 여행 일정이 없습니다."
      else render_groups items
  | None => Message "아직 생성된 여행 일정이 없습니다."
  end.

Lemma group_row_wf g : group_wf g -> exists r, group_row g = Some r.
Proof. intros (f & r & Hi & _). unfold group_row. rewrite Hi. eauto. Qed.

Lemma render_groups_rows items :
  exists rows, render_groups items = Rows rows /\
    Forall2 (fun g r => group_row g = Some r) (group_schedule items) rows.
Proof.
  destruct (group_schedule_is_grouping items) as (_ & Hwf & _).
  assert (Hs : is_Some (mapM group_row (group_schedule items))).
  { apply mapM_is_Some. eapply Forall_impl; [exact Hwf|].
    intros g Hg. destruct (group_row_wf g Hg) as [r Hr]. simpl. by rewrite Hr. }
  destruct Hs as [rows Hrows]. exists rows. unfold render_groups. rewrite Hrows.
  split; [done|]. by apply mapM_Some_1.
Qed.

Lemma item_in_group items x :
  x ∈ items -> exists g, g ∈ group_schedule items /\ x ∈ gitems g.
Proof.
  destruct (group_schedule_is_grouping items) as (Hj & _). rewrite <- Hj at 1.
  intros (l' & Hx & Hl')%list_elem_of_join. apply list_elem_of_fmap in Hl' as (g & -> & Hg).
  eauto.
Qed.

(** C5. On a non-empty itinerary the table never throws and has one
    row per group.  Every item is shown in a row; a farm item may be
    shown by an earlier item with the same [name-address] key. *)
Theorem render_schedule_table_complete items :
  items <> [] ->
  exists rows, render_schedule_table (Some items) = Rows rows /\
    length rows = length (group_schedule items) /\
    forall x, x ∈ items -> exists r y, r ∈ rows /\ place_of y ∈ row_places r /\
      farm_key y = farm_key x /\ (is_farm x = false -> y = x).
Proof.
  intros Hne. destruct (render_groups_rows items) as (rows & Hr & Hf2).
  exists rows. unfold render_schedule_table. simpl.
  destruct (Nat.eqb_spec (length items) 0) as [Hl|_]; [by destruct items|].
  split; [done|]. split; [symmetry; by eapply Forall2_length|].
  intros x Hx. destruct (item_in_group items x Hx) as (g & Hg & Hxg).
  destruct (group_schedule_is_grouping items) as (_ & Hwf & _).
  pose proof (proj1 (Forall_forall _ _) Hwf g Hg) as Hgwf.
  apply list_elem_of_lookup in Hg as [i Hi].
  destruct (Forall2_lookup_l _ _ _ i g Hf2 Hi) as (r & Hri & Hgr).
  exists r. unfold group_row in Hgr.
  destruct (gitems g) as [|f rest] eqn:Hgi; [done|]. injection Hgr as <-.
  pose proof (list_elem_of_lookup_2 _ _ _ Hri) as Hrin.
  assert (Hpl : group_places g = place_of <$>
    (if String.eqb (gtype g) farm_type then unique_items (f :: rest) else f :: rest))
    by (unfold group_places; by rewrite Hgi).
  destruct (String.eqb_spec (gtype g) farm_type) as [Ht|Ht].
  - pose proof (unique_items_keys _ _ Hxg) as Hkx.
    apply list_elem_of_fmap in Hkx as (y & Hk & Hy).
    exists y. split; [exact Hrin|]. cbn [row_places]. rewrite Hpl.
    split; [by apply list_elem_of_fmap_2|]. split; [done|]. intros Hxf. exfalso.
    destruct (group_wf_type g f rest Hgwf Hgi) as [[_ Hff]|[Ht' _]];
      [|by destruct farm_ne_tour; congruence].
    rewrite <- Hgi in Hxg. destruct (group_wf_member g f rest x Hgwf Hgi Hxg). congruence.
  - exists x. split; [exact Hrin|]. cbn [row_places]. rewrite Hpl.
    by split; [apply list_elem_of_fmap_2|].
Qed.

End Table.

(** ** Witnesses *)

Example sample_groups :
  map (fun g => (Grouping.gtype g, Grouping.startDay g, Grouping.endDay g, length (Grouping.gitems g)))
      (Grouping.group_schedule sample_itinerary) =
  [(tour_type, 1, 1, 1); (farm_type, 2, 8, 7); (tour_type, 9, 9, 1); (tour_type, 10, 10, 2)].
Proof. vm_compute. reflexivity. Qed.

Example sample_farm_row :
  map (fun r => (Table.day_range r, length (Table.row_places r)))
    match Table.render_schedule_table (Some sample_itinerary) with Table.Rows rs => rs | _ => [] end =
  [("Day 1", 1); ("Day 2 ~ 8", 1); ("Day 9", 1); ("Day 10", 2)].
Proof. vm_compute. reflexivity. Qed.

Lemma render_schedule_table_complete_witness :
  sample_itinerary <> [] /\
  exists rows, Table.render_schedule_table (Some sample_itinerary) = Table.Rows rows /\
    length rows = length (Grouping.group_schedule sample_itinerary) /\
    forall x, x ∈ sample_itinerary -> exists r y, r ∈ rows /\ Table.place_of y ∈ Table.row_places r /\
      Dedup.farm_key y = Dedup.farm_key x /\ (is_farm x = false -> y = x).
Proof.
  split; [discriminate|]. apply Table.render_schedule_table_complete. discriminate.
Defined.
