(* ===== verification/Calendar.v ===== *)
(** * The home calendar: [STATE.calendar]

    [STATE.calendar] maps a month key ["YYYY-MM"] to an object from a day
    key to an array of entries (src/unnamed/part_000).  Two routines
    write it:
    - [updateHomeCalendar] (lines 1112-1146) turns the items of the last
      schedule into events.  It skips an item when an entry with the same
      [(activity, type)] already sits under its day.  Then it saves the
      calendar under ["ims_calendar"].
    - [upsertCalendarEvents] (lines 325-335) replays a history record's
      timeline and pushes every item without a check.
    [calendarBlocksHTML] (lines 296-323) reads it back: a grid cell shows
    a dot when [STATE.calendar[yymm][cell key]] is set.  [renderHome]'s
    click handler on a cell (lines 619-631) alerts the entries stored
    under the cell's date ([DayClick]); no cell carries the class it is
    attached to (see [MonthGrid]), so it is modelled as the function it
    would run.

    The calendar is a [gmap] of [gmap]s of entry lists.  An entry is
    either an event of [updateHomeCalendar] or a replayed timeline item;
    the two shapes share the arrays, as in the source. *)

From S2P Require Import Prelude Json Schedule.
From stdpp Require Import pretty.

(** ** Data *)

(** [{ activity, date, type, day }] built by [updateHomeCalendar] *)
Record cal_event := mk_event {
  activity : string;
  ev_date : string;
  ev_type : string;
  ev_day : nat
}.

(** A timeline item of a history record: [{ datetime, title, location, desc, icon }] *)
Record timeline_item := mk_tl {
  datetime : string;
  title : string;
  location : string;
  desc : string;
  icon : string
}.

Inductive cal_entry :=
  | Materialized (e : cal_event)
  | Replayed (t : timeline_item).

#[export] Instance cal_event_eq_dec : EqDecision cal_event.
Proof. intros [] []. solve_decision. Defined.
#[export] Instance timeline_item_eq_dec : EqDecision timeline_item.
Proof. intros [] []. solve_decision. Defined.
#[export] Instance cal_entry_eq_dec : EqDecision cal_entry.
Proof. solve_decision. Defined.

Abbreviation calendar := (gmap string (gmap string (list cal_entry))).

(** ** Storage encoding: the objects [JSON.stringify] writes *)

Definition encode_entry (en : cal_entry) : json :=
  match en with
  | Materialized e =>
      JObj [("activity", JStr (activity e)); ("date", JStr (ev_date e));
            ("type", JStr (ev_type e)); ("day", encode (ev_day e))]
  | Replayed t =>
      JObj [("datetime", JStr (datetime t)); ("title", JStr (title t));
            ("location", JStr (location t)); ("desc", JStr (desc t));
            ("icon", JStr (icon t))]
  end.

Definition str_field (k : string) (j : json) : option string :=
  get_field k j ≫= decode.

(** An object with an [activity] field is an event, any other a timeline item. *)
Definition decode_entry (j : json) : option cal_entry :=
  match get_field "activity" j with
  | Some _ =>
      a ← str_field "activity" j; d ← str_field "date" j; t ← str_field "type" j;
      n ← get_field "day" j ≫= decode; mret (Materialized (mk_event a d t n))
  | None =>
      dt ← str_field "datetime" j; ti ← str_field "title" j; l ← str_field "location" j;
      de ← str_field "desc" j; ic ← str_field "icon" j; mret (Replayed (mk_tl dt ti l de ic))
  end.

Lemma decode_encode_entry en : decode_entry (encode_entry en) = Some en.
Proof. destruct en as [[]|[]]; unfold decode_entry, str_field; simpl; by rewrite ?decode_num_of_nat. Qed.

#[export] Instance codec_entry : JsonCodec cal_entry :=
  {| encode := encode_entry; decode := decode_entry;
     decode_encode := decode_encode_entry;
     encode_not_null en := ltac:(by destruct en) |}.

(** ** [updateHomeCalendar] *)

Module Materialize.

(** [{ activity: item.name, date: item.date + (item.start_time ? ` ${item.start_time}` : ''),
       type: item.schedule_type, day: item.day }] *)
Definition event_of (it : schedule_item) : cal_event :=
  mk_event (name it)
    (date it +:+ (if truthy (start_time it) then " " +:+ start_time it else ""))
    (schedule_type it) (day it).

(** [event.activity === item.name && event.type === item.schedule_type];
    a replayed timeline item has no [activity] and never matches. *)
Definition entry_matches (it : schedule_item) (en : cal_entry) : bool :=
  match en with
  | Materialized e => String.eqb (activity e) (name it) && String.eqb (ev_type e) (schedule_type it)
  | Replayed _ => false
  end.

Definition month_key (it : schedule_item) : string := slice (date it) 0 7.
Definition day_key (it : schedule_item) : string := slice (date it) 8 10.

(** [if (item.date && item.name)] *)
Definition materializable (it : schedule_item) : bool := truthy (date it) && truthy (name it).

(** The body of [itinerary.forEach(item => ...)]. *)
Definition materialize_item (cal : calendar) (it : schedule_item) : calendar :=
  if materializable it then
    let ym := month_key it in
    let d := day_key it in
    let month := default ∅ (cal !! ym) in
    let evs := default [] (month !! d) in
    if existsb (entry_matches it) evs then <[ym := <[d := evs]> month]> cal
    else <[ym := <[d := evs ++ [Materialized (event_of it)]]> month]> cal
  else cal.

(** [updateHomeCalendar()], on [STATE.last_schedule?.itinerary],
    [STATE.calendar] and [localStorage]. *)
Definition update_home_calendar (itinerary : option (list schedule_item))
    (cal : calendar) (st : storage) : calendar * storage :=
  match itinerary with
  | None => (cal, st)
  | Some items =>
      let cal' := fold_left materialize_item items cal in
      (cal', set_json "ims_calendar" cal' st)
  end.

(** *** Lemmas *)

(** [it] already has a matching entry under its day. *)
Definition recorded (cal : calendar) (it : schedule_item) : Prop :=
  exists month evs, cal !! month_key it = Some month /\ month !! day_key it = Some evs /\
    existsb (entry_matches it) evs = true.

Lemma entry_matches_event it : entry_matches it (Materialized (event_of it)) = true.
Proof. simpl. by rewrite !String.eqb_refl. Qed.

Lemma materialize_item_recorded_id cal it : recorded cal it -> materialize_item cal it = cal.
Proof.
  intros (month & evs & Hm & Hd & He). unfold materialize_item.
  destruct (materializable it); [|done]. rewrite Hm, default_some, Hd, default_some, He.
  rewrite (insert_id month), (insert_id cal); done.
Qed.

Lemma materialize_item_id cal it :
  materializable it = false \/ recorded cal it -> materialize_item cal it = cal.
Proof.
  intros [Hf|Hr]; [unfold materialize_item, materializable in *; by rewrite Hf|].
  by apply materialize_item_recorded_id.
Qed.

Lemma materialize_item_records cal it :
  materializable it = true -> recorded (materialize_item cal it) it.
Proof.
  intros Ht. unfold materialize_item, materializable in *. rewrite Ht.
  destruct (existsb (entry_matches it) _) eqn:He; do 2 eexists;
    rewrite lookup_insert_eq; (split; [done|]); rewrite lookup_insert_eq; (split; [done|]);
    [done | rewrite existsb_app; cbn [existsb]; rewrite entry_matches_event; simpl; apply orb_true_r].
Qed.

(** Entries are only ever added: a recorded item stays recorded. *)
Lemma materialize_item_mono cal it x :
  recorded cal x -> recorded (materialize_item cal it) x.
Proof.
  intros (month & evs & Hm & Hd & He). unfold materialize_item.
  destruct (materializable it); [|by exists month, evs].
  destruct (decide (month_key it = month_key x)) as [Eym|Nym];
    [|destruct (existsb (entry_matches it) _); exists month, evs; by rewrite lookup_insert_ne].
  rewrite Eym, Hm, default_some.
  destruct (decide (day_key it = day_key x)) as [Ed|Nd].
  - rewrite Ed, Hd, default_some. destruct (existsb (entry_matches it) evs);
      eexists; eexists; rewrite lookup_insert_eq; (split; [done|]);
      rewrite lookup_insert_eq; (split; [done|]); rewrite ?existsb_app, He; done.
  - destruct (existsb (entry_matches it) _); eexists; exists evs; rewrite lookup_insert_eq;
      (split; [done|]); by rewrite lookup_insert_ne.
Qed.

Lemma fold_materialize_records items cal x :
  (x ∈ items /\ materializable x = true) \/ recorded cal x ->
  recorded (fold_left materialize_item items cal) x.
Proof.
  revert cal. induction items as [|it items IH]; intros cal Hx; simpl.
  - destruct Hx as [[Hin _]|Hr]; [by apply not_elem_of_nil in Hin|done].
  - apply IH. destruct Hx as [[Hin Ht]|Hr]; [|right; by apply materialize_item_mono].
    apply elem_of_cons in Hin as [->|Hin]; [right; by apply materialize_item_records|].
    by left.
Qed.

Lemma fold_materialize_id items cal :
  (forall x, x ∈ items -> materializable x = false \/ recorded cal x) ->
  fold_left materialize_item items cal = cal.
Proof.
  revert cal. induction items as [|it items IH]; intros cal Hall; simpl; [done|].
  rewrite materialize_item_id by (apply Hall; left).
  apply IH. intros x Hx. apply Hall. by right.
Qed.

(** *** Properties *)

(** C1. [updateHomeCalendar] is idempotent: run twice on the same
    schedule it leaves the calendar and the storage as one run does. *)
Theorem update_home_calendar_idempotent itinerary cal st :
  let '(cal1, st1) := update_home_calendar itinerary cal st in
  update_home_calendar itinerary cal1 st1 = (cal1, st1).
Proof.
  destruct itinerary as [items|]; simpl; [|done].
  rewrite fold_materialize_id.
  - unfold set_json. by rewrite insert_insert_eq.
  - intros x Hx. destruct (materializable x) eqn:Ht; [right|by left].
    apply fold_materialize_records. by left.
Qed.

Lemma recorded_spec cal x :
  recorded cal x <-> exists month evs e, cal !! month_key x = Some month /\
    month !! day_key x = Some evs /\ Materialized e ∈ evs /\
    activity e = name x /\ ev_type e = schedule_type x.
Proof.
  unfold recorded. setoid_rewrite existsb_exists. split.
  - intros (m & evs & Hm & Hd & [[e|t] [Hin Hmt]]); [|done].
    simpl in Hmt. apply andb_true_iff in Hmt as [H1 H2].
    apply String.eqb_eq in H1, H2. exists m, evs, e. rewrite <- list_elem_of_In in Hin. done.
  - intros (m & evs & e & Hm & Hd & Hin & H1 & H2). exists m, evs.
    do 2 (split; [done|]). exists (Materialized e). rewrite <- list_elem_of_In.
    split; [done|]. simpl. by rewrite H1, H2, !String.eqb_refl.
Qed.

(** C4. After materialisation, every item with a date and a name has an
    event under its month and day keys, with its name as [activity]
    and its [schedule_type] as [type]. *)
Theorem update_home_calendar_complete items cal st x :
  x ∈ items -> materializable x = true ->
  exists month evs e, (update_home_calendar (Some items) cal st).1 !! month_key x = Some month /\
    month !! day_key x = Some evs /\ Materialized e ∈ evs /\
    activity e = name x /\ ev_type e = schedule_type x.
Proof.
  intros Hx Ht. apply recorded_spec. simpl. apply fold_materialize_records. by left.
Qed.

(** ** No duplicate events *)

(** The [(activity, type)] of an event; a replayed item has none. *)
Definition event_key (en : cal_entry) : option (string * string) :=
  match en with Materialized e => Some (activity e, ev_type e) | Replayed _ => None end.

Definition cal_nodup (cal : calendar) : Prop :=
  map_Forall (fun _ month => map_Forall (fun _ evs => NoDup (omap event_key evs)) month) cal.

Lemma no_match_not_key it evs :
  existsb (entry_matches it) evs = false -> (name it, schedule_type it) ∉ omap event_key evs.
Proof.
  intros Hf Hin. apply list_elem_of_omap in Hin as ([e|t] & Hin & Hk); [|done].
  injection Hk as H1 H2. apply existsb_false_forall in Hf. rewrite Forall_forall in Hf.
  specialize (Hf _ Hin). simpl in Hf. by rewrite H1, H2, !String.eqb_refl in Hf.
Qed.

Lemma materialize_item_nodup cal it : cal_nodup cal -> cal_nodup (materialize_item cal it).
Proof.
  intros Hc. unfold materialize_item. destruct (materializable it); [|done].
  assert (Hm : map_Forall (fun _ evs => NoDup (omap event_key evs)) (default ∅ (cal !! month_key it))).
  { destruct (cal !! month_key it) as [m|] eqn:E; [exact (Hc _ _ E)|apply map_Forall_empty]. }
  assert (Hd : NoDup (omap event_key (default [] (default ∅ (cal !! month_key it) !! day_key it)))).
  { destruct (_ !! day_key it) as [l|] eqn:E; [exact (Hm _ _ E)|constructor]. }
  destruct (existsb (entry_matches it) _) eqn:He; apply map_Forall_insert_2; try done;
    apply map_Forall_insert_2; try done.
  rewrite omap_app. simpl. apply NoDup_app. split; [done|]. split; [|apply NoDup_singleton].
  intros k Hk ->%list_elem_of_singleton. by apply (no_match_not_key it _ He).
Qed.

(** C3. Materialisation keeps every day free of two events with the
    same [(activity, type)]: the property is an invariant. *)
Theorem update_home_calendar_nodup itinerary cal st :
  cal_nodup cal -> cal_nodup (update_home_calendar itinerary cal st).1.
Proof.
  intros Hc. destruct itinerary as [items|]; simpl; [|done].
  revert cal Hc. induction items as [|it items IH]; intros cal Hc; simpl; [done|].
  by apply IH, materialize_item_nodup.
Qed.

End Materialize.

(** ** [upsertCalendarEvents] *)

Module Replay.

(** The body of [(timeline || []).forEach(item => ...)]. *)
Definition upsert_item (cal : calendar) (t : timeline_item) : calendar :=
  let key := slice (datetime t) 0 10 in
  if truthy key then
    let ym := slice key 0 7 in
    let month := default ∅ (cal !! ym) in
    let evs := default [] (month !! key) in
    <[ym := <[key := evs ++ [Replayed t]]> month]> cal
  else cal.

(** [upsertCalendarEvents(timeline)] followed by its [saveState()]
    write of ["ims_calendar"]; the other keys [saveState] writes are
    unchanged by the replay. *)
Definition upsert_calendar_events (timeline : option (list timeline_item))
    (cal : calendar) (st : storage) : calendar * storage :=
  let cal' := fold_left upsert_item (default [] timeline) cal in
  (cal', set_json "ims_calendar" cal' st).

Definition replay_key (t : timeline_item) : string := slice (datetime t) 0 10.

Lemma upsert_item_lookup cal t :
  truthy (replay_key t) = true ->
  upsert_item cal t !! slice (replay_key t) 0 7 ≫= lookup (replay_key t) =
    Some (default [] (cal !! slice (replay_key t) 0 7 ≫= lookup (replay_key t)) ++ [Replayed t]).
Proof.
  intros Ht. unfold upsert_item. fold (replay_key t). rewrite Ht, lookup_insert_eq. simpl.
  rewrite lookup_insert_eq. destruct (cal !! _); simpl; done.
Qed.

(** C7. Replaying the same history record twice stores its items twice:
    unlike [updateHomeCalendar], the replay is not idempotent. *)
Theorem upsert_calendar_events_not_idempotent t cal st :
  truthy (replay_key t) = true ->
  (upsert_calendar_events (Some [t]) (upsert_calendar_events (Some [t]) cal st).1 st).1 <>
  (upsert_calendar_events (Some [t]) cal st).1.
Proof.
  intros Ht Heq. simpl in Heq.
  apply (f_equal (fun c => c !! slice (replay_key t) 0 7 ≫= lookup (replay_key t))) in Heq.
  rewrite !upsert_item_lookup in Heq by done. simpl in Heq. injection Heq as Heq.
  apply (f_equal length) in Heq. rewrite !length_app in Heq. simpl in Heq. lia.
Qed.

End Replay.

(** ** What the month grid reads *)

Module Grid.

(** [(month + 1).toString().padStart(2, "0")] *)
Definition pad2 (s : string) : string :=
  if Nat.ltb (String.length s) 2 then "0" +:+ s else s.

(** [year + "-" + mm] *)
Definition month_key (year month : nat) : string :=
  pretty year +:+ "-" +:+ pad2 (pretty (month + 1)).

(** [const has = !!cal[d.key]] with [cal = STATE.calendar[yymm] || {}]:
    an array, even an empty one, is truthy. *)
Definition cell_has (cal : calendar) (yymm key : string) : bool :=
  match cal !! yymm ≫= lookup key with Some _ => true | None => false end.

Lemma day_key_short it : String.length (Materialize.day_key it) <= 2.
Proof. apply slice_length_le. Qed.

Lemma materialize_item_grid cal it yymm key :
  String.length key = 10 ->
  Materialize.materialize_item cal it !! yymm ≫= lookup key = cal !! yymm ≫= lookup key.
Proof.
  intros Hk. unfold Materialize.materialize_item.
  destruct (Materialize.materializable it); [|done].
  assert (Hne : Materialize.day_key it <> key)
    by (intros Heq; pose proof (day_key_short it); rewrite Heq in *; lia).
  destruct (decide (Materialize.month_key it = yymm)) as [<-|Hne'];
    destruct (existsb _ _); rewrite ?lookup_insert_eq, ?lookup_insert_ne by done; try done;
    simpl; rewrite lookup_insert_ne by done; by destruct (cal !! _).
Qed.

(** C6. [updateHomeCalendar] files events under two-character day keys
    ([date.slice(8, 10)]), while a grid cell looks up its ten-character
    [YYYY-MM-DD] key.  So materialising a schedule never changes whether
    any cell shows a dot. *)
Theorem update_home_calendar_invisible itinerary cal st yymm key :
  String.length key = 10 ->
  cell_has (Materialize.update_home_calendar itinerary cal st).1 yymm key = cell_has cal yymm key.
Proof.
  intros Hk. unfold cell_has. destruct itinerary as [items|]; simpl; [|done].
  revert cal. induction items as [|it items IH]; intros cal; simpl; [done|].
  by rewrite IH, materialize_item_grid.
Qed.

End Grid.

(** ** The day-click alert of [renderHome] *)

Module DayClick.

(** The alert text of a day without events. *)
Definition no_events : string := "이 날짜에는 일정이 없습니다.".

(** [.join("\\n")]: in the source the string literal is a backslash
    followed by the letter [n], not a line break, so the alert shows the
    events of a day on one line, joined by those two characters. *)
Definition separator : string := String (Ascii.ascii_of_nat 92) "n".

(** [`${i.datetime.slice(11, 16)} ${i.title}`] *)
Definition line_of (t : timeline_item) : string := slice (datetime t) 11 16 +:+ " " +:+ title t.

(** The line of one entry: an event of [updateHomeCalendar] has no
    [datetime], so [.slice] throws a [TypeError] ([None]). *)
Definition entry_line (en : cal_entry) : option string :=
  match en with
  | Replayed t => Some (line_of t)
  | Materialized _ => None
  end.

(** The click handler [renderHome] attaches to a cell (lines 619-631),
    on the cell's [data-date]: the text it alerts, [None] when it
    throws.  [(STATE.calendar[yymm] || {})[date] || []] is the list
    stored under the date, empty when there is none. *)
Definition day_click (cal : calendar) (date : string) : option string :=
  match default [] (cal !! slice date 0 7 ≫= lookup date) with
  | [] => Some no_events
  | items => String.concat separator <$> mapM entry_line items
  end.

(** The calendars the two writers build from an empty one:
    [updateHomeCalendar] and [upsertCalendarEvents] in any order. *)
Inductive reachable : calendar -> Prop :=
  | reach_empty : reachable ∅
  | reach_update its cal st : reachable cal -> reachable (Materialize.update_home_calendar its cal st).1
  | reach_replay tl cal st : reachable cal -> reachable (Replay.upsert_calendar_events tl cal st).1.

(** Every entry stored under a key longer than two characters is a
    replayed timeline item: [updateHomeCalendar]'s day keys have at most
    two. *)
Definition long_keys_replayed (cal : calendar) : Prop :=
  forall ym mo k evs en, cal !! ym = Some mo -> mo !! k = Some evs -> en ∈ evs ->
    2 < String.length k -> exists t, en = Replayed t.

Lemma default_lookup_elem (cal : calendar) ym k en :
  en ∈ default [] (default ∅ (cal !! ym) !! k) ->
  exists mo evs, cal !! ym = Some mo /\ mo !! k = Some evs /\ en ∈ evs.
Proof.
  destruct (cal !! ym) as [mo|] eqn:E; simpl; [|rewrite lookup_empty; simpl; by intros ?%elem_of_nil].
  destruct (mo !! k) as [evs|] eqn:E'; simpl; [intros; by exists mo, evs|by intros ?%elem_of_nil].
Qed.

Lemma long_keys_insert (cal : calendar) ym k evs :
  long_keys_replayed cal ->
  (2 < String.length k -> forall en, en ∈ evs -> exists t, en = Replayed t) ->
  long_keys_replayed (<[ym := <[k := evs]> (default ∅ (cal !! ym))]> cal).
Proof.
  intros Hinv Hnew ym' mo k' evs' en Hym Hk Hen Hlen.
  apply lookup_insert_Some in Hym as [[<- <-]|[_ Hym]]; [|by eapply Hinv].
  apply lookup_insert_Some in Hk as [[<- <-]|[_ Hk]]; [by apply Hnew|].
  destruct (cal !! ym) as [mo|] eqn:E; simpl in Hk; [by eapply Hinv|by rewrite lookup_empty in Hk].
Qed.

Lemma materialize_item_long cal it :
  long_keys_replayed cal -> long_keys_replayed (Materialize.materialize_item cal it).
Proof.
  intros Hinv. unfold Materialize.materialize_item.
  destruct (Materialize.materializable it); [|done].
  pose proof (slice_length_le (date it) 8 10). fold (Materialize.day_key it) in *.
  destruct (existsb _ _); apply long_keys_insert; auto; lia.
Qed.

Lemma upsert_item_long cal t :
  long_keys_replayed cal -> long_keys_replayed (Replay.upsert_item cal t).
Proof.
  intros Hinv. unfold Replay.upsert_item. destruct (truthy _); [|done].
  apply long_keys_insert; [done|]. intros Hlen en [Hen|Hen%list_elem_of_singleton]%elem_of_app; [|by eauto].
  apply default_lookup_elem in Hen as (mo & evs & Hym & Hk & Hen). by eapply Hinv.
Qed.

Lemma reachable_long cal : reachable cal -> long_keys_replayed cal.
Proof.
  induction 1 as [|its cal st _ IH|tl cal st _ IH].
  - intros ym mo k evs en Hym. by rewrite lookup_empty in Hym.
  - destruct its as [items|]; simpl; [|done]. revert cal IH. induction items; intros; simpl; auto using materialize_item_long.
  - simpl. generalize (default [] tl). intros l. revert cal IH. induction l; intros; simpl; auto using upsert_item_long.
Qed.


Lemma all_replayed (l : list cal_entry) :
  (forall en, en ∈ l -> exists t, en = Replayed t) -> exists ts, l = Replayed <$> ts.
Proof.
  induction l as [|en l IH]; intros Hl; [by exists []|].
  destruct (Hl en) as [t ->]; [left|].
  destruct IH as [ts ->]; [intros; apply Hl; by right|]. by exists (t :: ts).
Qed.

Lemma mapM_entry_line ts : mapM entry_line (Replayed <$> ts) = Some (line_of <$> ts).
Proof. induction ts as [|t ts IH]; [done|]. simpl. change (list_fmap _ _ Replayed ts) with (Replayed <$> ts). by rewrite IH. Qed.

(** C32: on every calendar the two writers build, clicking a day cell
    (its [data-date] is a ten-character date) never throws: the day's
    entries are all replayed timeline items, and the alert lists their
    times and titles in the order stored, joined by the two characters
    backslash and [n], or says that the day has no events. *)
Theorem day_click_replayed cal date :
  reachable cal -> 2 < String.length date ->
  exists ts, default [] (cal !! slice date 0 7 ≫= lookup date) = Replayed <$> ts /\
    day_click cal date = Some (match ts with [] => no_events | _ => String.concat separator (line_of <$> ts) end).
Proof.
  intros Hr Hlen. apply reachable_long in Hr.
  destruct (all_replayed (default [] (cal !! slice date 0 7 ≫= lookup date))) as [ts Hts].
  { intros en Hen. destruct (cal !! slice date 0 7) as [mo|] eqn:E; simpl in Hen; [|by apply elem_of_nil in Hen].
    destruct (mo !! date) as [evs|] eqn:E'; simpl in Hen; [by eapply Hr|by apply elem_of_nil in Hen]. }
  exists ts. split; [done|]. unfold day_click. rewrite Hts.
  destruct ts as [|t ts]; [done|]. pose proof (mapM_entry_line (t :: ts)) as H. cbn [fmap list_fmap] in H |- *. by rewrite H.
Qed.

End DayClick.

(** ** Witnesses *)

Definition sample_item : schedule_item := mk_item 1 "2025-10-01" tour_type "벽골제" "15:00" "전북 김제시".

(** A timeline item in the shape [mockPlan] produces (lines 384-390). *)
Definition sample_timeline_item : timeline_item :=
  mk_tl "2025-10-03T08:00:00" "사과 수확 돕기" "전북 김제시 봉남면" "농장 도우미" "🍎".

Example sample_materialized :
  (Materialize.update_home_calendar (Some sample_itinerary) ∅ ∅).1 !! "2025-10" ≫= lookup "01" =
  Some [Materialized (mk_event "벽골제" "2025-10-01 15:00" tour_type 1)].
Proof. vm_compute. reflexivity. Qed.

Lemma update_home_calendar_complete_witness :
  sample_item ∈ sample_itinerary /\ Materialize.materializable sample_item = true /\
  exists month evs e,
    (Materialize.update_home_calendar (Some sample_itinerary) ∅ ∅).1 !! Materialize.month_key sample_item = Some month /\
    month !! Materialize.day_key sample_item = Some evs /\ Materialized e ∈ evs /\
    activity e = name sample_item /\ ev_type e = schedule_type sample_item.
Proof.
  split; [constructor|]. split; [reflexivity|].
  apply Materialize.update_home_calendar_complete; [constructor|reflexivity].
Defined.

Lemma update_home_calendar_nodup_witness :
  Materialize.cal_nodup ∅ /\
  Materialize.cal_nodup (Materialize.update_home_calendar (Some sample_itinerary) ∅ ∅).1.
Proof.
  split; [apply map_Forall_empty|].
  apply Materialize.update_home_calendar_nodup. apply map_Forall_empty.
Defined.

Lemma upsert_calendar_events_not_idempotent_witness :
  truthy (Replay.replay_key sample_timeline_item) = true /\
  (Replay.upsert_calendar_events (Some [sample_timeline_item])
     (Replay.upsert_calendar_events (Some [sample_timeline_item]) ∅ ∅).1 ∅).1 <>
  (Replay.upsert_calendar_events (Some [sample_timeline_item]) ∅ ∅).1.
Proof.
  split; [reflexivity|]. apply Replay.upsert_calendar_events_not_idempotent. reflexivity.
Defined.

Lemma update_home_calendar_invisible_witness :
  String.length "2025-10-01" = 10 /\
  Grid.cell_has (Materialize.update_home_calendar (Some sample_itinerary) ∅ ∅).1 "2025-10" "2025-10-01" =
  Grid.cell_has ∅ "2025-10" "2025-10-01".
Proof.
  split; [reflexivity|]. apply Grid.update_home_calendar_invisible. reflexivity.
Defined.

Definition sample_lunch : timeline_item :=
  mk_tl "2025-10-03T12:00:00" "시장 투어 & 점심" "전주 남부시장" "칼국수 추천" "🍜".

Lemma day_click_replayed_witness :
  let cal := (Replay.upsert_calendar_events (Some [sample_timeline_item; sample_lunch])
                (Materialize.update_home_calendar (Some sample_itinerary) ∅ ∅).1 ∅).1 in
  DayClick.reachable cal /\ 2 < String.length "2025-10-03" /\
  exists ts, default [] (cal !! slice "2025-10-03" 0 7 ≫= lookup "2025-10-03") = Replayed <$> ts /\
    DayClick.day_click cal "2025-10-03" =
      Some (match ts with [] => DayClick.no_events | _ => String.concat DayClick.separator (DayClick.line_of <$> ts) end).
Proof.
  intros cal. assert (Hr : DayClick.reachable cal) by (apply DayClick.reach_replay, DayClick.reach_update, DayClick.reach_empty).
  split_and!; [exact Hr|simpl; lia|]. exact (DayClick.day_click_replayed cal "2025-10-03" Hr ltac:(simpl; lia)).
Defined.
