(* ===== verification/Cards.v ===== *)
(** * Recommendation cards and their selection

    Models the card part of the chat screen (src/unnamed/part_000):
    - the mapping of the engine's [farms] and [tour_spots] to cards in
      [triggerRecommendation] (lines 676-696);
    - the checkbox handler of [bindCardActions] (lines 872-914).  Checking
      a farm ("jobs") card replaces the chosen farm; a tour card is added;
      unchecking removes by id;
    - the payload of the "make plan" button (lines 717-725).

    The state is [CURRENT_RECO] with [STATE.chosenCards].  [Selection]
    gives the handler as a function and the session as a step relation
    over recommendation and checkbox events.  Theorems: at most one farm
    is chosen and no id twice, in every reachable state; the payload's
    farm is that card.  Two findings are proved.  The payload sends the
    card object, not the engine's record, so the fields the API reference
    requires are missing at its top level.  And a farm once chosen stays the
    plan's farm through any run of new recommendations, whichever farms
    they hold, and of checkbox changes that neither uncheck it nor check
    another farm. *)

From S2P Require Import Prelude Json.

(** ** The engine's records ([data.farms], [data.tour_spots]) *)

(** A farm record (src/unnamed/part_001, lines 79-88); every field may be
    missing, and the client reads it through [||] fallbacks. *)
Record farm_record := mk_farm {
  farm_id : option string;
  farm_alt_id : option string;   (* [f.id] *)
  farm_name : option string;     (* [f.farm] *)
  farm_title : option string;
  farm_address : option string;
  farm_start : option string;
  farm_end : option string;
  farm_photo : option string;
  farm_people : option string
}.

(** A tour record (src/unnamed/part_001, lines 91-96). *)
Record tour_record := mk_tour {
  tour_id : option string;
  tour_contentid : option string;
  tour_alt_id : option string;   (* [t.id] *)
  tour_name : option string;
  tour_address : option string;
  tour_photo : option string
}.

Inductive engine_obj := FarmRec (f : farm_record) | TourRec (t : tour_record).

#[export] Instance farm_record_eq_dec : EqDecision farm_record.
Proof. intros [] []. solve_decision. Defined.
#[export] Instance tour_record_eq_dec : EqDecision tour_record.
Proof. intros [] []. solve_decision. Defined.
#[export] Instance engine_obj_eq_dec : EqDecision engine_obj.
Proof. solve_decision. Defined.

(** ** Cards *)

(** [{ id, title, location, img, time?, people?, kind, raw }] *)
Record card := mk_card {
  card_id : string;
  card_title : string;
  card_location : string;
  card_img : string;
  card_time : option string;
  card_people : option string;
  card_kind : string;
  card_raw : engine_obj
}.

#[export] Instance card_eq_dec : EqDecision card.
Proof. intros [] []. solve_decision. Defined.

Definition jobs_kind : string := "jobs".
Definition tours_kind : string := "tours".

Section Mapping.
(** [crypto.randomUUID()]: an arbitrary fresh id, drawn by the card's
    position in its list. *)
Context (random_uuid : nat -> string).

(** [o || d] for a possibly missing string [o] and a default string [d]. *)
Definition fallback (o : option string) (d : string) : string := default d (o || Some d)%js.

(** [farms.map((f) => ({ ... }))], element [i] *)
Definition farm_card (i : nat) (f : farm_record) : card :=
  mk_card (fallback (farm_id f || farm_alt_id f)%js (random_uuid i))
    (fallback (farm_title f || farm_name f)%js "농가 체험")
    (fallback (farm_address f) "") (fallback (farm_photo f) "")
    (Some (fallback (farm_start f) "08:00" +:+ " - " +:+ fallback (farm_end f) "17:00"))
    (Some (fallback (farm_people f) ""))
    jobs_kind (FarmRec f).

(** [tours.map((t) => ({ ... }))], element [i] *)
Definition tour_card (i : nat) (t : tour_record) : card :=
  mk_card (fallback (tour_id t || tour_contentid t || tour_alt_id t)%js (random_uuid i))
    (fallback (tour_name t) "관광지") (fallback (tour_address t) "") (fallback (tour_photo t) "")
    None None tours_kind (TourRec t).

(** [CURRENT_RECO = { jobs: farmCards, tours: tourCards }] *)
Record reco := mk_reco { reco_jobs : list card; reco_tours : list card }.

Definition cards_of (farms : list farm_record) (tours : list tour_record) : reco :=
  mk_reco (imap farm_card farms) (imap tour_card tours).

End Mapping.

(** ** Selection *)

Module Selection.

(** [{ ...item, kind: kind, raw: item }]: the card's fields, its [kind]
    overwritten, and the card itself as [raw]. *)
Record chosen := mk_chosen { ch_card : card; ch_kind : string }.

Definition ch_id (c : chosen) : string := card_id (ch_card c).

(** [c.kind === "jobs"] *)
Definition is_jobs (c : chosen) : bool := String.eqb (ch_kind c) jobs_kind.

(** [checkbox.onchange] for the box with [data-id = id], [data-kind = kind]. *)
Definition on_change (r : reco) (cs : list chosen) (id kind : string) (checked : bool)
    : list chosen :=
  if checked then
    let cs1 := if String.eqb kind jobs_kind
               then List.filter (fun c => negb (is_jobs c)) cs else cs in
    let pool := if String.eqb kind jobs_kind then reco_jobs r else reco_tours r in
    match List.find (fun x => String.eqb (card_id x) id) pool with
    | Some item =>
        if existsb (fun c => String.eqb (ch_id c) id) cs1 then cs1 else cs1 ++ [mk_chosen item kind]
    | None => cs1
    end
  else List.filter (fun c => negb (String.eqb (ch_id c) id)) cs.

(** The payload of [#makePlan]: [(chosenCards.find(c => c.kind === "jobs") || {}).raw]
    and the [raw] of every tour. *)
Definition selected_farm (cs : list chosen) : option card :=
  option_map ch_card (List.find is_jobs cs).

Definition selected_tours (cs : list chosen) : list card :=
  map ch_card (List.filter (fun c => String.eqb (ch_kind c) tours_kind) cs).

(** *** The session as a step relation *)

Record session := mk_session { current_reco : reco; chosen_cards : list chosen }.

Inductive event :=
  | Recommend (r : reco)                        (* a new [CURRENT_RECO] *)
  | Toggle (id kind : string) (checked : bool).  (* a checkbox change *)

Definition apply_event (s : session) (e : event) : session :=
  match e with
  | Recommend r => mk_session r (chosen_cards s)
  | Toggle id kind checked =>
      mk_session (current_reco s) (on_change (current_reco s) (chosen_cards s) id kind checked)
  end.

Inductive step : session -> session -> Prop :=
  | step_event s e : step s (apply_event s e).

Definition initial : session := mk_session (mk_reco [] []) [].

Inductive reachable : session -> Prop :=
  | reach_init : reachable initial
  | reach_step s s' : reachable s -> step s s' -> reachable s'.

(** A sequence of events from a reachable session ends in one. *)
Lemma reachable_events es s : reachable s -> reachable (fold_left apply_event es s).
Proof.
  revert s. induction es as [|e es IH]; intros s Hs; simpl; [done|].
  apply IH. eapply reach_step; [exact Hs|constructor].
Qed.

(** *** Invariant: one farm at most, no id twice *)

Definition sel_inv (cs : list chosen) : Prop :=
  length (List.filter is_jobs cs) <= 1 /\ NoDup (map ch_id cs).

Lemma filter_jobs_filter (P : chosen -> bool) cs :
  length (List.filter is_jobs (List.filter P cs)) <= length (List.filter is_jobs cs).
Proof.
  induction cs as [|c cs IH]; simpl; [done|].
  destruct (P c), (is_jobs c) eqn:E; simpl; rewrite ?E; simpl; lia.
Qed.

Lemma NoDup_map_filter {A B} (f : A -> B) (P : A -> bool) (l : list A) :
  NoDup (map f l) -> NoDup (map f (List.filter P l)).
Proof.
  induction l as [|x l IH]; simpl; [done|]. intros Hnd. apply NoDup_cons in Hnd as [Hx Hnd].
  destruct (P x); simpl; [|by apply IH]. apply NoDup_cons. split; [|by apply IH].
  intros Hin. apply Hx. apply list_elem_of_In in Hin. apply list_elem_of_In.
  apply in_map_iff in Hin as (y & <- & Hy). apply in_map. by apply filter_In in Hy as [? _].
Qed.

Lemma sel_inv_filter (P : chosen -> bool) cs : sel_inv cs -> sel_inv (List.filter P cs).
Proof.
  intros [H1 H2]. split; [pose proof (filter_jobs_filter P cs); lia|]. by apply NoDup_map_filter.
Qed.

Lemma filter_jobs_none cs : List.filter is_jobs (List.filter (fun c => negb (is_jobs c)) cs) = [].
Proof.
  induction cs as [|c cs IH]; simpl; [done|].
  destruct (is_jobs c) eqn:E; simpl; rewrite ?E; done.
Qed.

Lemma sel_inv_snoc cs c :
  sel_inv cs -> existsb (fun c' => String.eqb (ch_id c') (ch_id c)) cs = false ->
  (is_jobs c = true -> List.filter is_jobs cs = []) -> sel_inv (cs ++ [c]).
Proof.
  intros [H1 H2] He Hj. split.
  - rewrite List.filter_app, length_app. simpl.
    destruct (is_jobs c) eqn:E; simpl; [rewrite Hj by done; simpl; lia | lia].
  - rewrite map_app. simpl. apply NoDup_app. split; [done|]. split; [|apply NoDup_singleton].
    intros k Hk ->%list_elem_of_singleton. apply list_elem_of_In, in_map_iff in Hk as (c' & Hc & Hin).
    apply existsb_false_forall in He. rewrite Forall_forall in He.
    specialize (He c' (proj2 (list_elem_of_In _ _) Hin)). by rewrite Hc, String.eqb_refl in He.
Qed.

Lemma on_change_inv r cs id kind checked : sel_inv cs -> sel_inv (on_change r cs id kind checked).
Proof.
  intros Hinv. unfold on_change. destruct checked; [|by apply sel_inv_filter].
  assert (Hcs1 : sel_inv (if String.eqb kind jobs_kind
                          then List.filter (fun c => negb (is_jobs c)) cs else cs))
    by (destruct (String.eqb kind jobs_kind); [by apply sel_inv_filter|done]).
  destruct (List.find _ _) as [item|] eqn:Hf; [|done].
  destruct (existsb _ _) eqn:He; [done|]. apply sel_inv_snoc; [done|..].
  - unfold ch_id at 2. simpl. apply List.find_some in Hf as [_ Hid].
    apply String.eqb_eq in Hid. by rewrite Hid.
  - unfold is_jobs at 1. simpl. intros Hk. rewrite Hk. apply filter_jobs_none.
Qed.

(** C11. In every state of a session, at most one farm card is chosen
    and no card id is chosen twice. *)
Theorem reachable_sel_inv s : reachable s -> sel_inv (chosen_cards s).
Proof.
  induction 1 as [|s s' _ IH Hst]; [split; [simpl; lia|constructor]|].
  inversion Hst as [s0 e]; subst. destruct e; simpl; [done|]. by apply on_change_inv.
Qed.

Lemma find_app_none {A} (f : A -> bool) (l1 l2 : list A) :
  List.find f l1 = None -> List.find f (l1 ++ l2) = List.find f l2.
Proof. induction l1 as [|x l1 IH]; simpl; [done|]. destruct (f x); [done|apply IH]. Qed.

Lemma find_jobs_filtered cs : List.find is_jobs (List.filter (fun c => negb (is_jobs c)) cs) = None.
Proof.
  induction cs as [|c cs IH]; simpl; [done|].
  destruct (is_jobs c) eqn:E; simpl; rewrite ?E; done.
Qed.

(** Checking a farm card that the current recommendation holds makes
    it the farm of the plan payload, replacing any farm chosen before,
    unless a chosen tour card already carries the same id. *)
Theorem on_change_selects_farm r cs id item :
  List.find (fun x => String.eqb (card_id x) id) (reco_jobs r) = Some item ->
  existsb (fun c => String.eqb (ch_id c) id) (List.filter (fun c => negb (is_jobs c)) cs) = false ->
  selected_farm (on_change r cs id jobs_kind true) = Some item.
Proof.
  intros Hf He. unfold on_change. rewrite String.eqb_refl, Hf, He.
  unfold selected_farm. rewrite find_app_none by apply find_jobs_filtered.
  reflexivity.
Qed.

Lemma find_app_some {A} (f : A -> bool) (l1 l2 : list A) x :
  List.find f l1 = Some x -> List.find f (l1 ++ l2) = Some x.
Proof. induction l1 as [|y l1 IH]; simpl; [done|]. by destruct (f y). Qed.

Lemma find_filter_keep {A} (f P : A -> bool) (l : list A) x :
  List.find f l = Some x -> P x = true -> List.find f (List.filter P l) = Some x.
Proof.
  induction l as [|y l IH]; simpl; [done|]. destruct (f y) eqn:Ef.
  - intros [= ->] Hp. by rewrite Hp; simpl; rewrite Ef.
  - intros Hf Hp. destruct (P y); simpl; [rewrite Ef|]; auto.
Qed.

(** An event that leaves a chosen farm [c] in place by itself: a new
    recommendation, or a checkbox change for another id that does not
    check a farm box. *)
Definition unrelated_event (c : card) (e : event) : Prop :=
  match e with
  | Recommend _ => True
  | Toggle id kind checked => id <> card_id c /\ (checked = true -> kind <> jobs_kind)
  end.

Lemma on_change_keeps_farm r cs id kind checked c :
  selected_farm cs = Some c -> id <> card_id c -> (checked = true -> kind <> jobs_kind) ->
  selected_farm (on_change r cs id kind checked) = Some c.
Proof.
  unfold selected_farm. intros Hs Hid Hk.
  destruct (List.find is_jobs cs) as [x|] eqn:Hf; [|done]. injection Hs as <-.
  unfold on_change. destruct checked.
  - rewrite (proj2 (String.eqb_neq _ _) (Hk eq_refl)).
    destruct (List.find (fun y => String.eqb (card_id y) id) _); [destruct (existsb _ _)|];
      [|rewrite (find_app_some _ _ _ x Hf)|]; rewrite ?Hf; done.
  - rewrite (find_filter_keep _ _ _ x Hf); [done|]. apply negb_true_iff, String.eqb_neq. done.
Qed.

Lemma events_keep_farm es s c :
  selected_farm (chosen_cards s) = Some c -> Forall (unrelated_event c) es ->
  selected_farm (chosen_cards (fold_left apply_event es s)) = Some c.
Proof.
  revert s. induction es as [|e es IH]; intros s Hs Hes; simpl; [done|].
  apply Forall_cons in Hes as [He Hes]. apply IH; [|done].
  destruct e as [r|id kind checked]; simpl; [done|]. destruct He. by apply on_change_keeps_farm.
Qed.

End Selection.

(** ** The plan request body, as [JSON.stringify] writes it *)

Module Payload.
Import Selection.

(** A field that is [undefined] is left out. *)
Definition opt_field (k : string) (o : option string) : list (string * json) :=
  match o with Some v => [(k, JStr v)] | None => [] end.

(** An engine record with the fields the response carries. *)
Definition record_json (o : engine_obj) : json :=
  match o with
  | FarmRec f =>
      JObj (opt_field "farm_id" (farm_id f) ++ opt_field "farm" (farm_name f) ++
            opt_field "title" (farm_title f) ++ opt_field "address" (farm_address f) ++
            opt_field "start_time" (farm_start f) ++ opt_field "end_time" (farm_end f) ++
            opt_field "photo" (farm_photo f) ++ opt_field "required_people" (farm_people f) ++
            opt_field "id" (farm_alt_id f))
  | TourRec t =>
      JObj (opt_field "tour_id" (tour_id t) ++ opt_field "contentid" (tour_contentid t) ++
            opt_field "name" (tour_name t) ++ opt_field "address" (tour_address t) ++
            opt_field "photo" (tour_photo t) ++ opt_field "id" (tour_alt_id t))
  end.

(** A card object: [{ id, title, location, img, time, people, kind, raw }]. *)
Definition card_json (c : card) : json :=
  JObj ([("id", JStr (card_id c)); ("title", JStr (card_title c));
         ("location", JStr (card_location c)); ("img", JStr (card_img c))] ++
        opt_field "time" (card_time c) ++ opt_field "people" (card_people c) ++
        [("kind", JStr (card_kind c)); ("raw", record_json (card_raw c))]).

(** [{ user_id: STATE.user_id || "local_user", natural_request, selected_farm, selected_tours }] *)
Definition plan_payload (user_id : option string) (natural_request : string) (cs : list chosen)
    : json :=
  JObj ([("user_id", JStr (fallback user_id "local_user")); ("natural_request", JStr natural_request)] ++
        match selected_farm cs with Some c => [("selected_farm", card_json c)] | None => [] end ++
        [("selected_tours", JArr (card_json <$> selected_tours cs))]).

Lemma card_json_fields c : get_field "address" (card_json c) = None /\ get_field "farm" (card_json c) = None.
Proof.
  unfold card_json, get_field. rewrite !field_of_app.
  by destruct (card_time c), (card_people c).
Qed.

Lemma plan_payload_selected_farm uid req cs c :
  selected_farm cs = Some c -> get_field "selected_farm" (plan_payload uid req cs) = Some (card_json c).
Proof. intros Hs. unfold plan_payload, get_field. rewrite !field_of_app, Hs. reflexivity. Qed.

(** C13. The plan request carries the chosen farm's card object as
    [selected_farm], not the engine's farm record: the object has no
    top-level [address] or [farm] field, which the API reference's
    request body has (src/unnamed/part_001, lines 135-140). *)
Theorem plan_payload_farm_is_card uid req cs c :
  selected_farm cs = Some c ->
  get_field "selected_farm" (plan_payload uid req cs) = Some (card_json c) /\
  get_field "address" (card_json c) = None /\ get_field "farm" (card_json c) = None.
Proof.
  intros Hs. split; [by apply plan_payload_selected_farm|apply card_json_fields].
Qed.

End Payload.

(** ** A session that keeps a stale farm *)

Definition sample_uuid (_ : nat) : string := "00000000-0000-4000-8000-000000000000".

(** The farm record of the API reference (src/unnamed/part_001, lines 79-88). *)
Definition sample_farm : farm_record :=
  mk_farm (Some "farm_0") None (Some "김제 과수농장") (Some "사과 수확 체험") (Some "전북 김제시 금구면")
    (Some "08:00") (Some "17:00") (Some "/public/images/jobs/김제_사과.jpg") (Some "2-4명").

Definition other_farm : farm_record :=
  mk_farm (Some "farm_3") None (Some "고창 복분자농장") (Some "복분자 수확") (Some "전북 고창군 아산면")
    None None None None.

Definition sample_tour : tour_record :=
  mk_tour (Some "574285") None None (Some "김제지평선축제") (Some "전북 김제시 부량면") None.

Definition sample_session : Selection.session :=
  fold_left Selection.apply_event
    [Selection.Recommend (cards_of sample_uuid [sample_farm] [sample_tour]);
     Selection.Toggle "farm_0" jobs_kind true;
     Selection.Toggle "574285" tours_kind true]
    Selection.initial.

Lemma sample_session_reachable : Selection.reachable sample_session.
Proof. apply Selection.reachable_events, Selection.reach_init. Qed.

(** C14. [triggerRecommendation] replaces [CURRENT_RECO] but never clears
    [STATE.chosenCards]: once a farm is chosen, any run of new
    recommendations, whichever farms they hold, and of checkbox changes
    that neither uncheck that card nor check a farm, leaves it the farm
    of the plan request. *)
Theorem stale_farm_survives s es c uid req :
  Selection.selected_farm (Selection.chosen_cards s) = Some c ->
  Forall (Selection.unrelated_event c) es ->
  get_field "selected_farm"
    (Payload.plan_payload uid req (Selection.chosen_cards (fold_left Selection.apply_event es s)))
  = Some (Payload.card_json c).
Proof.
  intros Hs Hes. by apply Payload.plan_payload_selected_farm, Selection.events_keep_farm.
Qed.

(** ** Witnesses *)

(** The farm of [sample_session] is still sent after a recommendation
    that holds only another farm. *)
Lemma stale_farm_survives_witness :
  let s' := fold_left Selection.apply_event
              [Selection.Recommend (cards_of sample_uuid [other_farm] []); Selection.Toggle "574285" tours_kind false]
              sample_session in
  farm_card sample_uuid 0 sample_farm ∉ reco_jobs (Selection.current_reco s') /\
  get_field "selected_farm" (Payload.plan_payload None "10월 김제" (Selection.chosen_cards s'))
  = Some (Payload.card_json (farm_card sample_uuid 0 sample_farm)).
Proof.
  split; [simpl; intros Hin%list_elem_of_singleton; discriminate|].
  apply stale_farm_survives; [reflexivity|].
  repeat constructor; simpl; try discriminate; intros Hin; discriminate.
Defined.

Lemma reachable_sel_inv_witness :
  Selection.reachable sample_session /\ Selection.sel_inv (Selection.chosen_cards sample_session).
Proof.
  split; [apply sample_session_reachable|]. apply Selection.reachable_sel_inv, sample_session_reachable.
Defined.

Lemma on_change_selects_farm_witness :
  let r := cards_of sample_uuid [sample_farm] [sample_tour] in
  List.find (fun x => String.eqb (card_id x) "farm_0") (reco_jobs r) = Some (farm_card sample_uuid 0 sample_farm) /\
  existsb (fun c => String.eqb (Selection.ch_id c) "farm_0")
    (List.filter (fun c => negb (Selection.is_jobs c)) (Selection.chosen_cards sample_session)) = false /\
  Selection.selected_farm (Selection.on_change r (Selection.chosen_cards sample_session) "farm_0" jobs_kind true) =
    Some (farm_card sample_uuid 0 sample_farm).
Proof.
  cbv zeta. split; [reflexivity|]. split; [reflexivity|].
  apply Selection.on_change_selects_farm; reflexivity.
Defined.

Lemma plan_payload_farm_is_card_witness :
  Selection.selected_farm (Selection.chosen_cards sample_session) = Some (farm_card sample_uuid 0 sample_farm) /\
  get_field "selected_farm" (Payload.plan_payload None "10월에 열흘간 김제에서 과수원 체험하고 싶어"
      (Selection.chosen_cards sample_session)) = Some (Payload.card_json (farm_card sample_uuid 0 sample_farm)) /\
  get_field "address" (Payload.card_json (farm_card sample_uuid 0 sample_farm)) = None /\
  get_field "farm" (Payload.card_json (farm_card sample_uuid 0 sample_farm)) = None.
Proof.
  split; [reflexivity|]. apply Payload.plan_payload_farm_is_card. reflexivity.
Defined.
