(* ===== verification/Scorer.v ===== *)
(** * The preference scorer: [score_and_rank_attractions]

    The back end's scoring routine, as the implementation report quotes
    it (src/unnamed/part_001, lines 728-750):
    - two points per user travel style that matches any of the
      attraction's [travel_style_keywords];
    - one bonus point when the user named landscapes and one of them
      matches one of the attraction's [landscape_keywords];
    - then [sorted(scored, key=lambda x: x.score, reverse=True)].

    [parse_keywords] and [keywords_match] are not shown in the
    repository.  They are the parameters of the [Scoring] section, so
    every theorem holds for any keyword splitter and any matching
    relation.  Python's [sorted] is a stable sort, and [reverse=True]
    keeps equal elements in their input order.  The model is an insertion
    sort ([sort_desc]).  [Ranking] proves that it meets the specification
    of a stable descending sort ([stable_desc]) and is the only list
    meeting it.  So the choice of algorithm is not observable. *)

From S2P Require Import Prelude.
From Stdlib Require Import Permutation.

(** An attraction row of the candidate store (the fields the routine reads;
    src/unnamed/part_001, lines 106-112). *)
Record attraction := mk_attraction {
  attr_name : string;
  attr_contentid : string;
  landscape_keywords : option string;
  travel_style_keywords : option string
}.

(** [AttractionScore(..., score=score)] *)
Record scored := mk_scored { sc_attr : attraction; score : nat }.

Module Ranking.

(** Insert [x] after every element scoring at least as much: equal
    scores keep their input order. *)
Fixpoint insert_desc (x : scored) (l : list scored) : list scored :=
  match l with
  | [] => [x]
  | y :: l' => if Nat.leb (score x) (score y) then y :: insert_desc x l' else x :: l
  end.

(** [sorted(scored, key=lambda x: x.score, reverse=True)] *)
Definition sort_desc (l : list scored) : list scored := fold_left (fun acc x => insert_desc x acc) l [].

(** The specification of Python's stable descending sort: a
    permutation, non-increasing scores, and for every score the
    elements with that score in their input order. *)
Definition stable_desc (l r : list scored) : Prop :=
  Permutation l r /\
  Sorted (fun x y => score y <= score x) r /\
  forall k, List.filter (fun x => Nat.eqb (score x) k) r = List.filter (fun x => Nat.eqb (score x) k) l.

Abbreviation desc := (fun x y : scored => score y <= score x).
Abbreviation with_score k := (List.filter (fun x : scored => Nat.eqb (score x) k)).

Lemma sorted_desc_head x r : Sorted desc (x :: r) -> Forall (fun z => score z <= score x) r.
Proof.
  intros H. apply Sorted_StronglySorted in H; [|intros a b c; simpl; lia].
  now inversion H.
Qed.

Lemma with_score_below k r : Forall (fun z => score z < k) r -> with_score k r = [].
Proof.
  induction 1 as [|z r Hz _ IH]; simpl; [done|].
  destruct (Nat.eqb_spec (score z) k); [lia|done].
Qed.

Lemma insert_desc_perm x l : Permutation (x :: l) (insert_desc x l).
Proof.
  induction l as [|y l IH]; simpl; [done|].
  destruct (Nat.leb _ _); [|done].
  etrans; [apply perm_swap|]. by constructor.
Qed.

Lemma insert_desc_sorted x l : Sorted desc l -> Sorted desc (insert_desc x l).
Proof.
  induction 1 as [|y l Hl IH Hy]; simpl; [auto|].
  destruct (Nat.leb_spec (score x) (score y)); [|constructor; [by constructor|constructor; simpl; lia]].
  constructor; [done|]. destruct l as [|z l]; simpl; [constructor; simpl; lia|].
  inversion Hy; subst. destruct (Nat.leb _ _); constructor; simpl; lia.
Qed.

(** In a sorted list the new element lands after every element of its
    own score. *)
Lemma insert_desc_with_score x l k :
  Sorted desc l -> with_score k (insert_desc x l) = with_score k l ++ with_score k [x].
Proof.
  induction l as [|y l IH]; intros Hs; simpl; [done|].
  pose proof (sorted_desc_head _ _ Hs) as Hb. apply Sorted_inv in Hs as [Hs _].
  destruct (Nat.leb_spec (score x) (score y)).
  - simpl. rewrite IH by done. by destruct (Nat.eqb _ _).
  - assert (Forall (fun z => score z < score x) l) as Hlt by (eapply Forall_impl; [done|simpl; lia]).
    simpl. destruct (Nat.eqb_spec (score x) k), (Nat.eqb_spec (score y) k); subst; try lia.
    + by rewrite with_score_below.
    + by rewrite app_nil_r.
    + by rewrite app_nil_r.
Qed.

Lemma fold_insert_stable acc l :
  Sorted desc acc ->
  Permutation (acc ++ l) (fold_left (fun acc x => insert_desc x acc) l acc) /\
  Sorted desc (fold_left (fun acc x => insert_desc x acc) l acc) /\
  forall k, with_score k (fold_left (fun acc x => insert_desc x acc) l acc) = with_score k (acc ++ l).
Proof.
  revert acc. induction l as [|x l IH]; intros acc Hs; simpl.
  - rewrite app_nil_r. auto.
  - destruct (IH (insert_desc x acc)) as (Hp & Hs' & Hk); [by apply insert_desc_sorted|].
    split_and!; [|done|].
    + rewrite <-Hp. etrans; [|apply Permutation_app_tail, insert_desc_perm].
      symmetry. apply Permutation_middle.
    + intros k. rewrite Hk, List.filter_app, insert_desc_with_score by done.
      rewrite <-app_assoc, <-!List.filter_app. done.
Qed.

(** Two lists sorted by descending score that agree on the elements of
    every score are equal. *)
Lemma sorted_with_score_unique r1 r2 :
  Sorted desc r1 -> Sorted desc r2 -> (forall k, with_score k r1 = with_score k r2) -> r1 = r2.
Proof.
  revert r2. induction r1 as [|x r1 IH]; intros [|y r2] H1 H2 Hk.
  - done.
  - specialize (Hk (score y)). simpl in Hk. by rewrite Nat.eqb_refl in Hk.
  - specialize (Hk (score x)). simpl in Hk. by rewrite Nat.eqb_refl in Hk.
  - pose proof (sorted_desc_head _ _ H1) as B1. pose proof (sorted_desc_head _ _ H2) as B2.
    assert (score x = score y) as Exy.
    { destruct (Nat.lt_total (score x) (score y)) as [Hlt|[|Hlt]]; [exfalso| done| exfalso].
      - specialize (Hk (score y)). simpl in Hk. rewrite Nat.eqb_refl in Hk.
        destruct (Nat.eqb_spec (score x) (score y)); [lia|].
        rewrite with_score_below in Hk; [done|]. eapply Forall_impl; [done|simpl; lia].
      - specialize (Hk (score x)). simpl in Hk. rewrite Nat.eqb_refl in Hk.
        destruct (Nat.eqb_spec (score y) (score x)); [lia|].
        rewrite (with_score_below _ r2) in Hk; [done|]. eapply Forall_impl; [done|simpl; lia]. }
    pose proof (Hk (score x)) as Hx. simpl in Hx. rewrite Exy, Nat.eqb_refl in Hx. injection Hx as <- _.
    f_equal. apply IH; [by eapply Sorted_inv|by eapply Sorted_inv|].
    intros k. specialize (Hk k). simpl in Hk. by destruct (Nat.eqb _ _); [injection Hk|].
Qed.

Lemma sort_desc_stable l : stable_desc l (sort_desc l).
Proof. destruct (fold_insert_stable [] l) as (? & ? & ?); [constructor|]. done. Qed.

(** C15: the insertion sort implements Python's stable
    [sorted(..., reverse=True)]: a list is a stable descending sort of
    [l] exactly when it is [sort_desc l]. *)
Theorem sort_desc_refines l r : stable_desc l r <-> r = sort_desc l.
Proof.
  split; [|intros ->; apply sort_desc_stable].
  intros (_ & Hs & Hk). destruct (sort_desc_stable l) as (_ & Hs' & Hk').
  apply sorted_with_score_unique; [done..|]. intros k. by rewrite Hk, Hk'.
Qed.

End Ranking.

Section Scoring.

(** The report's helpers, not shown in the repository. *)
Context (parse_keywords : string -> list string).
Context (keywords_match : string -> string -> bool).

(** [sum(1 for style in user_travel_styles if any(keywords_match(style, s) for s in attr_styles))] *)
Definition style_matches (user_styles attr_styles : list string) : nat :=
  length (List.filter (fun style => existsb (keywords_match style) attr_styles) user_styles).

(** The loop body: the score of one attraction. *)
Definition score_of (user_styles user_landscapes : list string) (a : attraction) : nat :=
  let attr_styles := parse_keywords (default "" (travel_style_keywords a)) in
  let s := style_matches user_styles attr_styles * 2 in
  match user_landscapes with
  | [] => s
  | _ :: _ =>
      let attr_landscapes := parse_keywords (default "" (landscape_keywords a)) in
      if existsb (fun l => existsb (keywords_match l) attr_landscapes) user_landscapes
      then s + 1 else s
  end.

Definition score_and_rank_attractions (attractions : list attraction)
    (user_styles user_landscapes : list string) : list scored :=
  Ranking.sort_desc (map (fun a => mk_scored a (score_of user_styles user_landscapes a)) attractions).

Lemma map_with_score (f : attraction -> nat) (g : attraction -> scored) (Hg : forall a, score (g a) = f a)
    (Hs : forall a, sc_attr (g a) = a) l k :
  map sc_attr (Ranking.with_score k (map g l)) = List.filter (fun a => Nat.eqb (f a) k) l.
Proof. induction l as [|a l IH]; simpl; [done|]. rewrite Hg. destruct (Nat.eqb _ _); simpl; by rewrite ?Hs, IH. Qed.

(** [score_and_rank_attractions] returns every attraction once,
    with its score, by non-increasing score, and the attractions of one
    score in their input order (the spec's total order by score
    descending then input position). *)
Theorem score_and_rank_attractions_ranked attractions user_styles user_landscapes :
  let r := score_and_rank_attractions attractions user_styles user_landscapes in
  Permutation (map sc_attr r) attractions /\
  Forall (fun x => score x = score_of user_styles user_landscapes (sc_attr x)) r /\
  Sorted Ranking.desc r /\
  forall k, map sc_attr (Ranking.with_score k r) =
            List.filter (fun a => Nat.eqb (score_of user_styles user_landscapes a) k) attractions.
Proof.
  cbv zeta. unfold score_and_rank_attractions. destruct (Ranking.sort_desc_stable
    (map (fun a => mk_scored a (score_of user_styles user_landscapes a)) attractions)) as (Hp & Hs & Hk).
  split_and!; [| |done|].
  - etrans; [apply Permutation_map; symmetry; exact Hp|]. rewrite map_map. simpl. by rewrite map_id.
  - eapply Permutation_Forall; [done|]. by apply Forall_fmap, Forall_true.
  - intros k. rewrite Hk. by apply map_with_score.
Qed.

Lemma style_matches_le us attr : style_matches us attr <= length us.
Proof. unfold style_matches. apply List.filter_length_le. Qed.

(** A score is at most two per user travel style, plus one only
    when the user named a landscape. *)
Theorem score_of_bounds us ul a :
  score_of us ul a <= 2 * length us + (if ul is [] then 0 else 1).
Proof.
  pose proof (style_matches_le us (parse_keywords (default "" (travel_style_keywords a)))).
  unfold score_of. destruct ul; [lia|]. destruct (existsb _ _); lia.
Qed.

End Scoring.

(** ** A concrete instance: the sample row of the API document *)

(** Keywords are [;]-separated in the candidate store
    (src/unnamed/part_001, line 110). *)
Fixpoint split_on (c : Ascii.ascii) (s : string) : list string :=
  match s with
  | EmptyString => [EmptyString]
  | String a s' =>
      if Ascii.eqb a c then EmptyString :: split_on c s'
      else match split_on c s' with
           | w :: ws => String a w :: ws
           | [] => [String a EmptyString]
           end
  end.

Definition sample_parse (s : string) : list string :=
  List.filter (fun w => negb (String.eqb w "")) (split_on (Ascii.ascii_of_nat 59) s).

Definition gimje_festival : attraction :=
  mk_attraction "김제지평선축제" "574285" (Some "강·호수") (Some "축제·이벤트;문화·역사;체험형").

Definition sample_styles : list string := ["축제·이벤트"; "체험형"; "힐링"].

Example gimje_festival_score :
  score_of sample_parse String.eqb sample_styles ["강·호수"] gimje_festival = 5.
Proof. vm_compute. reflexivity. Qed.
