(* ===== verification/Engine.v ===== *)
(** * The client state and its engine calls

    [STATE] (src/unnamed/part_000, lines 44-61 and 786-787), [saveState]
    (lines 188-201), the configuration loader [loadConfig] (62-72), both
    [callEngine] declarations (81-119 and 338-352), [mockPlan]
    (354-397), the onboarding call (122-159) and the schedule actions
    [createScheduleWithUser], [sendScheduleFeedback] and
    [confirmSchedule] (399-457), and both [engineRecommend]
    declarations (160-186 and 758-781), proved equivalent up to one
    error message.

    [STATE] holds what JavaScript holds: JSON values, including [null].
    The handlers run in a small monad [M].  It threads the [world] (the
    [STATE] object and [localStorage]) and returns a [js_result].  A
    rejection keeps the mutations made before it, as an [await] chain
    does.  The network and the clock are the [Env] section's parameters:
    - [config_response]: the answer to the [config.json] request;
    - [server url body]: the engine's answer to a POST;
    - [now_ms]: [Date.now()];
    - [today]: the local date that [mockPlan] reads. *)

From S2P Require Import Prelude Json.
From stdpp Require Import pretty.

(** ** JavaScript values *)

(** [if (v)] on a parsed JSON value ([NaN] is not a JSON number). *)
#[export] Instance truthy_json : Truthy json := fun j =>
  match j with
  | JNull => false
  | JBool b => b
  | JNum z => negb (Z.eqb z 0)
  | JStr s => truthy s
  | JArr _ | JObj _ => true
  end.

(** [String(v)]: arrays join their elements with commas, [null] inside
    an array printing as the empty string. *)
Fixpoint js_string (j : json) : string :=
  match j with
  | JNull => "null"
  | JBool true => "true"
  | JBool false => "false"
  | JNum z => pretty z
  | JStr s => s
  | JArr l => String.concat "," (map (fun e => match e with JNull => "" | _ => js_string e end) l)
  | JObj _ => "[object Object]"
  end.

(** [String(o.k)] where the field may be absent ([undefined]). *)
Definition js_string_opt (o : option json) : string :=
  match o with Some j => js_string j | None => "undefined" end.

(** [o.k] with [o] possibly absent: [o?.k] and [o.k] on an object. *)
Definition field (k : string) (o : option json) : option json := o ≫= get_field k.

(** [a || b] where [b] is always present. *)
Definition or_else (a : option json) (b : json) : json := default b (a || Some b)%js.

Lemma or_else_truthy j d : truthy j = true -> or_else (Some j) d = j.
Proof. intros H. unfold or_else, js_or. cbn. by rewrite H. Qed.

Lemma or_else_falsy j d : truthy j = false -> or_else (Some j) d = d.
Proof. intros H. unfold or_else, js_or. cbn. by rewrite H. Qed.

(** ** [STATE] *)

Record app_state := mk_state {
  view : string;
  profile : json;
  prefs : json;
  selections : json;
  history : json;
  timeline : json;
  calendar : json;
  config : json;
  chatStage : string;
  user_id : json;
  last_itinerary_id : json;
  last_schedule : json;
  (** [STATE.tab], which only [confirmCurrentSchedule] creates. *)
  tab : option string
}.

Definition set_config (c : json) (s : app_state) : app_state :=
  mk_state (view s) (profile s) (prefs s) (selections s) (history s) (timeline s)
    (calendar s) c (chatStage s) (user_id s) (last_itinerary_id s) (last_schedule s) (tab s).

Definition set_user_id (u : json) (s : app_state) : app_state :=
  mk_state (view s) (profile s) (prefs s) (selections s) (history s) (timeline s)
    (calendar s) (config s) (chatStage s) u (last_itinerary_id s) (last_schedule s) (tab s).

(** The assignments of a schedule response: [last_itinerary_id] (or
    not), [last_schedule], [timeline], [calendar]. *)
Definition set_schedule (iid : json) (sched tl cal : json) (s : app_state) : app_state :=
  mk_state (view s) (profile s) (prefs s) (selections s) (history s) tl
    cal (config s) (chatStage s) (user_id s) iid sched (tab s).

(** [localStorage.getItem(k)] as the text the key holds; a JSON key
    holds the text [JSON.stringify] wrote, which no raw key of the model
    is compared with. *)
Definition raw_item (k : string) (ls : storage) : option string :=
  match ls !! k with Some (Raw s) => Some s | Some (Text j) => Some (js_string j) | None => None end.

(** [JSON.parse(localStorage.getItem(k) || dflt)]: [None] when the text
    is not JSON, which throws. *)
Definition parse_item (k : string) (dflt : json) (ls : storage) : option json :=
  match ls !! k with
  | Some (Text j) => Some j
  | Some (Raw "") | None => Some dflt
  | Some (Raw _) => None
  end.

(** [localStorage.getItem(k) || null] *)
Definition string_item (k : string) (ls : storage) : json :=
  match raw_item k ls with Some s => if truthy s then JStr s else JNull | None => JNull end.

(** [s.replace("#", "")]: the first [#] removed. *)
Fixpoint drop_hash (s : string) : string :=
  match s with
  | EmptyString => EmptyString
  | String c s' => if Ascii.eqb c (Ascii.ascii_of_nat 35) then s' else String c (drop_hash s')
  end.

(** [location.hash.replace("#", "") || "onboard"] *)
Definition view_of_hash (hash : string) : string := (drop_hash hash || "onboard")%js.

(** The [STATE] literal, then [STATE.selections = STATE.selections ||
    { farm: null, tours: [] }] (line 786).  [None]: a [JSON.parse]
    throws and the script stops. *)
Definition load_state (hash : string) (ls : storage) : option app_state :=
  profile ← parse_item "ims_profile" (JObj []) ls;
  prefs ← parse_item "ims_prefs" (JObj []) ls;
  selections ← parse_item "ims_selections" (JObj []) ls;
  history ← parse_item "ims_history" (JArr []) ls;
  timeline ← parse_item "ims_timeline" (JArr []) ls;
  calendar ← parse_item "ims_calendar" (JObj []) ls;
  last_schedule ← parse_item "ims_last_schedule" JNull ls;
  Some (mk_state (view_of_hash hash) profile prefs
    (or_else (Some selections) (JObj [("farm", JNull); ("tours", JArr [])]))
    history timeline calendar JNull "cards" (string_item "ims_user_id" ls)
    (string_item "ims_itinerary_id" ls) last_schedule None).

(** [saveState] *)
Definition save_state (s : app_state) (ls : storage) : storage :=
  <["ims_last_schedule" := Text (or_else (Some (last_schedule s)) JNull)]> (
  <["ims_itinerary_id" := Raw (js_string (or_else (Some (last_itinerary_id s)) (JStr "")))]> (
  <["ims_user_id" := Raw (js_string (or_else (Some (user_id s)) (JStr "")))]> (
  <["ims_calendar" := Text (calendar s)]> (
  <["ims_timeline" := Text (timeline s)]> (
  <["ims_history" := Text (history s)]> (
  <["ims_selections" := Text (selections s)]> (
  <["ims_prefs" := Text (prefs s)]> (
  <["ims_profile" := Text (profile s)]> ls)))))))).

(** ** The handlers' monad *)

Record world := mk_world { st : app_state; ls : storage }.

Definition M (A : Type) : Type := world -> js_result A * world.

#[export] Instance M_ret : MRet M := fun A a w => (Resolve a, w).
#[export] Instance M_bind : MBind M := fun A B f m w =>
  match m w with
  | (Resolve a, w') => f a w'
  | (Reject e, w') => (Reject e, w')
  end.

Definition throw {A} (e : string) : M A := fun w => (Reject e, w).
Definition get_state : M app_state := fun w => (Resolve (st w), w).
Definition modify (f : app_state -> app_state) : M unit :=
  fun w => (Resolve tt, mk_world (f (st w)) (ls w)).

(** [saveState()] as a step of a handler. *)
Definition save : M unit := fun w => (Resolve tt, mk_world (st w) (save_state (st w) (ls w))).

(** ** Responses *)

(** The text of a response and its [JSON.parse], [None] when it does
    not parse. *)
Record body := mk_body { text : string; parsed : option json }.

(** What a [fetch] gives: a rejection or a response. *)
Inductive fetch_outcome :=
  | NetworkError (msg : string)
  | Response (status : Z) (b : body).

(** [res.ok] *)
Definition res_ok (status : Z) : bool := (200 <=? status)%Z && (status <=? 299)%Z.

(** [s.trim() === ""] for the ASCII white space. *)
Definition blank (s : string) : bool :=
  forallb (fun c => bool_decide (Ascii.nat_of_ascii c ∈ [9; 10; 11; 12; 13; 32])) (list_ascii_of_string s).

(** [s.replace(/\/$/, "")] *)
Definition strip_slash (s : string) : string :=
  if bool_decide (0 < String.length s) && String.eqb (substring (String.length s - 1) 1 s) "/"
  then substring 0 (String.length s - 1) s else s.

(** [a && b] on values that may be absent. *)
Definition and_then (a b : option json) : option json := if truthy a then b else a.

(** [x[0]]: the first element of an array, the first character of a
    string, the field ["0"] of an object. *)
Definition index0 (o : option json) : option json :=
  match o with
  | Some (JArr (x :: _)) => Some x
  | Some (JStr (String c _)) => Some (JStr (String c EmptyString))
  | Some (JObj fs) => field_of "0" fs
  | _ => None
  end.

(** A field that [JSON.stringify] drops when it is [undefined]. *)
Definition opt_field (k : string) (o : option json) : list (string * json) :=
  match o with Some j => [(k, j)] | None => [] end.

(** ** [mockPlan]'s date: [new Date(y, m, d + 2)] *)

Definition leap (y : Z) : bool :=
  ((y mod 4 =? 0) && negb (y mod 100 =? 0) || (y mod 400 =? 0))%Z.

Definition days_in_month (y m : Z) : Z :=
  (if m =? 1 then (if leap y then 29 else 28)
   else if (m =? 3) || (m =? 5) || (m =? 8) || (m =? 10) then 30 else 31)%Z.

(** A month index from 0 and a day of the month from 1; the [Date]
    constructor carries the overflow into the next month and year. *)
Definition plus_two_days (y m d : Z) : Z * Z * Z :=
  (if d + 2 <=? days_in_month y m then (y, m, d + 2)
   else if m =? 11 then (y + 1, 0, d + 2 - days_in_month y m)
   else (y, m + 1, d + 2 - days_in_month y m))%Z.

(** [String(n).padStart(2, "0")] *)
Definition pad2 (s : string) : string :=
  if Nat.ltb (String.length s) 2 then "0" +:+ s else s.

(** [d(a)]: [`${y}-${m}-${d}T${hh}:${mm}:00`] *)
Definition stamp (ymd : Z * Z * Z) (hh : Z) : string :=
  let '(y, m, d) := ymd in
  pretty y +:+ "-" +:+ pad2 (pretty (m + 1)%Z) +:+ "-" +:+ pad2 (pretty d) +:+ "T" +:+
  pad2 (pretty hh) +:+ ":" +:+ "00" +:+ ":00".

Definition mock_item (dt title location desc icon : string) : json :=
  JObj [("datetime", JStr dt); ("title", JStr title); ("location", JStr location);
        ("desc", JStr desc); ("icon", JStr icon)].

(** [mockPlan(payload)] on the day [y-m-d]: the payload is not read. *)
Definition mock_plan (y m d : Z) : json :=
  let day := plus_two_days y m d in
  JObj [("timeline", JArr [
           mock_item (stamp day 8) "사과 수확 돕기" "전북 김제시 봉남면" "농장 도우미" "🍎";
           mock_item (stamp day 12) "시장 투어 & 점심" "전주 남부시장" "칼국수 추천" "🍜";
           mock_item (stamp day 15) "내장산 산책" "정읍시" "힐링 트레일" "⛰️"]);
        ("suggestions", JArr [JStr "힐링 테마 여행"; JStr "농촌 체험"; JStr "사진 스팟"])].

(** [buildOnboardingPayload()] *)
Definition build_onboarding_payload (s : app_state) : json :=
  let p := Some (or_else (Some (profile s)) (JObj [])) in
  let pf := Some (or_else (Some (prefs s)) (JObj [])) in
  let gender :=
    match field "gender" p with
    | Some (JStr "M") => JStr "남"
    | Some (JStr "F") => JStr "여"
    | g => or_else g (JStr "")
    end in
  JObj [("real_name", or_else (field "real_name" p || field "nick" p)%js (JStr ""));
        ("name", or_else (field "nick" p) (JStr ""));
        ("age", or_else (field "age" p) (JStr ""));
        ("gender", gender);
        ("sido", or_else (and_then (field "region" p) (field "sido" (field "region" p)) || field "sido" p)%js (JStr ""));
        ("sigungu", or_else (and_then (field "region" p) (field "sigungu" (field "region" p)) || field "sigungu" p)%js (JStr ""));
        ("with_whom", or_else (and_then (field "with" p) (index0 (field "with" p)) || field "with" p)%js (JStr ""));
        ("selected_views", or_else (field "scenery" pf) (JArr []));
        ("selected_styles", or_else (field "styles" pf) (JArr []));
        ("selected_jobs", or_else (field "jobs" pf) (JArr []));
        ("additional_requests", or_else (field "free" pf) (JArr []))].

(** The response handling shared by [createScheduleWithUser] and
    [sendScheduleFeedback]: [sched = data?.data || data || {}], then
    the assignments of the branch on [sched?.itinerary_id]. *)
Definition schedule_of (data : json) : json := or_else (get_field "data" data || Some data)%js (JObj []).

Definition apply_schedule (sched : json) (s : app_state) : app_state :=
  let bubble := get_field "bubble_schedule" sched in
  if truthy (get_field "itinerary_id" sched) then
    set_schedule (default JNull (get_field "itinerary_id" sched)) sched
      (or_else (field "grouped_schedule" bubble || get_field "itinerary" sched)%js (JArr []))
      (or_else (field "calendar_events" bubble) (JObj [])) s
  else
    set_schedule (last_itinerary_id s) sched
      (or_else (get_field "timeline" sched) (JArr []))
      (or_else (get_field "calendar" sched) (JObj [])) s.

(** ** The handlers *)

Section Env.

(** The answer to [fetch(base + "config.json")]. *)
Context (config_response : fetch_outcome).
(** The engine's answer to a POST of a JSON body to a URL. *)
Context (server : string -> json -> fetch_outcome).
(** [Date.now()] *)
Context (now_ms : nat).
(** The local date [mockPlan] reads: year, month from 0, day from 1. *)
Context (today_y today_m today_d : Z).

(** [loadConfig()] *)
Definition load_config : M json := fun w =>
  if truthy (config (st w)) then (Resolve (config (st w)), w) else
  match config_response with
  | NetworkError e => (Reject e, w)
  | Response status b =>
      if negb (res_ok status) then (Reject ("config.json load failed: " +:+ pretty status), w)
      else match parsed b with
           | Some j => (Resolve j, mk_world (set_config j (st w)) (ls w))
           | None => (Reject "SyntaxError: JSON.parse", w)
           end
  end.

(** [resolveEndpoint(pathOrKey, cfg)] for a string [pathOrKey]. *)
Definition resolve_endpoint (key : string) (cfg : json) : json :=
  if negb (truthy key) then JStr ""
  else if negb (String.prefix "/" key)
  then or_else (and_then (get_field "endpoints" cfg) (field key (get_field "endpoints" cfg))) (JStr "")
  else JStr key.

(** The first [callEngine] (lines 81-119), which the second declaration
    replaces: a function declaration later in the script wins. *)
Definition call_engine_v1 (key : string) (payload : json) : M json :=
  cfg ← load_config;
  let base := strip_slash (js_string (or_else (get_field "baseURL" cfg) (JStr ""))) in
  let ep := resolve_endpoint key cfg in
  if negb (truthy ep) then throw ("Unknown endpoint: " +:+ key) else
  let url := base +:+ js_string ep in
  match server url payload with
  | NetworkError e => throw e
  | Response status b =>
      if negb (res_ok status)
      then throw ("HTTP " +:+ pretty status +:+ " " +:+ url +:+ " :: " +:+ text b)
      else if blank (text b) then mret (JObj [])
      else match parsed b with
           | Some j => mret j
           | None => throw ("Invalid JSON response from " +:+ url +:+ ": SyntaxError")
           end
  end.

(** [cfg.baseURL + (cfg.endpoints[kind] || "/" + kind)] *)
Definition engine_url (cfg eps : json) (kind : string) : string :=
  js_string_opt (get_field "baseURL" cfg) +:+ js_string (or_else (get_field kind eps) (JStr ("/" +:+ kind))).

(** [callEngine(kind, payload)] (lines 338-352), the one every caller
    gets: every failure after the URL is built falls back to
    [mockPlan]. *)
Definition call_engine (kind : string) (payload : json) : M json :=
  cfg ← load_config;
  match get_field "endpoints" cfg with
  | None | Some JNull => throw "TypeError: Cannot read properties of undefined"
  | Some eps =>
      match server (engine_url cfg eps kind) payload with
      | Response status b =>
          match parsed b with
          | Some j => if res_ok status then mret j else mret (mock_plan today_y today_m today_d)
          | None => mret (mock_plan today_y today_m today_d)
          end
      | NetworkError _ => mret (mock_plan today_y today_m today_d)
      end
  end.

(** [sendOnboardingAndGetUserId()] *)
Definition send_onboarding : M json :=
  cfg ← load_config;
  s ← get_state;
  if truthy (and_then (get_field "endpoints" cfg) (field "onboarding" (get_field "endpoints" cfg))) then
    data ← call_engine "onboarding" (build_onboarding_payload s);
    match get_field "user_id" data with
    | Some u => if truthy u then modify (set_user_id u);; save;; mret u
                else throw "onboarding API returned no user_id"
    | None => throw "onboarding API returned no user_id"
    end
  else
    let u := or_else (Some (user_id s)) (JStr ("local_" +:+ pretty now_ms)) in
    modify (set_user_id u);; save;; mret u.

(** [if (!STATE.user_id) await sendOnboardingAndGetUserId();] *)
Definition ensure_user : M unit :=
  s ← get_state;
  if truthy (user_id s) then mret tt else send_onboarding;; mret tt.

(** The common tail of the two schedule calls. *)
Definition schedule_call (kind : string) (body : app_state -> json) : M json :=
  ensure_user;;
  s ← get_state;
  data ← call_engine kind (body s);
  let sched := schedule_of data in
  modify (apply_schedule sched);; save;; mret sched.

(** [createScheduleWithUser({ natural_request, selected_farm, selected_tours })];
    an [undefined] field is left out of the body. *)
Definition create_schedule_with_user (natural_request : json)
    (selected_farm selected_tours : option json) : M json :=
  schedule_call "plan" (fun s =>
    JObj ([("user_id", user_id s); ("natural_request", natural_request)] ++
          opt_field "selected_farm" selected_farm ++ opt_field "selected_tours" selected_tours)).

(** [sendScheduleFeedback(feedback)] *)
Definition send_schedule_feedback (feedback : json) : M json :=
  schedule_call "revise" (fun s => JObj [("user_id", user_id s); ("feedback", feedback)]).

(** [confirmSchedule()] *)
Definition confirm_schedule : M json :=
  ensure_user;;
  s ← get_state;
  call_engine "confirm" (JObj [("user_id", user_id s); ("itinerary_id", last_itinerary_id s);
                               ("calendar_events", calendar s)]).

(** [engineRecommend(natural_request)] (lines 759-783, the declaration
    that wins): no fallback, HTTP errors reject. *)
Definition engine_recommend (natural_request : json) : M json :=
  cfg ← load_config;
  let eps := get_field "endpoints" cfg in
  let path := and_then eps (field "recommendations" eps || field "recommendations/with-user" eps)%js in
  if negb (truthy path) then throw "config.json에 recommendations 엔드포인트가 없습니다." else
  ensure_user;;
  s ← get_state;
  let url := js_string_opt (get_field "baseURL" cfg) +:+ js_string_opt path in
  match server url (JObj [("user_id", or_else (Some (user_id s)) (JStr "local_user"));
                          ("natural_request", natural_request)]) with
  | NetworkError e => throw e
  | Response status b =>
      if negb (res_ok status) then throw ("HTTP " +:+ pretty status) else
      match parsed b with Some j => mret j | None => throw "SyntaxError: JSON.parse" end
  end.

(** The first [engineRecommend] (lines 160-186), which the second
    declaration replaces: it reads [cfg.endpoints || {}] and has its own
    message for a missing path.  Its guard [typeof
    sendOnboardingAndGetUserId === "function"] always holds. *)
Definition engine_recommend_v1 (natural_request : json) : M json :=
  cfg ← load_config;
  let eps := Some (or_else (get_field "endpoints" cfg) (JObj [])) in
  let path := (field "recommendations" eps || field "recommendations/with-user" eps)%js in
  if negb (truthy path) then throw "config.json: endpoints.recommendations(또는 recommendations/with-user) 누락" else
  ensure_user;;
  s ← get_state;
  let url := js_string_opt (get_field "baseURL" cfg) +:+ js_string_opt path in
  match server url (JObj [("user_id", or_else (Some (user_id s)) (JStr "local_user"));
                          ("natural_request", natural_request)]) with
  | NetworkError e => throw e
  | Response status b =>
      if negb (res_ok status) then throw ("HTTP " +:+ pretty status) else
      match parsed b with Some j => mret j | None => throw "SyntaxError: JSON.parse" end
  end.

End Env.

(** ** Persistence: what a reload gives back *)

(** [STATE.user_id] and [STATE.last_itinerary_id] hold a string or
    [null] when they come from the storage, from [Date.now()] or from an
    engine that answers with string ids. *)
Definition stringish (j : json) : Prop := match j with JNull | JStr _ => True | _ => False end.

(** The state the [STATE] initialiser rebuilds from what [saveState]
    wrote: the view comes from the URL, [config], [chatStage] and [tab]
    are reset, an empty id becomes [null], a falsy [last_schedule] and a
    falsy [selections] are replaced. *)
Definition reloaded (hash : string) (s : app_state) : app_state :=
  mk_state (view_of_hash hash) (profile s) (prefs s)
    (or_else (Some (selections s)) (JObj [("farm", JNull); ("tours", JArr [])]))
    (history s) (timeline s) (calendar s) JNull "cards"
    (or_else (Some (user_id s)) JNull) (or_else (Some (last_itinerary_id s)) JNull)
    (or_else (Some (last_schedule s)) JNull) None.

Lemma string_item_saved k ls j :
  ls !! k = Some (Raw (js_string (or_else (Some j) (JStr "")))) -> stringish j ->
  string_item k ls = or_else (Some j) JNull.
Proof.
  intros Hk Hj. unfold string_item, raw_item. rewrite Hk.
  destruct j as [| | |x| |]; try contradiction; [done|].
  unfold or_else, js_or. cbn. destruct (truthy x) eqn:E; cbn; by rewrite ?E.
Qed.

(** C19: reloading the page after [saveState] rebuilds [STATE] as
    [reloaded] says: every persisted field comes back, an empty id comes
    back as [null]. *)
Theorem save_state_reload hash s ls :
  stringish (user_id s) -> stringish (last_itinerary_id s) ->
  load_state hash (save_state s ls) = Some (reloaded hash s).
Proof.
  intros Hu Hi. unfold load_state, parse_item, save_state.
  rewrite (string_item_saved "ims_user_id" _ (user_id s)), (string_item_saved "ims_itinerary_id" _ (last_itinerary_id s));
    [|by simplify_map_eq..].
  simplify_map_eq. done.
Qed.

(** ** The two [engineRecommend] declarations *)

Lemma recommend_path_agree (eps : option json) :
  let p1 := (field "recommendations" (Some (or_else eps (JObj []))) ||
             field "recommendations/with-user" (Some (or_else eps (JObj []))))%js in
  let p2 := and_then eps (field "recommendations" eps || field "recommendations/with-user" eps)%js in
  truthy p1 = truthy p2 /\ (truthy p2 = true -> p1 = p2).
Proof.
  intros p1 p2. subst p1 p2. unfold and_then, or_else, js_or.
  destruct eps as [j|]; simpl; [|done].
  destruct (truthy j) eqn:E; simpl; [done|]. rewrite E. split; [done|discriminate].
Qed.

(** Two results that are equal, or two rejections with the messages
    [e1] and [e2]. *)
Definition same_up_to (e1 e2 : string) (r1 r2 : js_result json) : Prop :=
  r1 = r2 \/ (r1 = Reject e1 /\ r2 = Reject e2).

(** The shadowed [engineRecommend] would behave as the one that wins:
    the same requests, the same state and the same answers; only the
    message for a missing [recommendations] path differs.  So the
    duplicate declaration is harmless. *)
Theorem engine_recommend_v1_equiv cr srv now y m d nr w :
  (engine_recommend_v1 cr srv now y m d nr w).2 = (engine_recommend cr srv now y m d nr w).2 /\
  same_up_to "config.json: endpoints.recommendations(또는 recommendations/with-user) 누락"
    "config.json에 recommendations 엔드포인트가 없습니다."
    (engine_recommend_v1 cr srv now y m d nr w).1 (engine_recommend cr srv now y m d nr w).1.
Proof.
  unfold engine_recommend_v1, engine_recommend, mbind, M_bind.
  destruct (load_config _ w) as [[cfg|e] w1]; [|split; [done|by left]].
  destruct (recommend_path_agree (get_field "endpoints" cfg)) as [Ht Heq]. cbv zeta in Ht, Heq.
  rewrite Ht. destruct (truthy (and_then _ _)) eqn:E2.
  - rewrite (Heq eq_refl). split; [done|by left].
  - split; [done|by right].
Qed.

(** ** Engine calls once the configuration is loaded *)

(** [STATE.config] loaded, with an [endpoints] value that can be
    indexed. *)
Definition config_ready (s : app_state) : Prop :=
  truthy (config s) = true /\ exists eps, get_field "endpoints" (config s) = Some eps /\ eps <> JNull.

(** [STATE.config] loaded, with a truthy [endpoints.recommendations]
    or [endpoints["recommendations/with-user"]]. *)
Definition reco_configured (s : app_state) : Prop :=
  truthy (config s) = true /\
  truthy (and_then (get_field "endpoints" (config s))
            (field "recommendations" (get_field "endpoints" (config s)) ||
             field "recommendations/with-user" (get_field "endpoints" (config s)))%js) = true.

(** Whether a response gives [callEngine] a value: [res.ok] and JSON. *)
Definition answered (out : fetch_outcome) : bool :=
  match out with Response status (mk_body _ (Some _)) => res_ok status | _ => false end.

Section Ready.

Context (config_response : fetch_outcome) (server : string -> json -> fetch_outcome).
Context (now_ms : nat) (today_y today_m today_d : Z).

Lemma load_config_ready w : truthy (config (st w)) = true -> load_config config_response w = (Resolve (config (st w)), w).
Proof. intros H. unfold load_config. by rewrite H. Qed.

Lemma call_engine_unanswered w kind payload :
  config_ready (st w) -> (forall url body, answered (server url body) = false) ->
  call_engine config_response server today_y today_m today_d kind payload w =
    (Resolve (mock_plan today_y today_m today_d), w).
Proof.
  intros (Hc & eps & He & Hn) Hs. unfold call_engine, mbind, M_bind. rewrite load_config_ready by done.
  rewrite He. destruct eps; try done;
    match goal with |- context [server ?u ?b] => specialize (Hs u b); destruct (server u b) as [|status [t [j|]]] end;
    simpl in Hs; rewrite ?Hs; done.
Qed.

Lemma call_engine_answered w kind payload status t j :
  config_ready (st w) -> (forall url body, server url body = Response status (mk_body t (Some j))) ->
  res_ok status = true ->
  call_engine config_response server today_y today_m today_d kind payload w = (Resolve j, w).
Proof.
  intros (Hc & eps & He & Hn) Hs Hok. unfold call_engine, mbind, M_bind. rewrite load_config_ready by done.
  rewrite He. destruct eps; try done; rewrite Hs; simpl; by rewrite Hok.
Qed.

Lemma ensure_user_set w : truthy (user_id (st w)) = true ->
  ensure_user config_response server now_ms today_y today_m today_d w = (Resolve tt, w).
Proof. intros H. unfold ensure_user, mbind, M_bind, get_state. simpl. by rewrite H. Qed.

(** [schedule_call] once configured and onboarded, given the engine's
    value. *)
Lemma schedule_call_value w kind body data :
  truthy (user_id (st w)) = true ->
  call_engine config_response server today_y today_m today_d kind (body (st w)) w = (Resolve data, w) ->
  schedule_call config_response server now_ms today_y today_m today_d kind body w =
    (Resolve (schedule_of data),
     mk_world (apply_schedule (schedule_of data) (st w)) (save_state (apply_schedule (schedule_of data) (st w)) (ls w))).
Proof.
  intros Hu Hc. unfold schedule_call, mbind, M_bind at 1. rewrite ensure_user_set by done.
  unfold mbind, M_bind, get_state. simpl. by rewrite Hc.
Qed.

Lemma call_engine_resolves w kind payload :
  config_ready (st w) ->
  exists j, call_engine config_response server today_y today_m today_d kind payload w = (Resolve j, w).
Proof.
  intros (Hc & eps & He & Hn). unfold call_engine, mbind, M_bind. rewrite load_config_ready by done.
  rewrite He. destruct eps; try done;
    destruct (server _ _) as [|status [t [j|]]]; try destruct (res_ok status); eauto.
Qed.

(** [engineRecommend] on an answer that is not [ok]: [HTTP <status>],
    whatever the body says. *)
Lemma engine_recommend_http_error w nr status b :
  reco_configured (st w) -> truthy (user_id (st w)) = true ->
  (forall url body, server url body = Response status b) -> res_ok status = false ->
  engine_recommend config_response server now_ms today_y today_m today_d nr w = (Reject ("HTTP " +:+ pretty status), w).
Proof.
  intros [Hc Hp] Hu Hs Hok. unfold engine_recommend, mbind, M_bind at 1. rewrite load_config_ready by done.
  rewrite Hp. simpl. unfold mbind, M_bind. rewrite ensure_user_set by done. simpl.
  rewrite Hs. simpl. by rewrite Hok.
Qed.

(** [engineRecommend] once [config.json] names a recommendations path
    and the user has an id: it resolves with the engine's JSON when the
    answer is [ok]. *)
Lemma engine_recommend_answered w nr status t j :
  reco_configured (st w) -> truthy (user_id (st w)) = true ->
  (forall url body, server url body = Response status (mk_body t (Some j))) -> res_ok status = true ->
  engine_recommend config_response server now_ms today_y today_m today_d nr w = (Resolve j, w).
Proof.
  intros [Hc Hp] Hu Hs Hok. unfold engine_recommend, mbind, M_bind at 1. rewrite load_config_ready by done.
  rewrite Hp. simpl. unfold mbind, M_bind. rewrite ensure_user_set by done. simpl.
  rewrite Hs. simpl. by rewrite Hok.
Qed.

End Ready.

(** C20: once [config.json] is loaded and the user has an id,
    [createScheduleWithUser] never rejects.  When the engine fails
    (network error, HTTP error or non-JSON body), [callEngine] falls back
    to [mockPlan].  The user's schedule then becomes the mock timeline,
    the last itinerary id stays, and [STATE.calendar] is reset to [{}]
    and saved that way. *)
Theorem create_schedule_with_user_server_failure cr server now y m d nr farm tours w :
  config_ready (st w) -> truthy (user_id (st w)) = true ->
  (forall url body, answered (server url body) = false) ->
  let '(r, w') := create_schedule_with_user cr server now y m d nr farm tours w in
  r = Resolve (mock_plan y m d) /\
  timeline (st w') = or_else (get_field "timeline" (mock_plan y m d)) (JArr []) /\
  calendar (st w') = JObj [] /\
  last_itinerary_id (st w') = last_itinerary_id (st w) /\
  ls w' !! "ims_calendar" = Some (Text (JObj [])).
Proof.
  intros Hc Hu Hs. unfold create_schedule_with_user.
  rewrite (schedule_call_value cr server now y m d w _ _ (mock_plan y m d)) by
    (done || by apply call_engine_unanswered).
  unfold save_state. simpl. split_and!; try done. by simplify_map_eq.
Qed.

(** C21: a revision answered with a schedule whose [bubble_schedule]
    has no [calendar_events] (the shape the API document gives for
    [/api/schedule/feedback]) sets [STATE.calendar] to [{}] and saves
    it, whatever the calendar held before. *)
Theorem send_schedule_feedback_resets_calendar cr server now y m d feedback w status t resp :
  config_ready (st w) -> truthy (user_id (st w)) = true ->
  (forall url body, server url body = Response status (mk_body t (Some resp))) -> res_ok status = true ->
  truthy (get_field "itinerary_id" (schedule_of resp)) = true ->
  field "calendar_events" (get_field "bubble_schedule" (schedule_of resp)) = None ->
  let '(r, w') := send_schedule_feedback cr server now y m d feedback w in
  r = Resolve (schedule_of resp) /\
  calendar (st w') = JObj [] /\
  ls w' !! "ims_calendar" = Some (Text (JObj [])).
Proof.
  intros Hc Hu Hs Hok Hid Hev. unfold send_schedule_feedback.
  rewrite (schedule_call_value cr server now y m d w _ _ resp) by
    (done || by eapply call_engine_answered).
  unfold apply_schedule, save_state. rewrite Hid, Hev. simpl. split_and!; try done. by simplify_map_eq.
Qed.

(** C23: once [config.json] is loaded and the user has an id,
    [createScheduleWithUser] resolves whatever the engine answers, so
    the "Invalid JSON" and "HTTP" branches of the plan button's [catch]
    (lines 737-742) are never taken.  The first [callEngine], which
    rejects with these messages, is the one the second replaces. *)
Theorem create_schedule_with_user_never_rejects cr server now y m d nr farm tours w :
  config_ready (st w) -> truthy (user_id (st w)) = true ->
  exists sched, fst (create_schedule_with_user cr server now y m d nr farm tours w) = Resolve sched.
Proof.
  intros Hc Hu. destruct (call_engine_resolves cr server y m d w "plan"
    (JObj ([("user_id", user_id (st w)); ("natural_request", nr)] ++
           opt_field "selected_farm" farm ++ opt_field "selected_tours" tours)) Hc) as [j Hj].
  unfold create_schedule_with_user. rewrite (schedule_call_value cr server now y m d w _ _ j) by done.
  eauto.
Qed.

(** ** Samples from the API document (src/unnamed/part_001) *)

Definition sample_config : json :=
  JObj [("baseURL", JStr "http://localhost:8000");
        ("endpoints", JObj [("plan", JStr "/api/schedule/with-user"); ("revise", JStr "/api/schedule/feedback")])].

(** A state after onboarding, with an event already on the calendar. *)
Definition sample_state : app_state :=
  mk_state "chat" (JObj []) (JObj []) (JObj []) (JArr [JObj [("title", JStr "김제 10월 여행")]]) (JArr [])
    (JObj [("2025-10", JObj [("01", JArr [JObj [("activity", JStr "벽골제")]])])])
    sample_config "table" (JStr "user_1693498765") (JStr "schedule_20250831_143000") JNull None.

(** The feedback response of lines 240-303, its lists shortened. *)
Definition feedback_response : json :=
  JObj [("status", JStr "success");
        ("data", JObj [("itinerary_id", JStr "schedule_20250831_143000"); ("total_days", JNum 10);
                       ("itinerary", JArr [JObj [("day", JNum 1); ("date", JStr "10월 1일 (화)");
                                                 ("schedule_type", JStr "관광지"); ("name", JStr "김제지평선축제");
                                                 ("start_time", JStr "14:00"); ("address", JStr "전북 김제시 부량면")]]);
                       ("bubble_schedule", JObj [("grouped_schedule", JArr [JObj [("order", JNum 1); ("type", JStr "tour")]])]);
                       ("summary", JObj [("duration", JNum 10); ("region", JStr "김제시")])]);
        ("message", JStr "피드백에 따라 일정이 수정되었습니다.")].

Lemma sample_config_ready : config_ready sample_state.
Proof. split; [done|]. eexists; split; [reflexivity|discriminate]. Qed.

Lemma create_schedule_with_user_server_failure_witness :
  let w := mk_world sample_state ∅ in
  let server := fun (_ : string) (_ : json) => Response 500 (mk_body "Internal Server Error" None) in
  config_ready (st w) /\ truthy (user_id (st w)) = true /\
  (forall url body, answered (server url body) = false) /\
  let '(r, w') := create_schedule_with_user (NetworkError "") server 0 2025 9 30 (JStr "10월에 열흘간 김제") None None w in
  r = Resolve (mock_plan 2025 9 30) /\
  timeline (st w') = or_else (get_field "timeline" (mock_plan 2025 9 30)) (JArr []) /\
  calendar (st w') = JObj [] /\
  last_itinerary_id (st w') = last_itinerary_id (st w) /\
  ls w' !! "ims_calendar" = Some (Text (JObj [])).
Proof.
  split_and!; [exact sample_config_ready|reflexivity|reflexivity|].
  apply create_schedule_with_user_server_failure; [exact sample_config_ready|reflexivity|reflexivity].
Defined.

Lemma send_schedule_feedback_resets_calendar_witness :
  let w := mk_world sample_state ∅ in
  let server := fun (_ : string) (_ : json) => Response 200 (mk_body "" (Some feedback_response)) in
  config_ready (st w) /\ truthy (user_id (st w)) = true /\ res_ok 200 = true /\
  truthy (get_field "itinerary_id" (schedule_of feedback_response)) = true /\
  field "calendar_events" (get_field "bubble_schedule" (schedule_of feedback_response)) = None /\
  let '(r, w') := send_schedule_feedback (NetworkError "") server 0 2025 9 30 (JStr "첫째날 일정을 바꿔주세요") w in
  r = Resolve (schedule_of feedback_response) /\
  calendar (st w') = JObj [] /\
  ls w' !! "ims_calendar" = Some (Text (JObj [])).
Proof.
  split_and!; [exact sample_config_ready|reflexivity..|].
  eapply send_schedule_feedback_resets_calendar; [exact sample_config_ready|reflexivity|reflexivity|reflexivity..].
Defined.

(** ** Invariants of the handlers *)

(** [m] keeps the invariant [I] of the world. *)
Definition keeps {A} (I : world -> Prop) (m : M A) : Prop := forall w, I w -> I (snd (m w)).

Section Keeps.

Context (I : world -> Prop).

Lemma keeps_ret {A} (a : A) : keeps I (mret a).
Proof. by intros w. Qed.

Lemma keeps_throw {A} e : keeps I (throw (A:=A) e).
Proof. by intros w. Qed.

Lemma keeps_get_state : keeps I get_state.
Proof. by intros w. Qed.

Lemma keeps_bind {A B} (f : A -> M B) (m : M A) :
  keeps I m -> (forall a, keeps I (f a)) -> keeps I (mbind f m).
Proof.
  intros Hm Hf w Hw. unfold mbind, M_bind. specialize (Hm w Hw).
  destruct (m w) as [[a|e] w']; simpl in *; [by apply Hf|done].
Qed.

Lemma keeps_modify f : (forall w, I w -> I (mk_world (f (st w)) (ls w))) -> keeps I (modify f).
Proof. intros Hf w. apply Hf. Qed.

Lemma keeps_save : (forall w, I w -> I (mk_world (st w) (save_state (st w) (ls w)))) -> keeps I save.
Proof. intros Hs w. apply Hs. Qed.

(** [loadConfig] writes only [STATE.config]. *)
Lemma keeps_load_config cr :
  (forall w c, I w -> I (mk_world (set_config c (st w)) (ls w))) -> keeps I (load_config cr).
Proof.
  intros Hc w Hw. unfold load_config.
  destruct (truthy _); [done|]. destruct cr as [|status b]; [done|].
  destruct (negb _); [done|]. destruct (parsed b); [by apply Hc|done].
Qed.

End Keeps.

Create HintDb keeps discriminated.
#[export] Hint Resolve keeps_ret keeps_throw keeps_get_state : keeps.

(** Unfolds a handler down to its primitive steps. *)
Ltac keeps_tac :=
  repeat (match goal with
          | |- keeps _ (mbind _ _) => apply keeps_bind; [|intros ?]
          | |- keeps _ (modify _) => apply keeps_modify; intros; eauto
          | |- keeps _ save => apply keeps_save; intros; eauto
          | |- keeps _ (load_config _) => apply keeps_load_config; intros; eauto
          | |- keeps _ (match ?x with _ => _ end) => destruct x
          | |- keeps _ (if ?b then _ else _) => destruct b
          | |- keeps _ _ => eauto with keeps
          end).

(** Every engine handler keeps an invariant that the four kinds of
    writes they make keep. *)
Section Handlers.

Context (cr : fetch_outcome) (srv : string -> json -> fetch_outcome) (now : nat) (y m d : Z).
Context (I : world -> Prop).
Hypothesis I_config : forall w c, I w -> I (mk_world (set_config c (st w)) (ls w)).
Hypothesis I_user : forall w u, I w -> I (mk_world (set_user_id u (st w)) (ls w)).
Hypothesis I_schedule : forall w sched, I w -> I (mk_world (apply_schedule sched (st w)) (ls w)).
Hypothesis I_save : forall w, I w -> I (mk_world (st w) (save_state (st w) (ls w))).

Lemma keeps_call_engine kind payload : keeps I (call_engine cr srv y m d kind payload).
Proof using I_config I_user I_schedule I_save. unfold call_engine. keeps_tac. Qed.

Lemma keeps_send_onboarding : keeps I (send_onboarding cr srv now y m d).
Proof using I_config I_user I_schedule I_save.
  pose proof keeps_call_engine. unfold send_onboarding. keeps_tac.
Qed.

Lemma keeps_ensure_user : keeps I (ensure_user cr srv now y m d).
Proof using I_config I_user I_schedule I_save.
  pose proof keeps_send_onboarding. unfold ensure_user. keeps_tac.
Qed.

Lemma keeps_schedule_call kind body : keeps I (schedule_call cr srv now y m d kind body).
Proof using I_config I_user I_schedule I_save.
  pose proof keeps_ensure_user. pose proof keeps_call_engine. unfold schedule_call. keeps_tac.
Qed.

Lemma keeps_confirm_schedule : keeps I (confirm_schedule cr srv now y m d).
Proof using I_config I_user I_schedule I_save.
  pose proof keeps_ensure_user. pose proof keeps_call_engine. unfold confirm_schedule. keeps_tac.
Qed.

Lemma keeps_engine_recommend nr : keeps I (engine_recommend cr srv now y m d nr).
Proof using I_config I_user I_schedule I_save.
  pose proof keeps_ensure_user. unfold engine_recommend. keeps_tac.
Qed.

End Handlers.

(** ** What no handler writes: [STATE.history] *)

Definition set_view (v : string) (s : app_state) : app_state :=
  mk_state v (profile s) (prefs s) (selections s) (history s) (timeline s)
    (calendar s) (config s) (chatStage s) (user_id s) (last_itinerary_id s) (last_schedule s) (tab s).

Definition set_chat_stage (c : string) (s : app_state) : app_state :=
  mk_state (view s) (profile s) (prefs s) (selections s) (history s) (timeline s)
    (calendar s) (config s) c (user_id s) (last_itinerary_id s) (last_schedule s) (tab s).

(** One user action or page event, each with the network's answers of
    its own. *)
Inductive app_step : world -> world -> Prop :=
  | step_create cr srv now y m d nr farm tours w :
      app_step w (snd (create_schedule_with_user cr srv now y m d nr farm tours w))
  | step_feedback cr srv now y m d fb w :
      app_step w (snd (send_schedule_feedback cr srv now y m d fb w))
  | step_confirm cr srv now y m d w :
      app_step w (snd (confirm_schedule cr srv now y m d w))
  | step_recommend cr srv now y m d nr w :
      app_step w (snd (engine_recommend cr srv now y m d nr w))
  | step_onboard cr srv now y m d w :
      app_step w (snd (send_onboarding cr srv now y m d w))
  (** [STATE.chatStage = "table"; saveState();] after a plan (line 731). *)
  | step_table w :
      app_step w (mk_world (set_chat_stage "table" (st w)) (save_state (set_chat_stage "table" (st w)) (ls w)))
  (** [navigate(v)] *)
  | step_navigate v w : app_step w (mk_world (set_view v (st w)) (ls w))
  (** A reload of the page. *)
  | step_reload hash w s : load_state hash (ls w) = Some s -> app_step w (mk_world s (ls w)).

(** The stored history is the one in [STATE]. *)
Definition history_synced (w : world) : Prop :=
  parse_item "ims_history" (JArr []) (ls w) = Some (history (st w)).

(** [STATE.history] is [h] and is what the storage holds. *)
Definition history_is (h : json) (w : world) : Prop := history_synced w /\ history (st w) = h.

Lemma apply_schedule_history sched s : history (apply_schedule sched s) = history s.
Proof. unfold apply_schedule. by destruct (truthy _). Qed.

Lemma history_is_save h w : history_is h w -> history_is h (mk_world (st w) (save_state (st w) (ls w))).
Proof. intros [Hs Hh]. split; [|done]. unfold history_synced, parse_item, save_state. simpl. by simplify_map_eq. Qed.

Lemma app_step_history h w w' : app_step w w' -> history_is h w -> history_is h w'.
Proof.
  assert (Hc : forall w c, history_is h w -> history_is h (mk_world (set_config c (st w)) (ls w))) by done.
  assert (Hu : forall w u, history_is h w -> history_is h (mk_world (set_user_id u (st w)) (ls w))) by done.
  assert (Hsc : forall w sched, history_is h w -> history_is h (mk_world (apply_schedule sched (st w)) (ls w)))
    by (intros ?? [H1 H2]; split; unfold history_synced in *; simpl; by rewrite apply_schedule_history).
  pose proof (history_is_save h) as Hsv.
  intros Hs Hw. destruct Hs as [| | | | | w| v w| hash w s Hl].
  - by apply (keeps_schedule_call _ _ _ _ _ _ _ Hc Hu Hsc Hsv).
  - by apply (keeps_schedule_call _ _ _ _ _ _ _ Hc Hu Hsc Hsv).
  - by apply (keeps_confirm_schedule _ _ _ _ _ _ _ Hc Hu Hsc Hsv).
  - by apply (keeps_engine_recommend _ _ _ _ _ _ _ Hc Hu Hsc Hsv).
  - by apply (keeps_send_onboarding _ _ _ _ _ _ _ Hc Hu Hsc Hsv).
  - apply (history_is_save h (mk_world (set_chat_stage "table" (st w)) (ls w))). done.
  - done.
  - destruct Hw as [Hw <-]. unfold load_state in Hl. rewrite Hw in Hl.
    simplify_option_eq. done.
Qed.

(** C22: no handler ever writes [STATE.history].  Along any run of
    plans, revisions, confirmations, recommendations, onboarding,
    navigation and reloads, the history the drawer lists stays the one
    first read from [localStorage]. *)
Theorem history_never_written w w' :
  rtc app_step w w' -> history_synced w -> history (st w') = history (st w).
Proof.
  intros Hr Hw. cut (history_is (history (st w)) w'); [by intros [_ ?]|].
  assert (Hi : history_is (history (st w)) w) by done. clear Hw. revert Hi.
  generalize (history (st w)) as h. induction Hr as [w|w1 w2 w3 Hs _ IH]; intros h Hi; [done|].
  apply IH. by apply (app_step_history h w1 w2).
Qed.

Lemma history_never_written_witness :
  let w := mk_world sample_state (save_state sample_state ∅) in
  let server := fun (_ : string) (_ : json) => Response 200 (mk_body "" (Some feedback_response)) in
  let w' := snd (send_schedule_feedback (NetworkError "") server 0 2025 9 30 (JStr "첫째날 일정을 바꿔주세요") w) in
  rtc app_step w w' /\ history_synced w /\ history (st w') = history (st w).
Proof.
  split_and!; [apply rtc_once; constructor|reflexivity|].
  apply history_never_written; [apply rtc_once; constructor|reflexivity].
Defined.

Lemma create_schedule_with_user_never_rejects_witness :
  let w := mk_world sample_state ∅ in
  config_ready (st w) /\ truthy (user_id (st w)) = true /\
  exists sched, fst (create_schedule_with_user (NetworkError "") (fun _ _ => NetworkError "Failed to fetch")
                       0 2025 9 30 (JStr "10월에 열흘간 김제") None None w) = Resolve sched.
Proof.
  split_and!; [exact sample_config_ready|reflexivity|].
  apply create_schedule_with_user_never_rejects; [exact sample_config_ready|reflexivity].
Defined.

(** The first [callEngine] on the same failure rejects with the message
    the plan button tests for. *)
Example call_engine_v1_http_error :
  fst (call_engine_v1 (NetworkError "") (fun _ _ => Response 500 (mk_body "Internal Server Error" None))
         "plan" (JObj []) (mk_world sample_state ∅)) =
  Reject "HTTP 500 http://localhost:8000/api/schedule/with-user :: Internal Server Error".
Proof. reflexivity. Qed.

(** ** [mockPlan]'s day *)

(** A date the [Date] constructor leaves as it is. *)
Definition valid_date (y m d : Z) : Prop := (0 <= m <= 11 /\ 1 <= d <= days_in_month y m)%Z.

Lemma days_in_month_range y m : (28 <= days_in_month y m <= 31)%Z.
Proof. unfold days_in_month. repeat case_match; lia. Qed.

(** Two days after a valid date [mockPlan] shows a valid date,
    later in the calendar than the first: the same month, the next
    month, or January of the next year. *)
Theorem plus_two_days_valid y m d :
  valid_date y m d ->
  let '(y', m', d') := plus_two_days y m d in
  valid_date y' m' d' /\
  ((y' = y /\ m' = m /\ d' = d + 2) \/ (y' = y /\ m' = m + 1 /\ d' <= 2) \/ (y' = y + 1 /\ m' = 0 /\ m = 11 /\ d' <= 2))%Z.
Proof.
  intros [Hm Hd]. unfold plus_two_days, valid_date.
  pose proof (days_in_month_range y m). pose proof (days_in_month_range y (m + 1)). pose proof (days_in_month_range (y + 1) 0).
  destruct (Z.leb_spec (d + 2) (days_in_month y m)); [lia|].
  destruct (Z.eqb_spec m 11); lia.
Qed.

Lemma plus_two_days_valid_witness :
  valid_date 2025 8 30 /\
  let '(y', m', d') := plus_two_days 2025 8 30 in
  valid_date y' m' d' /\
  ((y' = 2025 /\ m' = 8 /\ d' = 30 + 2) \/ (y' = 2025 /\ m' = 8 + 1 /\ d' <= 2) \/
   (y' = 2025 + 1 /\ m' = 0 /\ 8 = 11 /\ d' <= 2))%Z.
Proof. split; [unfold valid_date; cbn; lia|]. apply (plus_two_days_valid 2025 8 30). unfold valid_date; cbn; lia. Defined.

Lemma save_state_reload_witness :
  stringish (user_id sample_state) /\ stringish (last_itinerary_id sample_state) /\
  load_state "#chat" (save_state sample_state ∅) = Some (reloaded "#chat" sample_state).
Proof. split_and!; [exact I|exact I|]. by apply save_state_reload. Defined.
