(* ===== verification/Report.v ===== *)
(** * The implementation report's account of the client

    The second half of src/unnamed/part_001 (from line 482) is a report on
    the implementation; it quotes a [saveState] (lines 648-653) that
    persists three keys.  This file states that [saveState] and compares
    it with the client's (src/unnamed/part_000, lines 188-201): the
    client writes the same values under the report's keys wherever the
    report's version is well defined, and departs from it where the
    report's version would write [String(null)]: after a reload, a user
    who never received an id would come back with the id ["null"].

    The file also states the endpoints the documents give (the API
    reference, lines 17-228; the report's list, lines 541-545; the
    folder guide, src/unnamed/part_002 lines 188-190) and the report's
    [callEngine] URL (lines 530-537), and compares them with the URLs
    the client's [callEngine] builds ([Engine.engine_url]).  Last, the
    report's [sendOnboardingAndGetUserId] (lines 596-603) sets the id
    without saving it, where the client saves it. *)

From S2P Require Import Prelude Json Engine.

Module Report.

(** The report's [saveState]: [localStorage.setItem("ims_user_id",
    STATE.user_id)] stores [String(STATE.user_id)], and the schedule is
    stored as it is. *)
Definition report_save_state (s : app_state) (ls : storage) : storage :=
  <["ims_last_schedule" := Text (last_schedule s)]> (
  <["ims_user_id" := Raw (js_string (user_id s))]> (
  <["ims_profile" := Text (profile s)]> ls)).

(** The report's [callEngine] (lines 530-537): the URL
    [`${cfg.baseURL}${ep}`] with [ep = resolveEndpoint(pathOrKey, cfg)],
    the first declaration of the client, not the one that runs. *)
Definition report_engine_url (cfg : json) (key : string) : string :=
  js_string_opt (get_field "baseURL" cfg) +:+ js_string (resolve_endpoint key cfg).

(** The report's endpoints of [config.json] (lines 541-545). *)
Definition report_endpoints : list string :=
  ["/api/onboarding"; "/recommendations/with-user"; "/api/schedule/with-user"; "/api/schedule/feedback"].

(** The API reference's paths (part_001 lines 17, 61, 126 and 228),
    under the [callEngine] kind that the client's comments give them
    (src/unnamed/part_000 lines 411 and 431). *)
Definition reference_paths : list (string * string) :=
  [("onboarding", "/api/onboarding"); ("recommendations/with-user", "/recommendations/with-user");
   ("plan", "/api/schedule/with-user"); ("revise", "/api/schedule/feedback")].

(** The folder guide's endpoints (src/unnamed/part_002 lines 188-190). *)
Definition guide_paths : list (string * string) :=
  [("recommendations", "/recommendations"); ("plan", "/api/schedule"); ("revise", "/api/schedule/feedback")].

(** A [config.json] routing each kind to its path. *)
Definition config_of (base : string) (paths : list (string * string)) : json :=
  JObj [("baseURL", JStr base); ("endpoints", JObj ((fun '(k, p) => (k, JStr p)) <$> paths))].

Section Calls.
Context (cr : fetch_outcome) (srv : string -> json -> fetch_outcome) (y m d : Z).

(** The report's [sendOnboardingAndGetUserId] (lines 596-603): the
    engine is always asked, and [STATE.user_id = data.user_id] is set
    without [saveState].  An absent [data.user_id] ([undefined]) is
    [null] here: both are falsy. *)
Definition report_send_onboarding : M json :=
  s ← get_state;
  data ← call_engine cr srv y m d "onboarding" (build_onboarding_payload s);
  let u := default JNull (get_field "user_id" data) in
  modify (set_user_id u);; mret u.

End Calls.

(** ** Properties *)

(** The client's [saveState] writes what the report's writes under each
    of the report's keys: always for the profile, for the schedule when
    it is truthy or [null], for the id when it is a non-empty string. *)
Theorem save_state_refines_report s ls :
  save_state s ls !! "ims_profile" = report_save_state s ls !! "ims_profile" /\
  (truthy (last_schedule s) = true \/ last_schedule s = JNull ->
   save_state s ls !! "ims_last_schedule" = report_save_state s ls !! "ims_last_schedule") /\
  (forall u, user_id s = JStr u -> u <> "" ->
   save_state s ls !! "ims_user_id" = report_save_state s ls !! "ims_user_id").
Proof.
  unfold save_state, report_save_state. split_and!.
  - by simplify_map_eq.
  - intros Hl. simplify_map_eq. destruct Hl as [Hl| ->]; [|done]. by rewrite or_else_truthy.
  - intros u Hu Hne. simplify_map_eq. rewrite Hu, or_else_truthy; [done|]. by apply truthy_string_iff.
Qed.

(** Without a user id, the report's [saveState] stores the text ["null"],
    which the [STATE] initialiser reads back as a truthy id, so
    [sendOnboardingAndGetUserId] would never run again; the client's
    [STATE.user_id || ""] stores [""], read back as [null]. *)
Theorem report_save_state_null_id h s :
  user_id s = JNull ->
  (exists s', load_state h (report_save_state s ∅) = Some s' /\ user_id s' = JStr "null" /\ truthy (user_id s') = true) /\
  (exists s', load_state h (save_state s ∅) = Some s' /\ user_id s' = JNull).
Proof.
  intros Hu. split.
  - eexists. split; [reflexivity|]. cbn [user_id]. unfold string_item, raw_item, report_save_state.
    simplify_map_eq. rewrite Hu. by split.
  - eexists. split; [reflexivity|]. cbn [user_id]. unfold string_item, raw_item, save_state.
    simplify_map_eq. by rewrite Hu.
Qed.


(** ** The endpoints *)

Lemma field_of_paths (paths : list (string * string)) k p :
  NoDup (fst <$> paths) -> (k, p) ∈ paths ->
  field_of k ((fun '(k, p) => (k, JStr p)) <$> paths) = Some (JStr p).
Proof.
  induction paths as [|[k' p'] paths IH]; simpl; [by intros _ ?%elem_of_nil|].
  intros [Hk Hnd]%NoDup_cons [[= -> ->]|Hin]%elem_of_cons; [by rewrite String.eqb_refl|].
  destruct (String.eqb_spec k k') as [->|]; [|by apply IH].
  exfalso. apply Hk. apply list_elem_of_fmap. by exists (k', p).
Qed.

Lemma engine_url_config_of base paths k p :
  NoDup (fst <$> paths) -> (k, p) ∈ paths -> p <> "" ->
  engine_url (config_of base paths) (JObj ((fun '(k, p) => (k, JStr p)) <$> paths)) k = base +:+ p.
Proof.
  intros Hnd Hin Hp. unfold engine_url, config_of, get_field. rewrite (field_of_paths _ _ _ Hnd Hin). simpl.
  rewrite or_else_truthy; [done|]. by apply truthy_string_iff.
Qed.

(** With the configuration the API reference implies, the client's
    [callEngine] posts each documented kind to its documented path,
    while [confirmSchedule]'s kind ["confirm"] falls back to
    ["/confirm"], which no document describes. *)
Theorem reference_routes base :
  let cfg := config_of base reference_paths in
  let eps := JObj ((fun '(k, p) => (k, JStr p)) <$> reference_paths) in
  (forall k p, (k, p) ∈ reference_paths -> engine_url cfg eps k = base +:+ p) /\
  engine_url cfg eps "confirm" = base +:+ "/confirm" /\
  "/confirm" ∉ snd <$> reference_paths /\ "/confirm" ∉ report_endpoints.
Proof.
  split_and!.
  - intros k p Hin. apply engine_url_config_of; [by vm_compute; repeat constructor; set_solver|done|].
    repeat (apply elem_of_cons in Hin as [[= -> ->]|Hin]; [done|]). by apply elem_of_nil in Hin.
  - reflexivity.
  - vm_compute. set_solver.
  - unfold report_endpoints. set_solver.
Qed.

(** The folder guide routes schedule creation to ["/api/schedule"],
    a path that neither the API reference, nor the report's list, nor
    the client's comment ([POST /api/schedule/with-user]) gives. *)
Theorem guide_plan_path base :
  engine_url (config_of base guide_paths) (JObj ((fun '(k, p) => (k, JStr p)) <$> guide_paths)) "plan"
    = base +:+ "/api/schedule" /\
  "/api/schedule" ∉ snd <$> reference_paths /\ "/api/schedule" ∉ report_endpoints.
Proof. split_and!; [reflexivity|vm_compute; set_solver|unfold report_endpoints; set_solver]. Qed.

(** The report's [callEngine] and the client's agree on a configured
    endpoint; on a kind without one the report's URL is the bare
    [baseURL], while the client's adds ["/" + kind]. *)
Theorem report_url_vs_client cfg eps k :
  get_field "endpoints" cfg = Some eps -> truthy k = true -> String.prefix "/" k = false ->
  (forall p, get_field k eps = Some (JStr p) -> p <> "" ->
     report_engine_url cfg k = engine_url cfg eps k) /\
  (get_field k eps = None ->
     report_engine_url cfg k = js_string_opt (get_field "baseURL" cfg) /\
     engine_url cfg eps k = js_string_opt (get_field "baseURL" cfg) +:+ "/" +:+ k).
Proof.
  intros He Hk Hp. unfold report_engine_url, engine_url, resolve_endpoint. rewrite Hk, Hp. simpl.
  unfold field. rewrite He. simpl. split.
  - intros p Hf Hne. rewrite Hf. destruct eps; try discriminate Hf.
    unfold and_then. cbn [truthy truthy_option truthy_json].
    assert (Ht : truthy (JStr p) = true) by (by apply truthy_string_iff). by rewrite !or_else_truthy.
  - intros Hf. rewrite Hf. unfold and_then. split; [|done].
    destruct (truthy (Some eps)) eqn:E; simpl; [|rewrite or_else_falsy by done]; by rewrite string_app_nil_r.
Qed.


(** ** Onboarding *)

(** C40: with an onboarding endpoint configured and the engine answering a
    user id, the report's [sendOnboardingAndGetUserId] and the client's
    both set [STATE.user_id]; the client's saves it, the report's does
    not, so after a reload the report's page has lost the id and would
    onboard again. *)
Theorem report_onboarding_forgotten cr srv now y m d w status t u h :
  config_ready (st w) ->
  truthy (and_then (get_field "endpoints" (config (st w))) (field "onboarding" (get_field "endpoints" (config (st w))))) = true ->
  (forall url body, srv url body = Response status (mk_body t (Some (JObj [("user_id", JStr u)])))) ->
  res_ok status = true -> u <> "" -> ls w = ∅ ->
  (exists w1, report_send_onboarding cr srv y m d w = (Resolve (JStr u), w1) /\ user_id (st w1) = JStr u /\
     exists s1, load_state h (ls w1) = Some s1 /\ user_id s1 = JNull) /\
  (exists w2, send_onboarding cr srv now y m d w = (Resolve (JStr u), w2) /\ user_id (st w2) = JStr u /\
     exists s2, load_state h (ls w2) = Some s2 /\ user_id s2 = JStr u).
Proof.
  intros Hc Hon Hs Hok Hu Hls.
  assert (Hce : forall payload, call_engine cr srv y m d "onboarding" payload w = (Resolve (JObj [("user_id", JStr u)]), w))
    by (intros; by apply (call_engine_answered cr srv y m d w _ _ status t)).
  split.
  - eexists. unfold report_send_onboarding, mbind, M_bind, get_state. simpl. rewrite Hce. simpl.
    split; [reflexivity|]. split; [done|]. rewrite Hls. eexists. split; [reflexivity|]. done.
  - eexists. unfold send_onboarding, mbind, M_bind at 1. rewrite load_config_ready by apply Hc.
    unfold mbind, M_bind, get_state. simpl. rewrite Hon, Hce. simpl.
    assert (Ht : truthy u = true) by (by apply truthy_string_iff). rewrite Ht. simpl.
    split; [reflexivity|]. split; [done|]. rewrite Hls. eexists. split; [reflexivity|].
    cbn [user_id]. unfold string_item, save_state. simplify_map_eq. rewrite or_else_truthy by done.
    simpl. destruct u; [done|]. reflexivity.
Qed.


(** A first visit under the configuration of the API reference, the
    engine answering the documented user id. *)
Definition onboarding_world : world :=
  mk_world (set_user_id JNull (set_config (config_of "http://localhost:8000" reference_paths) sample_state)) ∅.

Definition onboarding_server (_ : string) (_ : json) : fetch_outcome :=
  Response 200 (mk_body "" (Some (JObj [("user_id", JStr "user_1693498765")]))).

Lemma report_onboarding_forgotten_witness :
  (exists w1, report_send_onboarding (NetworkError "") onboarding_server 2025 9 1 onboarding_world
                = (Resolve (JStr "user_1693498765"), w1) /\ user_id (st w1) = JStr "user_1693498765" /\
     exists s1, load_state "" (ls w1) = Some s1 /\ user_id s1 = JNull) /\
  (exists w2, send_onboarding (NetworkError "") onboarding_server 0 2025 9 1 onboarding_world
                = (Resolve (JStr "user_1693498765"), w2) /\ user_id (st w2) = JStr "user_1693498765" /\
     exists s2, load_state "" (ls w2) = Some s2 /\ user_id s2 = JStr "user_1693498765").
Proof.
  apply (report_onboarding_forgotten _ _ _ _ _ _ _ 200 ""); try reflexivity.
  - split; [reflexivity|]. eexists; split; [reflexivity|discriminate].
  - discriminate.
Defined.

End Report.
