(* ===== verification/MonthGrid.v ===== *)
(** * The home month grid: [monthMatrix] and the month buttons

    [monthMatrix(year, month)] (src/unnamed/part_000, lines 280-295)
    lays out 42 days from the Monday on or before the 1st.  Each day is
    keyed by [dt.toISOString().slice(0, 10)].  [calendarBlocksHTML]
    (296-324) draws the cells, and [renderHome] (566-634) reads the
    shown month from [localStorage] and moves it with the two buttons.
    A sequence of clicks on the two buttons ([presses]) is the input of
    the liveness theorem [month_buttons_reach].

    A [Date] is a day number counted from 1970-01-01 in local time;
    [Dates] holds the proleptic Gregorian conversions that [Date] uses.
    [toISOString] prints the UTC date of
    the instant.  At local midnight in a zone [off] minutes east of
    UTC, that date is the day number [(1440 * dn - off) / 1440].

    [calendar_cell] says what the [k]-th cell shows by the calendar
    alone; [month_matrix_layout] proves that [monthMatrix] agrees with
    it for every year, month and offset. *)

From S2P Require Import Prelude Json Engine Dates.
From stdpp Require Import pretty.

(** ** Days and dates *)

(** [String(n).padStart(4, "0")] for the year of [toISOString]. *)
Definition pad4 (s : string) : string :=
  match String.length s with
  | 0 => "0000" | 1 => "000" +:+ s | 2 => "00" +:+ s | 3 => "0" +:+ s | _ => s
  end.

(** [toISOString().slice(0, 10)] of a UTC date. *)
Definition iso_date (ymd : Z * Z * Z) : string :=
  let '(y, mo, d) := ymd in pad4 (pretty y) +:+ "-" +:+ pad2 (pretty mo) +:+ "-" +:+ pad2 (pretty d).

(** The UTC day of local midnight of day [dn], [off] minutes east of UTC. *)
Definition utc_day (off dn : Z) : Z := ((1440 * dn - off) / 1440)%Z.

(** ** [monthMatrix] *)

(** [{ d, inMonth, key }] *)
Record cell := mk_cell { cell_d : Z; inMonth : bool; key : string }.

(** [start]: the Monday on or before the 1st. *)
Definition matrix_start (year month : Z) : Z :=
  let first := days_from_civil year (month + 1) 1 in
  (first - (week_day first + 6) mod 7)%Z.

Definition matrix_cell (off month dn : Z) : cell :=
  let '(_, mo, d) := civil_from_days dn in
  mk_cell d (Z.eqb (mo - 1) month) (iso_date (civil_from_days (utc_day off dn))).

Definition month_matrix (off year month : Z) : list cell :=
  map (fun i => matrix_cell off month (matrix_start year month + Z.of_nat i)) (seq 0 42).

(** What the [k]-th cell of the grid of [month] (from 0) of [year]
    shows by the calendar, weeks starting on Monday: the 1st falls in
    the column of its weekday, the cells before it are the last days of
    the previous month, the cells after the month's last day the first
    days of the next month. *)
Definition first_column (year month : Z) : Z :=
  ((week_day (days_from_civil year (month + 1) 1) + 6) mod 7)%Z.

Definition prev_month_days (year month : Z) : Z :=
  if (month =? 0)%Z then 31%Z else days_in_month year month.

Definition calendar_cell (year month k : Z) : Z * bool :=
  let col := first_column year month in
  let n := days_in_month year (month + 1) in
  if (k <? col)%Z then (prev_month_days year month - col + 1 + k, false)%Z
  else if (k <? col + n)%Z then (k - col + 1, true)%Z
  else (k - col - n + 1, false)%Z.

(** The [class] attribute of a cell in [calendarBlocksHTML]. *)
Definition cell_class (c : cell) (has : bool) : string :=
  "cal-cell " +:+ (if inMonth c then "" else "muted") +:+ " " +:+ (if has then "has" else "").

(** [el.classList.contains(name)]: the space-separated words. *)
Fixpoint words_aux (cur : string) (s : string) : list string :=
  match s with
  | EmptyString => [cur]
  | String c s' => if Ascii.eqb c (Ascii.ascii_of_nat 32) then cur :: words_aux "" s' else words_aux (cur +:+ String c EmptyString) s'
  end.

Definition has_class (cls name : string) : bool := existsb (String.eqb name) (words_aux "" cls).

(** ** The shown month ([renderHome], lines 568-569) *)

(** The decimal digits of a text, [None] at any other character. *)
Fixpoint digits_value (s : string) (acc : Z) : option Z :=
  match s with
  | EmptyString => Some acc
  | String c s' =>
      let n := Ascii.nat_of_ascii c in
      if (48 <=? n)%nat && (n <=? 57)%nat then digits_value s' (acc * 10 + Z.of_nat (n - 48))%Z else None
  end.

(** [Number(s)] on the integer texts the month buttons store: [""] is
    [0], an optional [-] and digits give the integer, and any other text
    is [NaN] ([None]); the decimal and exponent forms are not stored. *)
Definition parse_int (s : string) : option Z :=
  match s with
  | EmptyString => Some 0%Z
  | String c s' =>
      if Ascii.eqb c (Ascii.ascii_of_nat 45)
      then match s' with EmptyString => None | _ => Z.opp <$> digits_value s' 0 end
      else digits_value s 0
  end.

(** [Number(localStorage.getItem(k))]: [Number(null)] is [0]. *)
Definition number_item (k : string) (ls : storage) : option Z :=
  match ls !! k with
  | None => Some 0%Z
  | Some (Raw s) => parse_int s
  | Some (Text _) => None
  end.

(** [Number(...) || fallback]: [0] and [NaN] are falsy. *)
Definition number_or (o : option Z) (fallback : Z) : Z :=
  match o with Some z => if Z.eqb z 0 then fallback else z | None => fallback end.

Definition shown_year (now_y : Z) (ls : storage) : Z := number_or (number_item "ims_year" ls) now_y.
Definition shown_month (now_m : Z) (ls : storage) : Z := number_or (number_item "ims_month" ls) now_m.

(** [localStorage.setItem(k, n)] of a number. *)
Definition set_number (k : string) (z : Z) (ls : storage) : storage := <[k := Raw (pretty z)]> ls.

(** The [#nextMonth] handler. *)
Definition next_month (now_y now_m : Z) (ls : storage) : storage :=
  let y := shown_year now_y ls in
  let m := shown_month now_m ls in
  let '(yy, mm) := if (11 <? m + 1)%Z then ((y + 1)%Z, 0%Z) else (y, (m + 1)%Z) in
  set_number "ims_month" mm (set_number "ims_year" yy ls).

(** The [#prevMonth] handler. *)
Definition prev_month (now_y now_m : Z) (ls : storage) : storage :=
  let y := shown_year now_y ls in
  let m := shown_month now_m ls in
  let '(yy, mm) := if (m - 1 <? 0)%Z then ((y - 1)%Z, 11%Z) else (y, (m - 1)%Z) in
  set_number "ims_month" mm (set_number "ims_year" yy ls).

(** The two month buttons of the home screen, and a run of presses. *)
Inductive button := NextMonth | PrevMonth.

Definition press (now_y now_m : Z) (ls : storage) (b : button) : storage :=
  match b with NextMonth => next_month now_y now_m ls | PrevMonth => prev_month now_y now_m ls end.

Definition presses (now_y now_m : Z) (bs : list button) (ls : storage) : storage :=
  fold_left (press now_y now_m) bs ls.

(** ** The grid's keys *)

Lemma utc_day_east off dn : (0 < off < 1440)%Z -> utc_day off dn = (dn - 1)%Z.
Proof. intros H. unfold utc_day. symmetry. apply Z.div_unique with (1440 - off)%Z; lia. Qed.

Lemma utc_day_west off dn : (-1440 < off <= 0)%Z -> utc_day off dn = dn.
Proof. intros H. unfold utc_day. symmetry. apply Z.div_unique with (- off)%Z; lia. Qed.

Lemma nth_error_month_matrix off year month i c :
  nth_error (month_matrix off year month) i = Some c ->
  (i < 42)%nat /\ c = matrix_cell off month (matrix_start year month + Z.of_nat i).
Proof.
  unfold month_matrix. rewrite nth_error_map.
  destruct (nth_error (seq 0 42) i) as [j|] eqn:E; [|done]. simpl. intros [= <-].
  apply nth_error_In in E as Hin. apply in_seq in Hin.
  rewrite nth_error_seq in E. destruct (Nat.ltb_spec i 42); [|done]. injection E as <-. split; [lia|done].
Qed.

(** C25: east of UTC (Korea is 540 minutes east) every cell of
    [monthMatrix] is keyed by the ISO date of the day before the one it
    shows.  An event filed under its local date [YYYY-MM-DD] therefore
    puts its dot on the next day's cell. *)
Theorem month_matrix_key_shift off year month i c :
  (0 < off < 1440)%Z -> nth_error (month_matrix off year month) i = Some c ->
  let dn := (matrix_start year month + Z.of_nat i)%Z in
  key c = iso_date (civil_from_days (dn - 1)) /\ cell_d c = (civil_from_days dn).2.
Proof.
  intros Hoff Hc. apply nth_error_month_matrix in Hc as [_ ->]. cbv zeta. unfold matrix_cell.
  destruct (civil_from_days (matrix_start year month + Z.of_nat i)) as [[y mo] d]. cbn [key cell_d snd].
  by rewrite utc_day_east.
Qed.

Lemma month_matrix_key_shift_witness :
  (0 < 540 < 1440)%Z /\
  nth_error (month_matrix 540 2025 9) 0 = Some (mk_cell 29 false "2025-09-28") /\
  key (mk_cell 29 false "2025-09-28") = iso_date (civil_from_days (matrix_start 2025 9 + Z.of_nat 0 - 1)) /\
  cell_d (mk_cell 29 false "2025-09-28") = (civil_from_days (matrix_start 2025 9 + Z.of_nat 0)).2.
Proof.
  assert (H : nth_error (month_matrix 540 2025 9) 0 = Some (mk_cell 29 false "2025-09-28")) by (vm_compute; reflexivity).
  split; [lia|]. split; [exact H|]. apply (month_matrix_key_shift 540 2025 9 0); [lia|exact H].
Defined.

(** [$$(".cal-cell.inMonth")]: the cells the day-click handler is
    attached to. *)
Definition clickable_cells (cells : list cell) (has : cell -> bool) : list cell :=
  List.filter (fun c => has_class (cell_class c (has c)) "cal-cell" && has_class (cell_class c (has c)) "inMonth") cells.

Lemma cell_class_not_inMonth c has : has_class (cell_class c has) "inMonth" = false.
Proof. unfold cell_class. destruct (inMonth c), has; reflexivity. Qed.

(** No cell of the grid carries the class [inMonth] (the grid
    writes [muted] for the other months' days and nothing for the
    month's own), so the day-click handler of [renderHome] is attached
    to no cell. *)
Theorem clickable_cells_none off year month has :
  clickable_cells (month_matrix off year month) has = [].
Proof.
  unfold clickable_cells. induction (month_matrix off year month) as [|c cs IH]; [done|].
  cbn [List.filter]. by rewrite cell_class_not_inMonth, andb_false_r.
Qed.

(** ** The grid against the calendar *)

(** The day a cell shows, when it is a valid date. *)
Lemma matrix_cell_date off month dn y m d :
  valid_date y m d -> dn = days_from_civil y m d ->
  (cell_d (matrix_cell off month dn), inMonth (matrix_cell off month dn)) = (d, Z.eqb (m - 1) month).
Proof. intros V ->. unfold matrix_cell. by rewrite civil_dfc. Qed.

Lemma first_column_bounds year month : (0 <= first_column year month <= 6)%Z.
Proof. unfold first_column. pose proof (Z.mod_pos_bound (week_day (days_from_civil year (month + 1) 1) + 6) 7). lia. Qed.

(** The first day of the previous month and of the next. *)
Lemma first_of_prev_month year month :
  (0 <= month <= 11)%Z -> exists py pm,
  days_from_civil year (month + 1) 1 = (days_from_civil py pm 1 + prev_month_days year month)%Z /\
  (1 <= pm <= 12)%Z /\ prev_month_days year month = days_in_month py pm /\ (pm - 1 <> month)%Z.
Proof.
  intros Hm. unfold prev_month_days. destruct (Z.eqb_spec month 0) as [->|Hne].
  - exists (year - 1)%Z, 12%Z. pose proof (dfc_next_year (year - 1)) as H.
    replace (year - 1 + 1)%Z with year in H by lia. split_and!; [exact H|lia..|reflexivity|lia].
  - exists year, month. rewrite dfc_next_month by lia. split_and!; [done|lia..|done|lia].
Qed.

Lemma first_of_next_month year month :
  (0 <= month <= 11)%Z -> exists ny nm,
  days_from_civil ny nm 1 = (days_from_civil year (month + 1) 1 + days_in_month year (month + 1))%Z /\
  (1 <= nm <= 12)%Z /\ (nm - 1 <> month)%Z.
Proof.
  intros Hm. destruct (Z.eq_dec month 11%Z) as [->|Hne].
  - exists (year + 1)%Z, 1%Z. rewrite dfc_next_year. split_and!; [reflexivity|lia..].
  - exists year, (month + 2)%Z. replace (month + 2)%Z with (month + 1 + 1)%Z by lia.
    rewrite dfc_next_month by lia. split_and!; [done|lia..].
Qed.

Lemma matrix_cell_calendar off year month k :
  (0 <= month <= 11)%Z -> (0 <= k < 42)%Z ->
  let c := matrix_cell off month (matrix_start year month + k) in
  (cell_d c, inMonth c) = calendar_cell year month k.
Proof.
  intros Hm Hk c. subst c. unfold calendar_cell.
  pose proof (first_column_bounds year month) as Hcol.
  assert (Hs : matrix_start year month = (days_from_civil year (month + 1) 1 - first_column year month)%Z) by reflexivity.
  rewrite Hs. set (col := first_column year month) in *. set (n := days_in_month year (month + 1)).
  pose proof (days_in_month_bounds year (month + 1)) as Hn.
  destruct (Z.ltb_spec k col) as [Hlt|Hge].
  - destruct (first_of_prev_month year month Hm) as (py & pm & Hf & Hpm & Hpd & Hne).
    pose proof (days_in_month_bounds py pm).
    rewrite (matrix_cell_date off month _ py pm (prev_month_days year month - col + 1 + k)).
    + f_equal. by apply Z.eqb_neq.
    + split; [lia|]. rewrite Hpd. lia.
    + rewrite (dfc_day py pm), Hf. lia.
  - destruct (Z.ltb_spec k (col + n)) as [Hlt|Hge'].
    + rewrite (matrix_cell_date off month _ year (month + 1) (k - col + 1)).
      * f_equal. apply Z.eqb_eq. lia.
      * split; [lia|unfold n in *; lia].
      * rewrite (dfc_day year (month + 1) (k - col + 1)). lia.
    + destruct (first_of_next_month year month Hm) as (ny & nm & Hf & Hnm & Hne).
      pose proof (days_in_month_bounds ny nm).
      rewrite (matrix_cell_date off month _ ny nm (k - col - n + 1)).
      * f_equal. by apply Z.eqb_neq.
      * split; [lia|]. unfold n in *. lia.
      * rewrite (dfc_day ny nm), Hf. unfold n. lia.
Qed.

(** C27: [monthMatrix] lays out the month as the calendar does, for
    every year and month and in every time zone: weeks start on Monday,
    the 1st sits in the first row in the column of its weekday, the
    month's days follow in order with [inMonth] set, and the cells
    before and after show the last days of the previous month and the
    first days of the next, with [inMonth] unset. *)
Theorem month_matrix_layout off year month :
  (0 <= month <= 11)%Z ->
  map (fun c => (cell_d c, inMonth c)) (month_matrix off year month) =
  map (fun k => calendar_cell year month (Z.of_nat k)) (seq 0 42).
Proof.
  intros Hm. unfold month_matrix. rewrite map_map. apply map_ext_in. intros k Hk%in_seq.
  apply matrix_cell_calendar; lia.
Qed.

(** October 2025 (month 9) in Korea: the 1st is a Wednesday, third in
    its row after the last two days of September. *)
Lemma month_matrix_layout_witness :
  (0 <= 9 <= 11)%Z /\
  map (fun c => (cell_d c, inMonth c)) (month_matrix 540 2025 9) =
  map (fun k => calendar_cell 2025 9 (Z.of_nat k)) (seq 0 42) /\
  firstn 5 (map (fun k => calendar_cell 2025 9 (Z.of_nat k)) (seq 0 42)) =
  [(29, false); (30, false); (1, true); (2, true); (3, true)]%Z.
Proof.
  assert (H : (0 <= 9 <= 11)%Z) by lia.
  split; [exact H|split; [exact (month_matrix_layout 540 2025 9 H)|vm_compute; reflexivity]].
Defined.

(** ** The month buttons *)

Lemma shown_month_set_zero now_m ls : shown_month now_m (set_number "ims_month" 0 ls) = now_m.
Proof. unfold shown_month, number_item, set_number. by rewrite lookup_insert_eq. Qed.

Lemma shown_month_zero now_m ls : shown_month now_m ls = 0%Z -> now_m = 0%Z.
Proof.
  unfold shown_month, number_or. destruct (number_item _ _) as [z|]; [|done].
  destruct (Z.eqb_spec z 0); [done|congruence].
Qed.

(** [Number(String(m))] gives back a month index. *)
Lemma parse_pretty_month z : (0 <= z <= 11)%Z -> parse_int (pretty z) = Some z.
Proof.
  intros H. assert (Hc : (z = 0 \/ z = 1 \/ z = 2 \/ z = 3 \/ z = 4 \/ z = 5 \/ z = 6 \/ z = 7 \/
                          z = 8 \/ z = 9 \/ z = 10 \/ z = 11)%Z) by lia.
  repeat (destruct Hc as [->|Hc]; [reflexivity|]). subst. reflexivity.
Qed.

Lemma shown_month_set now_m z ls : (1 <= z <= 11)%Z -> shown_month now_m (set_number "ims_month" z ls) = z.
Proof.
  intros H. unfold shown_month, number_item, set_number. rewrite lookup_insert_eq. simpl.
  rewrite parse_pretty_month by lia. unfold number_or. destruct (Z.eqb_spec z 0); lia.
Qed.

Lemma next_month_shown now_y now_m ls :
  (0 <= shown_month now_m ls < 11)%Z ->
  shown_month now_m (next_month now_y now_m ls) = (shown_month now_m ls + 1)%Z.
Proof.
  intros H. unfold next_month. destruct (Z.ltb_spec 11 (shown_month now_m ls + 1)); [lia|].
  apply shown_month_set. lia.
Qed.

Lemma prev_month_shown now_y now_m ls :
  (2 <= shown_month now_m ls <= 11)%Z ->
  shown_month now_m (prev_month now_y now_m ls) = (shown_month now_m ls - 1)%Z.
Proof.
  intros H. unfold prev_month. destruct (Z.ltb_spec (shown_month now_m ls - 1) 0); [lia|].
  apply shown_month_set. lia.
Qed.

Lemma presses_next now_y now_m k ls :
  (0 <= shown_month now_m ls)%Z -> (shown_month now_m ls + Z.of_nat k <= 11)%Z ->
  shown_month now_m (presses now_y now_m (repeat NextMonth k) ls) = (shown_month now_m ls + Z.of_nat k)%Z.
Proof.
  revert ls. induction k as [|k IH]; intros ls H0 H1; simpl; [lia|].
  rewrite IH; rewrite next_month_shown; lia.
Qed.

Lemma presses_prev now_y now_m k ls :
  (1 <= shown_month now_m ls - Z.of_nat k)%Z -> (shown_month now_m ls <= 11)%Z ->
  shown_month now_m (presses now_y now_m (repeat PrevMonth k) ls) = (shown_month now_m ls - Z.of_nat k)%Z.
Proof.
  revert ls. induction k as [|k IH]; intros ls H0 H1; simpl; [lia|].
  rewrite IH; rewrite prev_month_shown; lia.
Qed.

(** C28: the month buttons reach every month but January, and January
    only when it is the current month.  From any month the grid shows,
    some run of ▶ and ◀ presses shows any month from February to
    December; no run shows January ([0]) unless [now.getMonth()] is
    [0], because the stored [0] reads back as the current month. *)
Theorem month_buttons_reach now_y now_m ls :
  (0 <= shown_month now_m ls <= 11)%Z ->
  (forall t, (1 <= t <= 11)%Z -> exists bs, shown_month now_m (presses now_y now_m bs ls) = t) /\
  (forall bs, shown_month now_m (presses now_y now_m bs ls) = 0%Z -> now_m = 0%Z).
Proof.
  intros Hm. split; [|intros bs; apply shown_month_zero].
  intros t Ht. destruct (Z.le_gt_cases (shown_month now_m ls) t) as [Hle|Hgt].
  - exists (repeat NextMonth (Z.to_nat (t - shown_month now_m ls))). rewrite presses_next; lia.
  - exists (repeat PrevMonth (Z.to_nat (shown_month now_m ls - t))). rewrite presses_prev; lia.
Qed.

Lemma month_buttons_reach_witness :
  let ls : storage := {[ "ims_year" := Raw "2025"; "ims_month" := Raw "4" ]} in
  (0 <= shown_month 9 ls <= 11)%Z /\ exists bs, shown_month 9 (presses 2025 9 bs ls) = 1%Z.
Proof.
  intros ls. assert (H : (0 <= shown_month 9 ls <= 11)%Z) by (vm_compute; split; discriminate).
  split; [exact H|]. apply (month_buttons_reach 2025 9 ls H). lia.
Defined.

(** The home calendar shows January only in January.  The stored
    month [0] reads back as [Number("0") || now.getMonth()], so ▶ from
    December and ◀ from February both show the current month. *)
Theorem month_buttons_skip_january now_y now_m ls :
  (shown_month now_m ls = 0%Z -> now_m = 0%Z) /\
  (shown_month now_m ls = 11%Z -> shown_month now_m (next_month now_y now_m ls) = now_m) /\
  (shown_month now_m ls = 1%Z -> shown_month now_m (prev_month now_y now_m ls) = now_m).
Proof.
  split_and!; [apply shown_month_zero| |].
  - intros H. unfold next_month. rewrite H. apply shown_month_set_zero.
  - intros H. unfold prev_month. rewrite H. apply shown_month_set_zero.
Qed.

Lemma month_buttons_skip_january_witness :
  let ls : storage := {[ "ims_year" := Raw "2025"; "ims_month" := Raw "11" ]} in
  shown_month 4 ls = 11%Z /\ shown_month 4 (next_month 2025 4 ls) = 4%Z.
Proof.
  split; [reflexivity|]. apply (month_buttons_skip_january 2025 4). reflexivity.
Defined.
