(* ===== verification/App.v ===== *)
(** * Screens, onboarding and the chat controller

    The page-level handlers of src/unnamed/part_000:
    - [setupBadgeToggle] (lines 6-30), the badge lists of the onboarding
      screens;
    - the onboarding handlers of [renderOnboard] to [renderOnboard5]
      (1447-1651), which fill [STATE.profile] and [STATE.prefs] and end
      with [sendOnboardingAndGetUserId];
    - [render] (1653-1664) and [navigate] (203-207), which choose the
      screen from [STATE.view];
    - the chat's send button (1357-1368), which routes a message to a
      revision or to a new recommendation;
    - [confirmCurrentSchedule] (1289-1311), which confirms, materialises
      the schedule into the home calendar (the [Calendar] model, reached
      through the JSON codecs) and sets [STATE.tab].

    They act on the [world] of [Engine]: [STATE] and [localStorage]. *)

From S2P Require Import Prelude Json Schedule Calendar Engine.

(** ** Assignments to [STATE] *)

Definition set_profile (p : json) (s : app_state) : app_state :=
  mk_state (view s) p (prefs s) (selections s) (history s) (timeline s)
    (calendar s) (config s) (chatStage s) (user_id s) (last_itinerary_id s) (last_schedule s) (tab s).

Definition set_prefs (p : json) (s : app_state) : app_state :=
  mk_state (view s) (profile s) p (selections s) (history s) (timeline s)
    (calendar s) (config s) (chatStage s) (user_id s) (last_itinerary_id s) (last_schedule s) (tab s).

Definition set_calendar (c : json) (s : app_state) : app_state :=
  mk_state (view s) (profile s) (prefs s) (selections s) (history s) (timeline s)
    c (config s) (chatStage s) (user_id s) (last_itinerary_id s) (last_schedule s) (tab s).

Definition set_tab (t : string) (s : app_state) : app_state :=
  mk_state (view s) (profile s) (prefs s) (selections s) (history s) (timeline s)
    (calendar s) (config s) (chatStage s) (user_id s) (last_itinerary_id s) (last_schedule s) (Some t).

(** [o.k = v] on a parsed object: an existing field keeps its place, a
    new one goes last.  On [null] it throws ([None]); on another
    primitive it is ignored. *)
Fixpoint assign_field (k : string) (v : json) (fs : list (string * json)) : list (string * json) :=
  match fs with
  | [] => [(k, v)]
  | (k', v') :: fs' => if String.eqb k k' then (k', v) :: fs' else (k', v') :: assign_field k v fs'
  end.

Definition set_prop (k : string) (v : json) (o : json) : option json :=
  match o with
  | JObj fs => Some (JObj (assign_field k v fs))
  | JNull => None
  | _ => Some o
  end.

(** [s.trim()] for the ASCII white space. *)
Definition is_ws (c : Ascii.ascii) : bool :=
  bool_decide (Ascii.nat_of_ascii c ∈ [9; 10; 11; 12; 13; 32]).

Fixpoint drop_ws (l : list Ascii.ascii) : list Ascii.ascii :=
  match l with [] => [] | c :: l' => if is_ws c then drop_ws l' else l end.

Definition trim (s : string) : string :=
  string_of_list_ascii (rev (drop_ws (rev (drop_ws (list_ascii_of_string s))))).

(** ** [setupBadgeToggle] *)

Module Badges.

(** The restored selection: a badge is active when its text is among
    [getInitial()]. *)
Definition restore (labels initial : list string) : list bool :=
  map (fun l => bool_decide (l ∈ initial)) labels.

(** The texts of the active badges, in the order of the page. *)
Definition active_values (labels : list string) (active : list bool) : list string :=
  map fst (List.filter snd (combine labels active)).

(** A click on the [i]-th badge toggles it and reports the values; a
    click elsewhere ([i] past the badges) does nothing. *)
Definition click (labels : list string) (active : list bool) (i : nat) : option (list bool * list string) :=
  if bool_decide (i < length active) then
    let active' := alter negb i active in Some (active', active_values labels active')
  else None.

End Badges.

(** ** Onboarding *)

(** The fields of the first screen when [#next1] is pressed. *)
Record profile_form := mk_profile_form {
  form_nick : string;
  form_sido : string;
  form_sigungu : string;
  form_age : string;
  (** The checked gender radio ([M] or [F]), if any. *)
  form_gender : option string;
  (** The texts of the active [#withWho] badges. *)
  form_with : list string
}.

(** The badge texts of the onboarding screens: [#withWho] (line 1437),
    [#sceneRows], [#styleRows] and [#jobRows] (the [label]s of lines
    1476-1480, 1520-1527 and 1567-1572). *)
Definition with_who_labels : list string := ["혼자"; "친구와"; "연인과"; "배우자와"; "부모님과"; "기타"].
Definition scenery_labels : list string := ["산"; "바다"; "강·호수"; "숲"; "섬"].
Definition style_labels : list string :=
  ["힐링·여유"; "체험형"; "야외활동"; "레저·액티비티"; "문화·역사"; "축제·이벤트"; "먹거리 탐방"; "사진 스팟"].
Definition job_labels : list string := ["채소"; "과수"; "화훼"; "식량작물"; "축산"; "농기계"].

(** [#next1]: the five assignments to [STATE.profile], [saveState()],
    [navigate("onboard2")]. *)
Definition next1 (f : profile_form) (w : world) : option world :=
  let s := st w in
  p ← set_prop "nick" (JStr (form_nick f)) (profile s);
  p ← set_prop "region" (JObj [("sido", JStr (form_sido f)); ("sigungu", JStr (form_sigungu f))]) p;
  p ← set_prop "age" (JStr (form_age f)) p;
  p ← set_prop "gender" (JStr (default "" (form_gender f))) p;
  p ← set_prop "with" (JArr (JStr <$> form_with f)) p;
  let s' := set_view "onboard2" (set_profile p s) in
  Some (mk_world s' (save_state s' (ls w))).

(** A badge list's [onChange(values)]: [STATE.prefs[k] = values; saveState()]
    (lines 1506-1512, 1553-1559 and 1598-1604, with [k] one of
    [scenery], [styles], [jobs]). *)
Definition on_prefs_change (k : string) (values : list string) (w : world) : option world :=
  p ← set_prop k (JArr (JStr <$> values)) (prefs (st w));
  let s' := set_prefs p (st w) in
  Some (mk_world s' (save_state s' (ls w))).

(** The outcome a handler shows the user. *)
Inductive ui := Shown | Alerted (msg : string).

(** [#finish]: [STATE.prefs.free] from the five inputs, [saveState()],
    then [sendOnboardingAndGetUserId()] and [navigate("home")], or an
    alert when it rejects. *)
(** The first half of [#finish]: [STATE.prefs.free] from the five
    inputs (empty ones dropped by [filter(Boolean)]), then [saveState()]. *)
Definition set_free (inputs : list string) (w : world) : option world :=
  p ← set_prop "free" (JArr (JStr <$> List.filter (fun s => truthy s) inputs)) (prefs (st w));
  let s' := set_prefs p (st w) in
  Some (mk_world s' (save_state s' (ls w))).

Definition finish (cr : fetch_outcome) (srv : string -> json -> fetch_outcome) (now : nat) (y m d : Z)
    (inputs : list string) (w : world) : option (ui * world) :=
  w1 ← set_free inputs w;
  match send_onboarding cr srv now y m d w1 with
  | (Resolve _, w2) => Some (Shown, mk_world (set_view "home" (st w2)) (ls w2))
  | (Reject _, w2) => Some (Alerted "프로필 전송에 실패했습니다. 네트워크/주소를 확인 후 다시 시도해주세요.", w2)
  end.

(** ** [render] and the chat's send button *)

Inductive screen := Onboard1 | Onboard2 | Onboard3 | Onboard4 | Onboard5 | HomeScreen | ChatScreen | NoScreen.

(** The names [map[STATE.view]] finds on [Object.prototype]; calling
    one draws nothing. *)
Definition object_methods : list string :=
  ["constructor"; "hasOwnProperty"; "isPrototypeOf"; "propertyIsEnumerable"; "toLocaleString";
   "toString"; "valueOf"; "__defineGetter__"; "__defineSetter__"; "__lookupGetter__";
   "__lookupSetter__"; "__proto__"].

(** [(map[STATE.view] || renderHome)()] *)
Definition screen_of (v : string) : screen :=
  if String.eqb v "onboard" then Onboard1
  else if String.eqb v "onboard2" then Onboard2
  else if String.eqb v "onboard3" then Onboard3
  else if String.eqb v "onboard4" then Onboard4
  else if String.eqb v "onboard5" then Onboard5
  else if String.eqb v "home" then HomeScreen
  else if String.eqb v "chat" then ChatScreen
  else if bool_decide (v ∈ object_methods) then NoScreen
  else HomeScreen.

Inductive chat_action := NoAction | Revise (text : string) | Recommend (text : string).

(** [$("#send").onclick]: a blank message is dropped; after a plan it is
    feedback on the schedule, otherwise a new recommendation request. *)
Definition on_send (input : string) (s : app_state) : chat_action :=
  let text := trim input in
  if negb (truthy text) then NoAction
  else if String.eqb (chatStage s) "table" && truthy (last_schedule s) then Revise text
  else Recommend text.

(** ** [updateHomeCalendar] on [STATE] *)

(** An itinerary item of the schedule response, as [Schedule] types it. *)
Definition decode_item (j : json) : option schedule_item :=
  d ← get_field "day" j ≫= decode; date ← str_field "date" j; ty ← str_field "schedule_type" j;
  n ← str_field "name" j; t ← str_field "start_time" j; a ← str_field "address" j;
  Some (mk_item d date ty n t a).

Definition decode_calendar (j : json) : option Calendar.calendar := decode j.

(** [updateHomeCalendar()] on the JSON of [STATE]: it returns early
    without an itinerary, and otherwise runs [Calendar]'s model.  [None]
    when [STATE.calendar] is not a month-keyed object of events or an
    item lacks a field, where the typed model does not apply. *)
Definition update_home_calendar_state (w : world) : option world :=
  match field "itinerary" (Some (last_schedule (st w))) with
  | Some it =>
      if truthy it then
        (items ← (match it with JArr l => mapM decode_item l | _ => None end);
         cal ← decode_calendar (calendar (st w));
         let '(cal', ls') := Materialize.update_home_calendar (Some items) cal (ls w) in
         Some (mk_world (set_calendar (encode cal') (st w)) ls'))
      else Some w
  | None => Some w
  end.

(** [confirmCurrentSchedule()]: [confirmSchedule()], the home calendar,
    [STATE.tab = "home"] and [render()]; an alert when it rejects. *)
Definition confirm_current_schedule (cr : fetch_outcome) (srv : string -> json -> fetch_outcome)
    (now : nat) (y m d : Z) (w : world) : option (ui * world) :=
  match confirm_schedule cr srv now y m d w with
  | (Reject _, w1) => Some (Alerted "확정에 실패했습니다.", w1)
  | (Resolve _, w1) =>
      w2 ← update_home_calendar_state w1;
      Some (Shown, mk_world (set_tab "home" (st w2)) (ls w2))
  end.

(** ** The badge lists *)

Lemma active_values_cons l ls a act :
  Badges.active_values (l :: ls) (a :: act) =
  if a then l :: Badges.active_values ls act else Badges.active_values ls act.
Proof. unfold Badges.active_values. simpl. by destruct a. Qed.

Lemma active_values_sub x ls act : x ∈ Badges.active_values ls act -> x ∈ ls.
Proof.
  revert act. induction ls as [|l ls IH]; intros [|a act] Hx; try by inversion Hx.
  rewrite active_values_cons in Hx. destruct a;
    [apply elem_of_cons in Hx as [->|Hx]; [left|right; by eapply IH]|right; by eapply IH].
Qed.

Lemma restore_cons l ls vs : Badges.restore (l :: ls) vs = bool_decide (l ∈ vs) :: Badges.restore ls vs.
Proof. done. Qed.

Lemma restore_cons_notin ls l vs : l ∉ ls -> Badges.restore ls (l :: vs) = Badges.restore ls vs.
Proof.
  intros Hl. unfold Badges.restore. apply map_ext_in. intros x Hx.
  apply bool_decide_ext. rewrite elem_of_cons. split; [|by right].
  intros [->|?]; [|done]. exfalso. by apply Hl, list_elem_of_In.
Qed.

(** C29: on screens whose badge texts are distinct, [setupBadgeToggle]
    restores exactly the selection its [onChange] reported: reopening a
    screen shows the badges the user left active. *)
Theorem restore_active_values labels active :
  NoDup labels -> length active = length labels ->
  Badges.restore labels (Badges.active_values labels active) = active.
Proof.
  revert active. induction labels as [|l ls IH]; intros [|a act] Hnd Hlen; try (simpl in Hlen; lia); [done|].
  apply NoDup_cons in Hnd as [Hl Hnd]. rewrite active_values_cons.
  rewrite restore_cons. destruct a.
  - rewrite restore_cons_notin, IH by (done || simpl in Hlen; lia). f_equal. by apply bool_decide_eq_true, elem_of_cons; left.
  - rewrite IH by (done || simpl in Hlen; lia). f_equal. apply bool_decide_eq_false. by intros ?%active_values_sub.
Qed.

Lemma restore_active_values_witness :
  NoDup with_who_labels /\ length [false; true; false; false; true; false] = length with_who_labels /\
  Badges.restore with_who_labels (Badges.active_values with_who_labels [false; true; false; false; true; false]) =
    [false; true; false; false; true; false].
Proof.
  assert (Hnd : NoDup with_who_labels) by (apply (bool_decide_unpack _); vm_compute; reflexivity).
  split_and!; [exact Hnd|reflexivity|]. apply restore_active_values; [exact Hnd|reflexivity].
Defined.

(** ** What the first screen sends *)

Lemma or_else_str s : or_else (Some (JStr s)) (JStr "") = JStr s.
Proof. by destruct s. Qed.

Lemma or_else_str_none s : or_else (Some (JStr s) || None)%js (JStr "") = JStr s.
Proof. by destruct s. Qed.

(** After the first onboarding screen, from an empty profile,
    [buildOnboardingPayload] sends the entered nickname, region, age,
    the gender as [남]/[여], and as [with_whom] the first companion
    chosen.  When no companion is chosen it sends the empty array,
    where the API expects a string. *)
Theorem next1_onboarding_payload f w w' :
  profile (st w) = JObj [] ->
  form_gender f = None \/ form_gender f = Some "M" \/ form_gender f = Some "F" ->
  Forall (fun x => truthy x = true) (form_with f) ->
  next1 f w = Some w' ->
  let pl := build_onboarding_payload (st w') in
  get_field "name" pl = Some (JStr (form_nick f)) /\
  get_field "sido" pl = Some (JStr (form_sido f)) /\
  get_field "sigungu" pl = Some (JStr (form_sigungu f)) /\
  get_field "age" pl = Some (JStr (form_age f)) /\
  get_field "gender" pl = Some (JStr (match form_gender f with Some "M" => "남" | Some "F" => "여" | _ => "" end)) /\
  get_field "with_whom" pl = Some (match form_with f with [] => JArr [] | x :: _ => JStr x end).
Proof.
  intros Hp Hg Hw Hn. destruct f as [nick sido sigungu age g ws]. simpl in *.
  unfold next1 in Hn. simpl in Hn. rewrite Hp in Hn. simpl in Hn. injection Hn as <-.
  unfold build_onboarding_payload, and_then. simpl.
  rewrite !or_else_str_none, !or_else_str.
  split_and!; try done.
  - by destruct Hg as [ -> | [ -> | -> ] ].
  - destruct ws as [|x xs]; [done|]. apply Forall_cons in Hw as [Hx _].
    rewrite fmap_cons. destruct x as [|a x]; [discriminate|reflexivity].
Qed.

Lemma next1_onboarding_payload_witness :
  let f := mk_profile_form "지현이" "전북" "김제시" "27" (Some "F") [] in
  let w := mk_world (mk_state "onboard" (JObj []) (JObj []) (JObj []) (JArr []) (JArr []) (JObj [])
                       JNull "cards" JNull JNull JNull None) ∅ in
  exists w', next1 f w = Some w' /\
  let pl := build_onboarding_payload (st w') in
  get_field "name" pl = Some (JStr (form_nick f)) /\
  get_field "sido" pl = Some (JStr (form_sido f)) /\
  get_field "sigungu" pl = Some (JStr (form_sigungu f)) /\
  get_field "age" pl = Some (JStr (form_age f)) /\
  get_field "gender" pl = Some (JStr (match form_gender f with Some "M" => "남" | Some "F" => "여" | _ => "" end)) /\
  get_field "with_whom" pl = Some (match form_with f with [] => JArr [] | x :: _ => JStr x end).
Proof.
  intros f w. eexists. split; [reflexivity|].
  apply (next1_onboarding_payload f w); [reflexivity|right; right; reflexivity|constructor|reflexivity].
Defined.

(** ** The chat after a reload *)

Lemma load_state_chat_stage hash l s : load_state hash l = Some s -> chatStage s = "cards".
Proof. unfold load_state. intros H. simplify_option_eq. done. Qed.

(** C31: [STATE.chatStage] is not saved, so after any page load the
    chat treats a message as a new recommendation request, never as
    feedback, even when [STATE.last_schedule] was restored. *)
Theorem on_send_after_load hash l s input t :
  load_state hash l = Some s -> on_send input s <> Revise t.
Proof.
  intros Hl. unfold on_send. rewrite (load_state_chat_stage hash l s Hl). simpl.
  by destruct (negb _).
Qed.

(** The state after a plan: [chatStage] is ["table"] and the schedule
    is kept. *)
Definition planned_state : app_state :=
  set_chat_stage "table" (apply_schedule (schedule_of feedback_response) sample_state).

Lemma on_send_after_load_witness :
  load_state "#chat" (save_state planned_state ∅) = Some (reloaded "#chat" planned_state) /\
  truthy (last_schedule (reloaded "#chat" planned_state)) = true /\
  on_send "둘째날도 바꿔주세요" planned_state = Revise "둘째날도 바꿔주세요" /\
  on_send "둘째날도 바꿔주세요" (reloaded "#chat" planned_state) <> Revise "둘째날도 바꿔주세요".
Proof.
  assert (H : load_state "#chat" (save_state planned_state ∅) = Some (reloaded "#chat" planned_state))
    by (vm_compute; reflexivity).
  split_and!; [exact H|reflexivity|reflexivity|].
  exact (on_send_after_load "#chat" _ _ "둘째날도 바꿔주세요" "둘째날도 바꿔주세요" H).
Defined.

(** ** Confirming a schedule *)

Lemma update_home_calendar_state_view w w' :
  update_home_calendar_state w = Some w' -> view (st w') = view (st w).
Proof.
  unfold update_home_calendar_state. intros H.
  repeat case_match; simplify_option_eq; done.
Qed.

Lemma apply_schedule_view sched s : view (apply_schedule sched s) = view s.
Proof. unfold apply_schedule. by destruct (truthy _). Qed.

Lemma confirm_current_schedule_view cr srv now y m d w o w' :
  confirm_current_schedule cr srv now y m d w = Some (o, w') ->
  view (st w') = view (st w) /\ screen_of (view (st w')) = screen_of (view (st w)) /\
  (o = Shown -> tab (st w') = Some "home").
Proof.
  unfold confirm_current_schedule. intros H.
  pose proof (keeps_confirm_schedule cr srv now y m d (fun w' => view (st w') = view (st w))
    (fun _ _ H => H) (fun _ _ H => H) (fun w' sched H => eq_trans (apply_schedule_view sched (st w')) H)
    (fun _ H => H) w eq_refl) as Hv.
  destruct (confirm_schedule cr srv now y m d w) as [[r|e] w1]; simpl in Hv.
  - destruct (update_home_calendar_state w1) as [w2|] eqn:E; [|done]. simpl in H. injection H as <- <-.
    apply update_home_calendar_state_view in E. simpl. rewrite E, Hv. done.
  - injection H as <- <-. rewrite Hv. split_and!; done.
Qed.

(** [confirmCurrentSchedule] sets [STATE.tab], which nothing reads,
    and leaves [STATE.view].  So its [render()] draws the chat again,
    although the comment above it says the user is taken home. *)
Theorem confirm_current_schedule_stays cr srv now y m d w o w' :
  confirm_current_schedule cr srv now y m d w = Some (o, w') ->
  view (st w') = view (st w) /\ screen_of (view (st w')) = screen_of (view (st w)) /\
  (o = Shown -> tab (st w') = Some "home").
Proof. apply confirm_current_schedule_view. Qed.

Lemma confirm_current_schedule_stays_witness :
  let server := fun (_ : string) (_ : json) => Response 200 (mk_body "" (Some (JObj [("status", JStr "success")]))) in
  exists w', confirm_current_schedule (NetworkError "") server 0 2025 9 30 (mk_world sample_state ∅) = Some (Shown, w') /\
  view (st w') = view sample_state /\ screen_of (view (st w')) = screen_of (view sample_state) /\
  (Shown = Shown -> tab (st w') = Some "home").
Proof.
  intros server. eexists. split; [vm_compute; reflexivity|].
  apply (confirm_current_schedule_stays (NetworkError "") server 0 2025 9 30 (mk_world sample_state ∅) Shown).
  vm_compute. reflexivity.
Defined.

(** ** The "selected cards" strip *)

(** The titles [renderPicked()] lists: [selections.farm.title] when a
    farm is set, then the titles of [selections.tours || []]; [None] when
    [.map] meets a value that is not an array.  [join] prints a missing
    title as the empty string. *)
Definition picked_titles (s : app_state) : option (list string) :=
  let sel := Some (selections s) in
  let f := if truthy (field "farm" sel) then [field "title" (field "farm" sel)] else [] in
  match (field "tours" sel || Some (JArr []))%js with
  | Some (JArr l) => Some (map (fun o => match o with Some j => js_string j | None => "" end)
                              (f ++ map (fun x => get_field "title" x) l))
  | _ => None
  end.

(** [renderPicked()] without its [div]: empty when nothing is listed. *)
Definition render_picked (s : app_state) : option string :=
  titles ← picked_titles s;
  Some (match titles with [] => "" | _ => "선택한 카드: " +:+ String.concat ", " titles end).

(** Every handler the model has, with the card checkboxes of [Cards]
    (which change [STATE.chosenCards] and call [saveState()]). *)
Inductive ui_step : world -> world -> Prop :=
  | ui_app w w' : app_step w w' -> ui_step w w'
  | ui_next1 f w w' : next1 f w = Some w' -> ui_step w w'
  | ui_prefs k vs w w' : on_prefs_change k vs w = Some w' -> ui_step w w'
  | ui_finish cr srv now y m d inputs w o w' :
      finish cr srv now y m d inputs w = Some (o, w') -> ui_step w w'
  | ui_confirm cr srv now y m d w o w' :
      confirm_current_schedule cr srv now y m d w = Some (o, w') -> ui_step w w'
  | ui_card_toggle w : ui_step w (mk_world (st w) (save_state (st w) (ls w))).

(** [STATE.selections] is [j], truthy, and is what the storage holds. *)
Definition selections_are (j : json) (w : world) : Prop :=
  selections (st w) = j /\ parse_item "ims_selections" (JObj []) (ls w) = Some j /\ truthy j = true.

Lemma selections_are_state j w s :
  selections s = selections (st w) -> selections_are j w -> selections_are j (mk_world s (ls w)).
Proof. intros Hs (H1 & H2 & H3). split_and!; simpl; [congruence|done|done]. Qed.

Lemma selections_are_save j w : selections_are j w -> selections_are j (mk_world (st w) (save_state (st w) (ls w))).
Proof.
  intros (H1 & H2 & H3). split_and!; [done| |done].
  unfold parse_item, save_state. simpl. by simplify_map_eq.
Qed.

Lemma selections_are_insert j w k v : k <> "ims_selections" ->
  selections_are j w -> selections_are j (mk_world (st w) (<[k := v]> (ls w))).
Proof.
  intros Hk (H1 & H2 & H3). split_and!; [done| |done].
  unfold parse_item in *. simpl. by rewrite lookup_insert_ne by done.
Qed.

Lemma apply_schedule_selections sched s : selections (apply_schedule sched s) = selections s.
Proof. unfold apply_schedule. by destruct (truthy _). Qed.

Lemma update_home_calendar_state_selections j w w' :
  update_home_calendar_state w = Some w' -> selections_are j w -> selections_are j w'.
Proof.
  unfold update_home_calendar_state. intros H Hw.
  repeat case_match; simplify_option_eq; try done.
  apply (selections_are_insert j (mk_world (set_calendar _ (st w)) (ls w))); [done|].
  by apply selections_are_state.
Qed.

Lemma ui_step_selections j w w' : ui_step w w' -> selections_are j w -> selections_are j w'.
Proof.
  assert (Hc : forall w c, selections_are j w -> selections_are j (mk_world (set_config c (st w)) (ls w)))
    by (intros; by apply selections_are_state).
  assert (Hu : forall w u, selections_are j w -> selections_are j (mk_world (set_user_id u (st w)) (ls w)))
    by (intros; by apply selections_are_state).
  assert (Hsc : forall w sched, selections_are j w -> selections_are j (mk_world (apply_schedule sched (st w)) (ls w)))
    by (intros; apply selections_are_state; [apply apply_schedule_selections|done]).
  pose proof (selections_are_save j) as Hsv.
  intros Hs Hw. destruct Hs as [w w' Ha|f w w' Hn|k vs w w' Hp|cr srv now y m d inputs w o w' Hf|cr srv now y m d w o w' Hcf|w].
  - destruct Ha as [| | | | |w|v w|hash w s Hl].
    + by apply (keeps_schedule_call _ _ _ _ _ _ _ Hc Hu Hsc Hsv).
    + by apply (keeps_schedule_call _ _ _ _ _ _ _ Hc Hu Hsc Hsv).
    + by apply (keeps_confirm_schedule _ _ _ _ _ _ _ Hc Hu Hsc Hsv).
    + by apply (keeps_engine_recommend _ _ _ _ _ _ _ Hc Hu Hsc Hsv).
    + by apply (keeps_send_onboarding _ _ _ _ _ _ _ Hc Hu Hsc Hsv).
    + apply (Hsv (mk_world (set_chat_stage "table" (st w)) (ls w))). by apply selections_are_state.
    + by apply selections_are_state.
    + destruct Hw as (H1 & H2 & H3). unfold load_state in Hl. rewrite H2 in Hl. simplify_option_eq.
      split_and!; simpl; [|done|done]. unfold or_else, js_or. simpl. by rewrite H3.
  - unfold next1 in Hn. simplify_option_eq. apply (Hsv (mk_world _ (ls w))). by apply selections_are_state.
  - unfold on_prefs_change in Hp. simplify_option_eq. apply (Hsv (mk_world _ (ls w))). by apply selections_are_state.
  - unfold finish, set_free in Hf. destruct (set_prop _ _ _) as [p|]; simpl in Hf; [|done].
    assert (Hw1 : selections_are j (mk_world (set_prefs p (st w)) (save_state (set_prefs p (st w)) (ls w))))
      by (apply (Hsv (mk_world _ (ls w))); by apply selections_are_state).
    pose proof (keeps_send_onboarding cr srv now y m d _ Hc Hu Hsc Hsv _ Hw1) as Hw2.
    destruct (send_onboarding _ _ _ _ _ _ _) as [[r|e] w2]; injection Hf as <- <-; [|done].
    by apply selections_are_state.
  - unfold confirm_current_schedule in Hcf.
    pose proof (keeps_confirm_schedule cr srv now y m d _ Hc Hu Hsc Hsv w Hw) as Hw1.
    destruct (confirm_schedule _ _ _ _ _ _ w) as [[r|e] w1]; simpl in Hw1; [|by injection Hcf as <- <-].
    destruct (update_home_calendar_state w1) as [w2|] eqn:E; simpl in Hcf; [|done]. injection Hcf as <- <-.
    apply selections_are_state; [done|]. by eapply update_home_calendar_state_selections.
  - by apply Hsv.
Qed.

(** C34: nothing writes [STATE.selections].  From a storage that holds
    no selections, along any run of every modelled handler (engine
    calls, onboarding, preferences, confirmation, card checkboxes,
    navigation and reloads), the "selected cards" strip of
    [renderPicked] stays empty.  The cards the user checks go to
    [STATE.chosenCards] instead. *)
Theorem picked_strip_empty hash l s w' :
  load_state hash l = Some s -> l !! "ims_selections" = None ->
  rtc ui_step (mk_world s l) w' -> render_picked (st w') = Some "".
Proof.
  intros Hl Hn Hr.
  assert (Hi : selections_are (JObj []) (mk_world s l)).
  { unfold load_state, parse_item in Hl. rewrite Hn in Hl. simplify_option_eq.
    split_and!; [done| |done]. unfold parse_item. simpl. by rewrite Hn. }
  assert (Hf : selections_are (JObj []) w').
  { clear Hl Hn. induction Hr as [w|w1 w2 w3 Hs _ IH]; [done|]. apply IH. by eapply ui_step_selections. }
  destruct Hf as (H1 & _ & _). unfold render_picked, picked_titles. by rewrite H1.
Qed.

(** The state the first visit builds from an empty storage. *)
Definition fresh_state : app_state :=
  mk_state "onboard" (JObj []) (JObj []) (JObj []) (JArr []) (JArr []) (JObj []) JNull "cards" JNull JNull JNull None.

Lemma picked_strip_empty_witness :
  let w0 := mk_world fresh_state ∅ in
  let w' := mk_world fresh_state (save_state fresh_state ∅) in
  load_state "" ∅ = Some fresh_state /\ (∅ : storage) !! "ims_selections" = None /\
  rtc ui_step w0 w' /\ render_picked (st w') = Some "".
Proof.
  assert (Hl : load_state "" ∅ = Some fresh_state) by reflexivity.
  assert (Hr : rtc ui_step (mk_world fresh_state ∅) (mk_world fresh_state (save_state fresh_state ∅)))
    by (apply rtc_once; exact (ui_card_toggle (mk_world fresh_state ∅))).
  split_and!; [exact Hl|reflexivity|exact Hr|].
  exact (picked_strip_empty "" ∅ fresh_state _ Hl eq_refl Hr).
Defined.
