(* ===== verification/Chat.v ===== *)
(** * The chat page: messages, navigation and the plan and feedback handlers

    The handlers of src/unnamed/part_000 that draw on the chat screen:
    - [addMsg], [showLoading] and [hideLoading] (lines 636-654 and
      916-923), on the list of bubbles of [#chat];
    - [navigate], the [hashchange] listener (203-210) and [render]
      (1653-1664);
    - the home screen's search box (586-596), which leaves the query in
      [localStorage] for [renderChat] (1312-1383) to show and to replay,
      once, 500 ms later;
    - [triggerRecommendation] (656-756) with its [#makePlan] button,
      [handleScheduleFeedback] (1237-1262), [confirmCurrentSchedule] on
      the page (1289-1311) and the history click (241-256);
    - the dead [renderTableFromSchedule], [generateFromSelections] and
      [reviseScheduleWithFeedback] (1037-1075, 1198-1288), and
      [fetchAndRenderRecommendations] (1151-1197) up to the [return] it
      always takes.

    The state is Engine's [world], Cards' session ([CURRENT_RECO] and
    [STATE.chosenCards]) and a [page]: what the DOM shows of the chat
    screen.  Theorems: a query typed at home is scheduled exactly once,
    and lost when the user leaves the chat before its replay fires; after
    an engine failure the plan button leaves the chat in feedback mode on
    a mock plan; confirming empties the schedule table; once configured
    the feedback handler never shows its server-error texts and the dead
    handlers always end in a failure alert; no handler leaves the
    loading bubble behind. *)

From S2P Require Import Prelude Json Schedule Calendar Cards Engine App.

(** ** The page *)

(** A child of [#chat]: a message ([class "msg me"] or ["msg bot"]), or
    the bubble of [showLoading], whose id is [loadingMsg]. *)
Inductive bubble := Msg (me : bool) (text : string) | Loading (text : string).

#[export] Instance bubble_eq_dec : EqDecision bubble.
Proof. solve_decision. Defined.

(** What [#tableWrap] holds: nothing, the table of [renderScheduleTable],
    or the cards of [renderTableFromSchedule]. *)
Inductive table_html :=
  | Blank
  | Scheduled (v : Table.view)
  | Timetable (entries : list (string * string * string)).

(** The chat screen as the DOM shows it: [#chat] ([None] when another
    screen is drawn), the cards of [#cardsWrap], [#tableWrap], the alerts
    shown so far, and the recommendations that [setTimeout] will start. *)
Record page := mk_page {
  chat : option (list bubble);
  cards_wrap : option reco;
  table_wrap : table_html;
  alerts : list string;
  timers : list string
}.

Definition set_chat (c : option (list bubble)) (p : page) : page :=
  mk_page c (cards_wrap p) (table_wrap p) (alerts p) (timers p).
Definition set_cards (r : option reco) (p : page) : page :=
  mk_page (chat p) r (table_wrap p) (alerts p) (timers p).
Definition set_table (t : table_html) (p : page) : page :=
  mk_page (chat p) (cards_wrap p) t (alerts p) (timers p).
Definition alert (msg : string) (p : page) : page :=
  mk_page (chat p) (cards_wrap p) (table_wrap p) (alerts p ++ [msg]) (timers p).
Definition set_timeout (seed : string) (p : page) : page :=
  mk_page (chat p) (cards_wrap p) (table_wrap p) (alerts p) (timers p ++ [seed]).
Definition set_timers (ts : list string) (p : page) : page :=
  mk_page (chat p) (cards_wrap p) (table_wrap p) (alerts p) ts.

(** [addMsg(text, me)]: a bubble appended to [#chat]. *)
Definition add_msg (text : string) (me : bool) (p : page) : page :=
  set_chat ((fun c => c ++ [Msg me text]) <$> chat p) p.

(** [showLoading(message)] *)
Definition show_loading (message : string) (p : page) : page :=
  set_chat ((fun c => c ++ [Loading message]) <$> chat p) p.

(** [$("#loadingMsg")] is the first bubble with that id; [remove()]
    takes it out. *)
Fixpoint remove_loading (c : list bubble) : list bubble :=
  match c with
  | [] => []
  | Loading _ :: c' => c'
  | b :: c' => b :: remove_loading c'
  end.

(** [hideLoading()] *)
Definition hide_loading (p : page) : page := set_chat (remove_loading <$> chat p) p.

(** The message a [catch] block shows for an error: the two texts of
    the [e.message.includes(...)] tests, or the handler's own. *)
Definition error_message (e generic : string) : string :=
  if includes e "Invalid JSON" then "서버 응답 오류가 발생했습니다. 잠시 후 다시 시도해 주세요."
  else if includes e "HTTP" then "서버 연결에 문제가 있습니다. 네트워크 상태를 확인해 주세요."
  else generic.

(** ** [renderChat] and navigation *)

Definition greeting : string := "언제 어디로 떠날 계획이신가요?".

(** [renderChat()]: the query left by the home screen is shown under the
    greeting when [#chat] is drawn anew, and otherwise the bubbles are
    kept.  [#cardsWrap], [#pickedWrap] and [#tableWrap] are drawn empty.
    When a query is stored it is removed and a recommendation for it is
    started by [setTimeout]. *)
Definition render_chat (w : world) (p : page) : world * page :=
  let seed := (default "" (raw_item "ims_home_query" (ls w)) || "")%js in
  let c := match chat p with
           | None => [Msg false greeting] ++ (if truthy seed then [Msg true seed] else [])
           | Some c => c
           end in
  let p1 := mk_page (Some c) None Blank (alerts p) (timers p) in
  if truthy (raw_item "ims_home_query" (ls w)) && truthy seed
  then (mk_world (st w) (delete "ims_home_query" (ls w)), set_timeout seed p1)
  else (w, p1).

(** [render()]: the chat screen, or another screen, which leaves no
    [#chat] behind. *)
Definition render (w : world) (p : page) : world * page :=
  match screen_of (view (st w)) with
  | ChatScreen => render_chat w p
  | _ => (w, set_chat None (set_cards None (set_table Blank p)))
  end.

(** [navigate(v)]: [STATE.view = v; location.hash = v; render()]. *)
Definition navigate (v : string) (w : world) (p : page) : world * page :=
  render (mk_world (set_view v (st w)) (ls w)) p.

(** The [hashchange] listener. *)
Definition on_hashchange (hash : string) (w : world) (p : page) : world * page :=
  render (mk_world (set_view (view_of_hash hash) (st w)) (ls w)) p.

(** [#goChat]: a non-blank query is stored as [ims_home_query], then
    [navigate("chat")]; [location.hash = "chat"] then fires
    [hashchange], which renders once more.  (The home screen is never
    drawn under the hash [#chat], since [render] follows [STATE.view],
    which [navigate], the listener and the initialiser keep equal to the
    hash; so the hash changes and the event fires.) *)
Definition go_chat (input : string) (w : world) (p : page) : world * page :=
  let q := trim input in
  let w1 := if truthy q then mk_world (st w) (<["ims_home_query" := Raw q]> (ls w)) else w in
  let '(w2, p2) := navigate "chat" w1 p in
  on_hashchange "#chat" w2 p2.

(** [sched?.itinerary], typed as [Schedule]'s items: [Some None] when
    it is missing or falsy, [None] when it is present but not a list of
    complete items, where the typed model does not apply. *)
Definition sched_itinerary (sched : json) : option (option (list schedule_item)) :=
  match field "itinerary" (Some sched) with
  | Some (JArr l) => Some <$> mapM decode_item l
  | Some j => if truthy j then None else Some None
  | None => Some None
  end.

(** The message of the [TypeError] that [renderScheduleTable] throws on
    an empty group. *)
Definition type_error : string := "Cannot read properties of undefined (reading 'date')".

(** ** [renderTableFromSchedule] *)

(** [(x || [])] read with [.length] and then [.map]: an array gives its
    elements; a non-empty string has a length but no [map] and throws
    ([None]); any other value has no length and counts as empty. *)
Definition js_list (o : option json) : option (list json) :=
  match o with
  | Some (JArr l) => Some l
  | Some (JStr s) => if truthy s then None else Some []
  | _ => Some []
  end.

(** [`${x}`] of [x || ""] *)
Definition or_empty (o : option json) : string := js_string (or_else o (JStr "")).

(** A card of the grouped view: [g.title], [g.subtitle || ""],
    [`${g.date || ""} ${g.start_time || ""}`]; [null.title] throws. *)
Definition group_entry (g : json) : option (string * string * string) :=
  match g with
  | JNull => None
  | _ => Some (js_string_opt (get_field "title" g), or_empty (get_field "subtitle" g),
               or_empty (get_field "date" g) +:+ " " +:+ or_empty (get_field "start_time" g))
  end.

(** A card of the timeline: [it.title], [it.location || ""], [it.datetime || ""]. *)
Definition timeline_entry (t : json) : option (string * string * string) :=
  match t with
  | JNull => None
  | _ => Some (js_string_opt (get_field "title" t), or_empty (get_field "location" t), or_empty (get_field "datetime" t))
  end.

(** [renderTableFromSchedule(sched)] (lines 1037-1075): the grouped
    view if it has cards, else the timeline, else nothing; [None] when
    it throws. *)
Definition render_table_from_schedule (sched : json) : option table_html :=
  match js_list (field "grouped_schedule" (field "bubble_schedule" (Some sched))) with
  | None => None
  | Some (g :: gs) => Timetable <$> mapM group_entry (g :: gs)
  | Some [] =>
      match js_list (get_field "timeline" sched) with
      | None => None
      | Some (t :: ts) => Timetable <$> mapM timeline_entry (t :: ts)
      | Some [] => Some Blank
      end
  end.

(** The messages of the errors thrown after the engine's answer: a
    [TypeError] of the rendering, and the [ReferenceError] of the call
    to [renderHomeTimeline], which no code defines. *)
Definition render_error : string := "TypeError: render failed".
Definition reference_error : string := "ReferenceError: renderHomeTimeline is not defined".

(** [(STATE.selections.tours || []).map((t) => t.raw || t)]: [None] when
    it throws. *)
Definition selected_raws (tours : option json) : option (list json) :=
  l ← (match tours with
       | Some (JArr l) => Some l
       | o => if truthy o then None else Some []
       end);
  mapM (fun t => match t with JNull => None | _ => Some (or_else (get_field "raw" t) t) end) l.

(** A timeline item of a history record, as [Calendar] types it. *)
Definition decode_timeline_item (j : json) : option timeline_item :=
  dt ← str_field "datetime" j; ti ← str_field "title" j; l ← str_field "location" j;
  de ← str_field "desc" j; ic ← str_field "icon" j; Some (mk_tl dt ti l de ic).

(** A click on the [idx]-th history record (lines 241-256): a record with
    a timeline becomes [STATE.timeline], is replayed into the calendar
    by [upsertCalendarEvents], [saveState()] runs and the chat is shown.
    A timeline that is not an array makes [forEach] throw right after
    the assignment.  [None] where the typed calendar model does not
    apply. *)
Definition on_history_click (idx : nat) (w : world) (p : page) : option (world * page) :=
  let rec := match history (st w) with JArr hs => nth_error hs idx | _ => None end in
  match rec with
  | Some r =>
      if truthy (Some r) && truthy (get_field "timeline" r) then
        let tl := default JNull (get_field "timeline" r) in
        let s0 := set_schedule (last_itinerary_id (st w)) (last_schedule (st w)) tl (calendar (st w)) (st w) in
        match tl with
        | JArr l =>
            items ← mapM decode_timeline_item l;
            cal ← decode_calendar (calendar (st w));
            let '(cal', ls1) := Replay.upsert_calendar_events (Some items) cal (ls w) in
            let s1 := set_calendar (encode cal') s0 in
            Some (navigate "chat" (mk_world s1 (save_state s1 ls1)) p)
        | _ => Some (mk_world s0 (ls w), p)
        end
      else Some (w, p)
  | None => Some (w, p)
  end.

(** ** The engine's recommendation, typed as [Cards]' records *)

(** A string field read through [||]: missing or [null] is [None]; a
    field of another type is outside the typed model. *)
Definition opt_str (o : option json) : option (option string) :=
  match o with
  | None | Some JNull => Some None
  | Some (JStr s) => Some (Some s)
  | Some _ => None
  end.

(** A farm of [reco.data.farms]; reading a field of [null] throws. *)
Definition decode_farm (j : json) : option farm_record :=
  match j with
  | JNull => None
  | _ =>
      a ← opt_str (get_field "farm_id" j); b ← opt_str (get_field "id" j);
      c ← opt_str (get_field "farm" j); t ← opt_str (get_field "title" j);
      ad ← opt_str (get_field "address" j); st ← opt_str (get_field "start_time" j);
      en ← opt_str (get_field "end_time" j); ph ← opt_str (get_field "photo" j);
      pe ← opt_str (get_field "required_people" j);
      Some (mk_farm a b c t ad st en ph pe)
  end.

(** A tour of [reco.data.tour_spots]. *)
Definition decode_tour (j : json) : option tour_record :=
  match j with
  | JNull => None
  | _ =>
      a ← opt_str (get_field "tour_id" j); c ← opt_str (get_field "contentid" j);
      b ← opt_str (get_field "id" j); n ← opt_str (get_field "name" j);
      ad ← opt_str (get_field "address" j); ph ← opt_str (get_field "photo" j);
      Some (mk_tour a c b n ad ph)
  end.

(** [x.length]: an array's or a string's length, [undefined] otherwise. *)
Definition js_length (j : json) : option nat :=
  match j with JArr l => Some (length l) | JStr s => Some (String.length s) | _ => None end.

Definition no_reco : string := "조건에 맞는 추천이 없어요. 기간/지역을 조금 넓혀볼까요?".

Definition reco_failed (e : string) : string :=
  "추천을 불러오지 못했어요. 서버 연결을 확인해 주세요. (" +:+ e +:+ ")".

(** The message of [farms.map] or [tours.map] on a value that is not an
    array. *)
Definition map_error : string := "farms.map is not a function".

Section ChatEnv.
Context (cr : fetch_outcome) (srv : string -> json -> fetch_outcome) (now : nat) (y m d : Z).

(** [renderScheduleTable(sched)] inside a [try]: a drawn table, or the
    thrown [TypeError], whose message the [catch] block receives. *)
Definition draw_schedule (sched : json) (p : page) : option (page + string) :=
  v ← Table.render_schedule_table <$> sched_itinerary sched;
  Some (match v with Table.TypeError => inr type_error | _ => inl (set_table (Scheduled v) p) end).

Definition feedback_failed : string := "수정에 실패했습니다. 다시 시도해 주세요.".
Definition revised : string := "요청하신 내용으로 일정을 수정했어요.".

(** [handleScheduleFeedback(feedback)] (lines 1237-1262). *)
Definition handle_schedule_feedback (feedback : string) (w : world) (p : page) : option (world * page) :=
  let p1 := show_loading "일정을 수정하고 있습니다..." (add_msg feedback true p) in
  match send_schedule_feedback cr srv now y m d (JStr feedback) w with
  | (Reject e, w1) => Some (w1, add_msg (error_message e feedback_failed) false (hide_loading p1))
  | (Resolve sched, w1) =>
      let p2 := add_msg revised false (hide_loading p1) in
      r ← draw_schedule sched p2;
      Some (w1, match r with
                | inl p3 => p3
                | inr e => add_msg (error_message e feedback_failed) false (hide_loading p2)
                end)
  end.

Definition plan_failed : string := "일정 생성에 실패했어요. 다시 시도해 주세요.".

(** The [#makePlan] button that [triggerRecommendation] arms (lines
    709-749): the payload from [STATE.chosenCards], then
    [createScheduleWithUser(payload)], [STATE.chatStage = "table"],
    [saveState()] and [renderScheduleTable(sched)]. *)
Definition make_plan (natural_request : string) (cs : list Selection.chosen) (w : world) (p : page)
    : option (world * page) :=
  let p1 := show_loading "일정을 생성하고 있습니다..." p in
  let payload := Payload.plan_payload (match user_id (st w) with JStr u => Some u | _ => None end)
                   natural_request cs in
  match create_schedule_with_user cr srv now y m d (JStr natural_request)
          (get_field "selected_farm" payload) (get_field "selected_tours" payload) w with
  | (Reject e, w1) => Some (w1, add_msg (error_message e plan_failed) false (hide_loading p1))
  | (Resolve sched, w1) =>
      let s2 := set_chat_stage "table" (st w1) in
      let w2 := mk_world s2 (save_state s2 (ls w1)) in
      let p2 := hide_loading p1 in
      r ← draw_schedule sched p2;
      Some (w2, match r with
                | inl p3 => p3
                | inr e => add_msg (error_message e plan_failed) false (hide_loading p2)
                end)
  end.

Definition confirmed : string := "일정을 확정했어요. 홈 화면의 캘린더에서 확인하실 수 있습니다!".

(** [confirmCurrentSchedule()] (lines 1289-1311) on the page: the
    message, then [render()] after the state changes of [App]'s model,
    or the alert. *)
Definition confirm_page (w : world) (p : page) : option (world * page) :=
  match confirm_current_schedule cr srv now y m d w with
  | Some (Shown, w1) => Some (render w1 (add_msg confirmed false p))
  | Some (Alerted msg, w1) => Some (w1, alert msg p)
  | None => None
  end.

Definition generate_failed : string := "일정 생성에 실패했습니다. 다시 시도해 주세요.".

(** [generateFromSelections()] (lines 1198-1235), with the text of
    [#chatInput] and whether [#btnMakeSchedule] is on the page (only
    [fetchAndRenderRecommendations], which nothing calls, draws it):
    without it, [btn.disabled = true] throws before the [try]. *)
Definition generate_from_selections (input : string) (has_button : bool) (w : world) (p : page)
    : option (world * page) :=
  let farm := field "farm" (Some (selections (st w))) in
  if negb (truthy farm) then Some (w, alert "먼저 농가 카드를 선택해주세요." p)
  else if negb has_button then Some (w, p)
  else
    match selected_raws (field "tours" (Some (selections (st w)))) with
    | None => Some (w, alert (error_message render_error generate_failed) p)
    | Some raws =>
        match create_schedule_with_user cr srv now y m d (JStr (trim input))
                (Some (or_else (field "raw" farm) (default JNull farm))) (Some (JArr raws)) w with
        | (Reject e, w1) => Some (w1, alert (error_message e generate_failed) p)
        | (Resolve sched, w1) =>
            let p1 := add_msg "타임테이블을 생성했어요. 수정이 필요하면 아래에 자연어로 말씀해 주세요!" false p in
            match render_table_from_schedule sched with
            | None => Some (w1, alert (error_message render_error generate_failed) p1)
            | Some t =>
                w2 ← update_home_calendar_state w1;
                Some (w2, alert (error_message reference_error generate_failed) (set_table t p1))
            end
        end
    end.

(** [reviseScheduleWithFeedback(feedback)] (lines 1265-1288). *)
Definition revise_schedule_with_feedback (feedback : string) (w : world) (p : page) : option (world * page) :=
  if negb (truthy feedback) then Some (w, p) else
  let p1 := add_msg feedback true p in
  match send_schedule_feedback cr srv now y m d (JStr feedback) w with
  | (Reject e, w1) => Some (w1, alert (error_message e feedback_failed) p1)
  | (Resolve sched, w1) =>
      let p2 := add_msg revised false p1 in
      match render_table_from_schedule sched with
      | None => Some (w1, alert (error_message render_error feedback_failed) p2)
      | Some t =>
          w2 ← update_home_calendar_state w1;
          Some (w2, alert (error_message reference_error feedback_failed) (set_table t p2))
      end
  end.

(** [crypto.randomUUID()] of the card mapping. *)
Context (uuid : nat -> string).

Definition fetch_failed : string := "추천을 불러오지 못했어요. 조건을 바꿔 다시 시도해볼까요?".

(** [fetchAndRenderRecommendations(natural)] (lines 1151-1197), which
    nothing calls.  Inside its [try], after the user id is secured,
    [await getRecommendations] names a function defined nowhere: the
    [ReferenceError] is caught, [reco] stays [undefined], and the
    function shows its failure message and returns, so the card drawing
    after it is never reached.  Without [#chat], the first [addMsg]
    throws: before anything else when [natural] is given, else after the
    [try]. *)
Definition fetch_and_render (natural : string) (w : world) (p : page) : world * page :=
  let w1 := if truthy (user_id (st w)) then w else (send_onboarding cr srv now y m d w).2 in
  match chat p with
  | None => if truthy natural then (w, p) else (w1, p)
  | Some _ =>
      let p1 := if truthy natural then add_msg natural true p else p in
      (w1, add_msg fetch_failed false p1)
  end.

(** [triggerRecommendation(natural_request, skipUserMessage)] (lines
    656-708 and 750-756): [engineRecommend], then the cards of the
    engine's farms and tour spots become [CURRENT_RECO] and are drawn, or
    a message says there are none; a rejection or a [TypeError] of the
    mapping shows the error.  The [#makePlan] button it arms is
    [make_plan]. *)
Definition trigger_recommendation (nr : string) (skip : bool) (w : world) (ss : Selection.session) (p : page)
    : option (world * Selection.session * page) :=
  let p1 := show_loading "조건을 분석 중입니다..." (if skip then p else add_msg nr true p) in
  match engine_recommend cr srv now y m d (JStr nr) w with
  | (Reject e, w1) => Some (w1, ss, add_msg (reco_failed e) false (hide_loading p1))
  | (Resolve r, w1) =>
      let data := field "data" (Some r) in
      let farms := or_else (field "farms" data) (JArr []) in
      let tours := or_else (field "tour_spots" data) (JArr []) in
      let p2 := hide_loading p1 in
      if negb (truthy (js_length farms)) && negb (truthy (js_length tours))
      then Some (w1, ss, add_msg no_reco false p2)
      else match farms, tours with
           | JArr fl, JArr tl =>
               fr ← mapM decode_farm fl; tr ← mapM decode_tour tl;
               let cards := cards_of uuid fr tr in
               Some (w1, Selection.apply_event ss (Selection.Recommend cards), set_cards (Some cards) p2)
           | _, _ => Some (w1, ss, add_msg (reco_failed map_error) false (hide_loading p2))
           end
  end.

(** The callback that [renderChat]'s [setTimeout] queues (lines
    1375-1381), on the first pending replay: [triggerRecommendation(seed,
    true)].  When the page no longer shows [#chat] (the user left the
    chat within the 500 ms), [showLoading]'s [$("#chat").appendChild]
    throws before the engine is called, and so does the [addMsg] of the
    [catch] block: the promise rejects and nothing changes.  [None] when
    no replay is pending. *)
Definition fire_timer (w : world) (ss : Selection.session) (p : page)
    : option (world * Selection.session * page) :=
  match timers p with
  | [] => None
  | seed :: rest =>
      let p0 := set_timers rest p in
      match chat p0 with
      | None => Some (w, ss, p0)
      | Some _ => trigger_recommendation seed true w ss p0
      end
  end.

End ChatEnv.

(** ** The home query *)

Lemma raw_item_insert k s ls : raw_item k (<[k := Raw s]> ls) = Some s.
Proof. unfold raw_item. by rewrite lookup_insert_eq. Qed.

Lemma raw_item_delete k ls : raw_item k (delete k ls) = None.
Proof. unfold raw_item. by rewrite lookup_delete_eq. Qed.

Lemma screen_of_chat : screen_of "chat" = ChatScreen.
Proof. reflexivity. Qed.

Lemma view_of_hash_chat : view_of_hash "#chat" = "chat".
Proof. reflexivity. Qed.

(** A query typed on the home screen is sent to the recommender
    exactly once.  From the home screen, [#goChat] with a non-blank
    query shows the greeting and the query, schedules one
    recommendation for the trimmed query, and removes it from
    [localStorage], although [navigate] and the [hashchange] it fires
    draw the chat twice. *)
Theorem go_chat_replays_once input w p :
  truthy (trim input) = true -> chat p = None ->
  let '(w', p') := go_chat input w p in
  timers p' = timers p ++ [trim input] /\
  chat p' = Some [Msg false greeting; Msg true (trim input)] /\
  ls w' !! "ims_home_query" = None /\ view (st w') = "chat".
Proof.
  intros Ht Hc. unfold go_chat. rewrite Ht. unfold navigate, render. cbn [st ls view set_view].
  rewrite screen_of_chat. unfold render_chat. cbn [st ls]. rewrite raw_item_insert, Hc. cbn [default].
  rewrite (js_or_truthy _ _ Ht), Ht. simpl. rewrite Ht. simpl.
  unfold on_hashchange, render. cbn [st ls view set_view]. rewrite view_of_hash_chat, screen_of_chat.
  unfold render_chat. cbn [st ls chat]. rewrite raw_item_delete. simpl.
  split_and!; [done|done|apply lookup_delete_eq|done].
Qed.

(** C8: a query typed on the home screen is lost when the user leaves
    the chat before its replay fires.  [#goChat] removes the query from
    [localStorage] at once and schedules its replay; if [#homeBack]
    (or any navigation away from the chat) comes first, the replay
    throws before calling the engine, so the recommender never sees the
    query and nothing on the page or in [STATE] records it.  Had the
    user stayed, the replay would have run [triggerRecommendation] on
    the query. *)
Theorem home_query_lost_on_leave cr srv now y m d uuid input w ss p :
  truthy (trim input) = true -> chat p = None -> timers p = [] ->
  let '(w1, p1) := go_chat input w p in
  let '(w2, p2) := navigate "home" w1 p1 in
  ls w2 !! "ims_home_query" = None /\ timers p2 = [trim input] /\
  fire_timer cr srv now y m d uuid w2 ss p2 = Some (w2, ss, set_timers [] p2) /\
  fire_timer cr srv now y m d uuid w1 ss p1 =
    trigger_recommendation cr srv now y m d uuid (trim input) true w1 ss (set_timers [] p1).
Proof.
  intros Ht Hc Hp. pose proof (go_chat_replays_once input w p Ht Hc) as Hg.
  destruct (go_chat input w p) as [w1 p1]. destruct Hg as (Ht1 & Hc1 & Hl1 & _).
  rewrite Hp in Ht1. simpl in Ht1.
  unfold navigate, render. cbn [st ls view set_view]. simpl.
  unfold fire_timer. simpl. rewrite Ht1. simpl. rewrite Hc1. done.
Qed.

Lemma home_query_lost_on_leave_witness :
  let w := mk_world fresh_state ∅ in
  let p := mk_page None None Blank [] [] in
  truthy (trim " 전주 당일치기 ") = true /\ chat p = None /\ timers p = [] /\
  let '(w1, p1) := go_chat " 전주 당일치기 " w p in
  let '(w2, p2) := navigate "home" w1 p1 in
  ls w2 !! "ims_home_query" = None /\ timers p2 = [trim " 전주 당일치기 "] /\
  fire_timer (NetworkError "offline") (fun _ _ => NetworkError "offline") 0 2025 9 1 (fun _ => "card") w2 Selection.initial p2 =
    Some (w2, Selection.initial, set_timers [] p2) /\
  fire_timer (NetworkError "offline") (fun _ _ => NetworkError "offline") 0 2025 9 1 (fun _ => "card") w1 Selection.initial p1 =
    trigger_recommendation (NetworkError "offline") (fun _ _ => NetworkError "offline") 0 2025 9 1 (fun _ => "card")
      (trim " 전주 당일치기 ") true w1 Selection.initial (set_timers [] p1).
Proof.
  intros w p. split_and!; [reflexivity|reflexivity|reflexivity|].
  exact (home_query_lost_on_leave (NetworkError "offline") (fun _ _ => NetworkError "offline") 0 2025 9 1 (fun _ => "card")
           " 전주 당일치기 " w Selection.initial p eq_refl eq_refl eq_refl).
Defined.

(** ** The plan button, the feedback and the confirmation *)

(** Once configured and onboarded, a schedule call resolves with the
    engine's value (or [mockPlan]'s) and stores it. *)
Lemma schedule_call_resolves cr srv now y m d w kind body :
  config_ready (st w) -> truthy (user_id (st w)) = true ->
  exists j, schedule_call cr srv now y m d kind body w =
    (Resolve (schedule_of j),
     mk_world (apply_schedule (schedule_of j) (st w)) (save_state (apply_schedule (schedule_of j) (st w)) (ls w))).
Proof.
  intros Hc Hu. destruct (call_engine_resolves cr srv y m d w kind (body (st w)) Hc) as [j Hj].
  exists j. by apply schedule_call_value.
Qed.

Lemma schedule_of_mock y m d : schedule_of (mock_plan y m d) = mock_plan y m d.
Proof. reflexivity. Qed.

Lemma sched_itinerary_mock y m d : sched_itinerary (mock_plan y m d) = Some None.
Proof. reflexivity. Qed.

(** C24: when the engine fails, the plan button draws the empty-table
    message, yet it has stored [mockPlan]'s data as the last schedule
    and set [chatStage] to ["table"]: the next message the user sends
    goes to [sendScheduleFeedback] as a revision of a plan that was
    never made. *)
Theorem make_plan_server_failure cr srv now y m d nr cs w p :
  config_ready (st w) -> truthy (user_id (st w)) = true ->
  (forall url body, answered (srv url body) = false) ->
  exists w' p', make_plan cr srv now y m d nr cs w p = Some (w', p') /\
    table_wrap p' = Scheduled (Table.Message "일정이 생성되지 않았습니다.") /\
    last_schedule (st w') = mock_plan y m d /\
    forall input, truthy (trim input) = true -> on_send input (st w') = Revise (trim input).
Proof.
  intros Hc Hu Hs. unfold make_plan, create_schedule_with_user.
  rewrite (schedule_call_value cr srv now y m d w _ _ (mock_plan y m d)) by (done || by apply call_engine_unanswered).
  rewrite schedule_of_mock. unfold draw_schedule. rewrite sched_itinerary_mock. simpl.
  eexists _, _. split; [reflexivity|]. split_and!; [reflexivity|reflexivity|].
  intros input Ht. unfold on_send. rewrite Ht. reflexivity.
Qed.

(** C17: on the chat screen, a successful confirmation keeps the bubbles and
    adds its message, but its [render()] draws [#tableWrap] empty: the
    schedule table disappears.  A failed one only alerts. *)
Theorem confirm_clears_table cr srv now y m d w p c w' p' :
  view (st w) = "chat" -> chat p = Some c ->
  confirm_page cr srv now y m d w p = Some (w', p') ->
  (table_wrap p' = Blank /\ chat p' = Some (c ++ [Msg false confirmed]) /\ alerts p' = alerts p) \/
  p' = alert "확정에 실패했습니다." p.
Proof.
  intros Hv Hc. unfold confirm_page.
  destruct (confirm_current_schedule cr srv now y m d w) as [[[|msg] w1]|] eqn:E; [|..|done].
  - destruct (confirm_current_schedule_view _ _ _ _ _ _ _ _ _ E) as (Hv1 & _).
    unfold render. rewrite Hv1, Hv, screen_of_chat. unfold render_chat. cbn [chat add_msg set_chat].
    rewrite Hc. simpl. destruct (_ && _); intros [= <- <-]; left; done.
  - right. unfold confirm_current_schedule in E.
    destruct (confirm_schedule cr srv now y m d w) as [[r|e] w2];
      [destruct (update_home_calendar_state w2); discriminate|].
    injection E as <- <-. by injection H as <- <-.
Qed.

(** A list of bubbles without a loading bubble. *)
Definition no_loading (c : list bubble) : Prop :=
  Forall (fun b => match b with Loading _ => False | Msg _ _ => True end) c.

Lemma remove_loading_app c l : no_loading c -> remove_loading (c ++ l) = c ++ remove_loading l.
Proof. induction 1 as [|[] c Hb _ IH]; simpl; [done|by rewrite IH|done]. Qed.

Lemma error_message_type_error generic : error_message type_error generic = generic.
Proof. reflexivity. Qed.

(** Once [config.json] is loaded and the user has an id, the feedback
    handler never shows the messages of its [Invalid JSON] and [HTTP]
    branches: the chat gets the user's text and the success message,
    followed at most by the generic failure when the table cannot be
    drawn. *)
Theorem handle_feedback_no_server_error cr srv now y m d fb w p c w' p' :
  config_ready (st w) -> truthy (user_id (st w)) = true -> chat p = Some c -> no_loading c ->
  handle_schedule_feedback cr srv now y m d fb w p = Some (w', p') ->
  exists tail, chat p' = Some (c ++ [Msg true fb; Msg false revised] ++ tail) /\
    (tail = [] \/ tail = [Msg false feedback_failed]).
Proof.
  intros Hcfg Hu Hc Hn. unfold handle_schedule_feedback, send_schedule_feedback.
  edestruct (schedule_call_resolves cr srv now y m d w "revise") as [j ->]; [done|done|].
  unfold draw_schedule. destruct (sched_itinerary (schedule_of j)) as [it|]; [|done]. simpl.
  assert (Hr : remove_loading (c ++ [Msg true fb] ++ [Loading "일정을 수정하고 있습니다..."]) = c ++ [Msg true fb])
    by (rewrite remove_loading_app by done; reflexivity).
  unfold add_msg, show_loading, hide_loading, set_chat. cbn [chat]. rewrite Hc. simpl.
  rewrite <-app_assoc, Hr.
  destruct (Table.render_schedule_table it); intros [= <- <-]; cbn [chat set_table];
    try (exists []; split; [by rewrite <-app_assoc|by left]).
  exists [Msg false feedback_failed]. split; [|by right].
  rewrite error_message_type_error, remove_loading_app; [by rewrite <-!app_assoc|].
  apply Forall_app. split; [done|]. repeat constructor.
Qed.

(** ** The handlers that end in [renderHomeTimeline] *)

Lemma error_message_reference_error g : error_message reference_error g = g.
Proof. reflexivity. Qed.

Lemma error_message_render_error g : error_message render_error g = g.
Proof. reflexivity. Qed.

(** Once configured and onboarded, [generateFromSelections] with a farm
    selected always ends with the alert that the plan failed: either the
    engine's answer cannot be drawn, or it is drawn, the home calendar
    updated, and the call to the undefined [renderHomeTimeline] throws
    into the same [catch]. *)
Theorem generate_from_selections_reports_failure cr srv now y m d input w p w' p' :
  truthy (field "farm" (Some (selections (st w)))) = true -> config_ready (st w) ->
  truthy (user_id (st w)) = true ->
  generate_from_selections cr srv now y m d input true w p = Some (w', p') ->
  alerts p' = alerts p ++ [generate_failed].
Proof.
  intros Hf Hc Hu. unfold generate_from_selections. rewrite Hf. simpl.
  destruct (selected_raws _) as [raws|]; [|by intros [= <- <-]].
  unfold create_schedule_with_user.
  edestruct (schedule_call_resolves cr srv now y m d w "plan") as [j ->]; [done|done|].
  destruct (render_table_from_schedule _) as [t|]; [|by intros [= <- <-]].
  destruct (update_home_calendar_state _) as [w2|]; [|done]. by intros [= <- <-].
Qed.

(** The same holds of [reviseScheduleWithFeedback] with a non-empty
    text: it always alerts that the revision failed. *)
Theorem revise_schedule_with_feedback_reports_failure cr srv now y m d fb w p w' p' :
  truthy fb = true -> config_ready (st w) -> truthy (user_id (st w)) = true ->
  revise_schedule_with_feedback cr srv now y m d fb w p = Some (w', p') ->
  alerts p' = alerts p ++ [feedback_failed].
Proof.
  intros Hfb Hc Hu. unfold revise_schedule_with_feedback. rewrite Hfb. simpl.
  unfold send_schedule_feedback.
  edestruct (schedule_call_resolves cr srv now y m d w "revise") as [j ->]; [done|done|].
  destruct (render_table_from_schedule _) as [t|]; [|by intros [= <- <-]].
  destruct (update_home_calendar_state _) as [w2|]; [|done]. by intros [= <- <-].
Qed.

(** [fetchAndRenderRecommendations] never draws a card: on the chat it
    adds the query, then its failure message, and leaves [#cardsWrap],
    [#tableWrap], the alerts and the timers as they were. *)
Theorem fetch_and_render_always_fails cr srv now y m d natural w p c :
  chat p = Some c ->
  let '(w', p') := fetch_and_render cr srv now y m d natural w p in
  chat p' = Some (c ++ (if truthy natural then [Msg true natural] else []) ++ [Msg false fetch_failed]) /\
  cards_wrap p' = cards_wrap p /\ table_wrap p' = table_wrap p /\ alerts p' = alerts p /\ timers p' = timers p.
Proof.
  intros Hc. unfold fetch_and_render. rewrite Hc.
  destruct (truthy natural); simpl; rewrite Hc; simpl; split_and!; try done. by rewrite <- app_assoc.
Qed.

(** ** Witnesses *)

(** The chat as the plan button leaves it, with the table drawn. *)
Definition planned_page : page :=
  mk_page (Some [Msg false greeting; Msg true "10월에 열흘간 김제에서 과수원 체험하고 싶어"])
    None (Scheduled (Table.Message "일정이 생성되지 않았습니다.")) [] [].

Lemma confirm_clears_table_witness :
  let server := fun (_ : string) (_ : json) => Response 200 (mk_body "" (Some (JObj [("status", JStr "success")]))) in
  exists w' p',
  view (st (mk_world sample_state ∅)) = "chat" /\
  chat planned_page = Some [Msg false greeting; Msg true "10월에 열흘간 김제에서 과수원 체험하고 싶어"] /\
  confirm_page (NetworkError "") server 0 2025 9 30 (mk_world sample_state ∅) planned_page = Some (w', p') /\
  ((table_wrap p' = Blank /\
    chat p' = Some ([Msg false greeting; Msg true "10월에 열흘간 김제에서 과수원 체험하고 싶어"] ++ [Msg false confirmed]) /\
    alerts p' = alerts planned_page) \/
   p' = alert "확정에 실패했습니다." planned_page).
Proof.
  intros server. eexists _, _. split_and!; [reflexivity|reflexivity|vm_compute; reflexivity|].
  eapply (confirm_clears_table (NetworkError "") server 0 2025 9 30 (mk_world sample_state ∅) planned_page);
    [reflexivity|reflexivity|vm_compute; reflexivity].
Defined.

Lemma make_plan_server_failure_witness :
  let srv := fun (_ : string) (_ : json) => NetworkError "TypeError: Failed to fetch" in
  config_ready sample_state /\ truthy (user_id sample_state) = true /\
  (forall url body, answered (srv url body) = false) /\
  exists w' p', make_plan (NetworkError "") srv 0 2025 9 30 "10월에 열흘간 김제" [] (mk_world sample_state ∅)
                  planned_page = Some (w', p') /\
    table_wrap p' = Scheduled (Table.Message "일정이 생성되지 않았습니다.") /\
    last_schedule (st w') = mock_plan 2025 9 30 /\
    forall input, truthy (trim input) = true -> on_send input (st w') = Revise (trim input).
Proof.
  intros srv. split_and!; [apply sample_config_ready|reflexivity|done|].
  apply (make_plan_server_failure (NetworkError "") srv 0 2025 9 30); [apply sample_config_ready|reflexivity|done].
Defined.

(** ** The loading bubble never stays *)

(** A page whose [#chat], if drawn, has no loading bubble. *)
Definition page_idle (p : page) : Prop :=
  match chat p with Some c => no_loading c | None => True end.

Lemma remove_loading_idle c : no_loading c -> remove_loading c = c.
Proof. intros H. rewrite <-(app_nil_r c) at 1. by rewrite remove_loading_app, app_nil_r. Qed.

Lemma page_idle_add_msg t me p : page_idle p -> page_idle (add_msg t me p).
Proof.
  unfold page_idle, add_msg, set_chat. destruct (chat p); simpl; [|done].
  intros H. apply Forall_app. split; [done|]. repeat constructor.
Qed.

Lemma page_idle_hide p : page_idle p -> page_idle (hide_loading p).
Proof. unfold page_idle, hide_loading, set_chat. destruct (chat p); simpl; [|done]. by intros H; rewrite remove_loading_idle. Qed.

Lemma page_idle_show_hide m p : page_idle p -> page_idle (hide_loading (show_loading m p)).
Proof.
  unfold page_idle, hide_loading, show_loading, set_chat. destruct (chat p); simpl; [|done].
  intros H. by rewrite remove_loading_app, app_nil_r.
Qed.

Lemma page_idle_set_table t p : page_idle p -> page_idle (set_table t p).
Proof. done. Qed.

Lemma page_idle_set_cards r p : page_idle p -> page_idle (set_cards r p).
Proof. done. Qed.

Create HintDb chat.
#[export] Hint Resolve page_idle_add_msg page_idle_hide page_idle_show_hide page_idle_set_table
  page_idle_set_cards : chat.

Lemma draw_schedule_idle sched p p' : page_idle p -> draw_schedule sched p = Some (inl p') -> page_idle p'.
Proof.
  unfold draw_schedule. destruct (sched_itinerary sched) as [it|]; [|done]. simpl.
  destruct (Table.render_schedule_table it); intros H [= <-]; auto 10 with chat.
Qed.
#[export] Hint Resolve draw_schedule_idle : chat.


Lemma trigger_recommendation_idle cr srv now y m d uuid nr skip w ss p w' ss' p' :
  page_idle p -> trigger_recommendation cr srv now y m d uuid nr skip w ss p = Some (w', ss', p') -> page_idle p'.
Proof.
  intros Hp. assert (H1 : page_idle (hide_loading (show_loading "조건을 분석 중입니다..."
                                    (if skip then p else add_msg nr true p)))) by (destruct skip; auto 10 with chat).
  unfold trigger_recommendation. destruct (engine_recommend _ _ _ _ _ _ _ _) as [[r|e] w1];
    [|intros [= <- <- <-]; auto 10 with chat].
  destruct (_ && _); [intros [= <- <- <-]; auto 10 with chat|].
  destruct (or_else (field "farms" (field "data" (Some r))) (JArr [])),
    (or_else (field "tour_spots" (field "data" (Some r))) (JArr []));
    try (intros [= <- <- <-]; auto 10 with chat).
  destruct (mapM decode_farm _), (mapM decode_tour _); simpl; try done. intros [= <- <- <-]. auto 10 with chat.
Qed.

Lemma handle_schedule_feedback_idle cr srv now y m d fb w p w' p' :
  page_idle p -> handle_schedule_feedback cr srv now y m d fb w p = Some (w', p') -> page_idle p'.
Proof.
  intros Hp. unfold handle_schedule_feedback.
  destruct (send_schedule_feedback _ _ _ _ _ _ _ _) as [[sched|e] w1]; [|intros [= <- <-]; auto 10 with chat].
  destruct (draw_schedule sched _) as [[p3|e]|] eqn:E; simpl; [|intros [= <- <-]; auto 10 with chat|done].
  intros [= <- <-]. eapply draw_schedule_idle; [|exact E]. auto 10 with chat.
Qed.

Lemma make_plan_idle cr srv now y m d nr cs w p w' p' :
  page_idle p -> make_plan cr srv now y m d nr cs w p = Some (w', p') -> page_idle p'.
Proof.
  intros Hp. unfold make_plan.
  destruct (create_schedule_with_user _ _ _ _ _ _ _ _ _ _) as [[sched|e] w1]; [|intros [= <- <-]; auto 10 with chat].
  destruct (draw_schedule sched _) as [[p3|e]|] eqn:E; simpl; [|intros [= <- <-]; auto 10 with chat|done].
  intros [= <- <-]. eapply draw_schedule_idle; [|exact E]. auto 10 with chat.
Qed.

(** No handler of the chat that shows the loading bubble leaves it
    behind: after a recommendation, a plan or a feedback, whatever the
    engine answered, [#chat] holds no loading bubble if it held none. *)
Theorem chat_handlers_leave_no_spinner cr srv now y m d uuid :
  (forall nr skip w ss p w' ss' p', page_idle p ->
     trigger_recommendation cr srv now y m d uuid nr skip w ss p = Some (w', ss', p') -> page_idle p') /\
  (forall nr cs w p w' p', page_idle p -> make_plan cr srv now y m d nr cs w p = Some (w', p') -> page_idle p') /\
  (forall fb w p w' p', page_idle p -> handle_schedule_feedback cr srv now y m d fb w p = Some (w', p') -> page_idle p').
Proof.
  split_and!; intros *; [apply trigger_recommendation_idle|apply make_plan_idle|apply handle_schedule_feedback_idle].
Qed.
