(* ===== verification/Api.v ===== *)
(** * The documented onboarding contract

    src/unnamed/part_001 documents the body of [POST /api/onboarding]:
    its eleven keys (the example of lines 359-371) and the options each
    preference may take (the lists of lines 440-452).  This file states
    that contract as a boolean check on a JSON body, composes the five
    onboarding screens of [App] into the flow that fills [STATE], and
    proves which bodies [buildOnboardingPayload] sends at the end of it.

    [Reco] does the same for the other direction of the boundary: the
    documented response of [POST /recommendations/with-user] (lines
    74-121), and the proof that [triggerRecommendation] draws exactly the
    cards of its records, the decoding of each record being a left
    inverse of its documented encoding.  [Errors] states the documented
    status codes and error body, and shows that the recommendation
    handler reports a documented error by its status code alone. *)

From S2P Require Import Prelude Json Cards Engine App Chat.
From stdpp Require Import pretty.

Module Contract.

(** ** The documented options *)

(** [selected_views] (line 442). *)
Definition doc_views : list string := ["산"; "바다"; "강·호수"; "숲"; "섬"; "들판"].
(** [selected_styles] (lines 445-446). *)
Definition doc_styles : list string :=
  ["힐링·여유"; "체험형"; "야외활동"; "레저·액티비티"; "문화·역사"; "축제·이벤트"; "먹거리 탐방"; "사진 스팟"].
(** [selected_jobs] (line 449). *)
Definition doc_jobs : list string := ["채소"; "과수"; "화훼"; "식량작물"; "축산"; "농기계"].
(** [with_whom], a single choice (line 452). *)
Definition doc_with : list string := ["혼자"; "친구와"; "가족과"; "연인과"].

(** The keys of [onboardingData], in the order of the example. *)
Definition onboarding_keys : list string :=
  ["real_name"; "name"; "age"; "gender"; "sido"; "sigungu"; "with_whom";
   "selected_views"; "selected_styles"; "selected_jobs"; "additional_requests"].

(** ** The contract as a check *)

Definition is_str (o : option json) : bool :=
  match o with Some (JStr _) => true | _ => false end.

Definition str_in (opts : list string) (o : option json) : bool :=
  match o with Some (JStr s) => bool_decide (s ∈ opts) | _ => false end.

(** An array of strings, each one of [opts] when [opts] is given. *)
Definition str_array (opts : option (list string)) (o : option json) : bool :=
  match o with
  | Some (JArr xs) =>
      forallb (fun x => match x with
                        | JStr s => match opts with Some l => bool_decide (s ∈ l) | None => true end
                        | _ => false end) xs
  | _ => false
  end.

(** A body of the documented shape: exactly the documented keys, the
    six strings, [with_whom] one of its options, the three preference
    arrays drawn from theirs, and the free requests an array of strings. *)
Definition onboarding_body_ok (b : json) : bool :=
  match b with
  | JObj fs =>
      bool_decide (map fst fs = onboarding_keys) &&
      forallb (fun k => is_str (get_field k b)) ["real_name"; "name"; "age"; "gender"; "sido"; "sigungu"] &&
      str_in doc_with (get_field "with_whom" b) &&
      str_array (Some doc_views) (get_field "selected_views" b) &&
      str_array (Some doc_styles) (get_field "selected_styles" b) &&
      str_array (Some doc_jobs) (get_field "selected_jobs" b) &&
      str_array None (get_field "additional_requests" b)
  | _ => false
  end.

(** ** The onboarding screens in sequence *)

(** The five screens in the order the code chains them: [#next1] on
    the first ([navigate("onboard2")] is its last call); on each of the
    next three the last [onChange] of its badge list (a click reports
    every active badge, so the last one decides), then its [#next]
    button's [navigate]; on the fifth, [#finish]'s write of
    [STATE.prefs.free], after which the payload is built. *)
Definition onboarding_flow (f : profile_form) (views styles jobs free : list string) (w : world) (p : page)
    : option (world * page) :=
  w1 ← next1 f w;
  let '(w1, p1) := render w1 p in
  w2 ← on_prefs_change "scenery" views w1;
  let '(w2, p2) := navigate "onboard3" w2 p1 in
  w3 ← on_prefs_change "styles" styles w2;
  let '(w3, p3) := navigate "onboard4" w3 p2 in
  w4 ← on_prefs_change "jobs" jobs w3;
  let '(w4, p4) := navigate "onboard5" w4 p3 in
  w5 ← set_free free w4;
  Some (w5, p4).

(** [with_whom] as [buildOnboardingPayload] sends it from [STATE.profile.with]:
    the first companion when it is not blank, the array itself otherwise. *)
Definition with_whom_sent (ws : list string) : json :=
  match ws with x :: _ => if truthy (Some (JStr x)) then JStr x else JArr (JStr <$> ws) | [] => JArr [] end.

(** ** Properties *)

Arguments str_array : simpl never.

Lemma or_else_none_str s : or_else (None || Some (JStr s))%js (JStr "") = JStr s.
Proof. by destruct s. Qed.

Lemma str_array_strs opts xs :
  str_array (Some opts) (Some (JArr (JStr <$> xs))) = forallb (fun s => bool_decide (s ∈ opts)) xs.
Proof. unfold str_array. induction xs as [|x xs IH]; [done|]. simpl. f_equal. exact IH. Qed.

Lemma str_array_any xs : str_array None (Some (JArr (JStr <$> xs))) = true.
Proof. unfold str_array. induction xs as [|x xs IH]; [done|]. exact IH. Qed.

Lemma or_else_arr l d : or_else (Some (JArr l)) d = JArr l.
Proof. done. Qed.

(** What [buildOnboardingPayload] computes for a profile and preferences
    of the shape the screens write: the whole check reduces to
    [with_whom] and the three option arrays. *)
Lemma onboarding_body_ok_shape s nick sido sg age g ws vs ss js fr :
  g = "" \/ g = "M" \/ g = "F" ->
  profile s = JObj [("nick", JStr nick);
                            ("region", JObj [("sido", JStr sido); ("sigungu", JStr sg)]);
                            ("age", JStr age); ("gender", JStr g);
                            ("with", JArr (JStr <$> ws))] ->
    prefs s = JObj [("scenery", JArr (JStr <$> vs)); ("styles", JArr (JStr <$> ss));
                          ("jobs", JArr (JStr <$> js)); ("free", JArr (JStr <$> fr))] ->
  onboarding_body_ok (build_onboarding_payload s) =
    str_in doc_with (Some (with_whom_sent ws)) &&
    forallb (fun s => bool_decide (s ∈ doc_views)) vs &&
    forallb (fun s => bool_decide (s ∈ doc_styles)) ss &&
    forallb (fun s => bool_decide (s ∈ doc_jobs)) js.
Proof.
  intros Hg Hp Hf. unfold build_onboarding_payload, and_then. rewrite Hp, Hf. destruct Hg as [ -> | [ -> | -> ] ]; simpl.
  all: rewrite or_else_none_str, !or_else_str_none, !or_else_str.
  all: rewrite !or_else_arr, !str_array_strs, str_array_any, !andb_true_r; simpl; (destruct ws as [|[|a x] ws]; reflexivity).
Qed.

Lemma onboarding_flow_state f vs ss js fr w p :
  profile (st w) = JObj [] -> prefs (st w) = JObj [] ->
  exists w' p', onboarding_flow f vs ss js fr w p = Some (w', p') /\
    profile (st w') = JObj [("nick", JStr (form_nick f));
                            ("region", JObj [("sido", JStr (form_sido f)); ("sigungu", JStr (form_sigungu f))]);
                            ("age", JStr (form_age f)); ("gender", JStr (default "" (form_gender f)));
                            ("with", JArr (JStr <$> form_with f))] /\
    prefs (st w') = JObj [("scenery", JArr (JStr <$> vs)); ("styles", JArr (JStr <$> ss));
                          ("jobs", JArr (JStr <$> js)); ("free", JArr (JStr <$> List.filter (fun s => truthy s) fr))].
Proof.
  intros Hp Hf. unfold onboarding_flow, next1. rewrite Hp. simpl. unfold on_prefs_change. simpl. rewrite Hf. simpl.
  do 2 eexists; split_and!; reflexivity.
Qed.

Lemma active_values_documented (labels doc : list string) (act : list bool) :
  forallb (fun s => bool_decide (s ∈ doc)) labels = true ->
  forallb (fun s => bool_decide (s ∈ doc)) (Badges.active_values labels act) = true.
Proof.
  rewrite !forallb_forall. intros Hl x Hx%list_elem_of_In%active_values_sub. by apply Hl, list_elem_of_In.
Qed.

Lemma active_values_nonblank labels act x l :
  forallb (fun s => negb (String.eqb s "")) labels = true ->
  Badges.active_values labels act = x :: l -> truthy (Some (JStr x)) = true.
Proof.
  rewrite forallb_forall. intros Hl Ha.
  assert (Hx : x ∈ labels) by (apply (active_values_sub _ _ act); rewrite Ha; left).
  apply list_elem_of_In, Hl in Hx. by destruct x.
Qed.

(** C26: the body [sendOnboardingAndGetUserId] posts after the five
    onboarding screens, from the empty profile of a first visit, has the
    documented keys and types and the documented scenery, style and job
    options whatever badges are chosen, and it conforms exactly when the
    first companion chosen is one the API documents: choosing none sends
    the empty array, and [배우자와], [부모님과] and [기타] are not
    documented [with_whom] values. *)
Theorem onboarding_body_documented f free w p aw av as_ aj :
  profile (st w) = JObj [] -> prefs (st w) = JObj [] ->
  form_gender f = None \/ form_gender f = Some "M" \/ form_gender f = Some "F" ->
  form_with f = Badges.active_values with_who_labels aw ->
  exists w' p', onboarding_flow f (Badges.active_values scenery_labels av) (Badges.active_values style_labels as_)
                (Badges.active_values job_labels aj) free w p = Some (w', p') /\
    onboarding_body_ok (build_onboarding_payload (st w')) =
      match form_with f with x :: _ => bool_decide (x ∈ doc_with) | [] => false end.
Proof.
  intros Hp Hf Hg Hw. destruct (onboarding_flow_state f (Badges.active_values scenery_labels av)
    (Badges.active_values style_labels as_) (Badges.active_values job_labels aj) free w p Hp Hf) as (w' & p' & Hfl & Hp' & Hf').
  exists w', p'. split; [done|]. rewrite (onboarding_body_ok_shape _ _ _ _ _ (default "" (form_gender f)) _ _ _ _ _) by (done || by destruct Hg as [ -> | [ -> | -> ] ]; [left|right;left|right;right]).
  rewrite !active_values_documented by reflexivity. rewrite !andb_true_r.
  destruct (form_with f) as [|x l] eqn:E; [done|]. unfold with_whom_sent.
  by rewrite (active_values_nonblank with_who_labels aw x l).
Qed.

Lemma onboarding_body_documented_witness :
  let f := mk_profile_form "지현이" "전북" "김제시" "24" (Some "F")
             (Badges.active_values with_who_labels [false; true; false; false; false; false]) in
  let w := mk_world fresh_state ∅ in
  let p := mk_page None None Blank [] [] in
  profile (st w) = JObj [] /\ prefs (st w) = JObj [] /\
  (form_gender f = None \/ form_gender f = Some "M" \/ form_gender f = Some "F") /\
  form_with f = Badges.active_values with_who_labels [false; true; false; false; false; false] /\
  exists w' p', onboarding_flow f (Badges.active_values scenery_labels [true; false; false; true; false])
                (Badges.active_values style_labels [true; true; false; false; false; false; false; false])
                (Badges.active_values job_labels [true; true; false; false; false; false]) ["뚜벅이 여행"; ""] w p = Some (w', p') /\
    onboarding_body_ok (build_onboarding_payload (st w')) =
      match form_with f with x :: _ => bool_decide (x ∈ doc_with) | [] => false end.
Proof.
  intros f w p. split_and!; [reflexivity|reflexivity|right; right; reflexivity|reflexivity|].
  apply (onboarding_body_documented f _ w p [false; true; false; false; false; false]); [reflexivity|reflexivity|right; right; reflexivity|reflexivity].
Defined.

End Contract.

(** * The documented recommendation response *)

Module Reco.

(** The response of [POST /recommendations/with-user] (src/unnamed/part_001,
    lines 74-121): [status], then under [data] the farm and tour records,
    encoded as the reference shows them ([Cards.Payload.record_json]),
    followed by the other documented fields ([target_region],
    [bubble_data], [scored_attractions]) in [rest]; [top] holds
    [user_info]. *)
Definition reco_response (fs : list farm_record) (ts : list tour_record) (rest top : list (string * json)) : json :=
  JObj ([("status", JStr "success");
         ("data", JObj ([("farms", JArr ((fun f => Payload.record_json (FarmRec f)) <$> fs));
                         ("tour_spots", JArr ((fun t => Payload.record_json (TourRec t)) <$> ts))] ++ rest))] ++ top).

(** A configuration with the recommendation endpoint. *)
Definition reco_config : json :=
  JObj [("baseURL", JStr "http://localhost:8000");
        ("endpoints", JObj [("recommendations/with-user", JStr "/recommendations/with-user")])].

(** ** Properties *)

Lemma field_of_opt k k' o : field_of k (Payload.opt_field k' o) = if String.eqb k k' then JStr <$> o else None.
Proof. destruct o; simpl; destruct (String.eqb k k'); done. Qed.

Lemma opt_str_fmap o : opt_str (JStr <$> o) = Some o.
Proof. by destruct o. Qed.

Lemma option_match_id {A} (o : option A) : match o with Some v => Some v | None => None end = o.
Proof. by destruct o. Qed.

(** The client's reading of a farm inverts the documented encoding. *)
Lemma decode_farm_record f : decode_farm (Payload.record_json (FarmRec f)) = Some f.
Proof.
  destruct f. unfold decode_farm, Payload.record_json, get_field. rewrite !field_of_app, !field_of_opt.
  cbn -[opt_str fmap]. rewrite !option_match_id, !opt_str_fmap. reflexivity.
Qed.

Lemma decode_tour_record t : decode_tour (Payload.record_json (TourRec t)) = Some t.
Proof.
  destruct t. unfold decode_tour, Payload.record_json, get_field. rewrite !field_of_app, !field_of_opt.
  cbn -[opt_str fmap]. rewrite !option_match_id, !opt_str_fmap. reflexivity.
Qed.


Arguments Payload.record_json : simpl never.

(** C30: a recommendation answered as the API reference documents it
    (lines 74-121: [status], and under [data] the [farms] and
    [tour_spots] records, whatever other fields come with them) is drawn
    exactly as the cards of its records: [triggerRecommendation]'s
    reading of each record inverts the documented encoding, so no record
    is lost, reordered or altered, and [CURRENT_RECO] becomes those
    cards.  An answer with no farm and no tour shows the no-result
    message instead. *)
Theorem documented_reco_drawn cr srv now y m d uuid (nr : string) (skip : bool) w ss (p : page) (fs : list farm_record) (ts : list tour_record) (status : Z) (t : string) (rest top : list (string * json)) :
  reco_configured (st w) -> truthy (user_id (st w)) = true -> res_ok status = true ->
  (forall url body, srv url body = Response status (mk_body t (Some (reco_response fs ts rest top)))) ->
  let p1 := hide_loading (show_loading "조건을 분석 중입니다..." (if skip then p else add_msg nr true p)) in
  trigger_recommendation cr srv now y m d uuid nr skip w ss p =
    match fs, ts with
    | [], [] => Some (w, ss, add_msg no_reco false p1)
    | _, _ => Some (w, Selection.apply_event ss (Selection.Recommend (cards_of uuid fs ts)),
                    set_cards (Some (cards_of uuid fs ts)) p1)
    end.
Proof.
  intros Hc Hu Hok Hs p1. unfold trigger_recommendation.
  rewrite (engine_recommend_answered cr srv now y m d w (JStr nr) status t _ Hc Hu Hs Hok).
  cbn [field get_field mbind option_bind reco_response]. simpl. rewrite !length_fmap.
  rewrite (mapM_fmap_Some _ _ _ decode_farm_record), (mapM_fmap_Some _ _ _ decode_tour_record).
  by destruct fs, ts.
Qed.

Lemma documented_reco_drawn_witness :
  let w := mk_world (set_config reco_config sample_state) ∅ in
  let resp := reco_response [sample_farm] [sample_tour] [("target_region", JStr "김제시")] [] in
  let srv := fun (_ : string) (_ : json) => Response 200 (mk_body "" (Some resp)) in
  let p := mk_page (Some []) None Blank [] [] in
  reco_configured (st w) /\ truthy (user_id (st w)) = true /\ res_ok 200 = true /\
  (forall url body, srv url body = Response 200 (mk_body "" (Some resp))) /\
  let p1 := hide_loading (show_loading "조건을 분석 중입니다..." (if false then p else add_msg "김제 과수원 체험" true p)) in
  trigger_recommendation (NetworkError "") srv 0 2025 9 1 sample_uuid "김제 과수원 체험" false w Selection.initial p =
    match [sample_farm], [sample_tour] with
    | [], [] => Some (w, Selection.initial, add_msg no_reco false p1)
    | _, _ => Some (w, Selection.apply_event Selection.initial (Selection.Recommend (cards_of sample_uuid [sample_farm] [sample_tour])),
                    set_cards (Some (cards_of sample_uuid [sample_farm] [sample_tour])) p1)
    end.
Proof.
  intros w resp srv p. split_and!; [split; vm_compute; reflexivity|reflexivity|reflexivity|reflexivity|].
  apply (documented_reco_drawn (NetworkError "") srv 0 2025 9 1 sample_uuid "김제 과수원 체험" false w Selection.initial p
           [sample_farm] [sample_tour] 200 "" [("target_region", JStr "김제시")] []);
    [split; vm_compute; reflexivity|reflexivity|reflexivity|reflexivity].
Defined.

End Reco.

(** * The documented status codes and error body *)

Module Errors.

(** The status codes of the reference (src/unnamed/part_001, lines
    296-304), with whether each one reports a success. *)
Definition doc_status : list (Z * bool) :=
  [(200%Z, true); (201%Z, true); (400%Z, false); (404%Z, false); (500%Z, false)].

(** The error body (lines 306-315). *)
Definition error_response (code message details : string) : json :=
  JObj [("error", JObj [("code", JStr code); ("message", JStr message); ("details", JStr details)])].

(** ** Properties *)

Lemma doc_status_error status : (status, false) ∈ doc_status -> res_ok status = false.
Proof. unfold doc_status. intros H. repeat (apply elem_of_cons in H as [H|H]; [by simplify_eq|]). by apply elem_of_nil in H. Qed.

(** A recommendation request the engine refuses with a documented error
    code and the documented error body is reported to the user as
    [HTTP <status>] alone: the body's [code], [message] and [details]
    never reach the chat. *)
Theorem documented_error_recommendation cr srv now y m d uuid (nr : string) (skip : bool) w ss (p : page)
    (status : Z) (t code message details : string) :
  (status, false) ∈ doc_status -> reco_configured (st w) -> truthy (user_id (st w)) = true ->
  (forall url body, srv url body = Response status (mk_body t (Some (error_response code message details)))) ->
  trigger_recommendation cr srv now y m d uuid nr skip w ss p =
    Some (w, ss, add_msg (reco_failed ("HTTP " +:+ pretty status)) false
                   (hide_loading (show_loading "조건을 분석 중입니다..." (if skip then p else add_msg nr true p)))).
Proof.
  intros Hd Hc Hu Hs. unfold trigger_recommendation.
  by rewrite (engine_recommend_http_error cr srv now y m d w (JStr nr) status _ Hc Hu Hs (doc_status_error _ Hd)).
Qed.

End Errors.
