(* ===== verification/Browser.v ===== *)
(** * The browser's event loop: [hashchange] and [setTimeout]

    [navigate(v)] (src/unnamed/part_000, lines 203-207) assigns
    [location.hash = v]; the browser then queues a [hashchange] event when
    the hash changed, and the listener of lines 208-211 sets [STATE.view]
    from the hash and renders again.  [renderChat] (lines 1370-1382)
    queues a [setTimeout] callback that replays the home query.  The
    handlers of [Chat] run one such cascade each; this file puts them in
    an event loop with [location.hash] and the queue of pending events,
    and proves that every cascade ends, and that [Chat]'s [go_chat],
    which inlines its [hashchange], is what the loop computes. *)

From S2P Require Import Prelude Json Engine Cards App Chat.

Module Loop.

(** The page with [location.hash] and the [hashchange] events the
    browser has queued; the pending [setTimeout] callbacks are the
    [timers] of the page. *)
Record browser := mk_browser {
  b_world : world;
  b_page : page;
  b_session : Selection.session;
  b_hash : string;
  b_pending : nat
}.

(** [location.hash = v]: a [hashchange] is queued when the hash changes. *)
Definition set_hash (v : string) (b : browser) : browser :=
  let h := "#" +:+ v in
  if String.eqb h (b_hash b) then b
  else mk_browser (b_world b) (b_page b) (b_session b) h (S (b_pending b)).

(** [navigate(v)]: [STATE.view = v; location.hash = v; render()]. *)
Definition navigate_b (v : string) (b : browser) : browser :=
  let '(w, p) := navigate v (b_world b) (b_page b) in
  set_hash v (mk_browser w p (b_session b) (b_hash b) (b_pending b)).

(** The [hashchange] listener, run on the current [location.hash]. *)
Definition dispatch_hashchange (b : browser) : browser :=
  let '(w, p) := on_hashchange (b_hash b) (b_world b) (b_page b) in
  mk_browser w p (b_session b) (b_hash b) (b_pending b).

(** [#goChat] as the browser runs it: the query is stored, then
    [navigate("chat")], whose [hashchange] is left in the queue. *)
Definition click_go_chat (input : string) (b : browser) : browser :=
  let q := trim input in
  let w := b_world b in
  let w1 := if truthy q then mk_world (st w) (<["ims_home_query" := Raw q]> (ls w)) else w in
  navigate_b "chat" (mk_browser w1 (b_page b) (b_session b) (b_hash b) (b_pending b)).

(** Nothing is queued. *)
Definition quiescent (b : browser) : bool :=
  Nat.eqb (b_pending b) 0 && bool_decide (timers (b_page b) = []).

(** What running the queue gives: a quiet page, a handler whose result
    leaves the typed model ([trigger_recommendation] meeting a record it
    does not type), or an exhausted bound. *)
Inductive outcome := Quiet (b : browser) | Untyped | OutOfFuel.

Section Run.
Context (cr : fetch_outcome) (srv : string -> json -> fetch_outcome) (now : nat) (y m d : Z).
Context (uuid : nat -> string).

(** One task of the event loop: a queued [hashchange] first (it is
    dispatched at once), otherwise the first timer that is due. *)
Definition step (b : browser) : option browser :=
  match b_pending b with
  | S n => Some (dispatch_hashchange (mk_browser (b_world b) (b_page b) (b_session b) (b_hash b) n))
  | 0 =>
      match fire_timer cr srv now y m d uuid (b_world b) (b_session b) (b_page b) with
      | Some (w, ss, p) => Some (mk_browser w p ss (b_hash b) 0)
      | None => None
      end
  end.

Fixpoint run (fuel : nat) (b : browser) : outcome :=
  match fuel with
  | 0 => OutOfFuel
  | S n =>
      if quiescent b then Quiet b
      else match step b with Some b' => run n b' | None => Untyped end
  end.

End Run.

(** The bound: a [hashchange] can queue one timer (the home query's
    replay), a timer queues nothing. *)
Definition measure (b : browser) : nat := 2 * b_pending b + length (timers (b_page b)).

(** ** The timers a handler leaves *)

Lemma trigger_recommendation_timers cr srv now y m d uuid nr skip w ss p w' ss' p' :
  trigger_recommendation cr srv now y m d uuid nr skip w ss p = Some (w', ss', p') -> timers p' = timers p.
Proof.
  unfold trigger_recommendation. intros H. repeat (case_match; simplify_eq/=); try done.
  all: destruct (mapM decode_farm _), (mapM decode_tour _); simplify_eq/=; done.
Qed.

Lemma render_timers w p : length (timers (render w p).2) <= S (length (timers p)).
Proof.
  unfold render. case_match; simpl; try lia.
  unfold render_chat. case_match; simpl; rewrite ?length_app; simpl; lia.
Qed.

Lemma fire_timer_timers cr srv now y m d uuid w ss p w' ss' p' :
  fire_timer cr srv now y m d uuid w ss p = Some (w', ss', p') -> S (length (timers p')) = length (timers p).
Proof.
  unfold fire_timer. destruct (timers p) as [|t ts] eqn:E; [done|]. simpl.
  case_match; intros Hf.
  - apply trigger_recommendation_timers in Hf. by rewrite Hf.
  - by simplify_eq.
Qed.

Lemma step_measure cr srv now y m d uuid b b' :
  quiescent b = false -> step cr srv now y m d uuid b = Some b' -> measure b' < measure b.
Proof.
  unfold quiescent, step, measure. intros Hq. destruct (b_pending b) as [|n].
  - destruct (fire_timer _ _ _ _ _ _ _ _ _ _) as [[[w ss] p]|] eqn:E; intros H; simplify_eq/=.
    apply fire_timer_timers in E. lia.
  - intros H. simplify_eq/=. unfold dispatch_hashchange, on_hashchange. simpl.
    pose proof (render_timers (mk_world (set_view (view_of_hash (b_hash b)) (st (b_world b))) (ls (b_world b))) (b_page b)).
    destruct (render _ _) as [w p]. simpl in *. lia.
Qed.

(** ** Every cascade ends *)

Lemma run_bound cr srv now y m d uuid fuel b :
  measure b < fuel -> run cr srv now y m d uuid fuel b <> OutOfFuel.
Proof.
  revert b. induction fuel as [|n IH]; intros b Hm; [lia|]. simpl.
  destruct (quiescent b) eqn:Hq; [done|].
  destruct (step _ _ _ _ _ _ _ b) as [b'|] eqn:Hs; [|done].
  apply IH. pose proof (step_measure _ _ _ _ _ _ _ _ _ Hq Hs). lia.
Qed.

(** C12: the event loop always quiets down: whatever the page, the
    queued [hashchange] events and timers, running the queue ends
    within [2 * hashchanges + timers] tasks, since a [hashchange]
    queues at most one timer (the home query's replay, whose query it
    removes), a timer queues nothing, and no handler run from the queue
    changes the hash. *)
Theorem event_loop_terminates cr srv now y m d uuid b :
  run cr srv now y m d uuid (S (measure b)) b <> OutOfFuel.
Proof. apply run_bound. lia. Qed.

(** ** [go_chat] is what the loop computes *)

Theorem go_chat_refines_loop cr srv now y m d uuid input b :
  b_hash b <> "#chat" -> b_pending b = 0 ->
  exists b', step cr srv now y m d uuid (click_go_chat input b) = Some b' /\
    (b_world b', b_page b') = go_chat input (b_world b) (b_page b) /\
    b_pending b' = 0 /\ b_hash b' = "#chat".
Proof.
  intros Hh Hp. unfold click_go_chat, navigate_b, go_chat.
  destruct (navigate _ _ _) as [w2 p2]. unfold set_hash. cbn [b_hash].
  change (String.eqb ("#" +:+ "chat") (b_hash b)) with (String.eqb "#chat" (b_hash b)).
  rewrite (proj2 (String.eqb_neq _ _) (not_eq_sym Hh)). unfold step. cbn [b_pending b_world b_page b_hash].
  unfold dispatch_hashchange. cbn [b_world b_page b_hash]. rewrite Hp.
  destruct (on_hashchange _ _ _) as [w3 p3]. by eexists.
Qed.

(** The cascade of a home search while offline: the [hashchange] of
    [navigate("chat")] and the replay it schedules run, and the page is
    quiet after them, with the engine's failure drawn in the chat. *)
Example go_chat_cascade :
  let b := mk_browser (mk_world fresh_state ∅) (mk_page None None Blank [] []) Selection.initial "#home" 0 in
  exists b', run (NetworkError "offline") (fun _ _ => NetworkError "offline") 0 2025 9 1 (fun _ => "card") 3
               (click_go_chat " 전주 당일치기 " b) = Quiet b' /\ timers (b_page b') = [] /\
    chat (b_page b') = Some [Msg false greeting; Msg true "전주 당일치기"; Msg false (reco_failed "offline")].
Proof. eexists. split; [vm_compute; reflexivity|]. vm_compute. split; reflexivity. Qed.

End Loop.
