(* ===== verification/ServiceWorker.v ===== *)
(** * The service worker (src/public/frontend/app_show_v3/service-worker.js)

    Five lines: [install] opens the cache ["ims-app-v2"] and adds the
    [ASSETS]; [activate] claims the clients; [fetch] answers every
    request with [caches.match(e.request)] and falls back to the network.
    The model keeps the cache as a map from request URL to the stored
    response and the network as a function, so [fetch] is
    [cache-first]; the page's request options, such as [loadConfig]'s
    [{ cache: "no-cache" }], do not reach the handler's decision.

    [Life] puts the three listeners and the page's [register] call in a
    lifecycle, a step relation on the worker, the cache and the page's
    control.

    [Reset] models the page's [hardReset] (never called), which clears
    the storage, deletes the caches and unregisters the worker, and
    reloads without waiting for the last two: the reload races them. *)

From S2P Require Import Prelude Json Engine.

Module SW.

(** [CACHE] *)
Definition cache_name : string := "ims-app-v2".

(** [ASSETS] *)
Definition assets : list string :=
  ["./"; "./index.html"; "./css/style.css"; "./js/app.js"; "./config.json"; "./manifest.webmanifest"].

Abbreviation cache := (gmap string fetch_outcome).

(** [install]: [c.addAll(ASSETS)] stores the network's answer to each
    asset; [addAll] rejects, storing nothing, when one of them is not
    [ok]. *)
Definition install (network : string -> fetch_outcome) (c : cache) : option cache :=
  let answers := map (fun a => (a, network a)) assets in
  if forallb (fun '(_, r) => match r with Response s _ => res_ok s | NetworkError _ => false end) answers
  then Some (list_to_map answers ∪ c) else None.

(** [fetch]: [caches.match(e.request).then(r => r || fetch(e.request))],
    the [no-cache] option of the page's request notwithstanding. *)
Definition on_fetch (network : string -> fetch_outcome) (c : cache) (url : string) (no_cache : bool) : fetch_outcome :=
  match c !! url with Some r => r | None => network url end.

End SW.

Lemma install_lookup net c c' a :
  SW.install net c = Some c' -> a ∈ SW.assets -> c' !! a = Some (net a).
Proof.
  unfold SW.install. destruct (forallb _ _); [|done]. intros [= <-] Ha.
  apply lookup_union_Some_l. unfold SW.assets in Ha.
  repeat (apply elem_of_cons in Ha as [->|Ha]; [by simplify_map_eq|]). by apply not_elem_of_nil in Ha.
Qed.

(** The configuration of the day of installation and the one served a
    week later. *)
Definition old_config : fetch_outcome :=
  Response 200 (mk_body "" (Some (JObj [("baseURL", JStr "http://localhost:8000")]))).
Definition new_config : fetch_outcome :=
  Response 200 (mk_body "" (Some (JObj [("baseURL", JStr "https://api.example.org")]))).

(** ** The worker's lifecycle *)

Module Life.

(** The worker of the registration: none (never registered, or its
    install failed), [Installing] (its [install] event pending),
    [Waiting] to activate, or [Active]. *)
Inductive worker := NoWorker | Installing | Waiting | Active.

#[export] Instance worker_eq_dec : EqDecision worker.
Proof. solve_decision. Defined.

(** The origin as the worker sees it: the registration's worker, the
    cache ["ims-app-v2"], and whether the open page is controlled. *)
Record life := mk_life {
  l_worker : worker;
  l_cache : SW.cache;
  l_controlled : bool
}.

(** [navigator.serviceWorker.register("./service-worker.js")] (lines
    1667-1668 of src/unnamed/part_000): a registration without a worker
    gets one, installing; the same script registered again changes
    nothing. *)
Definition register (w : worker) : worker :=
  match w with NoWorker => Installing | _ => w end.

Definition installed (w : worker) : bool :=
  match w with Waiting | Active => true | _ => false end.

Definition initial : life := mk_life NoWorker ∅ false.

(** The transitions: a page loads ([DOMContentLoaded] registers the
    worker, the new page is controlled when a worker is active); the
    [install] handler succeeds or fails as [addAll] does; the [activate]
    handler's [clients.claim()] makes the open page controlled. *)
Inductive step : life -> life -> Prop :=
  | step_load w c b :
      step (mk_life w c b) (mk_life (register w) c (bool_decide (w = Active)))
  | step_install_ok net c c' b :
      SW.install net c = Some c' -> step (mk_life Installing c b) (mk_life Waiting c' b)
  | step_install_fail net c b :
      SW.install net c = None -> step (mk_life Installing c b) (mk_life NoWorker c b)
  | step_activate c b :
      step (mk_life Waiting c b) (mk_life Active c true).

#[export] Hint Constructors step : core.

(** What a [fetch] of the open page gets: the worker's [fetch] handler
    when the page is controlled, the network otherwise. *)
Definition page_fetch (net : string -> fetch_outcome) (s : life) (url : string) : fetch_outcome :=
  if l_controlled s then SW.on_fetch net (l_cache s) url true else net url.

(** The invariant of every reachable state: a controlled page has an
    active worker, and an installed worker has the configuration in its
    cache. *)
Definition inv (s : life) : Prop :=
  (l_controlled s = true -> l_worker s = Active) /\
  (installed (l_worker s) = true -> is_Some (l_cache s !! "./config.json")).

Lemma config_cached net c c' :
  SW.install net c = Some c' -> c' !! "./config.json" = Some (net "./config.json").
Proof. intros Hi. apply (install_lookup net c c'); [done|]. unfold SW.assets. set_solver. Qed.

Lemma step_inv s s' : step s s' -> inv s -> inv s'.
Proof.
  unfold inv. destruct 1 as [w c b|net c c' b Hi|net c b Hi|c b]; simpl; intros [H1 H2].
  - split; [intros Hb; apply bool_decide_eq_true in Hb as ->; done|].
    destruct w; simpl; try done; intros _; by apply H2.
  - split; [intros Hb; by specialize (H1 Hb)|]. intros _. rewrite (config_cached _ _ _ Hi). by eexists.
  - split; [intros Hb; by specialize (H1 Hb)|done].
  - split; [done|]. intros _. by apply H2.
Qed.

Lemma inv_rtc s s' : rtc step s s' -> inv s -> inv s'.
Proof. induction 1; eauto using step_inv. Qed.

(** C33: every state reached from the first visit satisfies [inv]: the page
    is controlled only under an active worker, and an installed worker
    always has [config.json] in its cache. *)
Theorem reachable_inv s : rtc step initial s -> inv s.
Proof. intros Hr. apply (inv_rtc initial); [done|]. by split. Qed.

(** Once installed, the worker stays installed and its cache does not
    change: [register] does nothing and no second [install] runs. *)
Lemma installed_stable s s' :
  step s s' -> installed (l_worker s) = true -> installed (l_worker s') = true /\ l_cache s' = l_cache s.
Proof. destruct 1 as [w c b| | |]; simpl; try done. by destruct w. Qed.

Lemma installed_stable_rtc s s' :
  rtc step s s' -> installed (l_worker s) = true -> installed (l_worker s') = true /\ l_cache s' = l_cache s.
Proof.
  induction 1 as [|x y z Hxy _ IH]; [done|]. intros Hx.
  destruct (installed_stable _ _ Hxy Hx) as [Hy Hc]. destruct (IH Hy). split; congruence.
Qed.

(** C16: after an install that succeeded with the network [net0], along
    every continuation of the lifecycle (reloads, [register] again,
    activation), whenever the page is controlled its [config.json] is
    the one [net0] gave, whatever the network [net] serves then. *)
Theorem controlled_config_pinned net0 net c c' b s' :
  SW.install net0 c = Some c' -> rtc step (mk_life Waiting c' b) s' -> l_controlled s' = true ->
  page_fetch net s' "./config.json" = net0 "./config.json".
Proof.
  intros Hi Hr Hc. destruct (installed_stable_rtc _ _ Hr eq_refl) as [_ Hcache].
  unfold page_fetch, SW.on_fetch. rewrite Hc, Hcache. cbn [l_cache]. by rewrite (config_cached _ _ _ Hi).
Qed.

End Life.

(** The first visit: the page registers the worker and loads
    uncontrolled, so its requests reach the network; the [install]
    stores the day's configuration, and [clients.claim()] in [activate]
    puts the same page under the worker, which answers from then on
    with that configuration. *)
Lemma controlled_config_pinned_witness :
  let net0 := fun (_ : string) => old_config in
  let net := fun (_ : string) => new_config in
  exists c', SW.install net0 ∅ = Some c' /\
    rtc Life.step Life.initial (Life.mk_life Life.Waiting c' false) /\
    rtc Life.step (Life.mk_life Life.Waiting c' false) (Life.mk_life Life.Active c' true) /\
    Life.page_fetch net (Life.mk_life Life.Active c' true) "./config.json" = net0 "./config.json".
Proof.
  intros net0 net. eexists. split; [reflexivity|]. split; [|split].
  - eapply rtc_l; [apply (Life.step_load Life.NoWorker ∅ false)|]. eapply rtc_l; [|apply rtc_refl].
    apply (Life.step_install_ok net0). reflexivity.
  - eapply rtc_l; [apply Life.step_activate|apply rtc_refl].
  - eapply (Life.controlled_config_pinned net0 net ∅ _ false); [reflexivity| |reflexivity].
    eapply rtc_l; [apply Life.step_activate|apply rtc_refl].
Defined.

(** The first visit reaches an active worker that controls the page,
    and [inv] holds there. *)
Lemma reachable_inv_witness :
  exists c', SW.install (fun _ => old_config) ∅ = Some c' /\
    rtc Life.step Life.initial (Life.mk_life Life.Active c' true) /\
    Life.inv (Life.mk_life Life.Active c' true).
Proof.
  eexists. split; [reflexivity|].
  match goal with |- rtc _ _ ?s /\ _ => assert (Hr : rtc Life.step Life.initial s) end.
  { eapply rtc_l; [apply (Life.step_load Life.NoWorker ∅ false)|].
    eapply rtc_l; [apply (Life.step_install_ok (fun _ => old_config)); reflexivity|].
    eapply rtc_l; [apply Life.step_activate|apply rtc_refl]. }
  split; [exact Hr|]. apply Life.reachable_inv, Hr.
Defined.

(** ** [hardReset] and the order of its effects *)

Module Reset.

(** What [hardReset] touches: [localStorage], the [CacheStorage] of
    the origin (cache name to cache) and whether the service worker is
    registered. *)
Record origin := mk_origin {
  o_storage : storage;
  o_caches : gmap string SW.cache;
  o_registered : bool
}.

(** The work [hardReset] leaves to run later: the two promise chains
    ([caches.keys().then(... caches.delete(k))] and
    [getRegistrations().then(... r.unregister())]) and the navigation
    that [location.reload()] starts.  The browser may run them in any
    order. *)
Inductive task := DeleteCaches | Unregister | Reload.

#[export] Instance task_eq_dec : EqDecision task.
Proof. solve_decision. Defined.

(** The configuration the reloaded page's [loadConfig] receives: through
    the service worker's [fetch] handler while it is registered. *)
Definition config_seen (net : string -> fetch_outcome) (o : origin) : fetch_outcome :=
  if o_registered o then SW.on_fetch net (default ∅ (o_caches o !! SW.cache_name)) "./config.json" true
  else net "./config.json".

(** One of the three tasks; the reload records the storage and the
    configuration the new page starts from. *)
Definition run_task (net : string -> fetch_outcome) (o : origin) (seen : option (storage * fetch_outcome)) (t : task)
    : origin * option (storage * fetch_outcome) :=
  match t with
  | DeleteCaches => (mk_origin (o_storage o) ∅ (o_registered o), seen)
  | Unregister => (mk_origin (o_storage o) (o_caches o) false, seen)
  | Reload => (o, Some (o_storage o, config_seen net o))
  end.

(** [hardReset()] (src/unnamed/part_000, lines 32-43):
    [localStorage.clear()] at once, then the three tasks in [order]. *)
Definition hard_reset (net : string -> fetch_outcome) (order : list task) (o : origin)
    : origin * option (storage * fetch_outcome) :=
  fold_left (fun '(o, seen) t => run_task net o seen t) order (mk_origin ∅ (o_caches o) (o_registered o), None).

(** C10: [hardReset] does not wait for its promises before reloading.  In
    every order the new page starts from an empty [localStorage], but it
    gets the configuration pinned at install time exactly when the
    reload runs before the cache deletion and the unregistration; in
    the other orders it gets the network's current one. *)
Theorem hard_reset_race net net' c o order :
  SW.install net ∅ = Some c -> o_caches o !! SW.cache_name = Some c -> o_registered o = true ->
  order ≡ₚ [DeleteCaches; Unregister; Reload] ->
  (hard_reset net' order o).2 =
    Some (∅, if bool_decide (head order = Some Reload) then net "./config.json" else net' "./config.json").
Proof.
  intros Hi Hc Hr Hp.
  assert (Hnd : NoDup order) by (rewrite Hp; repeat constructor; set_solver).
  pose proof (Permutation_length Hp) as Hl.
  assert (Hpin : c !! "./config.json" = Some (net "./config.json")).
  { apply (install_lookup net ∅); [done|]. unfold SW.assets. set_solver. }
  destruct order as [|a [|b [|e [|]]]]; simpl in Hl; try lia.
  destruct a, b, e; try (exfalso; repeat match goal with H : NoDup (_ :: _) |- _ => apply NoDup_cons in H as [? H] end; set_solver).
  all: unfold hard_reset, config_seen; simpl; rewrite ?Hr, ?Hc; simpl; try done.
  all: unfold config_seen, SW.on_fetch; simpl; rewrite Hc; simpl; by rewrite Hpin.
Qed.

End Reset.

(** A page installed with the old configuration and a server that now
    serves the new one: when the reload runs first, the new page still
    gets the old configuration. *)
Lemma hard_reset_race_witness :
  exists c, SW.install (fun _ => old_config) ∅ = Some c /\
    (Reset.hard_reset (fun _ => new_config) [Reset.Reload; Reset.DeleteCaches; Reset.Unregister]
       (Reset.mk_origin ∅ {[SW.cache_name := c]} true)).2 = Some (∅, old_config).
Proof.
  eexists. split; [reflexivity|].
  match goal with |- context [{[SW.cache_name := ?c]}] =>
    rewrite (Reset.hard_reset_race (fun _ => old_config) _ c) end;
    [reflexivity|reflexivity|cbn [Reset.o_caches]; by simplify_map_eq|reflexivity|].
  change [Reset.Reload; Reset.DeleteCaches; Reset.Unregister] with ([Reset.Reload] ++ [Reset.DeleteCaches; Reset.Unregister]).
  apply Permutation_app_comm.
Defined.
