(* ===== verification/Backend.v ===== *)
(** * The back end's scheduler, modelled from [spec.md]

    The Python services that build and revise an itinerary are not in the
    repository (the report in src/unnamed/part_001 only names
    [SimpleSchedulingService.generate_schedule], lines 752-768).  This
    file models them from spec.md, sections 4.2 to 4.5:
    - [Duration]: [extract_duration], a numeral-word table and ["N일"],
      clamped to 1..10;
    - [StartPeriod]: [resolve_start], the nearest future occurrence of a
      month ["N월"] (its 1st, or today when it is the current month), and
      the (region, month) special-event table;
    - [Builder]: [build] and [generate_schedule], one contiguous farm
      block with a tour day before it and the remaining tour days after
      it, the tours clustered by locality ([cluster], §4.4 step 4) before
      they are distributed;
    - [Reviser]: [revise], which replaces one tour day's content by
      the top unused candidate, re-ranked for the day's locality.

    Where the spec leaves a choice open, the model takes one and the
    comment says so: the locality of an address is its first two
    segments (province and city).  The items are [Schedule]'s [schedule_item]s, so the client's grouping
    ([Schedule.Grouping.group_schedule]) can be run on what the builder
    produces. *)

From S2P Require Import Prelude Json Schedule Dates MonthGrid.
From stdpp Require Import sorting.

Definition is_digit (c : Ascii.ascii) : bool :=
  (48 <=? Ascii.nat_of_ascii c)%nat && (Ascii.nat_of_ascii c <=? 57)%nat.

(** The first run of digits followed by [unit], e.g. ["4"] in ["3박4일"]
    for [unit = "일"]. *)
Fixpoint number_before (unit : string) (s : string) (cur : option nat) : option nat :=
  match s with
  | EmptyString => None
  | String c s' =>
      if is_digit c then number_before unit s' (Some (10 * default 0 cur + (Ascii.nat_of_ascii c - 48)))%nat
      else match cur with
           | Some n => if String.prefix unit s then Some n else number_before unit s' None
           | None => number_before unit s' None
           end
  end.

Module Duration.

(** The numeral words of §4.2 and their values. *)
Definition numerals : list (string * nat) :=
  [("하루", 1); ("이틀", 2); ("사흘", 3); ("나흘", 4); ("닷새", 5);
   ("엿새", 6); ("이레", 7); ("여드레", 8); ("아흐레", 9); ("열흘", 10)]%nat.

(** A found value is brought into 1..10: above 10 it is clamped (the
    spec's policy), and [0] becomes [1]. *)
Definition clamp (n : nat) : nat := Nat.min 10 (Nat.max 1 n).

(** [extract_duration(text)]: a numeral word first, then ["N일"]; [None]
    when the text names no duration. *)
Definition extract_duration (text : string) : option nat :=
  match List.find (fun '(w, _) => includes text w) numerals with
  | Some (_, n) => Some (clamp n)
  | None => clamp <$> number_before "일" text None
  end.

(** The documented default when no duration is found. *)
Definition default_duration : nat := 1.

End Duration.

(** A tour the user chose, or a special event. *)
Record tour_sel := mk_tour_sel { ts_name : string; ts_address : string }.

(** The farm the user chose. *)
Record farm_sel := mk_farm_sel { fs_name : string; fs_address : string; fs_start : string }.

Module StartPeriod.

(** The configured (region, month) events of §4.3. *)
Definition special_events : list ((string * nat) * tour_sel) :=
  [(("김제시", 10%nat), mk_tour_sel "김제지평선축제" "전북 김제시 부량면")].

Definition special_event (region : string) (month : nat) : option tour_sel :=
  snd <$> List.find (fun '((r, m), _) => String.eqb r region && Nat.eqb m month) special_events.

(** [resolve_start(text, region, today)] with [today] a day number:
    the month the text names in its nearest future occurrence, and the
    special event of that region and month.  A month later in the year
    starts on its 1st this year, an earlier one on its 1st next year;
    the current month, already under way, starts today (the spec leaves
    this case open).  Without a month, the start is today and no event
    applies. *)
Definition resolve_start (text region : string) (today : Z) : Z * option tour_sel :=
  let '(y, mo, _) := civil_from_days today in
  match number_before "월" text None with
  | Some m =>
      if (1 <=? m)%nat && (m <=? 12)%nat then
        let mz := Z.of_nat m in
        if (mo <? mz)%Z then (days_from_civil y mz 1, special_event region m)
        else if (mo =? mz)%Z then (today, special_event region m)
        else (days_from_civil (y + 1) mz 1, special_event region m)
      else (today, None)
  | None => (today, None)
  end.

End StartPeriod.

Module Builder.

(** The name of a tour day that no tour fills (§4.4 step 3). *)
Definition free_day_name : string := "자유 일정".

(** The spec fixes no start time for a tour item; the model takes one. *)
Definition tour_start : string := "10:00".

(** The ISO date of day [k] of a trip starting on day number [start]. *)
Definition date_of (start : Z) (k : nat) : string :=
  iso_date (civil_from_days (start + Z.of_nat k - 1)).

Definition farm_item (f : farm_sel) (start : Z) (k : nat) : schedule_item :=
  mk_item k (date_of start k) farm_type (fs_name f) (fs_start f) (fs_address f).

Definition tour_item (start : Z) (k : nat) (t : tour_sel) : schedule_item :=
  mk_item k (date_of start k) tour_type (ts_name t) tour_start (ts_address t).

Definition free_item (start : Z) (k : nat) : schedule_item :=
  mk_item k (date_of start k) tour_type free_day_name "" "".

(** The non-farm days reserved for [n] tours in [d] days: none without
    tours; otherwise the day before the farm block and up to two after
    it, leaving the farm at least one day.  (On ten days this gives the
    API document's layout: a tour day, days 2-8 on the farm, two tour
    days.) *)
Definition reserved (d n : nat) : nat := if Nat.eqb n 0 then 0 else Nat.min (d - 1) 3.

(** The farm block: its first day and its length. *)
Definition farm_first (d n : nat) : nat := if Nat.eqb (reserved d n) 0 then 1 else 2.
Definition farm_len (d n : nat) : nat := d - reserved d n.

Definition in_farm (d n k : nat) : bool :=
  Nat.leb (farm_first d n) k && Nat.ltb k (farm_first d n + farm_len d n).

(** The tour days in order: day 1 when the block starts on day 2, then
    the days after the block. *)
Definition tour_days (d n : nat) : list nat := List.filter (fun k => negb (in_farm d n k)) (seq 1 d).

(** Tour [i] goes to the [i]-th tour day, the special event first; the
    tours past the last tour day are packed onto it. *)
Definition assign (d : nat) (tis : list tour_sel) : list (nat * tour_sel) :=
  let days := tour_days d (length tis) in
  imap (fun i t => (nth (Nat.min i (length days - 1)) days 0, t)) tis.

Definition day_tours (assigned : list (nat * tour_sel)) (k : nat) : list tour_sel :=
  snd <$> List.filter (fun p => Nat.eqb p.1 k) assigned.

(** The items of day [k]: the farm on a farm day, otherwise the tours
    assigned to it, or a free day. *)
Definition day_items (f : farm_sel) (start : Z) (d : nat) (tis : list tour_sel) (k : nat) : list schedule_item :=
  if in_farm d (length tis) k then [farm_item f start k]
  else match day_tours (assign d tis) k with
       | [] => [free_item start k]
       | ts => tour_item start k <$> ts
       end.

Record itinerary := mk_itinerary {
  itinerary_id : string;
  total_days : nat;
  items : list schedule_item;
  farm_days_count : nat;
  tour_days_count : nat;
  region : string
}.

(** §4.4 step 4, the locality of an address: its administrative-region
    prefix, the text before the second space (["전북 김제시"] for
    ["전북 김제시 부량면"]); the spec leaves the segment open. *)
Fixpoint locality_upto (spaces : nat) (a : string) : string :=
  match a with
  | EmptyString => EmptyString
  | String c a' =>
      if Ascii.eqb c (Ascii.ascii_of_nat 32) then
        match spaces with 0 => EmptyString | S k => String c (locality_upto k a') end
      else String c (locality_upto spaces a')
  end.

Definition locality (t : tour_sel) : string := locality_upto 1 (ts_address t).

(** The localities in the order of their first tour. *)
Fixpoint first_localities (seen : list string) (ts : list tour_sel) : list string :=
  match ts with
  | [] => []
  | t :: ts' =>
      if bool_decide (locality t ∈ seen) then first_localities seen ts'
      else locality t :: first_localities (locality t :: seen) ts'
  end.

(** Step 4: the tours of one locality are put next to each other, the
    localities in the order of their first tour and the tours of one
    locality in their given order, so that [assign] gives them adjacent
    tour days. *)
Definition cluster (ts : list tour_sel) : list tour_sel :=
  flat_map (fun k => List.filter (fun t => String.eqb (locality t) k) ts) (first_localities [] ts).

(** [build(farm, tours, duration, start, special, region)]: the special
    event first, then the clustered tours. *)
Definition build (id region : string) (f : farm_sel) (tours : list tour_sel) (d : nat) (start : Z)
    (special : option tour_sel) : itinerary :=
  let tis := option_list special ++ cluster tours in
  mk_itinerary id d (flat_map (day_items f start d tis) (seq 1 d))
    (farm_len d (length tis)) (length (tour_days d (length tis))) region.

Inductive schedule_error := NoFarmSelectedError | FeedbackTargetInvalidError.

(** [generate_schedule(farm, tours, natural_text, region, today)]: the
    farm is mandatory; a missing duration takes the default. *)
Definition generate_schedule (id : string) (farm : option farm_sel) (tours : list tour_sel)
    (text region : string) (today : Z) : schedule_error + itinerary :=
  match farm with
  | None => inl NoFarmSelectedError
  | Some f =>
      let d := default Duration.default_duration (Duration.extract_duration text) in
      let '(start, special) := StartPeriod.resolve_start text region today in
      inr (build id region f tours d start special)
  end.

End Builder.

Module Reviser.

(** The ordinal day words of §4.5. *)
Definition ordinal_days : list (string * nat) :=
  [("첫째날", 1); ("둘째날", 2); ("셋째날", 3); ("넷째날", 4); ("다섯째날", 5);
   ("여섯째날", 6); ("일곱째날", 7); ("여덟째날", 8); ("아홉째날", 9); ("열째날", 10)]%nat.

(** The digits at the start of a text, as a number. *)
Fixpoint leading_number (s : string) (acc : option nat) : option nat :=
  match s with
  | String c s' =>
      if is_digit c then leading_number s' (Some (10 * default 0 acc + (Ascii.nat_of_ascii c - 48)))%nat
      else acc
  | EmptyString => acc
  end.

(** The day a feedback text refers to: an ordinal day word, or
    ["Day N"]. *)
Definition day_ref (feedback : string) : option nat :=
  match List.find (fun '(w, _) => includes feedback w) ordinal_days with
  | Some (_, k) => Some k
  | None =>
      match String.index 0 "Day " feedback with
      | Some i => leading_number (substring (i + 4) (String.length feedback) feedback) None
      | None => None
      end
  end.

Definition is_farm_day (l : list schedule_item) (k : nat) : bool :=
  existsb (fun x => Nat.eqb (day x) k && is_farm x) l.

(** A candidate whose name the itinerary does not use yet. *)
Definition unused (l : list schedule_item) (c : tour_sel) : bool :=
  negb (existsb (fun x => String.eqb (name x) (ts_name c)) l).

(** The first unused candidate of a ranking. *)
Definition next_candidate (cands : list tour_sel) (l : list schedule_item) : option tour_sel :=
  List.find (unused l) cands.

(** The localities of day [k]'s items. *)
Definition day_localities (k : nat) (l : list schedule_item) : list string :=
  (fun x => Builder.locality_upto 1 (address x)) <$> List.filter (fun x => Nat.eqb (day x) k) l.

Definition local_to (k : nat) (l : list schedule_item) (c : tour_sel) : bool :=
  bool_decide (Builder.locality c ∈ day_localities k l).

(** §4.5's re-scoring for the day's locality: the candidates in a
    locality of day [k] score above the others, the ranking given by
    the caller breaking ties (a stable sort on the score).  The spec's
    time slot is not scored: every tour item starts at [tour_start]. *)
Definition rerank (k : nat) (cands : list tour_sel) (l : list schedule_item) : list tour_sel :=
  List.filter (local_to k l) cands ++ List.filter (fun c => negb (local_to k l c)) cands.

Definition day_date (k : nat) (l : list schedule_item) : string :=
  default "" (date <$> List.find (fun x => Nat.eqb (day x) k) l).

(** The items of day [k] replaced by [new], in place in a list sorted
    by day. *)
Definition replace_day (k : nat) (new l : list schedule_item) : list schedule_item :=
  List.filter (fun x => Nat.ltb (day x) k) l ++ new ++ List.filter (fun x => Nat.ltb k (day x)) l.

(** The summary's farm day count, recomputed from the items. *)
Definition farm_days (d : nat) (l : list schedule_item) : nat :=
  length (List.filter (is_farm_day l) (seq 1 d)).

(** Day [k] of [it] given to candidate [c]: the new item keeps the
    day's date, the id is kept and the summary recomputed. *)
Definition revise_day (c : tour_sel) (it : Builder.itinerary) (k : nat) : Builder.itinerary :=
  let l := Builder.items it in
  let d := Builder.total_days it in
  let l' := replace_day k [mk_item k (day_date k l) tour_type (ts_name c) Builder.tour_start (ts_address c)] l in
  let fd := farm_days d l' in
  Builder.mk_itinerary (Builder.itinerary_id it) d l' fd (d - fd) (Builder.region it).

(** [revise(itinerary, feedback)] with the ranked candidates: a day
    that does not exist or a farm day is [FeedbackTargetInvalidError];
    a tour day gets the top unused candidate, re-ranked for its
    locality, in place of its items.
    The spec does not say what happens when the text names no day (the
    model signals the error) or no candidate is left (the model returns
    the itinerary unchanged). *)
Definition revise (cands : list tour_sel) (it : Builder.itinerary) (feedback : string)
    : Builder.schedule_error + Builder.itinerary :=
  match day_ref feedback with
  | Some k =>
      if Nat.leb 1 k && Nat.leb k (Builder.total_days it) && negb (is_farm_day (Builder.items it) k) then
        match next_candidate (rerank k cands (Builder.items it)) (Builder.items it) with
        | Some c => inr (revise_day c it k)
        | None => inr it
        end
      else inl Builder.FeedbackTargetInvalidError
  | None => inl Builder.FeedbackTargetInvalidError
  end.

End Reviser.


(** ** The builder's invariants (spec §3) *)

Lemma elem_of_flat_map_seq {A} (G : nat -> list A) b m x :
  x ∈ flat_map G (seq b m) <-> exists k, (b <= k < b + m)%nat /\ x ∈ G k.
Proof.
  rewrite list_elem_of_In, in_flat_map. split.
  - intros (k & Hk%in_seq & Hx). exists k. by rewrite list_elem_of_In.
  - intros (k & Hk & Hx). exists k. rewrite in_seq, <-list_elem_of_In. done.
Qed.

Lemma same_day_sorted (l : list schedule_item) k :
  (forall x, x ∈ l -> day x = k) -> StronglySorted (fun x y => day x <= day y)%nat l.
Proof.
  induction l as [|x l IH]; intros H; constructor.
  - apply IH. intros y Hy. apply H. by right.
  - apply Forall_forall. intros y Hy%list_elem_of_In. rewrite (H x), (H y); [lia|..]; first [by left | right; by apply list_elem_of_In].
Qed.

(** Blocks of items of increasing days are sorted by day. *)
Lemma flat_map_seq_sorted (G : nat -> list schedule_item) b m :
  (forall k x, x ∈ G k -> day x = k) ->
  StronglySorted (fun x y => day x <= day y)%nat (flat_map G (seq b m)).
Proof.
  intros HG. revert b. induction m as [|m IH]; intros b; simpl; [constructor|].
  apply StronglySorted_app_2; [|by apply (same_day_sorted _ b), HG|apply IH].
  intros x y Hx Hy. apply HG in Hx. apply elem_of_flat_map_seq in Hy as (k & Hk & Hy). apply HG in Hy. lia.
Qed.

Lemma filter_seq_all (p : nat -> bool) b m :
  (forall k, (b <= k < b + m)%nat -> p k = true) -> List.filter p (seq b m) = seq b m.
Proof.
  revert b. induction m as [|m IH]; intros b Hp; simpl; [done|].
  rewrite Hp by lia. f_equal. apply IH. intros k Hk. apply Hp. lia.
Qed.

Lemma filter_seq_none (p : nat -> bool) b m :
  (forall k, (b <= k < b + m)%nat -> p k = false) -> List.filter p (seq b m) = [].
Proof.
  revert b. induction m as [|m IH]; intros b Hp; simpl; [done|].
  rewrite Hp by lia. apply IH. intros k Hk. apply Hp. lia.
Qed.

Lemma filter_all_in {A} (p : A -> bool) l : (forall x, x ∈ l -> p x = true) -> List.filter p l = l.
Proof.
  induction l as [|x l IH]; intros Hp; simpl; [done|].
  rewrite Hp by left. f_equal. apply IH. intros y Hy. apply Hp. by right.
Qed.

Lemma filter_none_in {A} (p : A -> bool) l : (forall x, x ∈ l -> p x = false) -> List.filter p l = [].
Proof.
  induction l as [|x l IH]; intros Hp; simpl; [done|].
  rewrite Hp by left. apply IH. intros y Hy. apply Hp. by right.
Qed.

Lemma filter_filter_sub {A} (p q : A -> bool) l :
  (forall x, p x = true -> q x = true) -> List.filter p (List.filter q l) = List.filter p l.
Proof.
  intros Hpq. induction l as [|x l IH]; simpl; [done|].
  destruct (p x) eqn:Ep; [rewrite (Hpq x Ep); simpl; rewrite Ep; by f_equal|].
  destruct (q x); simpl; [rewrite Ep|]; done.
Qed.

Lemma filter_filter_disj {A} (p q : A -> bool) l :
  (forall x, p x = true -> q x = false) -> List.filter p (List.filter q l) = [].
Proof.
  intros Hpq. apply filter_none_in. intros x [_ Hq]%elem_of_filter_list.
  destruct (p x) eqn:Ep; [by rewrite (Hpq x Ep) in Hq|done].
Qed.

Lemma StronglySorted_filter {A} (R : A -> A -> Prop) (p : A -> bool) l :
  StronglySorted R l -> StronglySorted R (List.filter p l).
Proof.
  induction 1 as [|x l Hl IH Hx]; simpl; [constructor|]. destruct (p x); [|done].
  constructor; [done|]. apply Forall_forall. intros y [Hy _]%elem_of_filter_list.
  rewrite Forall_forall in Hx. by apply Hx.
Qed.

Lemma flat_map_seq_single {A} (G : nat -> list A) (H : nat -> A) b m :
  (forall k, (b <= k < b + m)%nat -> G k = [H k]) -> flat_map G (seq b m) = H <$> seq b m.
Proof.
  revert b. induction m as [|m IH]; intros b HG; simpl; [done|].
  rewrite HG by lia. simpl. f_equal. apply IH. intros k Hk. apply HG. lia.
Qed.

Lemma StronglySorted_seq_fmap {A} (R : A -> A -> Prop) (G : nat -> A) b m :
  (forall i j, (b <= i < j)%nat -> (j < b + m)%nat -> R (G i) (G j)) -> StronglySorted R (G <$> seq b m).
Proof.
  revert b. induction m as [|m IH]; intros b HR; simpl; constructor.
  - apply IH. intros i j ? ?. apply HR; lia.
  - apply Forall_fmap, Forall_seq. intros j Hj. apply HR; lia.
Qed.

Lemma StronglySorted_Sorted_weaken {A} (R S : A -> A -> Prop) l :
  (forall x y, R x y -> S x y) -> StronglySorted R l -> Sorted S l.
Proof.
  intros HRS. induction 1 as [|x l Hl IH Hx]; constructor; [done|].
  destruct l as [|y l]; constructor. apply HRS. by inversion Hx.
Qed.

(** The client's tour group of day [k]. *)
Definition tour_group (G : nat -> list schedule_item) (k : nat) : Grouping.group :=
  Grouping.mk_group tour_type k k (G k).

Lemma mjoin_tour_groups G l : mjoin (Grouping.gitems <$> (tour_group G <$> l)) = flat_map G l.
Proof. induction l as [|k l IH]; [done|]. rewrite !fmap_cons. simpl. rewrite <-IH. done. Qed.

(** Groups in the order of their days, never two farm groups. *)
Definition groups_ordered (g1 g2 : Grouping.group) : Prop :=
  (Grouping.startDay g1 <= Grouping.endDay g1 < Grouping.startDay g2)%nat /\
  ~ (Grouping.gtype g1 = farm_type /\ Grouping.gtype g2 = farm_type).

Lemma groups_ordered_adjacent g1 g2 : groups_ordered g1 g2 -> Grouping.adjacent_distinct g1 g2.
Proof. intros [Hd Hf]. split; [done|]. intros _ _. lia. Qed.

Section BuilderFacts.
Import Builder.

Context (f : farm_sel) (start : Z) (d : nat) (tis : list tour_sel).
Hypothesis d_pos : (1 <= d)%nat.

Local Abbreviation n := (length tis).
Local Abbreviation a := (farm_first d n).
Local Abbreviation fl := (farm_len d n).

Lemma farm_block_bounds : (1 <= a /\ 1 <= fl /\ a + fl <= d + 1 /\ (a = 1 \/ a = 2))%nat.
Proof using d_pos.
  unfold farm_first, farm_len, reserved.
  destruct (Nat.eqb_spec n 0); simpl; [lia|].
  destruct (Nat.eqb_spec (Nat.min (d - 1) 3) 0); lia.
Qed.

Lemma in_farm_spec k : in_farm d n k = true <-> (a <= k < a + fl)%nat.
Proof. unfold in_farm. rewrite andb_true_iff, Nat.leb_le, Nat.ltb_lt. done. Qed.

Lemma day_items_day k x : x ∈ day_items f start d tis k -> day x = k.
Proof.
  unfold day_items. destruct (in_farm _ _ _); [by intros ->%list_elem_of_singleton|].
  destruct (day_tours _ _); [by intros ->%list_elem_of_singleton|].
  intros (t0 & -> & _)%list_elem_of_fmap. done.
Qed.

Lemma day_items_date k x : x ∈ day_items f start d tis k -> date x = date_of start k.
Proof.
  unfold day_items. destruct (in_farm _ _ _); [by intros ->%list_elem_of_singleton|].
  destruct (day_tours _ _); [by intros ->%list_elem_of_singleton|].
  intros (t0 & -> & _)%list_elem_of_fmap. done.
Qed.

Lemma day_items_nonempty k : day_items f start d tis k <> [].
Proof. unfold day_items. destruct (in_farm _ _ _); [done|]. by destruct (day_tours _ _). Qed.

Lemma day_items_farm k x : x ∈ day_items f start d tis k ->
  (is_farm x = in_farm d n k) /\ (is_farm x = true -> name x = fs_name f /\ address x = fs_address f).
Proof.
  unfold day_items. destruct (in_farm _ _ _) eqn:E.
  - intros ->%list_elem_of_singleton. done.
  - destruct (day_tours _ _); [intros ->%list_elem_of_singleton|intros (t0 & -> & _)%list_elem_of_fmap]; done.
Qed.

(** [1..d] cut around the farm block. *)
Lemma seq_around_block : seq 1 d = seq 1 (a - 1) ++ seq a fl ++ seq (a + fl) (d + 1 - a - fl).
Proof using d_pos.
  pose proof farm_block_bounds as (H1 & H2 & H3 & _).
  assert (E : d = ((a - 1) + fl + (d + 1 - a - fl))%nat) by lia.
  rewrite E at 1. rewrite !seq_app, <-app_assoc. f_equal. f_equal; f_equal; lia.
Qed.

Lemma tour_days_length : length (tour_days d n) = (d - fl)%nat.
Proof using d_pos.
  pose proof farm_block_bounds as (H1 & H2 & H3 & _).
  unfold tour_days. rewrite seq_around_block, !List.filter_app.
  rewrite (filter_seq_all _ 1), (filter_seq_none _ a), (filter_seq_all _ (a + fl));
    try (intros k Hk; rewrite ?negb_true_iff, ?negb_false_iff;
         destruct (in_farm d n k) eqn:E; apply in_farm_spec in E || (rewrite <-not_true_iff_false, in_farm_spec in E); lia).
  rewrite !length_app, !length_seq. simpl. lia.
Qed.

Local Abbreviation G := (day_items f start d tis).

(** The client's groups of a built itinerary: a tour group for each day
    before the farm block, the farm block, a tour group for each day
    after it. *)
Definition farm_group : Grouping.group :=
  Grouping.mk_group farm_type a (a + fl - 1) (farm_item f start <$> seq a fl).

Definition expected_groups : list Grouping.group :=
  (tour_group G <$> seq 1 (a - 1)) ++ farm_group :: (tour_group G <$> seq (a + fl) (d + 1 - a - fl)).

Lemma day_items_in_farm k : (a <= k < a + fl)%nat -> G k = [farm_item f start k].
Proof. intros Hk. unfold day_items. by rewrite (proj2 (in_farm_spec k) Hk). Qed.

Lemma day_items_tour k x : ~ (a <= k < a + fl)%nat -> x ∈ G k -> is_farm x = false /\ day x = k.
Proof.
  intros Hk Hx. split; [|by eapply day_items_day]. rewrite (proj1 (day_items_farm k x Hx)).
  destruct (in_farm d n k) eqn:E; [by apply in_farm_spec in E|done].
Qed.

Lemma expected_groups_items : mjoin (Grouping.gitems <$> expected_groups) = flat_map G (seq 1 d).
Proof using d_pos.
  pose proof farm_block_bounds as (H1 & H2 & H3 & _).
  unfold expected_groups. rewrite seq_around_block, !flat_map_app, fmap_app, join_app, fmap_cons.
  simpl (mjoin (_ :: _)). rewrite !mjoin_tour_groups. do 2 f_equal.
  symmetry. apply flat_map_seq_single, day_items_in_farm.
Qed.

Lemma tour_group_wf k : ~ (a <= k < a + fl)%nat -> Grouping.group_wf (tour_group G k).
Proof.
  intros Hk. destruct (G k) as [|x r] eqn:E; [by apply day_items_nonempty in E|].
  exists x, r. unfold tour_group; simpl. rewrite E. split; [done|].
  split; [symmetry; apply (day_items_tour k x Hk); rewrite E; left|].
  right. split; [done|]. split; [|done]. apply Forall_forall. intros y Hy.
  apply (day_items_tour k y Hk). by rewrite E.
Qed.

Lemma farm_group_wf : Grouping.group_wf farm_group.
Proof using d_pos.
  pose proof farm_block_bounds as (H1 & H2 & H3 & _). unfold farm_group.
  destruct fl as [|m] eqn:E; [lia|].
  exists (farm_item f start a), (farm_item f start <$> seq (S a) m). split_and!; [done|done|left].
  split_and!; [done| |].
  - apply Forall_forall. intros y (k & -> & _)%list_elem_of_fmap. reflexivity.
  - change (a + S m - 1 = day (List.last (farm_item f start <$> seq a (S m)) (farm_item f start a)))%nat.
    rewrite seq_S, fmap_app, fmap_cons, fmap_nil, last_last. simpl. lia.
Qed.

Lemma expected_groups_sorted : StronglySorted groups_ordered expected_groups.
Proof using d_pos.
  pose proof farm_block_bounds as (H1 & H2 & H3 & _). pose proof Grouping.farm_ne_tour.
  unfold expected_groups. apply StronglySorted_app_2.
  - intros g1 g2 (i & -> & Hi%elem_of_seq)%list_elem_of_fmap Hg2.
    apply elem_of_cons in Hg2 as [->|(j & -> & Hj%elem_of_seq)%list_elem_of_fmap];
      split; simpl; first [lia | intros [? ?]; congruence].
  - apply StronglySorted_seq_fmap. intros i j ? ?. split; simpl; [lia|intros [? ?]; congruence].
  - constructor; [apply StronglySorted_seq_fmap; intros i j ? ?; split; simpl; [lia|intros [? ?]; congruence]|].
    apply Forall_fmap, Forall_seq. intros j Hj. split; simpl; [lia|intros [? ?]; congruence].
Qed.

Lemma expected_groups_grouping : Grouping.is_grouping (flat_map G (seq 1 d)) expected_groups.
Proof using d_pos.
  pose proof farm_block_bounds as (H1 & H2 & H3 & _).
  split_and!; [apply expected_groups_items| |].
  - unfold expected_groups. apply Forall_app. split; [|constructor; [apply farm_group_wf|]];
      apply Forall_fmap, Forall_seq; intros k Hk; apply tour_group_wf; lia.
  - eapply StronglySorted_Sorted_weaken; [apply groups_ordered_adjacent|apply expected_groups_sorted].
Qed.

Lemma filter_farm_tour_days b m :
  (forall k, (b <= k < b + m)%nat -> ~ (a <= k < a + fl)%nat) -> List.filter is_farm (flat_map G (seq b m)) = [].
Proof.
  intros Hb. apply filter_none_in. intros x (k & Hk & Hx)%elem_of_flat_map_seq.
  apply (day_items_tour k); [by apply Hb|done].
Qed.

(** The farm items of a built itinerary, in order. *)
Lemma filter_farm_items : List.filter is_farm (flat_map G (seq 1 d)) = farm_item f start <$> seq a fl.
Proof using d_pos.
  pose proof farm_block_bounds as (H1 & H2 & H3 & _).
  rewrite seq_around_block, !flat_map_app, !List.filter_app.
  rewrite (flat_map_seq_single _ (farm_item f start) a) by apply day_items_in_farm.
  rewrite !filter_farm_tour_days by (intros; lia).
  rewrite filter_all_in; [by rewrite app_nil_r|].
  intros x (k & -> & _)%list_elem_of_fmap. reflexivity.
Qed.

(** The client's grouping of a built itinerary is [expected_groups]. *)
Lemma group_schedule_build : Grouping.group_schedule (flat_map G (seq 1 d)) = expected_groups.
Proof using d_pos.
  eapply Grouping.is_grouping_unique; [apply Grouping.group_schedule_is_grouping|apply expected_groups_grouping].
Qed.

End BuilderFacts.

(** The invariants of spec §3 on an itinerary whose farm is [f]: its
    days are exactly [1..total_days], each with an item, in order; the
    farm items fill one contiguous block of days and carry the farm's
    name and address; items of one day share a date; the summary's
    counts add up to [total_days]. *)
Definition itinerary_wf (f : farm_sel) (it : Builder.itinerary) : Prop :=
  let d := Builder.total_days it in
  let l := Builder.items it in
  (forall x, x ∈ l -> 1 <= day x <= d)%nat /\
  (forall k, 1 <= k <= d -> exists x, x ∈ l /\ day x = k)%nat /\
  StronglySorted (fun x y => day x <= day y)%nat l /\
  (exists a b, 1 <= a <= b /\ b <= d /\ forall x, x ∈ l ->
     (is_farm x = true <-> a <= day x <= b) /\
     (is_farm x = true -> name x = fs_name f /\ address x = fs_address f))%nat /\
  (forall x y, x ∈ l -> y ∈ l -> day x = day y -> date x = date y) /\
  (Builder.farm_days_count it + Builder.tour_days_count it = d)%nat.

Lemma build_wf id region f tours d start special :
  (1 <= d)%nat -> itinerary_wf f (Builder.build id region f tours d start special).
Proof.
  intros Hd. set (tis := option_list special ++ Builder.cluster tours). unfold itinerary_wf.
  cbn [Builder.build Builder.items Builder.farm_days_count Builder.tour_days_count Builder.total_days].
  fold tis. pose proof (farm_block_bounds d tis Hd) as (B1 & B2 & B3 & _).
  split_and!.
  - intros x (k & Hk & Hx)%elem_of_flat_map_seq. apply day_items_day in Hx. lia.
  - intros k Hk. destruct (Builder.day_items f start d tis k) as [|x l] eqn:E; [by apply day_items_nonempty in E|].
    exists x. split; [apply elem_of_flat_map_seq; exists k; split; [lia|rewrite E; left]|].
    apply (day_items_day f start d tis k). rewrite E. left.
  - apply flat_map_seq_sorted. apply day_items_day.
  - exists (Builder.farm_first d (length tis)), (Builder.farm_first d (length tis) + Builder.farm_len d (length tis) - 1)%nat.
    split_and!; try lia. intros x (k & Hk & Hx)%elem_of_flat_map_seq.
    pose proof (day_items_day _ _ _ _ _ _ Hx) as ->. destruct (day_items_farm _ _ _ _ _ _ Hx) as [Hf Hn].
    split; [|done]. rewrite Hf, in_farm_spec. lia.
  - intros x y (k & _ & Hx)%elem_of_flat_map_seq (j & _ & Hy)%elem_of_flat_map_seq Hxy.
    rewrite (day_items_date _ _ _ _ _ _ Hx), (day_items_date _ _ _ _ _ _ Hy).
    rewrite <-(day_items_day _ _ _ _ _ _ Hx), <-(day_items_day _ _ _ _ _ _ Hy), Hxy. done.
  - rewrite tour_days_length by done. lia.
Qed.

(** C35: every itinerary the builder produces, on a duration of at
    least one day, satisfies the invariants of spec §3 ([itinerary_wf]):
    days [1..total_days] each with an item and in order, one contiguous
    farm block carrying the chosen farm, one date per day, and
    [farm_days_count + tour_days_count = total_days]. *)
Theorem build_invariants id region f tours d start special :
  (1 <= d)%nat -> itinerary_wf f (Builder.build id region f tours d start special).
Proof. apply build_wf. Qed.

(** ** The special event opens the trip *)

Lemma farm_first_with_tours d n : (1 <= n)%nat -> (2 <= d)%nat -> Builder.farm_first d n = 2%nat.
Proof.
  intros Hn Hd. unfold Builder.farm_first, Builder.reserved.
  destruct (Nat.eqb_spec n 0); [lia|]. destruct (Nat.eqb_spec (Nat.min (d - 1) 3) 0); [lia|done].
Qed.

Lemma tour_days_first d n : (1 <= n)%nat -> (1 <= d)%nat ->
  Builder.tour_days (S d) n = 1%nat :: List.filter (fun k => negb (Builder.in_farm (S d) n k)) (seq 2 d).
Proof.
  intros Hn Hd. unfold Builder.tour_days. cbn [seq List.filter].
  unfold Builder.in_farm at 1. rewrite farm_first_with_tours by lia. done.
Qed.

(** With a special event and at least two days, the event is the first
    item: day 1, before any farm day and any chosen tour (spec §4.3). *)
Theorem special_event_first id region f tours d start ev :
  (2 <= d)%nat ->
  exists rest, Builder.items (Builder.build id region f tours d start (Some ev)) = Builder.tour_item start 1 ev :: rest.
Proof.
  intros Hd. destruct d as [|d]; [lia|].
  cbn [Builder.build Builder.items]. change (option_list (Some ev) ++ Builder.cluster tours) with (ev :: Builder.cluster tours).
  set (tis := ev :: Builder.cluster tours).
  assert (Hn : (1 <= length tis)%nat) by (simpl; lia).
  cbn [seq flat_map]. unfold Builder.day_items at 1. unfold Builder.in_farm at 1.
  rewrite farm_first_with_tours by lia. simpl.
  unfold Builder.assign. rewrite tour_days_first by lia. unfold tis at 2. simpl.
  eexists. reflexivity.
Qed.

(** C36: on the client, the table of a built itinerary
    ([group_schedule], src/public/frontend/app_show_v3/js/app.js) has
    one row per tour day and a single farm row: [1 + tour_days_count]
    groups, exactly one of them a farm group, which spans
    [farm_days_count] days and holds the itinerary's farm items. *)
Theorem build_table_groups id region f tours d start special :
  (1 <= d)%nat ->
  let it := Builder.build id region f tours d start special in
  let gs := Grouping.group_schedule (Builder.items it) in
  length gs = S (Builder.tour_days_count it) /\
  exists g, List.filter (fun g => String.eqb (Grouping.gtype g) farm_type) gs = [g] /\
    (Grouping.endDay g + 1 = Grouping.startDay g + Builder.farm_days_count it)%nat /\
    Grouping.gitems g = List.filter is_farm (Builder.items it).
Proof.
  intros Hd. set (tis := option_list special ++ Builder.cluster tours).
  cbn [Builder.build Builder.items Builder.farm_days_count Builder.tour_days_count].
  fold tis. pose proof (farm_block_bounds d tis Hd) as (B1 & B2 & B3 & _).
  rewrite (group_schedule_build f start d tis Hd), (filter_farm_items f start d tis Hd).
  unfold expected_groups. split.
  - rewrite length_app. simpl. rewrite !length_fmap, !length_seq, tour_days_length by done. lia.
  - exists (farm_group f start d tis). rewrite List.filter_app. simpl.
    rewrite !filter_none_in; [split_and!; simpl; [done|lia|done]|..];
      intros g (k & -> & _)%list_elem_of_fmap; reflexivity.
Qed.

(** ** Locality clustering (§4.4 step 4) *)

(** The tours of [l] with one locality stand next to each other. *)
Definition clustered (l : list tour_sel) : Prop :=
  forall i j k a b c, (i <= j <= k)%nat -> l !! i = Some a -> l !! j = Some b -> l !! k = Some c ->
  Builder.locality a = Builder.locality c -> Builder.locality b = Builder.locality a.

Local Abbreviation of_locality k := (fun t => String.eqb (Builder.locality t) k).
Local Abbreviation blocks ts ks := (flat_map (fun k => List.filter (of_locality k) ts) ks).

Lemma first_localities_fresh seen ts :
  NoDup (Builder.first_localities seen ts) /\ forall k, k ∈ Builder.first_localities seen ts -> k ∉ seen.
Proof.
  revert seen. induction ts as [|t ts IH]; intros seen; simpl; [split; [constructor|set_solver]|].
  case_bool_decide; [done|]. destruct (IH (Builder.locality t :: seen)) as [Hn Hs].
  split; [constructor; [intros Hk%Hs; set_solver|done]|].
  intros k [->|Hk]%elem_of_cons; [done|]. apply Hs in Hk. set_solver.
Qed.

Lemma first_localities_cover seen ts t :
  t ∈ ts -> Builder.locality t ∈ seen \/ Builder.locality t ∈ Builder.first_localities seen ts.
Proof.
  revert seen. induction ts as [|u ts IH]; intros seen Ht; [set_solver|cbn [Builder.first_localities]].
  case_bool_decide; apply elem_of_cons in Ht as [->|Ht].
  - by left.
  - by apply IH.
  - right. by apply elem_of_cons; left.
  - destruct (IH (Builder.locality u :: seen) Ht) as [[->|?]%elem_of_cons|?].
    + right. by apply elem_of_cons; left.
    + by left.
    + right. by apply elem_of_cons; right.
Qed.

(** Two filters on disjoint conditions give, up to order, the filter on
    their union. *)
Lemma filter_app_disj {A} (p q : A -> bool) l :
  (forall x, p x = true -> q x = false) ->
  List.filter p l ++ List.filter q l ≡ₚ List.filter (fun x => p x || q x) l.
Proof.
  intros Hpq. induction l as [|x l IH]; simpl; [done|].
  destruct (p x) eqn:Ep; [rewrite (Hpq x Ep); simpl; by f_equiv|].
  destruct (q x); simpl; [by rewrite <-Permutation_middle, IH|done].
Qed.

Lemma blocks_perm ts ks :
  NoDup ks -> blocks ts ks ≡ₚ List.filter (fun t => bool_decide (Builder.locality t ∈ ks)) ts.
Proof.
  induction 1 as [|k ks Hk Hks IH]; simpl.
  - rewrite filter_none_in; [done|]. intros t _. done.
  - rewrite IH, filter_app_disj.
    + apply Permutation_refl'. apply filter_ext. intros t.
      destruct (String.eqb_spec (Builder.locality t) k) as [->|Hne]; simpl.
      * symmetry. apply bool_decide_eq_true. set_solver.
      * apply bool_decide_ext. set_solver.
    + intros t ->%String.eqb_eq. by apply bool_decide_eq_false.
Qed.

Lemma filter_blocks ts ks k :
  NoDup ks -> List.filter (of_locality k) (blocks ts ks) =
              if bool_decide (k ∈ ks) then List.filter (of_locality k) ts else [].
Proof.
  induction 1 as [|k' ks Hk' Hks IH]; simpl; [done|].
  rewrite List.filter_app, IH. destruct (String.eqb_spec k k') as [->|Hne].
  - rewrite filter_filter_sub by done.
    rewrite (bool_decide_eq_true_2 (k' ∈ k' :: ks)) by (apply elem_of_cons; by left).
    rewrite (bool_decide_eq_false_2 (k' ∈ ks)) by done. apply app_nil_r.
  - rewrite filter_filter_disj.
    + simpl. rewrite (bool_decide_ext (k ∈ k' :: ks) (k ∈ ks)); [done|]. clear IH. set_solver.
    + intros t ->%String.eqb_eq. by apply String.eqb_neq.
Qed.

(** A block of one locality before tours of other localities keeps the
    tours clustered. *)
Lemma clustered_app_block l1 l2 k :
  (forall t, t ∈ l1 -> Builder.locality t = k) -> (forall t, t ∈ l2 -> Builder.locality t <> k) ->
  clustered l2 -> clustered (l1 ++ l2).
Proof.
  intros H1 H2 Hc i j k' a b c Hij Ha Hb Hc' Hac.
  apply lookup_app_Some in Ha as [Ha|[Hi Ha]], Hb as [Hb|[Hj Hb]], Hc' as [Hc'|[Hk Hc']];
    repeat match goal with H : l1 !! _ = Some _ |- _ => pose proof (lookup_lt_Some _ _ _ H); apply list_elem_of_lookup_2 in H end;
    try lia.
  - by rewrite (H1 a), (H1 b).
  - by rewrite (H1 a), (H1 b).
  - exfalso. apply (H2 c); [by eapply list_elem_of_lookup_2|]. rewrite <-Hac. by apply H1.
  - apply (Hc (i - length l1) (j - length l1) (k' - length l1) a b c); try done. lia.
Qed.

Lemma blocks_clustered ts ks : NoDup ks -> clustered (blocks ts ks).
Proof.
  induction 1 as [|k ks Hk Hks IH]; simpl.
  - intros i ? ? ? ? ? ? Ha. by rewrite lookup_nil in Ha.
  - apply (clustered_app_block _ _ k); [| |done].
    + by intros t [_ ->%String.eqb_eq]%elem_of_filter_list.
    + intros t (k' & Hk' & [_ ->%String.eqb_eq]%elem_of_filter_list)%elem_of_flat_map_list ->. done.
Qed.

Lemma cluster_perm ts : Builder.cluster ts ≡ₚ ts.
Proof.
  destruct (first_localities_fresh [] ts) as [Hn _]. unfold Builder.cluster.
  rewrite blocks_perm by done. rewrite filter_all_in; [done|].
  intros t Ht. apply bool_decide_eq_true. destruct (first_localities_cover [] ts t Ht); set_solver.
Qed.

(** §4.4 step 4: [cluster] reorders the tours without losing or
    repeating any, keeps the order of the tours of each locality, and
    puts the tours of one locality next to each other. *)
Theorem cluster_spec ts :
  Builder.cluster ts ≡ₚ ts /\ clustered (Builder.cluster ts) /\
  forall k, List.filter (of_locality k) (Builder.cluster ts) = List.filter (of_locality k) ts.
Proof.
  split; [apply cluster_perm|]. destruct (first_localities_fresh [] ts) as [Hn _]. unfold Builder.cluster. split.
  - by apply blocks_clustered.
  - intros k. rewrite filter_blocks by done. case_bool_decide as Hk; [done|].
    symmetry. apply filter_none_in. intros t Ht. apply String.eqb_neq. intros <-.
    destruct (first_localities_cover [] ts t Ht); set_solver.
Qed.

(** ** The API document's request: ten days of orchard stay in Gimje in
    October, asked on 2025-08-31, with one chosen tour. *)
Definition sample_farm : farm_sel := mk_farm_sel "김제 과수농장" "전북 김제시 금구면" "08:00".
Definition sample_tours : list tour_sel := [mk_tour_sel "벽골제" "전북 김제시 부량면"].
Definition sample_request : string := "10월에 열흘간 김제에서 과수원 체험하고 싶어".
Definition sample_today : Z := days_from_civil 2025 8 31.

(** ** Step 3 places every tour once, in order *)

Local Abbreviation spread ks ts := (imap (fun i t => (nth (Nat.min i (length ks - 1)) ks 0, t)) ts).
Local Abbreviation on_day A k := (snd <$> List.filter (fun p : nat * tour_sel => Nat.eqb p.1 k) A).

Lemma flat_map_ext_elem {A B} (F G : A -> list B) l :
  (forall x, x ∈ l -> F x = G x) -> flat_map F l = flat_map G l.
Proof.
  induction l as [|x l IH]; intros H; simpl; [done|].
  rewrite (H x), IH; [done| |left]. intros y Hy. apply H. by right.
Qed.

Lemma flat_map_filter_nil {A B} (F : A -> list B) (p : A -> bool) l :
  (forall x, x ∈ l -> p x = false -> F x = []) -> flat_map F (List.filter p l) = flat_map F l.
Proof.
  induction l as [|x l IH]; intros H; simpl; [done|].
  destruct (p x) eqn:E; simpl; rewrite IH; [done| |by rewrite (H x) by (done || left)|];
    intros y Hy; apply H; by right.
Qed.

Lemma spread_keys ks ts (p : nat * tour_sel) : ks <> [] -> p ∈ spread ks ts -> p.1 ∈ ks.
Proof.
  intros Hks (i & t & -> & _)%elem_of_lookup_imap. simpl. apply list_elem_of_In, nth_In.
  destruct ks; [done|]. simpl. lia.
Qed.

Lemma snd_spread ks (ts : list tour_sel) : snd <$> spread ks ts = ts.
Proof.
  rewrite fmap_imap, (imap_ext _ (const id)) by done. by rewrite imap_const, list_fmap_id.
Qed.

Lemma spread_tail k0 ds (ts : list tour_sel) :
  ds <> [] -> imap ((fun i t => (nth (Nat.min i (length (k0 :: ds) - 1)) (k0 :: ds) 0, t)) ∘ S) ts = spread ds ts.
Proof.
  intros Hds. apply imap_ext. intros i x _. destruct ds as [|k1 ds]; [done|]. simpl. by rewrite Nat.sub_0_r.
Qed.

(** Spreading a list over increasing days, the extra items on the last
    day, and reading the days back in order gives the list back. *)
Lemma spread_on_days ks (ts : list tour_sel) :
  ks <> [] -> StronglySorted lt ks -> flat_map (fun k => on_day (spread ks ts) k) ks = ts.
Proof.
  revert ks. induction ts as [|t ts IH]; intros ks Hks Hs.
  - simpl. clear. induction ks; simpl; congruence.
  - destruct ks as [|k0 ds]; [done|]. apply StronglySorted_inv in Hs as [Hs Hk0].
    destruct (decide (ds = [])) as [->|Hds].
    + cbn [flat_map]. rewrite app_nil_r, filter_all_in; [apply (snd_spread [k0] (t :: ts))|].
      intros p Hp. apply Nat.eqb_eq. apply spread_keys in Hp; [set_solver|done].
    + rewrite imap_cons, spread_tail by done. cbn [flat_map]. simpl (List.filter _ (_ :: _)).
      rewrite Nat.eqb_refl. cbn [fmap list_fmap snd]. rewrite <-app_comm_cons. f_equal.
      rewrite Forall_forall in Hk0. rewrite filter_none_in; simpl.
      * transitivity (flat_map (fun k => on_day (spread ds ts) k) ds); [|by apply IH].
        apply flat_map_ext_elem. intros k Hk.
        specialize (Hk0 k Hk).
        destruct (Nat.eqb_spec k0 k); [lia|done].
      * intros p Hp%spread_keys; [|done]. apply Nat.eqb_neq.
        intros Heq. specialize (Hk0 _ Hp). lia.
Qed.

(** §4.4 step 3: on a trip of two days or more, [assign] puts every
    tour (the special event included) on exactly one day, and reading
    the days in order gives the tours in their given order; the tours
    past the last tour day share it.  (On one day the farm fills the
    trip and no tour is placed.) *)
Theorem assign_places_all d tis :
  (2 <= d)%nat -> flat_map (Builder.day_tours (Builder.assign d tis)) (seq 1 d) = tis.
Proof.
  intros Hd. destruct tis as [|t ts].
  - unfold Builder.assign. simpl. clear. induction (seq 1 d); simpl; congruence.
  - set (days := Builder.tour_days d (length (t :: ts))).
    assert (Hne : days <> []).
    { assert (length days <> 0)%nat; [|by destruct days].
      unfold days. rewrite tour_days_length by lia. unfold Builder.farm_len, Builder.reserved. simpl.
      destruct (Nat.min_spec (d - 1) 3) as [[_ ->]|[_ ->]]; lia. }
    unfold Builder.day_tours, Builder.assign. fold days.
    rewrite <-(flat_map_filter_nil _ (fun k => negb (Builder.in_farm d (length (t :: ts)) k))).
    + fold days. apply spread_on_days; [done|]. unfold days, Builder.tour_days. apply StronglySorted_filter.
      rewrite <-(list_fmap_id (seq 1 d)). apply StronglySorted_seq_fmap. intros; unfold id; lia.
    + intros k _ Hk. rewrite filter_none_in; [done|]. intros p Hp%spread_keys; [|done]. apply Nat.eqb_neq. intros <-.
      unfold days, Builder.tour_days in Hp. apply elem_of_filter_list in Hp as [_ Hp]. congruence.
Qed.

(** A tour placed on day [k] is on a tour day. *)
Lemma day_tours_tour_day d tis k t :
  t ∈ Builder.day_tours (Builder.assign d tis) k -> Builder.in_farm d (length tis) k = false.
Proof.
  unfold Builder.day_tours, Builder.assign.
  intros (p & -> & [Hp Hk]%elem_of_filter_list)%list_elem_of_fmap. apply Nat.eqb_eq in Hk as <-.
  destruct (Builder.tour_days d (length tis)) as [|k0 ds] eqn:E.
  - apply elem_of_lookup_imap in Hp as (i & y & -> & _). simpl.
    replace (match Nat.min i 0 with 0 | _ => 0 end) with 0%nat by (by destruct (Nat.min i 0)).
    unfold Builder.in_farm, Builder.farm_first.
    apply andb_false_intro1, Nat.leb_gt. destruct (Nat.eqb _ 0); lia.
  - apply spread_keys in Hp; [|done]. rewrite <-E in Hp. unfold Builder.tour_days in Hp.
    apply elem_of_filter_list in Hp as [_ Hp]. by apply negb_true_iff.
Qed.

(** C18: no tour is dropped: on a trip of two days or more the built
    itinerary has, on some day of the trip, an item for the special
    event and one for every chosen tour. *)
Theorem build_keeps_tours id region f tours d start special t :
  (2 <= d)%nat -> t ∈ option_list special ++ tours ->
  exists k, (1 <= k <= d)%nat /\
    Builder.tour_item start k t ∈ Builder.items (Builder.build id region f tours d start special).
Proof.
  intros Hd Ht. set (tis := option_list special ++ Builder.cluster tours).
  assert (Ht' : t ∈ flat_map (Builder.day_tours (Builder.assign d tis)) (seq 1 d)).
  { rewrite assign_places_all by done. unfold tis. by rewrite cluster_perm. }
  apply elem_of_flat_map_seq in Ht' as (k & Hk & Hkt). exists k. split; [lia|].
  cbn [Builder.build Builder.items]. fold tis. apply elem_of_flat_map_seq. exists k. split; [lia|].
  unfold Builder.day_items. rewrite (day_tours_tour_day _ _ _ _ Hkt).
  destruct (Builder.day_tours _ k) as [|t0 ts0] eqn:E; [by apply elem_of_nil in Hkt|].
  change (Builder.tour_item start k t ∈ Builder.tour_item start k <$> (t0 :: ts0)).
  by apply list_elem_of_fmap_2.
Qed.

(** Two Gimje tours around a Jeonju tour: the Gimje tours are put
    together, and a ten-day trip visits them on its first and its ninth
    day, the Jeonju tour on its last. *)
Definition sample_mixed_tours : list tour_sel :=
  [mk_tour_sel "벽골제" "전북 김제시 부량면"; mk_tour_sel "한옥마을" "전북 전주시 완산구";
   mk_tour_sel "아리랑문학마을" "전북 김제시 죽산면"].

Example cluster_sample :
  Builder.cluster sample_mixed_tours =
    [mk_tour_sel "벽골제" "전북 김제시 부량면"; mk_tour_sel "아리랑문학마을" "전북 김제시 죽산면";
     mk_tour_sel "한옥마을" "전북 전주시 완산구"].
Proof. vm_compute. reflexivity. Qed.

Example cluster_build_sample :
  (fun x => (day x, name x)) <$> List.filter (fun x => negb (is_farm x))
    (Builder.items (Builder.build "itn-2" "김제시" sample_farm sample_mixed_tours 10
       (days_from_civil 2025 10 1) None)) =
    [(1%nat, "벽골제"); (9%nat, "아리랑문학마을"); (10%nat, "한옥마을")].
Proof. vm_compute. reflexivity. Qed.

Definition sample_build : Builder.itinerary :=
  Builder.build "itn-1" "김제시" sample_farm sample_tours 10 (days_from_civil 2025 10 1)
    (StartPeriod.special_event "김제시" 10).

Lemma build_invariants_witness : (1 <= 10)%nat /\ itinerary_wf sample_farm sample_build.
Proof. split; [lia|]. apply build_invariants. lia. Defined.

Lemma build_table_groups_witness :
  (1 <= 10)%nat /\ length (Grouping.group_schedule (Builder.items sample_build)) = 4%nat.
Proof.
  split; [lia|]. destruct (build_table_groups "itn-1" "김제시" sample_farm sample_tours 10
    (days_from_civil 2025 10 1) (StartPeriod.special_event "김제시" 10) ltac:(lia)) as [H _].
  unfold sample_build. rewrite H. vm_compute. reflexivity.
Defined.

(** The chosen tour of the API document's request is in its plan. *)
Lemma build_keeps_tours_witness :
  (2 <= 10)%nat /\ mk_tour_sel "벽골제" "전북 김제시 부량면" ∈ option_list (StartPeriod.special_event "김제시" 10) ++ sample_tours /\
  exists k, (1 <= k <= 10)%nat /\
    Builder.tour_item (days_from_civil 2025 10 1) k (mk_tour_sel "벽골제" "전북 김제시 부량면") ∈ Builder.items sample_build.
Proof.
  assert (Hin : mk_tour_sel "벽골제" "전북 김제시 부량면" ∈ option_list (StartPeriod.special_event "김제시" 10) ++ sample_tours)
    by (apply elem_of_app; right; left).
  split_and!; [lia|exact Hin|]. unfold sample_build. apply build_keeps_tours; [lia|exact Hin].
Defined.

Lemma clamp_range n : (1 <= Duration.clamp n <= 10)%nat.
Proof. unfold Duration.clamp. lia. Qed.

Lemma extract_duration_range text n : Duration.extract_duration text = Some n -> (1 <= n <= 10)%nat.
Proof.
  unfold Duration.extract_duration. destruct (List.find _ _) as [[w k]|].
  - intros [= <-]. apply clamp_range.
  - destruct (number_before _ _ _); simpl; [intros [= <-]; apply clamp_range|done].
Qed.

Lemma first_of_month_valid y m : (1 <= m <= 12)%Z -> valid_date y m 1.
Proof. intros Hm. split; [done|]. pose proof (days_in_month_bounds y m). lia. Qed.

(** Where [resolve_start] puts the start: never before today; on
    today when the text names no month in 1..12; otherwise today when
    the named month is the current one, else the 1st of the named month
    in the first year where it is still ahead (a year earlier, that day
    is already past). *)
Definition start_of_request (text : string) (today start : Z) : Prop :=
  (today <= start)%Z /\
  ((forall m, number_before "월" text None = Some m -> ~(1 <= m <= 12)%nat) -> start = today) /\
  forall m, number_before "월" text None = Some m -> (1 <= m <= 12)%nat ->
    let '(y, mo, _) := civil_from_days today in
    ((mo = Z.of_nat m /\ start = today) \/
     exists Y, civil_from_days start = (Y, Z.of_nat m, 1%Z) /\ (days_from_civil (Y - 1) (Z.of_nat m) 1 < today)%Z)%type.

Lemma resolve_start_spec text region today :
  start_of_request text today (fst (StartPeriod.resolve_start text region today)).
Proof.
  unfold start_of_request, StartPeriod.resolve_start. pose proof (civil_spec today) as Hc.
  destruct (civil_from_days today) as [[y mo] d] eqn:E. destruct Hc as (Hmo & Hd & Ht).
  assert (V : valid_date y mo d) by done.
  destruct (number_before _ _ _) as [m|]; [|split_and!; [simpl; lia|done|done]].
  destruct ((1 <=? m)%nat && (m <=? 12)%nat) eqn:Hm; cbn [fst]; [apply andb_true_iff in Hm as [Hm1 Hm2]; apply Nat.leb_le in Hm1, Hm2|].
  2: { split_and!; [lia|done|]. intros m' [= <-] Hb. apply andb_false_iff in Hm as [Hm|Hm]; apply Nat.leb_gt in Hm; lia. }
  assert (Hv : ~ (forall m', Some m = Some m' -> ~ (1 <= m' <= 12)%nat)) by (intros Hn; by apply (Hn m)).
  assert (Vm : forall Y, valid_date Y (Z.of_nat m) 1) by (intros; apply first_of_month_valid; lia).
  destruct (Z.ltb_spec mo (Z.of_nat m)) as [Hlt|Hge]; [|destruct (Z.eqb_spec mo (Z.of_nat m)) as [Heq|Hne]]; cbn [fst].
  - split_and!; [apply Z.lt_le_incl; rewrite <-Ht at 1; apply dfc_lt; [done|apply Vm|right; left; lia]|done|].
    intros m' [= <-] _. right. exists y. split; [by apply civil_dfc|].
    rewrite <-Ht. apply dfc_lt; [apply Vm|done|left; lia].
  - split_and!; [lia|done|]. intros m' [= <-] _. left. done.
  - split_and!; [apply Z.lt_le_incl; rewrite <-Ht at 1; apply dfc_lt; [done|apply Vm|left; lia]|done|].
    intros m' [= <-] _. right. exists (y + 1)%Z. split; [by apply civil_dfc|].
    replace (y + 1 - 1)%Z with y by lia. rewrite <-Ht. apply dfc_lt; [apply Vm|done|right; left; lia].
Qed.

Lemma build_dates id region f tours d start special x :
  x ∈ Builder.items (Builder.build id region f tours d start special) -> date x = Builder.date_of start (day x).
Proof.
  cbn [Builder.build Builder.items]. intros (k & _ & Hx)%elem_of_flat_map_seq.
  by rewrite (day_items_date _ _ _ _ _ _ Hx), (day_items_day _ _ _ _ _ _ Hx).
Qed.

(** C37: [generate_schedule] fails only without a farm, and then with
    [NoFarmSelectedError].  Otherwise the itinerary keeps the given id,
    lasts 1 to 10 days, satisfies the invariants of spec §3 for the
    chosen farm, and dates its days from the start the request asks
    for: never before [today], [today] when no month is named or the
    named month is the current one, else the 1st of the named month in
    its nearest future occurrence. *)
Theorem generate_schedule_spec id farm tours text region today :
  match Builder.generate_schedule id farm tours text region today with
  | inl e => e = Builder.NoFarmSelectedError /\ farm = None
  | inr it => exists f start, farm = Some f /\ start_of_request text today start /\
      (1 <= Builder.total_days it <= 10)%nat /\ itinerary_wf f it /\
      Builder.itinerary_id it = id /\
      (forall x, x ∈ Builder.items it -> date x = Builder.date_of start (day x))
  end.
Proof.
  unfold Builder.generate_schedule. destruct farm as [f|]; [|done].
  pose proof (resolve_start_spec text region today) as Hs.
  destruct (StartPeriod.resolve_start text region today) as [start special].
  set (d := default Duration.default_duration (Duration.extract_duration text)).
  assert (Hd : (1 <= d <= 10)%nat).
  { unfold d. destruct (Duration.extract_duration text) eqn:E; [by apply extract_duration_range in E|unfold Duration.default_duration; simpl; lia]. }
  simpl in Hs. exists f, start.
  split_and!; [done|done|simpl; lia|simpl; lia|apply build_wf; lia|done|apply build_dates].
Qed.

(** The request of the API document gives the ten-day October plan,
    opened by the Gimje festival. *)
Example generate_schedule_sample :
  Builder.generate_schedule "itn-1" (Some sample_farm) sample_tours sample_request "김제시" sample_today
  = inr sample_build.
Proof. vm_compute. reflexivity. Qed.

(** ** The reviser *)

Lemma is_farm_day_spec l k :
  Reviser.is_farm_day l k = true <-> exists x, x ∈ l /\ day x = k /\ is_farm x = true.
Proof.
  unfold Reviser.is_farm_day. rewrite existsb_exists.
  split; intros (x & Hx & H); exists x; rewrite list_elem_of_In in *;
    rewrite ?andb_true_iff, ?Nat.eqb_eq in *; tauto.
Qed.

Lemma elem_of_replace_day k new l x :
  x ∈ Reviser.replace_day k new l <-> (x ∈ l /\ day x <> k) \/ x ∈ new.
Proof.
  unfold Reviser.replace_day. rewrite !elem_of_app, !elem_of_filter_list, !Nat.ltb_lt.
  split; [intros [[? ?]|[?|[? ?]]]; [left; split; [done|lia]|by right|left; split; [done|lia]]|].
  intros [[Hx Hd]|Hn]; [|by right; left].
  destruct (Nat.lt_total (day x) k) as [?|[?|?]]; [left; done|done|right; right; done].
Qed.

(** Replacing day [k] leaves the items of every other day, in order,
    as they were. *)
Lemma filter_day_replace_day k new l j :
  j <> k -> Forall (fun x => day x = k) new ->
  List.filter (fun x => Nat.eqb (day x) j) (Reviser.replace_day k new l) = List.filter (fun x => Nat.eqb (day x) j) l.
Proof.
  intros Hjk Hn. unfold Reviser.replace_day. rewrite !List.filter_app.
  rewrite (filter_none_in _ new); last first.
  { intros x Hx. rewrite Forall_forall in Hn. rewrite (Hn x Hx). by apply Nat.eqb_neq. }
  destruct (Nat.lt_total j k) as [H|[H|H]]; [|done|].
  - rewrite (filter_filter_sub _ (fun x => day x <? k)), (filter_filter_disj _ (fun x => k <? day x)), !app_nil_r;
      [done|..]; intros x ->%Nat.eqb_eq; [apply Nat.ltb_ge|apply Nat.ltb_lt]; lia.
  - rewrite (filter_filter_disj _ (fun x => day x <? k)), (filter_filter_sub _ (fun x => k <? day x));
      [done|..]; intros x ->%Nat.eqb_eq; [apply Nat.ltb_lt|apply Nat.ltb_ge]; lia.
Qed.

Lemma replace_day_sorted k new l :
  StronglySorted (fun x y => day x <= day y)%nat l -> Forall (fun x => day x = k) new ->
  StronglySorted (fun x y => day x <= day y)%nat (Reviser.replace_day k new l).
Proof.
  intros Hl Hn. rewrite Forall_forall in Hn. unfold Reviser.replace_day.
  apply StronglySorted_app_2; [|by apply StronglySorted_filter|apply StronglySorted_app_2].
  - intros x y [_ Hx%Nat.ltb_lt]%elem_of_filter_list [Hy|[_ Hy%Nat.ltb_lt]%elem_of_filter_list]%elem_of_app;
      [rewrite (Hn y Hy)|]; lia.
  - intros x y Hx [_ Hy%Nat.ltb_lt]%elem_of_filter_list. rewrite (Hn x Hx). lia.
  - by apply (same_day_sorted _ k).
  - by apply StronglySorted_filter.
Qed.

Lemma farm_days_le d l : (Reviser.farm_days d l <= d)%nat.
Proof. unfold Reviser.farm_days. rewrite <-(length_seq d 1) at 2. apply filter_length_le. Qed.

(** A successful revision names a tour day of the itinerary, and either
    keeps the itinerary or gives that day a candidate. *)
Lemma revise_inv cands it fb it' :
  Reviser.revise cands it fb = inr it' ->
  exists k, Reviser.day_ref fb = Some k /\ (1 <= k <= Builder.total_days it)%nat /\
    Reviser.is_farm_day (Builder.items it) k = false /\
    (it' = it \/ exists c, it' = Reviser.revise_day c it k).
Proof.
  unfold Reviser.revise. intros Hr. destruct (Reviser.day_ref fb) as [k|]; [|discriminate].
  destruct (Nat.leb_spec 1 k), (Nat.leb_spec k (Builder.total_days it)), (Reviser.is_farm_day _ k) eqn:E3;
    simpl in Hr; try discriminate.
  exists k. split_and!; [done|lia|lia|done|].
  destruct (Reviser.next_candidate _ _) as [c|]; injection Hr as <-; [right; by exists c|by left].
Qed.

Lemma revise_day_wf f c it k :
  itinerary_wf f it -> (1 <= k <= Builder.total_days it)%nat ->
  Reviser.is_farm_day (Builder.items it) k = false -> itinerary_wf f (Reviser.revise_day c it k).
Proof.
  intros (Hb & Hc & Hs & (a & b & Hab & Hbd & Hf) & Hdt & _) Hk Hnf.
  unfold itinerary_wf, Reviser.revise_day.
  cbn [Builder.items Builder.total_days Builder.farm_days_count Builder.tour_days_count].
  set (l := Builder.items it) in *. set (d := Builder.total_days it) in *.
  set (y := mk_item k _ _ _ _ _).
  assert (Hy : forall x, x ∈ Reviser.replace_day k [y] l <-> (x ∈ l /\ day x <> k) \/ x = y).
  { intros x. by rewrite elem_of_replace_day, list_elem_of_singleton. }
  assert (Hka : ~ (a <= k <= b)%nat).
  { intros Hin. destruct (Hc k Hk) as (z & Hz & Hzk). apply not_true_iff_false in Hnf. apply Hnf, is_farm_day_spec.
    exists z. split_and!; [done|done|]. apply (Hf z Hz). lia. }
  split_and!.
  - intros x [[Hx _]| ->]%Hy; [by apply Hb|simpl; lia].
  - intros j Hj. destruct (decide (j = k)) as [->|Hjk]; [exists y; rewrite Hy; split; [by right|done]|].
    destruct (Hc j Hj) as (x & Hx & Hxj). exists x. rewrite Hy. split; [left; split; [done|lia]|done].
  - apply replace_day_sorted; [done|by repeat constructor].
  - exists a, b. split_and!; [lia|lia|lia|]. intros x [[Hx _]| ->]%Hy; [by apply Hf|].
    split; [split; [discriminate|simpl; lia]|discriminate].
  - intros x z [[Hx Hxk]| ->]%Hy [[Hz Hzk]| ->]%Hy Hxz; [by apply Hdt|simpl in *; lia|simpl in *; lia|done].
  - pose proof (farm_days_le d (Reviser.replace_day k [y] l)). lia.
Qed.

(** C38: a revision changes one day only.  When the feedback names day
    [k] and the revision succeeds, day [k] held no farm item, the id and
    the length are kept, and the items of every other day, in order,
    are those of the original itinerary: the farm block and the other
    tour days are left as they were. *)
Theorem revise_other_days cands it fb it' k :
  Reviser.day_ref fb = Some k -> Reviser.revise cands it fb = inr it' ->
  Builder.itinerary_id it' = Builder.itinerary_id it /\ Builder.total_days it' = Builder.total_days it /\
  Reviser.is_farm_day (Builder.items it) k = false /\
  forall j, j <> k ->
    List.filter (fun x => Nat.eqb (day x) j) (Builder.items it') = List.filter (fun x => Nat.eqb (day x) j) (Builder.items it).
Proof.
  intros Hk Hr. destruct (revise_inv cands it fb it' Hr) as (k' & Hk' & Hrange & Hnf & [->|(c & ->)]);
    rewrite Hk in Hk'; injection Hk' as <-; [done|].
  split_and!; [done|done|done|]. intros j Hj. apply filter_day_replace_day; [done|by repeat constructor].
Qed.

(** C39: revision preserves the invariants of spec §3: a revised
    well-formed itinerary is well formed for the same farm. *)
Theorem revise_preserves_wf f cands it fb it' :
  itinerary_wf f it -> Reviser.revise cands it fb = inr it' -> itinerary_wf f it'.
Proof.
  intros Hwf Hr. destruct (revise_inv cands it fb it' Hr) as (k & _ & Hk & Hnf & [->|(c & ->)]); [done|].
  by apply revise_day_wf.
Qed.

(** ** The re-ranking of candidates *)

Lemma find_app {A} (p : A -> bool) l1 l2 :
  List.find p (l1 ++ l2) = match List.find p l1 with Some x => Some x | None => List.find p l2 end.
Proof. induction l1 as [|x l1 IH]; simpl; [done|]. by destruct (p x). Qed.

Lemma find_filter {A} (p q : A -> bool) l :
  List.find p (List.filter q l) = List.find (fun x => q x && p x) l.
Proof. induction l as [|x l IH]; simpl; [done|]. destruct (q x); simpl; [|done]. by rewrite IH. Qed.

Lemma find_filter_negb {A} (p q : A -> bool) l :
  List.find (fun x => q x && p x) l = None -> List.find p (List.filter (fun x => negb (q x)) l) = List.find p l.
Proof.
  induction l as [|x l IH]; simpl; [done|].
  destruct (q x); simpl; destruct (p x); simpl; try done; intros H; by apply IH.
Qed.

(** Revision re-ranks the candidates for the day's locality: the new
    item is the best-ranked unused candidate in a locality of the day
    when there is one, otherwise the best-ranked unused candidate. *)
Theorem rerank_choice k cands l :
  Reviser.next_candidate (Reviser.rerank k cands l) l =
    match List.find (fun c => Reviser.local_to k l c && Reviser.unused l c) cands with
    | Some c => Some c
    | None => Reviser.next_candidate cands l
    end.
Proof.
  unfold Reviser.next_candidate, Reviser.rerank. rewrite find_app, find_filter.
  destruct (List.find _ cands) eqn:E; [done|]. by apply find_filter_negb.
Qed.

Theorem rerank_prefers_local k cands l c :
  Reviser.next_candidate (Reviser.rerank k cands l) l = Some c ->
  c ∈ cands /\ Reviser.unused l c = true /\
  ((exists c', c' ∈ cands /\ Reviser.unused l c' = true /\ Reviser.local_to k l c' = true) ->
   Reviser.local_to k l c = true).
Proof.
  rewrite rerank_choice. destruct (List.find _ cands) as [c1|] eqn:E; intros H.
  - injection H as <-. apply find_some in E as [Hin [Hl Hu]%andb_true_iff].
    by rewrite <-list_elem_of_In in Hin.
  - apply find_some in H as [Hin Hu]. rewrite <-list_elem_of_In in Hin. split_and!; [done|done|].
    intros (c' & Hc' & Hu' & Hl'). rewrite list_elem_of_In in Hc'.
    pose proof (find_none _ _ E c' Hc') as H'. cbv beta in H'. by rewrite Hl', Hu' in H'.
Qed.

(** ** Feedback on the sample plan: day 1 (the festival) is replaced by
    the first candidate not yet in the plan; day 3 is a farm day. *)
Definition sample_cands : list tour_sel :=
  [mk_tour_sel "벽골제" "전북 김제시 부량면"; mk_tour_sel "아리랑문학마을" "전북 김제시 죽산면"].
Definition sample_feedback : string := "첫째날 관광지 바꿔줘".

Definition sample_revised : Builder.itinerary :=
  Reviser.revise_day (mk_tour_sel "아리랑문학마을" "전북 김제시 죽산면") sample_build 1.

Lemma sample_day_ref : Reviser.day_ref sample_feedback = Some 1%nat.
Proof. vm_compute. reflexivity. Qed.

Lemma sample_revise : Reviser.revise sample_cands sample_build sample_feedback = inr sample_revised.
Proof. vm_compute. reflexivity. Qed.

Lemma revise_other_days_witness :
  Reviser.day_ref sample_feedback = Some 1%nat /\
  Reviser.revise sample_cands sample_build sample_feedback = inr sample_revised /\
  List.filter (fun x => Nat.eqb (day x) 9) (Builder.items sample_revised)
  = List.filter (fun x => Nat.eqb (day x) 9) (Builder.items sample_build).
Proof.
  split_and!; [apply sample_day_ref|apply sample_revise|].
  destruct (revise_other_days sample_cands sample_build sample_feedback sample_revised 1 sample_day_ref sample_revise)
    as (_ & _ & _ & H).
  apply H. lia.
Defined.

Lemma revise_preserves_wf_witness :
  itinerary_wf sample_farm sample_build /\
  Reviser.revise sample_cands sample_build sample_feedback = inr sample_revised /\
  itinerary_wf sample_farm sample_revised.
Proof.
  assert (Hwf : itinerary_wf sample_farm sample_build) by (apply build_wf; lia).
  split_and!; [exact Hwf|apply sample_revise|].
  apply (revise_preserves_wf sample_farm sample_cands sample_build sample_feedback); [exact Hwf|apply sample_revise].
Defined.

Example revise_farm_day_sample :
  Reviser.revise sample_cands sample_build "셋째날 농장 말고" = inl Builder.FeedbackTargetInvalidError.
Proof. vm_compute. reflexivity. Qed.

(** Feedback on the festival day, with a Jeonju tour ranked above a
    Gimje one: the Gimje tour, in the festival's locality, is chosen. *)
Definition sample_mixed_cands : list tour_sel :=
  [mk_tour_sel "한옥마을" "전북 전주시 완산구"; mk_tour_sel "아리랑문학마을" "전북 김제시 죽산면"].

Lemma rerank_prefers_local_witness :
  (Reviser.next_candidate (Reviser.rerank 1 sample_mixed_cands (Builder.items sample_build)) (Builder.items sample_build)
    = Some (mk_tour_sel "아리랑문학마을" "전북 김제시 죽산면")) /\
  Reviser.local_to 1 (Builder.items sample_build) (mk_tour_sel "아리랑문학마을" "전북 김제시 죽산면") = true.
Proof.
  assert (H : Reviser.next_candidate (Reviser.rerank 1 sample_mixed_cands (Builder.items sample_build))
                (Builder.items sample_build) = Some (mk_tour_sel "아리랑문학마을" "전북 김제시 죽산면"))
    by (vm_compute; reflexivity).
  split; [exact H|]. apply (rerank_prefers_local _ _ _ _ H).
  exists (mk_tour_sel "아리랑문학마을" "전북 김제시 죽산면"). split_and!; [right; left|vm_compute; reflexivity..].
Defined.

Example revise_local_sample :
  Reviser.revise sample_mixed_cands sample_build sample_feedback =
    inr (Reviser.revise_day (mk_tour_sel "아리랑문학마을" "전북 김제시 죽산면") sample_build 1).
Proof. vm_compute. reflexivity. Qed.
